(* ===== verification/_CoqProject ===== *)
-Q . S2P
Prelude.v
PyStr.v
PyVal.v
Template.v
Effects.v
Logic.v
Tavily.v
Regex.v
Firecrawl.v
Schemas.v
ChatChain.v
AnalysisChain.v
Research.v
Response.v
Protocol.v
Concurrent.v
FanOut.v
Orchestrator.v
Main.v
Endpoint.v
