(* ===== verification/Prelude.v ===== *)
(** * Travel research backend: a verification development

    The program is a FastAPI backend (Python).  Its core is the research
    pipeline of [src/backend/app/routes/research.py]: a query is sent to
    the Tavily search service, the hits are normalised, the first three are
    scraped through Firecrawl, image references are pulled out of the scraped
    markdown with a regular expression, a prompt is built and sent to a
    language model, the image list is filtered by the query's keywords, and a
    response record is assembled.  Any exception on the way is turned into one
    HTTP 500 error, except that a failing scrape is absorbed by the scraper.

    ** Files, in dependency order

    - [Prelude] (this file): the Python string type (a list of Unicode code
      points) with a literal notation that decodes UTF-8 at parsing time,
      exceptions as values, the error monad [result] with its notation, the
      shared tactics and the hint database [py], list lemmas the components
      share, [rmapM] for list comprehensions that may raise.
    - [PyStr]: the [str] methods the sources call ([lower], [split], the
      substring test [in], slicing, [join]) with their specifications;
      [str.lower] is the interface [Unicode].
    - [PyVal]: dynamically typed values ([pyval]: None, booleans, integers,
      floats, strings, lists, dictionaries) and the operations the sources
      apply to them ([dict.get], [in], subscripts, [len], iteration,
      slices), each with the exception Python raises on a value of the
      wrong shape; induction on nested values and their decidable
      equality; the interface [Runtime] for [str(v)], [json.loads],
      [float(text)] and the text of a validation error.
    - [Template]: the prompt templates of the chains: reading a format
      string with placeholders and doubled braces, and formatting it with
      the values of an input; values are inserted as they are.  The
      printer [print_pieces] writes a template from its pieces: reading
      undoes writing on grouped pieces with proper names and writing
      undoes reading on every template.
    - [Effects]: the settings the sources read and the calls to the
      outside world (the construction of the two clients, search, scrape,
      loading and invoking the model, the clock, [print]) as events; a
      program is a
      tree of calls ([prog]) whose continuations receive a value or an
      exception, so that [try]/[except] is a function on programs; [run]
      executes a program against an environment given as a state machine
      and returns outcome, log of calls and final state; [prog_equiv]
      identifies programs with the same calls and reactions.
    - [Logic]: postconditions of programs.  [post_under C] holds on every
      path on which the services answer as the contract [C] allows; [post]
      assumes nothing.  Rules for sequence, [try]/[except], a call, a loop
      with an invariant; soundness for every run against an environment
      that honours the contract ([post_under_run], [post_run]); under a
      contract that fixes every answer ([scripted]) the postcondition is
      the outcome of the one run.  An answer is [civil] when it raises
      nothing but an [Exception] (no interrupt), a contract [polite] when
      it allows civil answers only, a program [tame] when it then raises
      nothing but an [Exception] itself; [tame] is closed under the
      constructs of the sources.
    - [Tavily]: [services/tavily_service.py].  Module [TavilyService] has
      [search_travel_research] and [format_results]; the theorems give the
      exact domain and result of the normaliser, the bound of 500 on the
      content, the cases where it raises, and the single call of the search.
    - [Regex]: the regular expression of the scraper.  A reader of pattern
      texts, a backtracking matcher for the constructs the pattern uses,
      [re.findall], the direct scanner [md_images]; the theorems show that
      the reader never lacks fuel, that the matcher returns the first
      match of the search with Python's priorities and that a lazy star
      takes as few characters as it can, that matcher and scanner agree
      on every text and that extraction undoes rendering.
    - [Firecrawl]: [services/firecrawl_service.py].  [_to_dict] with its
      three conversions, module [FirecrawlService] with [scrape]; the
      theorems give the single call, the outcome for each shape of answer,
      that no [Exception] escapes, that [scrape] always returns in a
      civil environment, and the shape of what it returns, stated by the
      keys of the dictionary ([scrape_result]: the three keys of a
      success or the two of a failure, ["image_urls"] in both).
    - [Schemas]: [models/schemas.py], every model as a module with its
      record [t]; the models of the research endpoint ([ResearchRequest],
      [ResearchResult], [ResearchResponse]) and the two other requests
      with validating constructors [new], [TravelAnalysis] with the
      validation of a parsed JSON value.
    - [ChatChain]: [chains/chat_chain.py].  The system messages, the chain
      and [get_chat_response] (module [ChatChain]).
    - [AnalysisChain]: [chains/analysis_chain.py].  The prompts, the chain
      with its parser (interface [OutputParser]) and
      [analyze_travel_document] with its fallback (module [AnalysisChain]);
      the theorems give its calls and outcome in every environment, that
      it absorbs the exceptions of the model and of the parser, that it
      always answers when the model loads and [print] works, and the
      bound on the fallback's summary.
    - [Research]: [routes/research.py].  Module [ResearchRoute] has the
      handler [search_travel_research]; [research_spec] is its typed
      specification.  The theorems show that the handler refines the
      specification, the order and number of its calls in every run, the
      status of every failure, the bounds of the image filter, and that
      the scraped text never reaches the model.
    - [Response]: the answer to a request as a function of what the
      services answer.  In a scenario ([serve]) the handler ends with
      [response_of], computed on lists by [absorb_all]: all hits are
      sources, the first three with the first image of their pages; a
      page that cannot be scraped contributes nothing.  When the services
      are up ([up]) every request is answered.  The state of the loop
      satisfies [state_ok] after any number of iterations.
    - [Protocol]: the state machine of the orchestrator (relation [step]
      over [phase], decided by [next]); the handler conforms to it in
      every run, every transition decreases [remaining], so a request
      makes at most ten calls, and no request constructs a client.
    - [Concurrent]: the fan-out of the scrape loop the specification
      allows: merging the contributions of the tasks in the order of the
      sources gives the state the loop of the handler ends with when it
      is run against a provider that answers each address with its page,
      in any other order the same state up to the order of the images
      (an equivalence on states with its [Proper] instances).
    - [FanOut]: the same fan-out as tasks that are scheduled: a pool of
      programs sharing the environment, a schedule giving the turns, a
      task suspended at each of its calls.  The loop of the handler is
      the pool under the schedule that runs the tasks one after the
      other, in every environment; when the answers of the services do
      not depend on the calls made before, every schedule that lets the
      tasks end gives the outcome of the loop and each task makes the
      calls of the loop body; otherwise the schedule shows.
    - [Orchestrator]: the handler against the interface of its services
      (specification, section 9).  Class [Services] holds the four
      functions the handler calls, class [ServicesOk] the laws it relies
      on; [research_with] is the handler over an interface.  From the laws
      alone: the orchestrator refines its typed specification, it ends
      with a response or the error of status 500 in a civil environment,
      and no scrape is terminal.  The services of the modules keep the
      laws and give back the handler of the source; [stub_services]
      answers from tables, without any remote call.
    - [Main]: [main.py] and the router of [routes/research.py]: the
      application as the record of its configuration and endpoints, the
      choice of an endpoint, the import of the module, which constructs
      the two clients, and the root endpoint.

    - [Endpoint]: the research endpoint as its client sees it: the
      request is built from the body before the handler runs, the outcome
      of the handler becomes a status.  The framework is not code of the
      repository: that a request out of bounds is answered 422 before
      the handler runs is how it is modelled, after the declaration of
      the handler; what the theorems take from the code is which requests
      are out of bounds and what the handler answers to the others, the
      response (200) or one error object (500).

    ** Modelling conventions

    - A Python [str] is a list of code points ([N]); [len], slicing and the
      characters a regular expression sees are by code point, as in CPython.
      Literals are written ["..."%py]; the notation decodes the UTF-8 bytes
      of the source text into code points when the file is parsed, so the
      terms hold plain lists.
    - Fallible code returns [result A = exn + A]; an exception is a value
      carrying its class and the text [str(e)] gives.  The class
      [BaseException] stands for the exceptions that [except Exception] does
      not catch (KeyboardInterrupt and the like).
    - Data that comes from a remote service is dynamically typed and is
      modelled by [pyval]; every operation on it says which exception
      Python raises when the value has the wrong shape.  A float is a
      binary64 value ([spec_float]).
    - Code that calls a service is a program ([prog]); the services are
      the environment and may answer anything.  Theorems are stated for
      every environment ([run h p w] for all [h] and [w]) or for every
      answer ([post]); those that need the services to behave say so with
      a contract ([honours h C]), in the manner of the specification of
      external calls in a program logic.
    - A list or dictionary the code mutates is a field of an explicit
      state ([Research.state]); the dictionaries of [formatted_results]
      are shared with the slice the loop iterates over, so the assignment
      [r["image_url"] = ...] updates the list at the position of [r].
    - Library functions whose full behaviour is outside the sources are
      interfaces (classes [Unicode], [Runtime] and [OutputParser]) that
      state what the development relies on; [ascii_unicode], [ref_runtime]
      and [ref_parser] implement them so that the examples run.
    - Records, values and the answers of the services have decidable
      equality ([EqDecision] instances), predicates that are tested have
      [Decision] instances, so that examples are closed by computation.
    - Where a component uses another, the interface between them is a
      class with a class of laws ([Orchestrator.Services],
      [Orchestrator.ServicesOk]): the theorems of the user are proved for
      every implementation that keeps the laws, and the implementation of
      the sources is shown to keep them.

    ** Bounds and fuel

    No definition that models code takes fuel but [Regex.parse_from],
    whose fuel is the length of the pattern (each step consumes a
    character: [Regex.parse_fuel] shows that any larger fuel gives the
    same result), and [PyStr.digits_of], whose fuel is one more than the
    binary logarithm of the number, which bounds the number of its decimal
    digits ([PyStr.digits_of_spec]: with this fuel the result is the
    decimal digits of the number).  A program is a finite tree: the loops of the sources
    run over lists, and [Protocol.research_bounded_calls] bounds the calls
    of a request by ten.  A schedule of [FanOut] is a finite list of
    turns; a task of the scrape loop makes at most two calls
    ([FanOut.scrape_task_bounded]), so two turns for each of the three
    tasks let the pool end, and turns beyond are lost.  The matcher, the scanners and the reader of templates
    recurse on the text; the loops of the sources recurse on the list they
    iterate over.  The bounds of the program are the constants of the
    sources: 500 characters of content, 3 scrapes, 5 images, a query of 3
    to 200 characters, 1 to 10 results, 200 characters of an exception in
    a fallback analysis.

    ** What is not modelled

    The framework behind the application (ASGI, the documentation
    endpoints FastAPI adds, the enforcement of CORS, the serialisation of
    the response): [Main] records what the sources give it.  The
    configuration module [app.config] and the routers of [health] and
    [analysis], which are not among the sources: the settings are a record
    of the attributes read, the routers are parameters, loading the model
    is a call.  The remote services themselves (they are the environment).
    The conversions the framework applies to the fields of a JSON body
    that are not of their declared types ([Endpoint] takes the fields
    absent or typed), the reading of JSON by the output parser and the
    text of its format instructions (interface), template placeholders
    other than plain names.  The order in which a dictionary yields its
    keys: a dictionary is a finite map, and the sources iterate over a
    dictionary only where the order cannot matter (a payload whose
    results are a dictionary fails at its first key, whichever it is)
    or on a path that no scrape result takes (a dictionary of images).  The code
    is sequential: [Concurrent] and [FanOut] are about the fan-out the
    specification allows, not about threads of the program; a task is
    suspended at its calls only, and the time a call takes, deadlines
    and cancellation are not modelled (the specification asks for none).
*)

From stdpp Require Export base list option numbers.
From Stdlib Require Import Strings.Byte.

#[global] Open Scope N_scope.

(** ** Python strings *)

(** A code point.  Python's are below 0x110000; nothing here depends on
    the bound. *)
Abbreviation codepoint := N (only parsing).

(** [str]: a sequence of code points. *)
Abbreviation pystr := (list N) (only parsing).

Definition pystr_t : Type := list N.

(** The carrier of the literal notation: the parser builds one of these
    from the bytes of the literal. *)
Inductive pylit : Type :=
| pylit_nil
| pylit_cons (c : N) (t : pylit).

(** Number of continuation bytes announced by a UTF-8 lead byte, with the
    payload bits of the lead byte. *)
Definition utf8_lead (b : N) : nat * N :=
  if b <? 0x80 then (0%nat, b)
  else if b <? 0xE0 then (1%nat, b - 0xC0)
  else if b <? 0xF0 then (2%nat, b - 0xE0)
  else (3%nat, b - 0xF0).

(** Reads [n] continuation bytes into the accumulator. *)
Fixpoint utf8_cont (n : nat) (acc : N) (bs : list N) : N * list N :=
  match n, bs with
  | S n', b :: bs' => utf8_cont n' (acc * 64 + (b - 0x80)) bs'
  | _, _ => (acc, bs)
  end.

(** UTF-8 decoding of a byte sequence (the text of a source literal). *)
Fixpoint utf8_decode (fuel : nat) (bs : list N) : list N :=
  match fuel, bs with
  | S fuel', b :: bs' =>
      let '(n, hi) := utf8_lead b in
      let '(c, rest) := utf8_cont n hi bs' in
      c :: utf8_decode fuel' rest
  | _, _ => []
  end.

Fixpoint pylit_of_list (l : list N) : pylit :=
  match l with
  | [] => pylit_nil
  | c :: l' => pylit_cons c (pylit_of_list l')
  end.

Definition pylit_parse (bs : list byte) : pylit :=
  pylit_of_list
    (utf8_decode (length bs) (map (fun b => N.of_nat (Byte.to_nat b)) bs)).

Definition pylit_print (p : pylit) : option (list byte) := None.

Declare Scope py_scope.
Delimit Scope py_scope with py.

#[warnings="-via-type-mismatch,-via-type-remapping"]
String Notation pystr_t pylit_parse pylit_print
  (via pylit mapping [[nil] => pylit_nil, [cons] => pylit_cons]) : py_scope.

(** ** Exceptions as values *)

(** The exception classes the model distinguishes.  [BaseException] is an
    exception that is not an [Exception] (so [except Exception] lets it
    through); every other class is a subclass of [Exception]. *)
Inductive exn_class : Type :=
| BaseException
| Exception
| TypeError
| AttributeError
| KeyError
| ValueError
| IndexError
| ValidationError.

(** An exception object: a Python exception with the text [str(e)] returns,
    or FastAPI's [HTTPException] with its status code and detail. *)
Inductive exn : Type :=
| PyExc (cls : exn_class) (msg : pystr)
| HTTPException (status_code : Z) (detail : pystr).

#[export] Instance exn_class_eq_dec : EqDecision exn_class.
Proof. solve_decision. Defined.

#[export] Instance exn_eq_dec : EqDecision exn.
Proof. solve_decision. Defined.

(** [isinstance(e, Exception)]: what an [except Exception] clause catches. *)
Definition is_Exception (e : exn) : bool :=
  match e with
  | PyExc BaseException _ => false
  | _ => true
  end.

(** ** The error monad *)

Definition result (A : Type) : Type := (exn + A)%type.

Declare Scope res_scope.
Delimit Scope res_scope with res.
Bind Scope res_scope with result.

Abbreviation Ok := (@inr exn _).
Abbreviation Err := (@inl exn _).

Definition rbind {A B} (m : result A) (f : A -> result B) : result B :=
  match m with
  | inl e => inl e
  | inr a => f a
  end.

Notation "x <- m ;; k" := (rbind m (fun x => k%res))
  (at level 100, m at next level, right associativity) : res_scope.

Definition is_Ok {A} (r : result A) : Prop := exists a, r = Ok a.
Definition is_Err {A} (r : result A) : Prop := exists e, r = Err e.

#[export] Instance is_Ok_dec {A} (r : result A) : Decision (is_Ok r).
Proof.
refine (match r with inr a => left _ | inl _ => right _ end);
  unfold is_Ok; [intros [? ?]; discriminate | eauto].
Defined.

#[export] Instance is_Err_dec {A} (r : result A) : Decision (is_Err r).
Proof.
refine (match r with inl e => left _ | inr _ => right _ end);
  unfold is_Err; [eauto | intros [? ?]; discriminate].
Defined.

(** ** Tactics and hints *)

Create HintDb py discriminated.
Create Rewrite HintDb py.

(** Case analysis on the scrutinee of the first [match] or [if] of the goal. *)
Ltac case_goal :=
  match goal with
  | |- context [match ?x with _ => _ end] => destruct x eqn:?
  end.

(** Inverts equations between results and options in the context. *)
Ltac inv_res :=
  repeat match goal with
  | H : inr _ = inr _ |- _ => injection H as H
  | H : inl _ = inl _ |- _ => injection H as H
  | H : inl _ = inr _ |- _ => discriminate H
  | H : inr _ = inl _ |- _ => discriminate H
  | H : Some _ = Some _ |- _ => injection H as H
  | H : Some _ = None |- _ => discriminate H
  | H : None = Some _ |- _ => discriminate H
  end; subst.

(** ** Lemmas on [result] *)

Lemma rbind_Ok {A B} (a : A) (f : A -> result B) : rbind (Ok a) f = f a.
Proof. reflexivity. Qed.

Lemma rbind_Err {A B} (e : exn) (f : A -> result B) : rbind (Err e) f = Err e.
Proof. reflexivity. Qed.

Lemma rbind_assoc {A B C} (m : result A) (f : A -> result B) (g : B -> result C) :
  rbind (rbind m f) g = rbind m (fun a => rbind (f a) g).
Proof. by destruct m. Qed.

Lemma rbind_inv_Ok {A B} (m : result A) (f : A -> result B) (b : B) :
  rbind m f = Ok b <-> exists a, m = Ok a /\ f a = Ok b.
Proof.
destruct m as [e|a]; simpl; split.
- discriminate.
- intros (a & Ha & _); discriminate.
- eauto.
- by intros (a' & [= <-] & Hf).
Qed.

Lemma rbind_map_Err {A B} (m : result A) (g : A -> B) (e : exn) :
  rbind m (fun a => Ok (g a)) = Err e <-> m = Err e.
Proof. destruct m; simpl; split; intros H; by inv_res. Qed.

Lemma rbind_inv_Err {A B} (m : result A) (f : A -> result B) (e : exn) :
  rbind m f = Err e <-> m = Err e \/ exists a, m = Ok a /\ f a = Err e.
Proof.
destruct m as [e'|a]; simpl; split.
- intros [= ->]. by left.
- intros [[= ->]|(a & H & _)]; [done | discriminate].
- intros H. right. eauto.
- intros [H|(a' & [= <-] & H)]; [discriminate | done].
Qed.

Lemma is_Ok_Err_excl {A} (r : result A) : is_Ok r -> is_Err r -> False.
Proof. intros [a ->] [e He]; discriminate. Qed.

Lemma is_Ok_or_Err {A} (r : result A) : is_Ok r \/ is_Err r.
Proof. destruct r; [right|left]; unfold is_Ok, is_Err; eauto. Qed.

#[export] Hint Rewrite @rbind_Ok @rbind_Err : py.
#[export] Hint Rewrite @length_take @length_app @length_map : py.

(** ** Shared list lemmas *)

Section lists.
Context {A : Type}.
Implicit Types (l k : list A) (n m : nat).

Lemma take_length_le l n : (length (take n l) <= n)%nat.
Proof. rewrite length_take; lia. Qed.

Lemma take_elem_of l n x : x ∈ take n l -> x ∈ l.
Proof. intros H; eapply subseteq_take; exact H. Qed.

Lemma take_filter_length (P : A -> Prop) `{!forall x, Decision (P x)} l n :
  (length (take n (filter P l)) <= n `min` length l)%nat.
Proof.
rewrite length_take. pose proof (length_filter P l). lia.
Qed.

End lists.

(** ** A list built element by element, stopping at the first exception *)

Fixpoint rmapM {A B} (f : A -> result B) (l : list A) : result (list B) :=
  match l with
  | [] => Ok []
  | x :: l' => (y <- f x ;; ys <- rmapM f l' ;; Ok (y :: ys))%res
  end.

Section rmapM.
Context {A B : Type} (f : A -> result B).

Lemma rmapM_Ok_inv l l' :
  rmapM f l = Ok l' <-> Forall2 (fun x y => f x = Ok y) l l'.
Proof.
revert l'. induction l as [|x l IH]; intros l'; simpl.
- split; [by intros [= <-]|by intros ->%Forall2_nil_inv_l].
- split.
  + intros (y & Hy & (ys & Hys & [= <-])%rbind_inv_Ok)%rbind_inv_Ok.
    constructor; [done|by apply IH].
  + intros (y & ys & Hy & Hys & ->)%Forall2_cons_inv_l.
    apply IH in Hys. by rewrite Hy, Hys.
Qed.

Lemma rmapM_length l l' : rmapM f l = Ok l' -> length l' = length l.
Proof. intros H%rmapM_Ok_inv. symmetry. by eapply Forall2_length. Qed.

Lemma rmapM_Err_inv l e :
  rmapM f l = Err e -> exists x, x ∈ l /\ f x = Err e.
Proof.
induction l as [|x l IH]; simpl; [done|].
destruct (f x) as [e'|y] eqn:Hx; simpl.
- intros [= ->]. exists x. split; [left|done].
- destruct (rmapM f l) as [e'|ys]; simpl; [|done].
  intros [= ->]. destruct IH as (x' & ? & ?); [done|].
  exists x'. split; [by right|done].
Qed.

Lemma rmapM_total l :
  Forall (fun x => is_Ok (f x)) l -> is_Ok (rmapM f l).
Proof.
induction 1 as [|x l [y Hy] _ [ys Hys]]; simpl; [by exists []|].
exists (y :: ys). by rewrite Hy, Hys.
Qed.

End rmapM.

Lemma rmapM_fmap {A B C} (g : A -> B) (f : B -> result C) (l : list A) :
  rmapM f (g <$> l) = rmapM (f ∘ g) l.
Proof.
induction l as [|x l IH]; [done|].
rewrite fmap_cons. cbn [rmapM]. by rewrite IH.
Qed.
