(* ===== verification/PyStr.v ===== *)
(** * PyStr: the [str] operations the sources call

    [isspace], [split] (no argument: split on runs of white space),
    the substring test [sub in s], slicing [s[:n]], [sep.join(items)],
    [lower] and the decimal rendering of an integer.  Each is an
    executable function on code-point lists, followed by the lemmas that
    specify it. *)

From S2P Require Import Prelude.

(** ** Definitions *)

(** [c.isspace()] for one code point: CPython's white-space table
    (bidirectional classes WS, B, S and category Zs). *)
Definition isspace (c : N) : bool :=
  ((0x09 <=? c) && (c <=? 0x0D)) || ((0x1C <=? c) && (c <=? 0x20))
  || (c =? 0x85) || (c =? 0xA0) || (c =? 0x1680)
  || ((0x2000 <=? c) && (c <=? 0x200A))
  || (c =? 0x2028) || (c =? 0x2029) || (c =? 0x202F) || (c =? 0x205F)
  || (c =? 0x3000).

(** The scan behind [s.split()]: [cur] is the token being read. *)
Fixpoint split_from (cur s : pystr) : list pystr :=
  match s with
  | [] => match cur with [] => [] | _ => [cur] end
  | c :: s' =>
      if isspace c then
        match cur with
        | [] => split_from [] s'
        | _ => cur :: split_from [] s'
        end
      else split_from (cur ++ [c]) s'
  end.

(** [s.split()]: the maximal runs of characters that are not white space. *)
Definition split (s : pystr) : list pystr := split_from [] s.

(** [s.startswith(p)]. *)
Fixpoint startswith (p s : pystr) : bool :=
  match p, s with
  | [], _ => true
  | a :: p', b :: s' => (a =? b) && startswith p' s'
  | _ :: _, [] => false
  end.

(** [sub in s]: [sub] occurs in [s] as a contiguous block. *)
Fixpoint contains (sub s : pystr) : bool :=
  startswith sub s ||
  match s with
  | [] => false
  | _ :: s' => contains sub s'
  end.

(** [s[:n]] for a non-negative bound. *)
Definition slice_to (n : nat) (s : pystr) : pystr := take n s.

(** [sep.join(items)]. *)
Fixpoint join (sep : pystr) (items : list pystr) : pystr :=
  match items with
  | [] => []
  | [x] => x
  | x :: rest => x ++ sep ++ join sep rest
  end.

(** A text written over several lines, as a triple-quoted literal. *)
Definition newline : pystr := [0x0A].
Definition text_of_lines (lines : list pystr) : pystr := join newline lines.

(** Lower-casing of an ASCII letter; other code points are unchanged. *)
Definition ascii_lower (c : N) : N :=
  if (0x41 <=? c) && (c <=? 0x5A) then c + 0x20 else c.

Definition is_ascii (c : N) : Prop := c < 0x80.

(** [s.lower()] needs the Unicode case tables (and looks at the context of
    a capital sigma), so it is an interface: a function on whole strings
    that agrees with [ascii_lower] on ASCII text. *)
Class Unicode : Type := {
  lower : pystr -> pystr;
  lower_ascii : forall s, Forall is_ascii s -> lower s = map ascii_lower s
}.

(** The implementation used to run the model: exact on ASCII text, the
    identity on other code points. *)
Definition ascii_unicode : Unicode := {|
  lower := map ascii_lower;
  lower_ascii := fun s _ => eq_refl
|}.

(** The decimal digits of a natural number, most significant first. *)
Fixpoint digits_of (fuel : nat) (n : N) (acc : pystr) : pystr :=
  match fuel with
  | O => acc
  | S fuel' =>
      let acc' := (0x30 + n mod 10) :: acc in
      if n <? 10 then acc' else digits_of fuel' (n / 10) acc'
  end.

(** [str(z)] for an integer. *)
Definition str_of_Z (z : Z) : pystr :=
  let n := Z.abs_N z in
  let ds := digits_of (S (N.to_nat (N.log2 n))) n [] in
  if (z <? 0)%Z then 0x2D :: ds else ds.

(** [str(e)] for an exception: its message; for an [HTTPException],
    the status code, a colon and the detail. *)
Definition exn_str (e : exn) : pystr :=
  match e with
  | PyExc _ msg => msg
  | HTTPException status_code detail =>
      str_of_Z status_code ++ ": "%py ++ detail
  end.

(** [sub] occurs in [s]. *)
Definition infix (sub s : pystr) : Prop := exists a b, s = a ++ sub ++ b.

(** ** White space *)

Lemma isspace_space : isspace 0x20 = true.
Proof. reflexivity. Qed.

Lemma isspace_ascii_iff c :
  is_ascii c ->
  isspace c = true <-> (0x09 <= c <= 0x0D) \/ (0x1C <= c <= 0x20).
Proof.
unfold is_ascii, isspace; intros Hc.
rewrite !orb_true_iff, !andb_true_iff, !N.leb_le, !N.eqb_eq. lia.
Qed.

(** ** [startswith] and [contains] *)

Lemma startswith_prefix p s : startswith p s = true <-> p `prefix_of` s.
Proof.
revert s; induction p as [|a p IH]; intros [|b s]; simpl.
- split; [intros _; apply prefix_nil | done].
- split; [intros _; apply prefix_nil | done].
- split; [done | intros H; by apply prefix_nil_not in H].
- rewrite andb_true_iff, N.eqb_eq, IH. split.
  + intros [-> H]. by apply prefix_cons.
  + intros H. split; [by apply prefix_cons_inv_1 in H | by apply prefix_cons_inv_2 in H].
Qed.

Lemma startswith_app p s : startswith p (p ++ s) = true.
Proof. apply startswith_prefix. by exists s. Qed.

Lemma infix_nil_r sub : infix sub [] <-> sub = [].
Proof.
split.
- intros (a & b & H). symmetry in H.
  apply app_eq_nil in H as [_ H]. by apply app_eq_nil in H as [H _].
- intros ->. by exists [], [].
Qed.

Lemma infix_cons sub c s :
  infix sub (c :: s) <-> sub `prefix_of` (c :: s) \/ infix sub s.
Proof.
split.
- intros (a & b & H). destruct a as [|a0 a]; simpl in H.
  + left. exists b. exact H.
  + right. injection H as _ H. by exists a, b.
- intros [[b H] | (a & b & H)].
  + by exists [], b.
  + exists (c :: a), b. simpl. by rewrite H.
Qed.

Lemma contains_infix sub s : contains sub s = true <-> infix sub s.
Proof.
induction s as [|c s IH]; simpl.
- rewrite orb_false_r, startswith_prefix, infix_nil_r. split.
  + apply prefix_nil_inv.
  + intros ->. apply prefix_nil.
- by rewrite orb_true_iff, startswith_prefix, IH, infix_cons.
Qed.

#[export] Instance infix_dec sub s : Decision (infix sub s).
Proof.
refine (cast_if (decide (contains sub s = true))); by rewrite <- contains_infix.
Defined.

Lemma contains_nil s : contains [] s = true.
Proof. by destruct s. Qed.

Lemma infix_refl s : infix s s.
Proof. exists [], []. by rewrite app_nil_r. Qed.

Lemma infix_app_l sub a s : infix sub s -> infix sub (a ++ s).
Proof.
intros (x & y & ->). exists (a ++ x), y. by rewrite <- app_assoc.
Qed.

Lemma infix_app_r sub s b : infix sub s -> infix sub (s ++ b).
Proof.
intros (x & y & ->). exists x, (y ++ b). by rewrite <- !app_assoc.
Qed.

Lemma infix_length sub s : infix sub s -> (length sub <= length s)%nat.
Proof. intros (a & b & ->). rewrite !length_app. lia. Qed.

Lemma infix_trans a b c : infix a b -> infix b c -> infix a c.
Proof.
intros (x & y & ->) (x' & y' & ->).
exists (x' ++ x), (y ++ y'). by rewrite <- !app_assoc.
Qed.

#[export] Hint Resolve infix_refl infix_app_l infix_app_r : py.

(** ** Slicing *)

Lemma slice_to_length n s : length (slice_to n s) = (n `min` length s)%nat.
Proof. apply length_take. Qed.

Lemma slice_to_le n s : (length (slice_to n s) <= n)%nat.
Proof. apply take_length_le. Qed.

Lemma slice_to_short n s : (length s <= n)%nat -> slice_to n s = s.
Proof. apply take_ge. Qed.

Lemma slice_to_prefix n s : slice_to n s `prefix_of` s.
Proof. apply prefix_take. Qed.

Lemma slice_to_idemp n s : slice_to n (slice_to n s) = slice_to n s.
Proof. apply take_idemp. Qed.

(** ** [split] *)

Definition nospace (t : pystr) : Prop := Forall (fun c => isspace c = false) t.

Lemma split_from_tokens cur s t :
  nospace cur -> t ∈ split_from cur s -> t <> [] /\ nospace t.
Proof.
revert cur; induction s as [|c s IH]; intros cur Hcur; simpl.
- destruct cur; [by intros ?%elem_of_nil|].
  intros ->%list_elem_of_singleton. done.
- destruct (isspace c) eqn:Hc.
  + destruct cur as [|c0 cur]; [by apply IH|].
    intros [->|H]%elem_of_cons; [done|]. apply (IH []); [constructor | done].
  + apply IH. apply Forall_app; split; [done|]. by constructor.
Qed.

Lemma split_from_concat cur s :
  concat (split_from cur s) = cur ++ filter (fun c => isspace c = false) s.
Proof.
revert cur; induction s as [|c s IH]; intros cur; simpl.
- destruct cur; simpl; by rewrite ?app_nil_r.
- rewrite filter_cons. destruct (isspace c) eqn:Hc.
  + rewrite decide_False by done.
    destruct cur; simpl; by rewrite (IH []).
  + rewrite decide_True by done. rewrite IH. by rewrite <- app_assoc.
Qed.

Lemma split_from_infix cur pre s t :
  t ∈ split_from cur s -> infix t (pre ++ cur ++ s).
Proof.
revert cur pre; induction s as [|c s IH]; intros cur pre; simpl.
- destruct cur; [by intros ?%elem_of_nil|].
  intros ->%list_elem_of_singleton. exists pre, []. done.
- destruct (isspace c).
  + destruct cur as [|c0 cur].
    * intros H. specialize (IH [] (pre ++ [c]) H).
      by rewrite <- app_assoc in IH.
    * intros [->|H]%elem_of_cons.
      { exists pre, (c :: s). done. }
      specialize (IH [] (pre ++ (c0 :: cur) ++ [c]) H).
      by rewrite <- !app_assoc in IH.
  + intros H. specialize (IH _ pre H). by rewrite <- app_assoc in IH.
Qed.

(** Every token of [s.split()] is non-empty and holds no white space. *)
Lemma split_tokens s t : t ∈ split s -> t <> [] /\ nospace t.
Proof. apply split_from_tokens. constructor. Qed.

(** The tokens, put end to end, are the characters of [s] that are not
    white space, in order. *)
Lemma split_concat s : concat (split s) = filter (fun c => isspace c = false) s.
Proof. apply split_from_concat. Qed.

(** Every token occurs in [s]. *)
Lemma split_infix s t : t ∈ split s -> infix t s.
Proof. intros H. apply (split_from_infix [] [] s t H). Qed.

(** A string of white space only has no token. *)
Lemma split_blank s : Forall (fun c => isspace c = true) s -> split s = [].
Proof.
unfold split. induction 1 as [|c s Hc _ IH]; simpl; [done|]. by rewrite Hc.
Qed.

Lemma split_from_app_nospace cur t s :
  nospace t -> split_from cur (t ++ s) = split_from (cur ++ t) s.
Proof.
intros Ht. revert cur. induction Ht as [|c t Hc _ IH]; intros cur; simpl.
- by rewrite app_nil_r.
- rewrite Hc, IH. by rewrite <- app_assoc.
Qed.

Lemma split_from_space cur s :
  cur <> [] -> split_from cur (0x20 :: s) = cur :: split_from [] s.
Proof. by destruct cur. Qed.

(** Splitting undoes joining with one space, for non-empty tokens without
    white space. *)
Lemma split_join ts :
  Forall (fun t => t <> [] /\ nospace t) ts -> split (join [0x20] ts) = ts.
Proof.
unfold split. induction 1 as [|t ts [Hne Ht] Hts IH]; simpl; [done|].
destruct ts as [|t' ts].
- pose proof (split_from_app_nospace [] t [] Ht) as E.
  rewrite app_nil_r in E. rewrite E. simpl. by destruct t.
- change (split_from [] (t ++ 0x20 :: join [0x20] (t' :: ts)) = t :: t' :: ts).
  rewrite split_from_app_nospace by done.
  rewrite app_nil_l, split_from_space by done. by rewrite IH.
Qed.

(** ** [join] *)

Lemma join_nil sep : join sep [] = [].
Proof. reflexivity. Qed.

Lemma join_singleton sep x : join sep [x] = x.
Proof. reflexivity. Qed.

Lemma join_cons sep x y rest :
  join sep (x :: y :: rest) = x ++ sep ++ join sep (y :: rest).
Proof. reflexivity. Qed.

Lemma join_infix sep items x : x ∈ items -> infix x (join sep items).
Proof.
induction items as [|y items IH]; [by intros ?%elem_of_nil|].
intros [->|H]%elem_of_cons.
- destruct items; [apply infix_refl|]. rewrite join_cons. by exists [], (sep ++ join sep (l :: items)).
- destruct items as [|z items]; [by apply elem_of_nil in H|].
  rewrite join_cons. apply infix_app_l, infix_app_l. by apply IH.
Qed.

(** ** [lower] *)

Lemma ascii_lower_idemp c : ascii_lower (ascii_lower c) = ascii_lower c.
Proof.
unfold ascii_lower.
destruct ((0x41 <=? c) && (c <=? 0x5A)) eqn:H; [|by rewrite H].
apply andb_true_iff in H as [H1%N.leb_le H2%N.leb_le].
destruct (0x41 <=? c + 0x20) eqn:H3; simpl; [|done].
destruct (c + 0x20 <=? 0x5A) eqn:H4; [|done].
apply N.leb_le in H4. lia.
Qed.

Lemma ascii_lower_is_ascii c : is_ascii c -> is_ascii (ascii_lower c).
Proof.
unfold is_ascii, ascii_lower. intros Hc.
destruct ((0x41 <=? c) && (c <=? 0x5A)) eqn:H; [|done].
apply andb_true_iff in H as [H1%N.leb_le H2%N.leb_le]. lia.
Qed.

Section lower.
Context `{Unicode}.

Lemma lower_ascii_length s : Forall is_ascii s -> length (lower s) = length s.
Proof. intros Hs. by rewrite lower_ascii, length_map. Qed.

Lemma lower_ascii_idemp s : Forall is_ascii s -> lower (lower s) = lower s.
Proof.
intros Hs. rewrite (lower_ascii s Hs), lower_ascii.
- rewrite <- list_fmap_compose. apply list_fmap_ext.
  intros _ c _. apply ascii_lower_idemp.
- apply Forall_fmap. revert Hs. apply Forall_impl.
  intros c. apply ascii_lower_is_ascii.
Qed.

End lower.

(** ** Decimal rendering *)

(** The number a text of decimal digits denotes. *)
Definition digits_value (ds : pystr) : N :=
  foldl (fun a d => 10 * a + (d - 0x30)) 0 ds.

Definition is_digit (d : N) : Prop := 0x30 <= d <= 0x39.

Lemma log2_div10 n : 10 <= n -> N.log2 (n / 10) < N.log2 n.
Proof.
intros Hn.
assert (n / 10 <= n / 2) as Hd by (apply N.div_le_compat_l; lia).
assert (0 < n / 2) as Hpos by (apply N.div_str_pos; lia).
pose proof (N.log2_le_mono _ _ Hd).
pose proof (N.log2_double _ Hpos).
pose proof (N.log2_le_mono _ _ (N.Div0.mul_div_le n 2)). lia.
Qed.

Lemma digit_of_mod n : is_digit (0x30 + n mod 10).
Proof.
pose proof (N.mod_upper_bound n 10 ltac:(lia)) as Hm.
unfold is_digit. generalize dependent (n `mod` 10). intros; lia.
Qed.

Lemma digits_value_snoc ds n :
  digits_value (ds ++ [0x30 + n mod 10]) = 10 * digits_value ds + n mod 10.
Proof.
unfold digits_value. rewrite foldl_app. cbn [foldl].
by rewrite (N.add_comm 0x30), N.add_sub.
Qed.

(** With more fuel than the binary logarithm of [n], [digits_of] puts the
    decimal digits of [n] before [acc], the most significant first: the
    fuel [str_of_Z] gives is enough. *)
Lemma digits_of_spec fuel n acc :
  (N.to_nat (N.log2 n) < fuel)%nat ->
  exists ds, digits_of fuel n acc = ds ++ acc /\ digits_value ds = n /\
    ds <> [] /\ Forall is_digit ds.
Proof.
revert n acc. induction fuel as [|fuel IH]; intros n acc Hf; [lia|].
cbn [digits_of]. destruct (N.ltb_spec n 10) as [Hn|Hn].
- exists [0x30 + n mod 10]. split; [done|].
  change [0x30 + n mod 10] with ([] ++ [0x30 + n mod 10]) at 1.
  rewrite digits_value_snoc, N.mod_small by done.
  repeat split; [done|]. constructor; [unfold is_digit; lia|done].
- destruct (IH (n / 10) ((0x30 + n mod 10) :: acc)) as (ds & -> & Hv & Hne & Hd).
  { pose proof (log2_div10 n Hn). lia. }
  exists (ds ++ [0x30 + n mod 10]). rewrite <- app_assoc. split; [done|].
  rewrite digits_value_snoc, Hv. split; [symmetry; apply N.div_mod; lia|].
  split; [by destruct ds|].
  apply Forall_app. split; [done|]. constructor; [apply digit_of_mod|done].
Qed.

(** [str(z)] is the sign, when [z] is negative, and the decimal digits of
    the absolute value of [z]. *)
Lemma str_of_Z_spec z :
  exists ds, str_of_Z z = (if (z <? 0)%Z then [0x2D] else []) ++ ds /\
    digits_value ds = Z.abs_N z /\ ds <> [] /\ Forall is_digit ds.
Proof.
destruct (digits_of_spec (S (N.to_nat (N.log2 (Z.abs_N z)))) (Z.abs_N z) [])
  as (ds & Hds & Hv); [lia|].
exists ds. split; [|done]. unfold str_of_Z. cbn zeta.
rewrite Hds, app_nil_r. by destruct (z <? 0)%Z.
Qed.

(** More fuel does not change the digits. *)
Lemma digits_of_fuel fuel fuel' n acc :
  (N.to_nat (N.log2 n) < fuel)%nat -> (N.to_nat (N.log2 n) < fuel')%nat ->
  digits_of fuel n acc = digits_of fuel' n acc.
Proof.
revert fuel' n acc. induction fuel as [|fuel IH]; intros [|fuel'] n acc Hf Hf';
  try lia.
cbn [digits_of]. destruct (N.ltb_spec n 10) as [Hn|Hn]; [done|].
pose proof (log2_div10 n Hn). apply IH; lia.
Qed.

Example str_of_Z_500 : str_of_Z 500 = "500"%py.
Proof. reflexivity. Qed.

Example str_of_Z_0 : str_of_Z 0 = "0"%py.
Proof. reflexivity. Qed.

Example str_of_Z_neg : str_of_Z (-42) = "-42"%py.
Proof. reflexivity. Qed.

Example split_example : split " Paris   museums "%py = ["Paris"%py; "museums"%py].
Proof. reflexivity. Qed.

Example contains_example : contains "paris"%py "https://x.org/paris.jpg"%py = true.
Proof. reflexivity. Qed.
