(* ===== verification/PyVal.v ===== *)
(** * PyVal: dynamically typed data

    What the remote services return is untyped (JSON turned into Python
    objects), and the sources read it with [dict.get], [in], indexing,
    slicing and iteration.  This file gives the values, and for each of
    these operations a total function that returns what Python returns or
    the exception Python raises when the value has another shape.

    Values nest through lists and dictionaries: [pyval_ind'] is their
    induction principle and equality of values is decidable
    ([pyval_eq_dec], from the test [pyval_eqb]).

    Dictionaries are finite maps keyed by strings (the keys of JSON
    objects).  Their iteration order is not observable in the operations
    modelled here except through [py_iter], which the development only
    uses where the order has no influence.  Messages of exceptions follow
    CPython 3.11. *)

From stdpp Require Export gmap.
From Stdlib Require Export Floats.SpecFloat.
From S2P Require Import Prelude PyStr.

(** ** Values *)

Inductive pyval : Type :=
| PNone
| PBool (b : bool)
| PInt (z : Z)
| PFloat (f : spec_float)
| PStr (s : pystr)
| PList (l : list pyval)
| PDict (d : gmap pystr pyval).

(** [type(v).__name__]. *)
Definition type_name (v : pyval) : pystr :=
  match v with
  | PNone => "NoneType"%py
  | PBool _ => "bool"%py
  | PInt _ => "int"%py
  | PFloat _ => "float"%py
  | PStr _ => "str"%py
  | PList _ => "list"%py
  | PDict _ => "dict"%py
  end.

(** [isinstance(v, str)] and [isinstance(v, dict)]. *)
Definition is_str (v : pyval) : bool :=
  match v with PStr _ => true | _ => false end.

Definition is_dict (v : pyval) : bool :=
  match v with PDict _ => true | _ => false end.

(** [v == s] for a string [s]: only a string with the same characters is
    equal to a string. *)
Definition eq_str (s : pystr) (v : pyval) : bool :=
  match v with PStr s' => bool_decide (s' = s) | _ => false end.

(** The strings among the items of a list. *)
Definition str_items (l : list pyval) : list pystr :=
  omap (fun x => match x with PStr s => Some s | _ => None end) l.

(** The float [0.0]. *)
Definition float_zero : spec_float := S754_zero false.

(** Conversion of an integer to the nearest binary64 float. *)
Definition float_of_Z (z : Z) : spec_float :=
  binary_normalize 53 1024 z 0 false.

(** ** Induction and equality

    A value holds values in its lists and dictionaries.  Induction on
    values goes by their size; equality of values is decidable.  This is
    the equality of the terms, not Python's [==], which identifies [1],
    [1.0] and [True]. *)

#[export] Instance spec_float_eq_dec : EqDecision spec_float.
Proof. solve_decision. Defined.

Fixpoint pyval_size (v : pyval) : nat :=
  match v with
  | PList l => S (foldr (fun x n => (pyval_size x + n)%nat) 0%nat l)
  | PDict d => S (map_fold (fun _ x n => (pyval_size x + n)%nat) 0%nat d)
  | _ => 1
  end.

(** A test that holds of every entry of a dictionary. *)
Definition all_keys {A} (g : pystr -> A -> bool) (d : gmap pystr A) : bool :=
  map_fold (fun key x acc => acc && g key x) true d.

Fixpoint pyval_eqb (v w : pyval) {struct v} : bool :=
  match v, w with
  | PNone, PNone => true
  | PBool a, PBool b => bool_decide (a = b)
  | PInt a, PInt b => bool_decide (a = b)
  | PFloat a, PFloat b => bool_decide (a = b)
  | PStr a, PStr b => bool_decide (a = b)
  | PList l, PList k =>
      (fix go (l k : list pyval) {struct l} : bool :=
         match l, k with
         | [], [] => true
         | x :: l', y :: k' => pyval_eqb x y && go l' k'
         | _, _ => false
         end) l k
  | PDict d, PDict e =>
      all_keys (fun key x =>
        match e !! key with Some y => pyval_eqb x y | None => false end) d
      && bool_decide (dom d = dom e)
  | _, _ => false
  end.

Lemma pyval_size_elem x l : x ∈ l -> (pyval_size x < pyval_size (PList l))%nat.
Proof. induction 1 as [x l|x y l _ IH]; simpl in *; lia. Qed.

Lemma pyval_size_lookup d k x :
  d !! k = Some x -> (pyval_size x < pyval_size (PDict d))%nat.
Proof.
intros Hk. simpl. rewrite (map_fold_delete_L _ _ k x) by (intros; lia || done).
lia.
Qed.

(** Induction on values: a list of values that have the property has it,
    and so has a dictionary of them. *)
Lemma pyval_ind' (P : pyval -> Prop) :
  P PNone -> (forall b, P (PBool b)) -> (forall z, P (PInt z)) ->
  (forall f, P (PFloat f)) -> (forall s, P (PStr s)) ->
  (forall l, Forall P l -> P (PList l)) ->
  (forall d, map_Forall (fun _ => P) d -> P (PDict d)) ->
  forall v, P v.
Proof.
intros HN HB HI HF HS HL HD v.
remember (pyval_size v) as n eqn:Hn. revert v Hn.
induction (lt_wf n) as [n _ IH]. intros [| | | | |l|d] ->; auto.
- apply HL, Forall_forall. intros x Hx%list_elem_of_In.
  by apply (IH _ (pyval_size_elem x l Hx)).
- apply HD. intros k x Hk.
  by apply (IH _ (pyval_size_lookup d k x Hk)).
Qed.

Lemma all_keys_spec {A} (g : pystr -> A -> bool) d :
  all_keys g d = true <-> map_Forall (fun k x => g k x = true) d.
Proof.
unfold all_keys.
apply (map_fold_weak_ind
         (fun r m => r = true <-> map_Forall (fun k x => g k x = true) m)).
- split; [intros _; apply map_Forall_empty|done].
- intros k x m r Hk IH. rewrite andb_true_iff, IH, map_Forall_insert by done.
  tauto.
Qed.

Lemma pyval_eqb_spec v w : pyval_eqb v w = true <-> v = w.
Proof.
revert w. induction v as [|a|a|a|a|l IH|d IH] using pyval_ind';
  intros [|b|b|b|b|k|e]; simpl; try (split; (done || congruence));
  try (rewrite bool_decide_eq_true; split; congruence).
- revert k. induction IH as [|x l Hx _ IHl]; intros [|y k];
    try (split; (done || congruence)).
  rewrite andb_true_iff, Hx, IHl. split; [by intros [-> [= ->]]|].
  by intros [= -> ->].
- rewrite andb_true_iff, all_keys_spec, bool_decide_eq_true. split.
  + intros [Hall Hdom]. f_equal. apply map_eq. intros key.
    destruct (d !! key) as [x|] eqn:Hx.
    * specialize (Hall key x Hx). simpl in Hall.
      destruct (e !! key) as [y|]; [|done].
      by apply (IH key x Hx) in Hall as ->.
    * symmetry. apply not_elem_of_dom. rewrite <- Hdom.
      by apply not_elem_of_dom.
  + intros [= <-]. split; [|done]. intros key x Hx. simpl. rewrite Hx.
    by apply (IH key x Hx).
Qed.

#[export] Instance pyval_eq_dec : EqDecision pyval.
Proof.
refine (fun v w => cast_if (decide (pyval_eqb v w = true)));
  by rewrite <- pyval_eqb_spec.
Defined.

(** ** Exceptions raised by the operations *)

Definition quoted (s : pystr) : pystr := "'"%py ++ s ++ "'"%py.

Definition no_attribute (v : pyval) (name : pystr) : exn :=
  PyExc AttributeError
    (quoted (type_name v) ++ " object has no attribute "%py ++ quoted name).

Definition not_subscriptable (v : pyval) : exn :=
  PyExc TypeError (quoted (type_name v) ++ " object is not subscriptable"%py).

Definition not_iterable (v : pyval) : exn :=
  PyExc TypeError (quoted (type_name v) ++ " object is not iterable"%py).

Definition not_container (v : pyval) : exn :=
  PyExc TypeError
    ("argument of type "%py ++ quoted (type_name v) ++ " is not iterable"%py).

Definition no_len (v : pyval) : exn :=
  PyExc TypeError
    ("object of type "%py ++ quoted (type_name v) ++ " has no len()"%py).

Definition key_error (k : pystr) : exn := PyExc KeyError (quoted k).

(** ** Operations *)

(** [v.get(k, default)]. *)
Definition py_get (v : pyval) (k : pystr) (dflt : pyval) : result pyval :=
  match v with
  | PDict d => Ok (default dflt (d !! k))
  | _ => Err (no_attribute v "get"%py)
  end.

(** [k in v] for a string [k]. *)
Definition py_in (k : pystr) (v : pyval) : result bool :=
  match v with
  | PDict d => Ok (bool_decide (is_Some (d !! k)))
  | PList l => Ok (existsb (eq_str k) l)
  | PStr s => Ok (contains k s)
  | _ => Err (not_container v)
  end.

(** [v[k]] for a string [k]. *)
Definition py_getitem (v : pyval) (k : pystr) : result pyval :=
  match v with
  | PDict d =>
      match d !! k with
      | Some x => Ok x
      | None => Err (key_error k)
      end
  | PList _ =>
      Err (PyExc TypeError "list indices must be integers or slices, not str"%py)
  | PStr _ => Err (PyExc TypeError "string indices must be integers"%py)
  | _ => Err (not_subscriptable v)
  end.

(** Position of index [i] in a sequence of length [n]: negative indices
    count from the end. *)
Definition norm_index (i : Z) (n : nat) : option nat :=
  let j := (if i <? 0 then i + Z.of_nat n else i)%Z in
  if ((0 <=? j) && (j <? Z.of_nat n))%Z then Some (Z.to_nat j) else None.

(** [v[i]] for an integer [i]. *)
Definition py_index (v : pyval) (i : Z) : result pyval :=
  match v with
  | PList l =>
      match norm_index i (length l) ≫= (l !!.) with
      | Some x => Ok x
      | None => Err (PyExc IndexError "list index out of range"%py)
      end
  | PStr s =>
      match norm_index i (length s) ≫= (s !!.) with
      | Some c => Ok (PStr [c])
      | None => Err (PyExc IndexError "string index out of range"%py)
      end
  | PDict _ => Err (PyExc KeyError (str_of_Z i))
  | _ => Err (not_subscriptable v)
  end.

(** [v[:n]] for a bound [n >= 0]. *)
Definition py_slice_to (n : nat) (v : pyval) : result pyval :=
  match v with
  | PStr s => Ok (PStr (slice_to n s))
  | PList l => Ok (PList (take n l))
  | PDict _ => Err (PyExc TypeError "unhashable type: 'slice'"%py)
  | _ => Err (not_subscriptable v)
  end.

(** [len(v)]. *)
Definition py_len (v : pyval) : result nat :=
  match v with
  | PStr s => Ok (length s)
  | PList l => Ok (length l)
  | PDict d => Ok (size d)
  | _ => Err (no_len v)
  end.

(** The items [for x in v] visits. *)
Definition py_iter (v : pyval) : result (list pyval) :=
  match v with
  | PList l => Ok l
  | PStr s => Ok (map (fun c => PStr [c]) s)
  | PDict d => Ok (map (fun kv => PStr kv.1) (map_to_list d))
  | _ => Err (not_iterable v)
  end.

(** [v.lower()]. *)
Definition py_lower `{Unicode} (v : pyval) : result pystr :=
  match v with
  | PStr s => Ok (lower s)
  | _ => Err (no_attribute v "lower"%py)
  end.

(** ** The part of the runtime that is an interface

    [str(v)] on a float or a container, [json.loads] and the parsing of a
    float from text are library code the sources only call.  The class
    states what the development relies on. *)
Class Runtime : Type := {
  rt_unicode :: Unicode;
  (** [str(v)], also what an f-string inserts for [{v}] *)
  py_str : pyval -> pystr;
  py_str_PStr : forall s, py_str (PStr s) = s;
  (** [json.loads(text)]; it fails with an [Exception] *)
  json_loads : pystr -> result pyval;
  json_loads_Exception :
    forall s e, json_loads s = Err e -> is_Exception e = true;
  (** [float(text)], [None] when the text is no float literal *)
  float_of_str : pystr -> option spec_float;
  (** the text of a Pydantic [ValidationError]: the model's name and the
      rejected fields with their inputs *)
  validation_text : pystr -> list (pystr * pyval) -> pystr
}.

(** The implementation used to run the model.  [py_str] is exact on [None],
    booleans, integers and strings and gives a fixed text for floats and
    containers; [json_loads] rejects every text and [float_of_str] parses
    none, which is the behaviour on text that is not JSON or not a
    number; a validation error is rendered by its count and model. *)
Definition ref_py_str (v : pyval) : pystr :=
  match v with
  | PNone => "None"%py
  | PBool true => "True"%py
  | PBool false => "False"%py
  | PInt z => str_of_Z z
  | PFloat _ => "<float>"%py
  | PStr s => s
  | PList _ => "[...]"%py
  | PDict _ => "{...}"%py
  end.

Definition ref_json_loads (s : pystr) : result pyval :=
  Err (PyExc ValueError "Expecting value"%py).

Definition ref_validation_text (model : pystr)
    (errors : list (pystr * pyval)) : pystr :=
  str_of_Z (Z.of_nat (length errors)) ++ " validation error for "%py ++ model.

Lemma ref_json_loads_Exception s e :
  ref_json_loads s = Err e -> is_Exception e = true.
Proof. by intros [= <-]. Qed.

Definition ref_runtime : Runtime := {|
  rt_unicode := ascii_unicode;
  py_str := ref_py_str;
  py_str_PStr := fun _ => eq_refl;
  json_loads := ref_json_loads;
  json_loads_Exception := ref_json_loads_Exception;
  float_of_str := fun _ => None;
  validation_text := ref_validation_text
|}.

(** ** Lemmas *)

Lemma str_items_fmap l : str_items (PStr <$> l) = l.
Proof. induction l as [|x l IH]; [done|]. unfold str_items. simpl. by f_equal. Qed.

#[export] Instance PStr_inj : Inj (=) (=) PStr.
Proof. by intros s t [= ->]. Qed.

Lemma py_get_dict d k dflt :
  py_get (PDict d) k dflt = Ok (default dflt (d !! k)).
Proof. reflexivity. Qed.

Lemma py_get_present d k dflt x :
  d !! k = Some x -> py_get (PDict d) k dflt = Ok x.
Proof. intros H. simpl. by rewrite H. Qed.

Lemma py_get_absent d k dflt :
  d !! k = None -> py_get (PDict d) k dflt = Ok dflt.
Proof. intros H. simpl. by rewrite H. Qed.

Lemma py_get_Ok_inv v k dflt x :
  py_get v k dflt = Ok x -> exists d, v = PDict d.
Proof. destruct v; try discriminate. eauto. Qed.

Lemma py_in_dict d k : py_in k (PDict d) = Ok (bool_decide (is_Some (d !! k))).
Proof. reflexivity. Qed.

Lemma py_in_dict_Some d k x : d !! k = Some x -> py_in k (PDict d) = Ok true.
Proof. intros E. simpl. by rewrite E. Qed.

Lemma py_in_dict_None d k : d !! k = None -> py_in k (PDict d) = Ok false.
Proof. intros E. simpl. by rewrite E. Qed.

Lemma py_getitem_dict_Some d k x :
  d !! k = Some x -> py_getitem (PDict d) k = Ok x.
Proof. intros E. simpl. by rewrite E. Qed.

Lemma py_getitem_in d k x :
  py_getitem (PDict d) k = Ok x <-> d !! k = Some x.
Proof. simpl. destruct (d !! k); split; intros; inv_res; done. Qed.

Lemma py_slice_to_str n s : py_slice_to n (PStr s) = Ok (PStr (slice_to n s)).
Proof. reflexivity. Qed.

(** A successful slice of a string is a string of at most [n] characters. *)
Lemma py_slice_to_len n v s :
  py_slice_to n v = Ok (PStr s) -> (length s <= n)%nat.
Proof.
destruct v; simpl; try discriminate; intros; inv_res. apply slice_to_le.
Qed.

Lemma py_slice_to_Ok_inv n v w :
  py_slice_to n v = Ok w ->
  (exists s, v = PStr s /\ w = PStr (slice_to n s)) \/
  (exists l, v = PList l /\ w = PList (take n l)).
Proof. destruct v; simpl; try discriminate; intros; inv_res; eauto. Qed.

Lemma norm_index_lt i n j : norm_index i n = Some j -> (j < n)%nat.
Proof.
unfold norm_index. case_goal; [|done]. intros; inv_res.
apply andb_true_iff in Heqb as [H1%Z.leb_le H2%Z.ltb_lt]. lia.
Qed.

Lemma norm_index_0 n : (0 < n)%nat -> norm_index 0 n = Some 0%nat.
Proof.
intros Hn. unfold norm_index. simpl.
destruct (0 <? Z.of_nat n)%Z eqn:H; [done|]. apply Z.ltb_ge in H. lia.
Qed.

Lemma py_index_0_cons x l : py_index (PList (x :: l)) 0 = Ok x.
Proof. reflexivity. Qed.

(** Every exception the operations raise is an [Exception]. *)
Definition raises_Exception {A} (r : result A) : Prop :=
  forall e, r = Err e -> is_Exception e = true.

Lemma raises_Exception_Ok {A} (a : A) : raises_Exception (Ok a).
Proof. intros e H. discriminate. Qed.

Lemma raises_Exception_rbind {A B} (m : result A) (f : A -> result B) :
  raises_Exception m -> (forall a, raises_Exception (f a)) ->
  raises_Exception (rbind m f).
Proof.
intros Hm Hf e. destruct m as [e'|a]; simpl.
- intros [= <-]. by apply Hm.
- apply Hf.
Qed.

#[export] Hint Resolve raises_Exception_Ok raises_Exception_rbind : py.

Ltac solve_raises :=
  let e := fresh "e" in let H := fresh "H" in
  intros e H;
  repeat match type of H with
  | context [match ?x with _ => _ end] => destruct x
  end; inv_res; try discriminate; reflexivity.

Lemma py_get_raises v k dflt : raises_Exception (py_get v k dflt).
Proof. unfold py_get. solve_raises. Qed.

Lemma py_in_raises k v : raises_Exception (py_in k v).
Proof. unfold py_in. solve_raises. Qed.

Lemma py_getitem_raises v k : raises_Exception (py_getitem v k).
Proof. unfold py_getitem. solve_raises. Qed.

Lemma py_index_raises v i : raises_Exception (py_index v i).
Proof. unfold py_index. solve_raises. Qed.

Lemma py_slice_to_raises n v : raises_Exception (py_slice_to n v).
Proof. unfold py_slice_to. solve_raises. Qed.

Lemma py_len_raises v : raises_Exception (py_len v).
Proof. unfold py_len. solve_raises. Qed.

Lemma py_iter_raises v : raises_Exception (py_iter v).
Proof. unfold py_iter. solve_raises. Qed.

Lemma py_lower_raises `{Unicode} v : raises_Exception (py_lower v).
Proof. unfold py_lower. solve_raises. Qed.

#[export] Hint Resolve py_get_raises py_in_raises py_getitem_raises
  py_index_raises py_slice_to_raises py_len_raises py_iter_raises
  py_lower_raises : py.
