(* ===== verification/Template.v ===== *)
(** * Template: the prompt templates of the chains

    The chains of the sources give their prompts to
    [ChatPromptTemplate.from_messages] as format strings: [{name}] is a
    placeholder, [{{] and [}}] stand for a brace.  Invoking a chain formats
    every message with the values of the input; a value is inserted as it
    is and never read as a template again.

    [print_pieces] writes a template from its pieces; with the reader it
    makes a round trip in both directions ([template_round_trip]).

    The model covers the fragment the sources use: placeholders that are
    plain names.  A placeholder with a conversion, a format specification,
    an attribute or an index, and an empty one, are reported as
    [ValueError]; so are a lone closing brace and a placeholder that is not
    closed, as Python does. *)

From S2P Require Import Prelude PyStr PyVal.

#[local] Open Scope N_scope.

Inductive piece : Type :=
| Lit (text : pystr)
| Var (name : pystr).

#[export] Instance piece_eq_dec : EqDecision piece.
Proof. solve_decision. Defined.

Definition LBRACE : N := 0x7B.
Definition RBRACE : N := 0x7D.

(** Characters that make a placeholder more than a name. *)
Definition special (c : N) : bool :=
  (c =? LBRACE) || (c =? 0x21) || (c =? 0x3A) || (c =? 0x2E) || (c =? 0x5B)
  || (c =? 0x5D).

Definition format_error (msg : pystr) : exn := PyExc ValueError msg.

(** The literal text read so far becomes a piece, unless it is empty. *)
Definition flush (lit : pystr) (acc : list piece) : list piece :=
  match lit with
  | [] => acc
  | _ => acc ++ [Lit lit]
  end.

(** Where the scan is: in literal text, or inside a placeholder. *)
Inductive mode : Type :=
| InText (lit : pystr)
| InField (name : pystr).

(** The scan of a format string, left to right. *)
Fixpoint scan (s : pystr) (m : mode) (acc : list piece) :
    result (list piece) :=
  match s, m with
  | [], InText lit => Ok (flush lit acc)
  | [], InField _ =>
      Err (format_error "expected '}' before end of string"%py)
  | c :: s', InField name =>
      if c =? RBRACE then
        match name with
        | [] => Err (format_error "empty placeholder"%py)
        | _ => scan s' (InText []) (acc ++ [Var name])
        end
      else if special c then
        Err (format_error "unsupported placeholder"%py)
      else scan s' (InField (name ++ [c])) acc
  | c :: s', InText lit =>
      if c =? LBRACE then
        match s' with
        | c' :: s'' =>
            if c' =? LBRACE then scan s'' (InText (lit ++ [LBRACE])) acc
            else scan s' (InField []) (flush lit acc)
        | [] =>
            Err (format_error "Single '{' encountered in format string"%py)
        end
      else if c =? RBRACE then
        match s' with
        | c' :: s'' =>
            if c' =? RBRACE then scan s'' (InText (lit ++ [RBRACE])) acc
            else
              Err (format_error
                     "Single '}' encountered in format string"%py)
        | [] =>
            Err (format_error "Single '}' encountered in format string"%py)
        end
      else scan s' (InText (lit ++ [c])) acc
  end.

Definition parse_template (template : pystr) : result (list piece) :=
  scan template (InText []) [].

(** The placeholders of a template, in order. *)
Definition variables (pieces : list piece) : list pystr :=
  omap (fun p => match p with Var x => Some x | Lit _ => None end) pieces.

(** The text of the pieces under the values [vars]; a placeholder without
    a value is a [KeyError]. *)
Fixpoint render_pieces (pieces : list piece) (vars : gmap pystr pystr) :
    result pystr :=
  match pieces with
  | [] => Ok []
  | Lit text :: rest =>
      (tail <- render_pieces rest vars ;; Ok (text ++ tail))%res
  | Var name :: rest =>
      match vars !! name with
      | Some value =>
          (tail <- render_pieces rest vars ;; Ok (value ++ tail))%res
      | None => Err (key_error name)
      end
  end.

(** [template.format] with the values [vars] as keyword arguments. *)
Definition format_template (template : pystr) (vars : gmap pystr pystr) :
    result pystr :=
  (pieces <- parse_template template ;; render_pieces pieces vars)%res.

(** A text without braces. *)
Definition plain (s : pystr) : bool :=
  forallb (fun c => negb ((c =? LBRACE) || (c =? RBRACE))) s.

(** ** Lemmas *)

Lemma flush_app lit acc : flush lit acc = acc ++ flush lit [].
Proof. destruct lit; simpl; [by rewrite app_nil_r|done]. Qed.

Lemma plain_cons c s :
  plain (c :: s) = true <-> c <> LBRACE /\ c <> RBRACE /\ plain s = true.
Proof.
unfold plain. simpl. rewrite andb_true_iff, negb_true_iff, orb_false_iff.
rewrite !N.eqb_neq. tauto.
Qed.

Lemma plain_app s t : plain (s ++ t) = plain s && plain t.
Proof. apply forallb_app. Qed.

(** Text without braces is read as itself. *)
Lemma scan_plain s lit acc :
  plain s = true -> scan s (InText lit) acc = Ok (flush (lit ++ s) acc).
Proof.
revert lit. induction s as [|c s IH]; intros lit Hs; simpl.
- by rewrite app_nil_r.
- apply plain_cons in Hs as (Hl%N.eqb_neq & Hr%N.eqb_neq & Hs).
  rewrite Hl, Hr, IH by done. by rewrite <- app_assoc.
Qed.

Lemma render_pieces_app ps qs vars :
  render_pieces (ps ++ qs) vars =
  (a <- render_pieces ps vars ;; b <- render_pieces qs vars ;; Ok (a ++ b))%res.
Proof.
induction ps as [|[t|x] ps IH]; simpl.
- by destruct (render_pieces qs vars).
- rewrite IH. destruct (render_pieces ps vars) as [e|a]; simpl; [done|].
  destruct (render_pieces qs vars); simpl; [done|]. by rewrite app_assoc.
- destruct (vars !! x); [|done]. rewrite IH.
  destruct (render_pieces ps vars) as [e|a]; simpl; [done|].
  destruct (render_pieces qs vars); simpl; [done|]. by rewrite app_assoc.
Qed.

Lemma render_flush lit vars : render_pieces (flush lit []) vars = Ok lit.
Proof. destruct lit; simpl; [done|]. by rewrite app_nil_r. Qed.

(** A template without braces formats to itself, whatever the values. *)
Lemma format_plain template vars :
  plain template = true -> format_template template vars = Ok template.
Proof.
intros Hp. unfold format_template, parse_template.
rewrite scan_plain by done. simpl. apply render_flush.
Qed.

(** The exceptions of formatting are instances of [Exception]. *)
Lemma scan_raises_le n s m acc :
  (length s <= n)%nat -> raises_Exception (scan s m acc).
Proof.
revert s m acc.
induction n as [|n IH]; intros [|c s] m acc Hn; simpl in Hn; try lia;
  intros e; destruct m; simpl; repeat case_match; subst;
  try (by intros [= <-]); try done; apply IH; simpl in *; lia.
Qed.

Lemma render_pieces_raises pieces vars :
  raises_Exception (render_pieces pieces vars).
Proof.
induction pieces as [|[t|x] ps IH]; intros e; simpl; [done| |].
- destruct (render_pieces ps vars) eqn:E; simpl; [|done].
  intros [= <-]. by apply IH.
- destruct (vars !! x); [|by intros [= <-]].
  destruct (render_pieces ps vars) eqn:E; simpl; [|done].
  intros [= <-]. by apply IH.
Qed.

Lemma format_template_raises template vars :
  raises_Exception (format_template template vars).
Proof.
apply raises_Exception_rbind.
- by apply (scan_raises_le (length template)).
- intros ps. apply render_pieces_raises.
Qed.

(** ** Placeholders *)

(** A name: not empty, without brace or special character. *)
Definition is_name (name : pystr) : bool :=
  negb (bool_decide (name = [])) &&
  forallb (fun c => negb ((c =? RBRACE) || special c)) name.

Lemma scan_field name rest pre acc :
  forallb (fun c => negb ((c =? RBRACE) || special c)) name = true ->
  pre ++ name <> [] ->
  scan (name ++ RBRACE :: rest) (InField pre) acc =
  scan rest (InText []) (acc ++ [Var (pre ++ name)]).
Proof.
revert pre. induction name as [|c name IH]; intros pre Hn Hne; simpl.
- rewrite app_nil_r in *. by destruct pre.
- simpl in Hn. apply andb_true_iff in Hn as [Hc Hn].
  apply negb_true_iff, orb_false_iff in Hc as [-> ->].
  rewrite IH; [by rewrite <- app_assoc|done|]. rewrite <- app_assoc. done.
Qed.

Lemma scan_open c s lit acc :
  c <> LBRACE ->
  scan (LBRACE :: c :: s) (InText lit) acc =
  scan (c :: s) (InField []) (flush lit acc).
Proof. intros Hc%N.eqb_neq. simpl. by rewrite Hc. Qed.

(** A placeholder in the middle of a template. *)
Lemma scan_var name rest lit acc :
  is_name name = true ->
  scan (LBRACE :: name ++ RBRACE :: rest) (InText lit) acc =
  scan rest (InText []) (flush lit acc ++ [Var name]).
Proof.
intros [Hne Hn]%andb_true_iff. apply negb_true_iff, bool_decide_eq_false in Hne.
destruct name as [|c name]; [done|].
assert (c <> LBRACE) as Hc.
{ simpl in Hn. apply andb_true_iff in Hn as [Hc _].
  apply negb_true_iff, orb_false_iff in Hc as [_ Hc]. unfold special in Hc.
  repeat (apply orb_false_iff in Hc as [Hc ?]). by apply N.eqb_neq. }
rewrite <- app_comm_cons, scan_open by done.
by rewrite app_comm_cons, (scan_field (c :: name) rest []).
Qed.

(** The template made of one placeholder formats to the value given for
    it, as it is. *)
Lemma format_var name value vars :
  is_name name = true -> vars !! name = Some value ->
  format_template (LBRACE :: name ++ [RBRACE]) vars = Ok value.
Proof.
intros Hn Hv. unfold format_template, parse_template.
rewrite scan_var by done. simpl. rewrite Hv. simpl. by rewrite app_nil_r.
Qed.

(** ** Escaping *)

(** A text written so that a template reads it as literal text. *)
Definition escape (s : pystr) : pystr :=
  s ≫= (fun c => if (c =? LBRACE) || (c =? RBRACE) then [c; c] else [c]).

Lemma scan_escape s lit acc :
  scan (escape s) (InText lit) acc = Ok (flush (lit ++ s) acc).
Proof.
revert lit. induction s as [|c s IH]; intros lit.
- simpl. by rewrite app_nil_r.
- change (escape (c :: s)) with
    ((if (c =? LBRACE) || (c =? RBRACE) then [c; c] else [c]) ++ escape s).
  destruct (c =? LBRACE) eqn:Hl.
  { apply N.eqb_eq in Hl as ->. cbn [orb app scan]. rewrite !N.eqb_refl, IH.
    by rewrite <- app_assoc. }
  destruct (c =? RBRACE) eqn:Hr.
  { apply N.eqb_eq in Hr as ->. cbn [orb app scan]. rewrite !N.eqb_refl.
    change (RBRACE =? LBRACE) with false. cbn iota. rewrite IH.
    by rewrite <- app_assoc. }
  cbn [orb app scan]. rewrite Hl, Hr, IH. by rewrite <- app_assoc.
Qed.

Lemma format_escape s vars : format_template (escape s) vars = Ok s.
Proof.
unfold format_template, parse_template. rewrite scan_escape. simpl.
apply render_flush.
Qed.

Example parse_example :
  parse_template "{{Dear}} {name}, {greeting}!"%py =
  Ok [Lit "{Dear} "%py; Var "name"%py; Lit ", "%py; Var "greeting"%py;
      Lit "!"%py].
Proof. reflexivity. Qed.

Example format_missing :
  format_template "{name}"%py ∅ = Err (key_error "name"%py).
Proof. reflexivity. Qed.

Example format_unclosed :
  format_template "{name"%py ∅ =
  Err (format_error "expected '}' before end of string"%py).
Proof. reflexivity. Qed.

(** ** Chat prompts *)

(** [ChatPromptTemplate.from_messages]: the templates are read when the
    prompt is built. *)
Definition prompt_template : Type := list (pystr * list piece).

Definition from_messages (messages : list (pystr * pystr)) :
    result prompt_template :=
  rmapM (fun m => (pieces <- parse_template m.2 ;; Ok (m.1, pieces))%res)
    messages.

(** The messages of a prompt for the values [vars]. *)
Definition format_messages (prompt : prompt_template)
    (vars : gmap pystr pystr) : result (list (pystr * pystr)) :=
  rmapM (fun m => (text <- render_pieces m.2 vars ;; Ok (m.1, text))%res)
    prompt.

Lemma parse_plain template :
  plain template = true -> parse_template template = Ok (flush template []).
Proof. intros Hp. unfold parse_template. by rewrite scan_plain. Qed.

Lemma parse_var name :
  is_name name = true ->
  parse_template (LBRACE :: name ++ [RBRACE]) = Ok [Var name].
Proof. intros Hn. unfold parse_template. by rewrite scan_var. Qed.

Lemma render_var name value vars :
  vars !! name = Some value -> render_pieces [Var name] vars = Ok value.
Proof. intros Hv. simpl. rewrite Hv. simpl. by rewrite app_nil_r. Qed.

Lemma from_messages_raises messages : raises_Exception (from_messages messages).
Proof.
intros e (m & _ & Hm)%rmapM_Err_inv. revert Hm.
apply raises_Exception_rbind; [|by intros ? ? [=]].
by apply (scan_raises_le (length m.2)).
Qed.

Lemma format_messages_raises prompt vars :
  raises_Exception (format_messages prompt vars).
Proof.
intros e (m & _ & Hm)%rmapM_Err_inv. revert Hm.
apply raises_Exception_rbind; [apply render_pieces_raises|by intros ? ? [=]].
Qed.

(** ** Writing a template

    The text that reads as given pieces: literal text with its braces
    doubled, a placeholder between braces.  Reading undoes writing up to
    the grouping of the literal text, and writing undoes reading
    exactly. *)

Definition print_piece (p : piece) : pystr :=
  match p with
  | Lit text => escape text
  | Var name => LBRACE :: name ++ [RBRACE]
  end.

Definition print_pieces (pieces : list piece) : pystr :=
  pieces ≫= print_piece.

(** The pieces as the reader groups them: adjacent literal texts are one
    piece and an empty one is none; [lit] is the literal text before the
    first piece. *)
Fixpoint regroup (lit : pystr) (pieces : list piece) : list piece :=
  match pieces with
  | [] => flush lit []
  | Lit text :: rest => regroup (lit ++ text) rest
  | Var name :: rest => flush lit [] ++ Var name :: regroup [] rest
  end.

(** Pieces as the reader returns them. *)
Fixpoint grouped (pieces : list piece) : Prop :=
  match pieces with
  | [] => True
  | Lit text :: rest =>
      text <> [] /\ match rest with Lit _ :: _ => False | _ => True end /\
      grouped rest
  | Var name :: rest => grouped rest
  end.

Definition named (pieces : list piece) : Prop :=
  Forall (fun name => is_name name = true) (variables pieces).

Lemma escape_app s t : escape (s ++ t) = escape s ++ escape t.
Proof. apply bind_app. Qed.

Lemma print_pieces_app ps qs :
  print_pieces (ps ++ qs) = print_pieces ps ++ print_pieces qs.
Proof. apply bind_app. Qed.

Lemma print_pieces_flush lit acc :
  print_pieces (flush lit acc) = print_pieces acc ++ escape lit.
Proof.
destruct lit; simpl; [by rewrite app_nil_r|].
rewrite print_pieces_app. unfold print_pieces at 2. simpl.
by rewrite app_nil_r.
Qed.

(** Escaped text in front of a template is read as the text. *)
Lemma scan_escape_app s rest lit acc :
  scan (escape s ++ rest) (InText lit) acc = scan rest (InText (lit ++ s)) acc.
Proof.
revert lit. induction s as [|c s IH]; intros lit.
- simpl. by rewrite app_nil_r.
- change (escape (c :: s)) with
    ((if (c =? LBRACE) || (c =? RBRACE) then [c; c] else [c]) ++ escape s).
  rewrite <- app_assoc.
  destruct (c =? LBRACE) eqn:Hl.
  { apply N.eqb_eq in Hl as ->. cbn [orb app scan]. rewrite !N.eqb_refl, IH.
    by rewrite <- app_assoc. }
  destruct (c =? RBRACE) eqn:Hr.
  { apply N.eqb_eq in Hr as ->. cbn [orb app scan]. rewrite !N.eqb_refl.
    change (RBRACE =? LBRACE) with false. cbn iota. rewrite IH.
    by rewrite <- app_assoc. }
  cbn [orb app scan]. rewrite Hl, Hr, IH. by rewrite <- app_assoc.
Qed.

Lemma named_cons_Var name ps :
  named (Var name :: ps) <-> is_name name = true /\ named ps.
Proof. unfold named. simpl. by rewrite Forall_cons. Qed.

(** Reading what was written. *)
Lemma scan_print ps lit acc :
  named ps ->
  scan (print_pieces ps) (InText lit) acc = Ok (acc ++ regroup lit ps).
Proof.
revert lit acc. induction ps as [|[text|name] ps IH]; intros lit acc Hn.
- simpl. by rewrite flush_app.
- change (print_pieces (Lit text :: ps)) with (escape text ++ print_pieces ps).
  rewrite scan_escape_app. by apply IH.
- apply named_cons_Var in Hn as [Hname Hn].
  change (print_pieces (Var name :: ps))
    with ((LBRACE :: name ++ [RBRACE]) ++ print_pieces ps).
  rewrite <- app_comm_cons, <- app_assoc. cbn [app].
  rewrite scan_var, IH by done. simpl.
  by rewrite (flush_app lit acc), <- !app_assoc.
Qed.

Lemma regroup_grouped ps : grouped ps -> regroup [] ps = ps.
Proof.
induction ps as [|[text|name] ps IH]; simpl; [done| |by intros ->%IH].
intros (Ht & Hnext & Hps). destruct ps as [|[t|x] ps]; [|done|].
- simpl. by destruct text.
- simpl in *. destruct text; [done|]. by rewrite IH.
Qed.

Lemma parse_print_pieces ps :
  named ps -> grouped ps -> parse_template (print_pieces ps) = Ok ps.
Proof.
intros Hn Hg. unfold parse_template.
by rewrite scan_print, regroup_grouped.
Qed.

(** The grouping does not change the text the pieces give. *)
Lemma render_regroup lit ps vars :
  render_pieces (regroup lit ps) vars =
  (text <- render_pieces ps vars ;; Ok (lit ++ text))%res.
Proof.
revert lit. induction ps as [|[t|x] ps IH]; intros lit; simpl.
- rewrite render_flush. by rewrite app_nil_r.
- rewrite IH. destruct (render_pieces ps vars); simpl; [done|].
  by rewrite app_assoc.
- rewrite render_pieces_app, render_flush. simpl.
  destruct (vars !! x); [|done]. rewrite IH.
  by destruct (render_pieces ps vars).
Qed.

(** Formatting a written template is rendering its pieces. *)
Lemma format_print_pieces ps vars :
  named ps -> format_template (print_pieces ps) vars = render_pieces ps vars.
Proof.
intros Hn. unfold format_template, parse_template.
rewrite scan_print by done. simpl. rewrite render_regroup.
by destruct (render_pieces ps vars).
Qed.

(** What the reader has consumed of the piece it is in. *)
Definition pending (m : mode) : pystr :=
  match m with
  | InText lit => escape lit
  | InField name => LBRACE :: name
  end.

Lemma escape_snoc lit c :
  escape (lit ++ [c]) =
  escape lit ++ (if (c =? LBRACE) || (c =? RBRACE) then [c; c] else [c]).
Proof.
rewrite escape_app. f_equal. unfold escape. simpl.
by destruct ((c =? LBRACE) || (c =? RBRACE)).
Qed.

Lemma print_pieces_snoc_Var acc name :
  print_pieces (acc ++ [Var name]) =
  print_pieces acc ++ LBRACE :: name ++ [RBRACE].
Proof.
rewrite print_pieces_app. unfold print_pieces at 2. simpl.
by rewrite app_nil_r.
Qed.

(** One step of the reader keeps the text written so far together with
    the text still to read. *)
Lemma scan_written n s m acc ps :
  (length s <= n)%nat -> scan s m acc = Ok ps ->
  print_pieces ps = print_pieces acc ++ pending m ++ s.
Proof.
revert s m acc.
induction n as [|n IH]; intros [|c s] [lit|name] acc Hn; simpl in Hn;
  try lia; simpl.
1,3: intros [= <-]; by rewrite print_pieces_flush, app_nil_r.
1,2: done.
- destruct (c =? LBRACE) eqn:Hl; [apply N.eqb_eq in Hl as ->|].
  { destruct s as [|c' s]; [done|]. destruct (c' =? LBRACE) eqn:Hl'.
    - apply N.eqb_eq in Hl' as ->. intros ->%IH; [|simpl in *; lia].
      simpl. rewrite escape_snoc. simpl. by rewrite <- app_assoc.
    - intros ->%IH; [|simpl in *; lia].
      by rewrite print_pieces_flush, <- app_assoc. }
  destruct (c =? RBRACE) eqn:Hr; [apply N.eqb_eq in Hr as ->|].
  { destruct s as [|c' s]; [done|]. destruct (c' =? RBRACE) eqn:Hr'; [|done].
    apply N.eqb_eq in Hr' as ->. intros ->%IH; [|simpl in *; lia].
    simpl. rewrite escape_snoc. simpl. by rewrite <- app_assoc. }
  intros ->%IH; [|lia]. simpl. rewrite escape_snoc, Hl, Hr. simpl.
  by rewrite <- app_assoc.
- destruct (c =? RBRACE) eqn:Hr; [apply N.eqb_eq in Hr as ->|].
  { destruct name as [|c' name]; [done|]. intros ->%IH; [|lia].
    rewrite print_pieces_snoc_Var, <- !app_assoc. simpl.
    by rewrite <- app_assoc. }
  destruct (special c); [done|]. intros ->%IH; [|lia].
  simpl. by rewrite <- app_assoc.
Qed.

(** Writing undoes reading: a template that is read is the writing of
    its pieces. *)
Lemma print_parse_template template ps :
  parse_template template = Ok ps -> print_pieces ps = template.
Proof. intros Hp. by apply (scan_written (length template)) in Hp. Qed.

Example print_example :
  print_pieces [Lit "{Dear} "%py; Var "name"%py; Lit "!"%py] =
  "{{Dear}} {name}!"%py.
Proof. reflexivity. Qed.

(** C40.  Round trip of the templates: a template that is read is the
    writing of its pieces, whatever it holds (doubled braces, placeholders,
    text), and pieces with proper names, grouped as the reader groups
    them, are read back from their writing; formatting a written template
    inserts the values at its placeholders and nowhere else. *)
Theorem template_round_trip :
  (forall template ps,
     parse_template template = Ok ps -> print_pieces ps = template) /\
  (forall ps,
     named ps -> grouped ps -> parse_template (print_pieces ps) = Ok ps) /\
  (forall ps vars,
     named ps ->
     format_template (print_pieces ps) vars = render_pieces ps vars).
Proof.
split; [apply print_parse_template|].
split; [apply parse_print_pieces|apply format_print_pieces].
Qed.
