(* ===== verification/Effects.v ===== *)
(** * Effects: calls to the remote services

    The sources reach the outside world through the construction of the
    two clients when their modules are imported and, for a request,
    through five calls: the Tavily client's [search], the Firecrawl
    client's [scrape], the loading and the invocation of the language
    model, [datetime.now()] and [print].  A
    handler of the sources is a program over these calls: a tree whose nodes
    are calls and whose leaves are results or raised exceptions ([prog]).
    The environment answers a call with a value or with an exception; the
    program sees both, so that [try]/[except] is a function on programs.

    [run] executes a program against an environment given as a state
    machine and returns the outcome, the calls made in order, and the final
    state of the environment.  [prog_equiv] identifies programs that make
    the same calls and react in the same way to every answer. *)

From S2P Require Import Prelude PyStr PyVal.

(** ** What the Firecrawl SDK hands back *)

(** An attribute of an object as [hasattr]/[callable] see it; a method is
    given with what calling it (without arguments) yields. *)
Inductive attr : Type :=
| Absent
| NotCallable
| Method (outcome : result pyval).

(** The object returned by [FirecrawlApp.scrape]: a plain [dict], or an
    object with some of the methods [model_dump], [dict] and [json], and
    the text [str(obj)] gives. *)
Inductive sdk_object : Type :=
| ObjDict (d : gmap pystr pyval)
| ObjModel (model_dump dict_ json_ : attr) (str_ : result pystr).

#[export] Instance attr_eq_dec : EqDecision attr.
Proof. solve_decision. Defined.

#[export] Instance sdk_object_eq_dec : EqDecision sdk_object.
Proof. solve_decision. Defined.

(** [datetime.now()]: microseconds since the epoch. *)
Definition timestamp : Type := Z.

(** ** The settings *)

(** [app.config.settings], as far as the sources read it. *)
Record Settings : Type := {
  tavily_api_key : pyval;
  firecrawl_api_key : pyval;
  cors_origins_list : pyval;
  host : pyval;
  port : pyval
}.

(** ** Calls *)

Inductive event : Type -> Type :=
| TavilyClient (api_key : pyval) : event unit
| FirecrawlApp (api_key : pyval) : event unit
| TavilySearch (query search_depth : pystr) (max_results : Z)
    (include_images : bool) : event pyval
| FirecrawlScrape (url : pyval) (formats : list pystr) (max_age : Z) :
    event sdk_object
| LoadLLM : event unit
| LLMInvoke (messages : list (pystr * pystr)) : event pystr
| Now : event timestamp
| Print (args : list pyval) : event unit.

(** A call with its answer type forgotten, as it appears in a log. *)
Definition call : Type := sigT event.
Definition mkcall {X} (ev : event X) : call := existT X ev.

(** ** Programs *)

Inductive prog (A : Type) : Type :=
| Ret (a : A)
| Raise (e : exn)
| Vis {X : Type} (ev : event X) (k : result X -> prog A).

Arguments Ret {A} a.
Arguments Raise {A} e.
Arguments Vis {A X} ev k.

Declare Scope prog_scope.
Delimit Scope prog_scope with prog.
Bind Scope prog_scope with prog.

Fixpoint pbind {A B} (p : prog A) (f : A -> prog B) : prog B :=
  match p with
  | Ret a => f a
  | Raise e => Raise e
  | Vis ev k => Vis ev (fun r => pbind (k r) f)
  end.

Notation "x <- m ;; k" := (pbind m (fun x => k%prog))
  (at level 100, m at next level, right associativity) : prog_scope.
Notation "m ;; k" := (pbind m (fun _ => k%prog))
  (at level 100, right associativity) : prog_scope.

(** A pure computation that may raise, as a program. *)
Definition lift {A} (r : result A) : prog A :=
  match r with
  | inl e => Raise e
  | inr a => Ret a
  end.

(** One call; an exception of the environment is raised in the program. *)
Definition perform {X} (ev : event X) : prog X := Vis ev lift.

(** [try: p except Exception as e: h e]. *)
Fixpoint try_except {A} (p : prog A) (h : exn -> prog A) : prog A :=
  match p with
  | Ret a => Ret a
  | Raise e => if is_Exception e then h e else Raise e
  | Vis ev k => Vis ev (fun r => try_except (k r) h)
  end.

(** [for x in items: s = body i x s], [i] being the position of [x]. *)
Fixpoint for_each {A St} (body : nat -> A -> St -> prog St) (i : nat)
    (items : list A) (s : St) : prog St :=
  match items with
  | [] => Ret s
  | x :: rest => pbind (body i x s) (for_each body (S i) rest)
  end.

(** ** Equivalence of programs *)

(** Same leaves, same calls, and equivalent continuations for every
    answer.  (Equality itself would need functional extensionality.) *)
Fixpoint prog_equiv {A} (p q : prog A) : Prop :=
  match p with
  | Ret a => q = Ret a
  | Raise e => q = Raise e
  | Vis ev k => exists k', q = Vis ev k' /\ forall r, prog_equiv (k r) (k' r)
  end.

#[export] Instance prog_Equiv {A} : Equiv (prog A) := prog_equiv.

(** ** Running a program *)

(** The environment: a state and its answer to each call. *)
Definition handler (W : Type) : Type :=
  forall X, event X -> W -> result X * W.

Record outcome (W A : Type) : Type := Outcome {
  out_result : result A;
  out_log : list call;
  out_world : W
}.

Arguments Outcome {W A}.
Arguments out_result {W A}.
Arguments out_log {W A}.
Arguments out_world {W A}.

Fixpoint run_from {W A} (h : handler W) (p : prog A) (w : W)
    (log : list call) : outcome W A :=
  match p with
  | Ret a => Outcome (Ok a) log w
  | Raise e => Outcome (Err e) log w
  | Vis ev k =>
      let '(r, w') := h _ ev w in
      run_from h (k r) w' (log ++ [mkcall ev])
  end.

Definition run {W A} (h : handler W) (p : prog A) (w : W) : outcome W A :=
  run_from h p w [].

(** ** Laws *)

Lemma equiv_Vis {A X} (ev : event X) (k k' : result X -> prog A) :
  (forall r, k r ≡ k' r) -> Vis ev k ≡ Vis ev k'.
Proof. intros H. exists k'. done. Qed.

#[export] Instance prog_equiv_refl {A} : Reflexive (≡@{prog A}).
Proof. intros p. induction p; [done | done | by apply equiv_Vis]. Qed.

#[export] Instance prog_equiv_sym {A} : Symmetric (≡@{prog A}).
Proof.
intros p. induction p as [a|e|X ev k IH]; intros q Hq.
- by rewrite Hq.
- by rewrite Hq.
- destruct Hq as (k' & -> & Hk). apply equiv_Vis. intros r. apply IH, Hk.
Qed.

#[export] Instance prog_equiv_trans {A} : Transitive (≡@{prog A}).
Proof.
intros p. induction p as [a|e|X ev k IH]; intros q r Hq Hr.
- rewrite Hq in Hr. exact Hr.
- rewrite Hq in Hr. exact Hr.
- destruct Hq as (k' & -> & Hk). destruct Hr as (k'' & -> & Hk').
  apply equiv_Vis. intros x. eapply IH; [apply Hk | apply Hk'].
Qed.

#[export] Instance prog_equivalence {A} : Equivalence (≡@{prog A}).
Proof. split; apply _. Qed.

Section laws.
Context {A B C : Type}.

Lemma pbind_Ret_l (a : A) (f : A -> prog B) : pbind (Ret a) f = f a.
Proof. reflexivity. Qed.

Lemma pbind_Raise (e : exn) (f : A -> prog B) : pbind (Raise e) f = Raise e.
Proof. reflexivity. Qed.

Lemma pbind_lift_Ok (a : A) (f : A -> prog B) : pbind (lift (Ok a)) f = f a.
Proof. reflexivity. Qed.

Lemma pbind_Ret_r (p : prog A) : pbind p Ret ≡ p.
Proof. induction p; simpl; [done | done | by apply equiv_Vis]. Qed.

Lemma pbind_assoc (p : prog A) (f : A -> prog B) (g : B -> prog C) :
  pbind (pbind p f) g ≡ pbind p (fun a => pbind (f a) g).
Proof. induction p; simpl; [reflexivity | reflexivity | by apply equiv_Vis]. Qed.

Lemma pbind_equiv (p q : prog A) (f g : A -> prog B) :
  p ≡ q -> (forall a, f a ≡ g a) -> pbind p f ≡ pbind q g.
Proof.
intros H Hfg. revert q H. induction p as [a|e|X ev k IH]; intros q Hq.
- rewrite Hq. apply Hfg.
- by rewrite Hq.
- destruct Hq as (k' & -> & Hk). apply equiv_Vis. intros r. apply IH, Hk.
Qed.

Lemma lift_rbind (m : result A) (f : A -> result B) :
  lift (rbind m f) = pbind (lift m) (fun a => lift (f a)).
Proof. by destruct m. Qed.

End laws.

#[export] Instance pbind_proper {A B} :
  Proper ((≡) ==> pointwise_relation A (≡) ==> (≡)) (@pbind A B).
Proof. intros p q H f g Hfg. by apply pbind_equiv. Qed.

Lemma try_except_equiv {A} (p q : prog A) (h h' : exn -> prog A) :
  p ≡ q -> (forall e, h e ≡ h' e) -> try_except p h ≡ try_except q h'.
Proof.
intros H Hh. revert q H. induction p as [a|e|X ev k IH]; intros q Hq.
- by rewrite Hq.
- rewrite Hq. simpl. destruct (is_Exception e); [apply Hh | reflexivity].
- destruct Hq as (k' & -> & Hk). apply equiv_Vis. intros r. apply IH, Hk.
Qed.

#[export] Instance try_except_proper {A} :
  Proper ((≡) ==> pointwise_relation exn (≡) ==> (≡)) (@try_except A).
Proof. intros p q H f g Hfg. by apply try_except_equiv. Qed.

Section run.
Context {W : Type} (h : handler W).

Lemma run_from_equiv {A} (p q : prog A) w log :
  p ≡ q -> run_from h p w log = run_from h q w log.
Proof.
revert q w log. induction p as [a|e|X ev k IH]; intros q w log Hq.
- by rewrite Hq.
- by rewrite Hq.
- destruct Hq as (k' & -> & Hk). simpl.
  destruct (h X ev w) as [r w']. apply IH, Hk.
Qed.

#[export] Instance run_proper {A} :
  Proper ((≡) ==> (=) ==> (=)) (@run W A h).
Proof. intros p q H w ? <-. by apply run_from_equiv. Qed.

Lemma run_from_log {A} (p : prog A) w log :
  run_from h p w log =
  let o := run_from h p w [] in
  Outcome (out_result o) (log ++ out_log o) (out_world o).
Proof.
revert w log. induction p as [a|e|X ev k IH]; intros w log; simpl.
- by rewrite app_nil_r.
- by rewrite app_nil_r.
- destruct (h X ev w) as [r w']. rewrite (IH r w' (log ++ _)), (IH r w' [_]).
  simpl. by rewrite <- app_assoc.
Qed.

Lemma run_from_bind {A B} (p : prog A) (f : A -> prog B) w log :
  run_from h (pbind p f) w log =
  let o := run_from h p w log in
  match out_result o with
  | inl e => Outcome (Err e) (out_log o) (out_world o)
  | inr a => run_from h (f a) (out_world o) (out_log o)
  end.
Proof.
revert w log. induction p as [a|e|X ev k IH]; intros w log; simpl; [done..|].
destruct (h X ev w) as [r w']. apply IH.
Qed.

(** Running [p] and then [f] is running [p], then [f] on its result from
    the state [p] left; an exception of [p] ends the run. *)
Lemma run_bind {A B} (p : prog A) (f : A -> prog B) w :
  run h (pbind p f) w =
  let o := run h p w in
  match out_result o with
  | inl e => Outcome (Err e) (out_log o) (out_world o)
  | inr a =>
      let o' := run h (f a) (out_world o) in
      Outcome (out_result o') (out_log o ++ out_log o') (out_world o')
  end.
Proof.
unfold run. rewrite run_from_bind. simpl.
destruct (out_result (run_from h p w [])); [done|]. apply run_from_log.
Qed.

Lemma run_perform {X} (ev : event X) w :
  run h (perform ev) w =
  Outcome (h X ev w).1 [mkcall ev] (h X ev w).2.
Proof.
unfold run, perform. simpl. destruct (h X ev w) as [[e|x] w']; reflexivity.
Qed.

Lemma run_lift {A} (r : result A) w : run h (lift r) w = Outcome r [] w.
Proof. by destruct r. Qed.

Lemma run_from_try_except {A} (p : prog A) (f : exn -> prog A) w log :
  run_from h (try_except p f) w log =
  let o := run_from h p w log in
  match out_result o with
  | inl e =>
      if is_Exception e then run_from h (f e) (out_world o) (out_log o) else o
  | inr a => o
  end.
Proof.
revert w log. induction p as [a|e|X ev k IH]; intros w log; simpl.
- done.
- by destruct (is_Exception e).
- destruct (h X ev w) as [r w']. apply IH.
Qed.

(** [try]/[except]: the body runs; an [Exception] it raises starts the
    handler in the state the body left, any other outcome is final. *)
Lemma run_try_except {A} (p : prog A) (f : exn -> prog A) w :
  run h (try_except p f) w =
  let o := run h p w in
  match out_result o with
  | inl e =>
      if is_Exception e then
        let o' := run h (f e) (out_world o) in
        Outcome (out_result o') (out_log o ++ out_log o') (out_world o')
      else o
  | inr a => o
  end.
Proof.
unfold run. rewrite run_from_try_except. simpl.
destruct (out_result (run_from h p w [])) as [e|a]; [|done].
destruct (is_Exception e); [|done]. apply run_from_log.
Qed.

Lemma run_Raise {A} (e : exn) w : run h (@Raise A e) w = Outcome (Err e) [] w.
Proof. reflexivity. Qed.

Lemma run_Ret {A} (a : A) w : run h (Ret a) w = Outcome (Ok a) [] w.
Proof. reflexivity. Qed.

End run.
