(* ===== verification/Logic.v ===== *)
(** * Logic: postconditions of programs, whatever the services answer

    [post_under C p log Q] says that on every path through the program
    [p] on which the services answer each call as the contract [C] allows
    (with a value or an exception), the outcome and the calls made,
    appended to [log], satisfy [Q].  [post p log Q] is the case where
    nothing is assumed of the services.  Neither mentions an environment:
    a property proved with [post] holds in every run ([post_run]), one
    proved under a contract holds in the runs against an environment that
    honours it ([post_under_run]); under a contract that fixes every
    answer the postcondition is the outcome of one run ([post_scripted]).

    The rules follow the constructs of the sources: sequencing,
    [try]/[except], a single call, a pure computation, a [for] loop with
    an invariant.  [pbind_equiv_post] rewrites the rest of a program under
    what is known of the value it receives. *)

From S2P Require Import Prelude PyStr PyVal Effects.

(** What is assumed of the services: the answers a call may receive. *)
Definition contract : Type := forall X, event X -> result X -> Prop.

(** Nothing is assumed. *)
Definition anything : contract := fun _ _ _ => True.

(** Every answer is fixed. *)
Definition scripted (answer : forall X, event X -> result X) : contract :=
  fun X ev r => r = answer X ev.

(** The environment that gives the answers of a script. *)
Definition script_handler (answer : forall X, event X -> result X) :
    handler unit :=
  fun X ev w => (answer X ev, w).

(** An environment whose answers are always among those of the contract. *)
Definition honours {W} (h : handler W) (C : contract) : Prop :=
  forall X (ev : event X) w, C X ev (h X ev w).1.

Fixpoint post_under (C : contract) {A} (p : prog A) (log : list call)
    (Q : result A -> list call -> Prop) : Prop :=
  match p with
  | Ret a => Q (Ok a) log
  | Raise e => Q (Err e) log
  | Vis ev k =>
      forall r, C _ ev r -> post_under C (k r) (log ++ [mkcall ev]) Q
  end.

Abbreviation post := (post_under anything).

(** The postcondition of a sequence: what the second part must establish
    from the outcome of the first. *)
Definition then_post (C : contract) {A B} (f : A -> prog B)
    (Q : result B -> list call -> Prop) (r : result A) (log : list call) :
    Prop :=
  match r with
  | inl e => Q (Err e) log
  | inr a => post_under C (f a) log Q
  end.

(** The postcondition of the body of a [try] with handler [h]. *)
Definition except_post (C : contract) {A} (h : exn -> prog A)
    (Q : result A -> list call -> Prop) (r : result A) (log : list call) :
    Prop :=
  match r with
  | inl e => if is_Exception e then post_under C (h e) log Q else Q (Err e) log
  | inr a => Q (Ok a) log
  end.

(** A postcondition on the value returned, any exception allowed. *)
Definition returns {A} (P : A -> Prop) (r : result A) (_ : list call) :
    Prop :=
  match r with
  | inl _ => True
  | inr a => P a
  end.

(** A postcondition on the outcome alone. *)
Definition outcome_is {A} (P : result A -> Prop) (r : result A)
    (_ : list call) : Prop := P r.

Section rules.
Context (C : contract) {A : Type}.
Implicit Types (p : prog A) (Q R : result A -> list call -> Prop).

Lemma post_mono p log Q R :
  (forall r l, Q r l -> R r l) -> post_under C p log Q -> post_under C p log R.
Proof.
intros HQR. revert log.
induction p as [a|e|X ev k IH]; simpl; intros log; auto.
Qed.

Lemma post_conj p log Q R :
  post_under C p log Q -> post_under C p log R ->
  post_under C p log (fun r l => Q r l /\ R r l).
Proof.
revert log. induction p as [a|e|X ev k IH]; simpl; intros log; auto.
Qed.

(** The calls made before the program do not matter to it. *)
Lemma post_frame p log Q :
  post_under C p log Q <-> post_under C p [] (fun r l => Q r (log ++ l)).
Proof.
revert log Q. induction p as [a|e|X ev k IH]; simpl; intros log Q.
- by rewrite app_nil_r.
- by rewrite app_nil_r.
- split; intros Hp r Hr; specialize (Hp r Hr).
  + apply IH. apply IH in Hp. eapply post_mono; [|exact Hp].
    intros r' l. simpl. by rewrite <- app_assoc.
  + apply IH. apply IH in Hp. eapply post_mono; [|exact Hp].
    intros r' l. simpl. by rewrite <- app_assoc.
Qed.

Lemma post_lift (r : result A) log Q : post_under C (lift r) log Q <-> Q r log.
Proof. by destruct r. Qed.

Lemma post_perform (ev : event A) log Q :
  post_under C (perform ev) log Q <->
  forall r, C _ ev r -> Q r (log ++ [mkcall ev]).
Proof.
unfold perform. simpl. split; intros Hp r Hr; specialize (Hp r Hr);
  by apply post_lift.
Qed.

Lemma post_try_except p (h : exn -> prog A) log Q :
  post_under C (try_except p h) log Q <->
  post_under C p log (except_post C h Q).
Proof.
revert log. induction p as [a|e|X ev k IH]; simpl; intros log; [done| |].
- by destruct (is_Exception e).
- by setoid_rewrite IH.
Qed.

(** Equivalent programs have the same postconditions. *)
Lemma post_equiv p q log Q :
  p ≡ q -> post_under C p log Q -> post_under C q log Q.
Proof.
revert q log. induction p as [a|e|X ev k IH]; intros q log Hpq.
- by change (q = Ret a) in Hpq; subst q.
- by change (q = Raise e) in Hpq; subst q.
- destruct Hpq as (k' & -> & Hk). simpl. intros Hp r Hr.
  eapply IH; [apply Hk | by apply Hp].
Qed.

(** A postcondition holds under every stronger assumption. *)
Lemma post_contract_mono (C' : contract) p log Q :
  (forall X ev r, C X ev r -> C' X ev r) ->
  post_under C' p log Q -> post_under C p log Q.
Proof.
intros HC. revert log.
induction p as [a|e|X ev k IH]; simpl; intros log; auto.
Qed.

(** Soundness: the postcondition holds of every run against an
    environment that honours the contract. *)
Lemma post_under_run_from {W} (h : handler W) p w log Q :
  honours h C -> post_under C p log Q ->
  Q (out_result (run_from h p w log)) (out_log (run_from h p w log)).
Proof.
intros Hh. revert w log.
induction p as [a|e|X ev k IH]; simpl; intros w log; auto.
intros Hp. pose proof (Hh X ev w) as Hr.
destruct (h X ev w) as [r w']. apply IH, Hp, Hr.
Qed.

Lemma post_under_run {W} (h : handler W) p w Q :
  honours h C -> post_under C p [] Q ->
  Q (out_result (run h p w)) (out_log (run h p w)).
Proof. apply post_under_run_from. Qed.

End rules.

Section unconditional.
Context {A : Type}.
Implicit Types (p : prog A) (Q : result A -> list call -> Prop).

Lemma post_any (C : contract) p log Q : post p log Q -> post_under C p log Q.
Proof. by apply post_contract_mono. Qed.

Lemma honours_anything {W} (h : handler W) : honours h anything.
Proof. done. Qed.

Lemma post_run_from {W} (h : handler W) p w log Q :
  post p log Q ->
  Q (out_result (run_from h p w log)) (out_log (run_from h p w log)).
Proof. apply post_under_run_from, honours_anything. Qed.

Lemma post_run {W} (h : handler W) p w Q :
  post p [] Q -> Q (out_result (run h p w)) (out_log (run h p w)).
Proof. apply post_run_from. Qed.

Lemma script_handler_honours answer :
  honours (script_handler answer) (scripted answer).
Proof. by intros X ev w. Qed.

(** Under a script there is one path: the run against the script. *)
Lemma post_scripted answer p log Q :
  post_under (scripted answer) p log Q <->
  Q (out_result (run_from (script_handler answer) p () log))
    (out_log (run_from (script_handler answer) p () log)).
Proof.
revert log. induction p as [a|e|X ev k IH]; simpl; intros log; [done..|].
rewrite <- IH. unfold scripted. split; [by auto|by intros Hp r ->].
Qed.

(** Every program has a path: what holds on all of them holds of some
    outcome and some calls. *)
Lemma post_inhabited p log Q : post p log Q -> exists r l, Q r (log ++ l).
Proof.
revert log. induction p as [a|e|X ev k IH]; simpl; intros log Hp.
- exists (Ok a), []. by rewrite app_nil_r.
- exists (Err e), []. by rewrite app_nil_r.
- destruct (IH (Err (PyExc Exception [])) _ (Hp _ I)) as (r & l & HQ).
  exists r, (mkcall ev :: l). by rewrite cons_middle, app_assoc.
Qed.

End unconditional.

#[export] Instance post_proper {A} C :
  Proper ((≡) ==> (=) ==> (=) ==> iff) (@post_under C A).
Proof.
intros p q Hpq ? log -> ? Q ->.
split; apply post_equiv; [done|by symmetry].
Qed.

Section sequence.
Context (C : contract) {A B : Type}.

Lemma post_bind (p : prog A) (f : A -> prog B) log Q :
  post_under C (pbind p f) log Q <-> post_under C p log (then_post C f Q).
Proof.
revert log. induction p as [a|e|X ev k IH]; simpl; intros log; [done..|].
by setoid_rewrite IH.
Qed.

(** The two continuations need only agree on the values the first part
    can return. *)
Lemma pbind_equiv_post (p : prog A) (f g : A -> prog B) log :
  post p log (returns (fun a => f a ≡ g a)) -> pbind p f ≡ pbind p g.
Proof.
revert log. induction p as [a|e|X ev k IH]; simpl; intros log Hp.
- done.
- done.
- exists (fun r => pbind (k r) g). split; [done|]. intros r.
  by eapply IH, Hp.
Qed.

End sequence.

(** ** Loops *)

Section loops.
Context (C : contract) {A St : Type} (body : nat -> A -> St -> prog St).

(** The invariant [I] speaks of the elements already visited, the state
    and the calls made; [E] is what holds when the body raises. *)
Lemma post_for_each_from (I : list A -> St -> list call -> Prop)
    (E : exn -> list call -> Prop) seen items s log :
  I seen s log ->
  (forall seen' x rest s' l,
     seen ++ items = seen' ++ x :: rest -> I seen' s' l ->
     post_under C (body (length seen') x s') l (fun r l' =>
       match r with
       | inl e => E e l'
       | inr s'' => I (seen' ++ [x]) s'' l'
       end)) ->
  post_under C (for_each body (length seen) items s) log (fun r l =>
    match r with
    | inl e => E e l
    | inr s' => I (seen ++ items) s' l
    end).
Proof.
revert seen s log. induction items as [|x items IH]; intros seen s log HI Hb.
- simpl. by rewrite app_nil_r.
- simpl. apply post_bind. eapply post_mono; [|by eapply Hb].
  intros [e|s'] l; simpl; [done|]. intros HI'.
  replace (S (length seen)) with (length (seen ++ [x]))
    by (rewrite length_app; simpl; lia).
  replace (seen ++ x :: items) with ((seen ++ [x]) ++ items)
    by by rewrite <- app_assoc.
  apply IH; [done|]. intros seen' y rest s'' l'.
  rewrite <- app_assoc. apply Hb.
Qed.

Lemma post_for_each (I : list A -> St -> list call -> Prop)
    (E : exn -> list call -> Prop) items s log :
  I [] s log ->
  (forall seen x rest s' l,
     items = seen ++ x :: rest -> I seen s' l ->
     post_under C (body (length seen) x s') l (fun r l' =>
       match r with
       | inl e => E e l'
       | inr s'' => I (seen ++ [x]) s'' l'
       end)) ->
  post_under C (for_each body 0 items s) log (fun r l =>
    match r with
    | inl e => E e l
    | inr s' => I items s' l
    end).
Proof. intros HI Hb. by apply (post_for_each_from I E []). Qed.

End loops.

(** Loops with equivalent bodies are equivalent. *)
Lemma for_each_equiv {A St} (body body' : nat -> A -> St -> prog St) i items s :
  (forall j x s', body j x s' ≡ body' j x s') ->
  for_each body i items s ≡ for_each body' i items s.
Proof.
intros Hb. revert i s. induction items as [|x items IH]; intros i s; simpl.
- done.
- apply pbind_equiv; [apply Hb|]. intros s'. apply IH.
Qed.

(** ** Environments and programs that raise nothing but Exceptions *)

(** An attribute whose call, when it is a method, raises an [Exception]
    at most. *)
Definition attr_civil (a : attr) : Prop :=
  match a with
  | Method outcome => raises_Exception outcome
  | Absent | NotCallable => True
  end.

Definition obj_civil (obj : sdk_object) : Prop :=
  match obj with
  | ObjDict _ => True
  | ObjModel model_dump dict_ json_ str_ =>
      attr_civil model_dump /\ attr_civil dict_ /\ attr_civil json_ /\
      raises_Exception str_
  end.

(** An answer without interrupt or exit: the call raises an [Exception]
    at most, and so do the methods of the object a scrape hands back. *)
Definition civil {X} (ev : event X) : result X -> Prop :=
  match ev in event X return result X -> Prop with
  | FirecrawlScrape _ _ _ => fun r =>
      match r with
      | inl e => is_Exception e = true
      | inr obj => obj_civil obj
      end
  | _ => fun r => raises_Exception r
  end.

(** A contract that allows civil answers only. *)
Definition polite (C : contract) : Prop :=
  forall X (ev : event X) r, C X ev r -> civil ev r.

(** The program raises nothing but instances of [Exception]. *)
Definition tame (C : contract) {A} (p : prog A) : Prop :=
  forall log, post_under C p log (outcome_is raises_Exception).

Lemma civil_raises {X} (ev : event X) r : civil ev r -> raises_Exception r.
Proof. destruct ev; try done. destruct r; [by intros ? ? [= <-]|done]. Qed.

Section tame.
Context (C : contract).

Lemma tame_Ret {A} (a : A) : tame C (Ret a).
Proof. by intros log e. Qed.

Lemma tame_Raise {A} e : is_Exception e = true -> tame C (@Raise A e).
Proof. by intros He log e' [= <-]. Qed.

Lemma tame_lift {A} (r : result A) : raises_Exception r -> tame C (lift r).
Proof. intros Hr log. by apply post_lift. Qed.

Lemma tame_perform {X} (ev : event X) : polite C -> tame C (perform ev).
Proof.
intros HC log. apply post_perform. intros r Hr.
by eapply civil_raises, HC.
Qed.

Lemma tame_bind {A B} (p : prog A) (f : A -> prog B) :
  tame C p -> (forall a, tame C (f a)) -> tame C (pbind p f).
Proof.
intros Hp Hf log. apply post_bind. eapply post_mono; [|apply Hp].
intros [e|a] l Hr; [|apply Hf]. intros e' [= <-]. exact (Hr e eq_refl).
Qed.

Lemma tame_try_except {A} (p : prog A) (h : exn -> prog A) :
  tame C p -> (forall e, tame C (h e)) -> tame C (try_except p h).
Proof.
intros Hp Hh log. apply post_try_except. eapply post_mono; [|apply Hp].
intros [e|a] l Hr; [|done]. simpl. rewrite (Hr e eq_refl). apply Hh.
Qed.

Lemma tame_for_each {A St} (body : nat -> A -> St -> prog St) i items s :
  (forall j x s', tame C (body j x s')) -> tame C (for_each body i items s).
Proof.
intros Hb. revert i s. induction items as [|x items IH]; intros i s.
- apply tame_Ret.
- apply tame_bind; [apply Hb|]. intros s'. apply IH.
Qed.

(** What leaves a [try] whose clause raises [e'] in place of every
    [Exception] of a tame body. *)
Lemma post_try_tame {A} (p : prog A) (h : exn -> exn) log :
  tame C p ->
  post_under C (try_except p (fun e => Raise (h e))) log
    (outcome_is (fun r => forall e', r = Err e' -> exists e, e' = h e)).
Proof.
intros Hp. apply post_try_except. eapply post_mono; [|apply Hp].
intros [e|a] l Hr; [|done]. simpl. rewrite (Hr e eq_refl).
intros e' [= <-]. by exists e.
Qed.

End tame.

#[export] Hint Resolve tame_Ret tame_lift tame_perform tame_bind
  tame_try_except tame_for_each : py.

(** Follows the constructs of a program down to its calls and pure
    steps, which are left to the hints of [py]. *)
Ltac solve_tame :=
  repeat first
    [ solve [auto with py]
    | apply tame_bind; [|intros ?]
    | apply tame_try_except; [|intros ?]
    | apply tame_for_each; intros ? ? ?
    | apply tame_lift ].
