(* ===== verification/Tavily.v ===== *)
(** * Tavily: the search client and the normaliser of its results

    [src/backend/app/services/tavily_service.py].  The class
    [TavilyService] has two methods: [search_travel_research], which calls
    the search provider and re-raises its failures under one message, and
    [format_results], which turns the provider's payload into a list of
    five-field records with defaults for absent fields and the content cut
    at 500 characters.

    The payload is dynamically typed.  A field that is absent gets its
    default; a field that is present with a value of the wrong shape is
    kept as it is, or makes [format_results] raise when the code slices or
    reads it: the theorems say exactly when. *)

From S2P Require Import Prelude PyStr PyVal Effects Logic.

(** The dictionary [format_results] builds for one hit.  The code creates
    it with these five keys and never adds or removes one, so it is a
    record; each field holds whatever value the payload had. *)
Record formatted : Type := Formatted {
  f_title : pyval;
  f_url : pyval;
  f_content : pyval;
  f_score : pyval;
  f_image_url : pyval
}.

#[export] Instance formatted_eq_dec : EqDecision formatted.
Proof. solve_decision. Defined.

Module TavilyService.

(** [__init__(self)]: the client is built with the key of the settings. *)
Definition init (settings : Settings) : prog unit :=
  perform (TavilyClient (tavily_api_key settings)).

(** [search_travel_research(self, query, max_results)]: one advanced
    search with images; an [Exception] of the provider is raised again as
    [Exception("Research search error: ...")]. *)
Definition search_travel_research (query : pystr) (max_results : Z) : prog pyval :=
  try_except
    (perform (TavilySearch query "advanced"%py max_results true))
    (fun e =>
       Raise (PyExc Exception ("Research search error: "%py ++ exn_str e))).

(** The dictionary built for one element of the results. *)
Definition format_result (hit : pyval) : result formatted :=
  (title <- py_get hit "title"%py (PStr "Untitled"%py) ;;
   url <- py_get hit "url"%py (PStr ""%py) ;;
   content <- py_get hit "content"%py (PStr ""%py) ;;
   content <- py_slice_to 500 content ;;
   score <- py_get hit "score"%py (PFloat float_zero) ;;
   image <- py_get hit "image"%py PNone ;;
   Ok (Formatted title url content score image))%res.

(** The loop of [format_results]: [formatted] is the list built so far. *)
Fixpoint format_loop (items : list pyval) (acc : list formatted) :
    result (list formatted) :=
  match items with
  | [] => Ok acc
  | item :: rest =>
      (f <- format_result item ;; format_loop rest (acc ++ [f]))%res
  end.

(** [format_results(self, raw_results)]. *)
Definition format_results (raw_results : pyval) : result (list formatted) :=
  (results <- py_get raw_results "results"%py (PList []) ;;
   items <- py_iter results ;;
   format_loop items [])%res.

End TavilyService.

(** The instance of the module, created when it is imported. *)
Definition tavily_service (settings : Settings) : prog unit :=
  TavilyService.init settings.

Import TavilyService.

(** ** Specification of one hit *)

(** A hit the normaliser accepts: a dictionary whose content, when
    present, can be sliced. *)
Definition sliceable (v : pyval) : Prop :=
  match v with PStr _ | PList _ => True | _ => False end.

Definition acceptable_hit (v : pyval) : Prop :=
  match v with
  | PDict d => sliceable (default (PStr []) (d !! "content"%py))
  | _ => False
  end.

(** The record of a hit given as a dictionary with a text content. *)
Definition formatted_of (d : gmap pystr pyval) (content : pyval) : formatted :=
  Formatted
    (default (PStr "Untitled"%py) (d !! "title"%py))
    (default (PStr ""%py) (d !! "url"%py))
    content
    (default (PFloat float_zero) (d !! "score"%py))
    (default PNone (d !! "image"%py)).

(** The content field holds at most 500 items. *)
Definition content_bounded (f : formatted) : Prop :=
  match f_content f with
  | PStr s => (length s <= 500)%nat
  | PList l => (length l <= 500)%nat
  | _ => False
  end.

#[export] Instance sliceable_dec v : Decision (sliceable v).
Proof. destruct v; simpl; apply _. Defined.

#[export] Instance acceptable_hit_dec v : Decision (acceptable_hit v).
Proof. destruct v; simpl; apply _. Defined.

#[export] Instance content_bounded_dec f : Decision (content_bounded f).
Proof. unfold content_bounded. destruct (f_content f); apply _. Defined.

(** ** [format_result] *)

Lemma format_result_dict d :
  format_result (PDict d) =
  (content <- py_slice_to 500 (default (PStr []) (d !! "content"%py)) ;;
   Ok (formatted_of d content))%res.
Proof. reflexivity. Qed.

Lemma format_result_Ok_inv v f :
  format_result v = Ok f ->
  exists d c, v = PDict d /\ f = formatted_of d c /\
    py_slice_to 500 (default (PStr []) (d !! "content"%py)) = Ok c.
Proof.
destruct v; try discriminate. rewrite format_result_dict.
intros (c & Hc & [= <-])%rbind_inv_Ok. eauto.
Qed.

Lemma format_result_acceptable v :
  is_Ok (format_result v) <-> acceptable_hit v.
Proof.
split.
- intros (f & (d & c & -> & _ & Hc)%format_result_Ok_inv). simpl.
  by apply py_slice_to_Ok_inv in Hc as [(s & -> & _)|(l & -> & _)].
- destruct v; try done. simpl. intros Hs. rewrite format_result_dict.
  destruct (default _ _); try done; by eexists.
Qed.

Lemma format_result_bounded v f : format_result v = Ok f -> content_bounded f.
Proof.
intros (d & c & -> & -> & Hc)%format_result_Ok_inv.
unfold content_bounded; simpl.
apply py_slice_to_Ok_inv in Hc as [(s & _ & ->)|(l & _ & ->)].
- apply slice_to_le.
- apply take_length_le.
Qed.

Lemma format_result_raises v : raises_Exception (format_result v).
Proof. unfold format_result. repeat (apply raises_Exception_rbind; [auto with py|intros ?]). auto with py. Qed.

(** ** The loop *)

Lemma format_loop_app items acc :
  format_loop items acc =
  (fs <- format_loop items [] ;; Ok (acc ++ fs))%res.
Proof.
revert acc. induction items as [|item items IH]; intros acc; simpl.
- by rewrite app_nil_r.
- destruct (format_result item) as [e|f]; simpl; [done|].
  rewrite (IH (acc ++ [f])), (IH [f]).
  destruct (format_loop items []) as [e|fs]; simpl; [done|].
  by rewrite <- app_assoc.
Qed.

Lemma format_loop_cons item items :
  format_loop (item :: items) [] =
  (f <- format_result item ;; fs <- format_loop items [] ;; Ok (f :: fs))%res.
Proof.
simpl. destruct (format_result item); simpl; [done|]. apply format_loop_app.
Qed.

(** The loop succeeds exactly when every item is formatted, and then
    gives the records in the order of the items. *)
Lemma format_loop_Ok items fs :
  format_loop items [] = Ok fs <->
  Forall2 (fun item f => format_result item = Ok f) items fs.
Proof.
revert fs. induction items as [|item items IH]; intros fs.
- split; [intros [= <-]; constructor | by intros ->%Forall2_nil_inv_l].
- rewrite format_loop_cons. split.
  + intros (f & Hf & (fs' & Hfs & [= <-])%rbind_inv_Ok)%rbind_inv_Ok.
    constructor; [done|]. by apply IH.
  + intros (f & fs' & Hf & Hfs%IH & ->)%Forall2_cons_inv_l.
    by rewrite Hf, Hfs.
Qed.

(** The first item that cannot be formatted decides the exception. *)
Lemma format_loop_Err items e :
  format_loop items [] = Err e <->
  exists pre item post, items = pre ++ item :: post /\
    Forall (fun i => is_Ok (format_result i)) pre /\
    format_result item = Err e.
Proof.
induction items as [|item items IH].
- split; [done|]. by intros ([|??] & ? & ? & ? & _).
- rewrite format_loop_cons.
  destruct (format_result item) as [e'|f] eqn:Hf; simpl.
  + split.
    * intros [= ->]. by exists [], item, items.
    * intros ([|i pre] & i' & post & [= <- _] & Hpre & He); [congruence|].
      apply Forall_cons in Hpre as [[f Hi] _]. congruence.
  + rewrite rbind_map_Err, IH. split.
    * intros (pre & i & post & -> & Hpre & He).
      exists (item :: pre), i, post. repeat split; [|done].
      constructor; [by exists f | done].
    * intros ([|i pre] & i' & post & [= <- ->] & Hpre & He); [congruence|].
      apply Forall_cons in Hpre as [_ Hpre]. by exists pre, i', post.
Qed.

(** ** [format_results] *)

(** What one accepted hit becomes. *)
Definition hit_formatted (item : pyval) (f : formatted) : Prop :=
  exists d c, item = PDict d /\ f = formatted_of d c /\
    py_slice_to 500 (default (PStr []) (d !! "content"%py)) = Ok c.

(** A hit whose fields have the types the provider documents: the content
    is absent or a string. *)
Definition content_text (d : gmap pystr pyval) : option pystr :=
  match d !! "content"%py with
  | None => Some []
  | Some (PStr s) => Some s
  | Some _ => None
  end.

Definition format_typed (d : gmap pystr pyval) : formatted :=
  formatted_of d (PStr (slice_to 500 (default [] (content_text d)))).

Lemma format_result_typed d :
  is_Some (content_text d) -> format_result (PDict d) = Ok (format_typed d).
Proof.
unfold format_typed, content_text. rewrite format_result_dict.
destruct (d !! "content"%py) as [[]|]; simpl; by intros [? ?].
Qed.

Lemma format_results_iff raw fs :
  format_results raw = Ok fs <->
  exists d items, raw = PDict d /\
    py_iter (default (PList []) (d !! "results"%py)) = Ok items /\
    Forall2 hit_formatted items fs.
Proof.
unfold format_results. rewrite rbind_inv_Ok. split.
- intros (results & Hget & (items & Hit & Hloop)%rbind_inv_Ok).
  destruct raw; try discriminate. simpl in Hget. injection Hget as <-.
  exists d, items. repeat split; [done|].
  apply format_loop_Ok in Hloop. eapply Forall2_impl; [exact Hloop|].
  intros item f. apply format_result_Ok_inv.
- intros (d & items & -> & Hit & Hfs). eexists. split; [reflexivity|].
  rewrite Hit. simpl. apply format_loop_Ok. eapply Forall2_impl; [exact Hfs|].
  intros item f (di & c & -> & -> & Hc). rewrite format_result_dict. by rewrite Hc.
Qed.

(** C6.  [format_results] succeeds exactly on a dictionary whose
    ["results"] entry (an empty list when absent) can be iterated and
    holds only accepted hits, and it then returns their records in order. *)
Theorem format_results_spec raw fs :
  format_results raw = Ok fs <->
  exists d items, raw = PDict d /\
    py_iter (default (PList []) (d !! "results"%py)) = Ok items /\
    Forall2 hit_formatted items fs.
Proof. apply format_results_iff. Qed.

(** C31.  After normalisation the content of every record holds at most
    500 characters (or items, when the provider sent a list). *)
Theorem format_results_content_bounded raw fs :
  format_results raw = Ok fs -> Forall content_bounded fs.
Proof.
intros (d & items & _ & _ & H)%format_results_iff.
induction H as [|item f items fs (di & c & Hi & Hf & Hc) _ IH]; constructor; [|done].
apply (format_result_bounded item). subst. rewrite format_result_dict. by rewrite Hc.
Qed.

(** On a payload whose hits are dictionaries with a string (or no)
    content, every absent field gets its default, the content is cut at
    500 characters, and the records come in the order of the hits. *)
Theorem format_results_typed d ds :
  d !! "results"%py = Some (PList (PDict <$> ds)) ->
  Forall (fun di => is_Some (content_text di)) ds ->
  format_results (PDict d) = Ok (format_typed <$> ds).
Proof.
intros Hd Hds. apply format_results_iff. exists d, (PDict <$> ds).
rewrite Hd. repeat split.
apply Forall2_fmap, Forall_Forall2_diag. eapply Forall_impl; [exact Hds|].
intros di Hdi.
destruct (format_result_Ok_inv _ _ (format_result_typed di Hdi))
  as (d' & c & [= <-] & -> & Hc).
by exists di, c.
Qed.

(** The output has one record per hit. *)
Lemma format_results_length d items fs :
  d !! "results"%py = Some (PList items) ->
  format_results (PDict d) = Ok fs -> length fs = length items.
Proof.
intros Hd (d' & items' & [= <-] & Hit & H)%format_results_iff.
rewrite Hd in Hit. injection Hit as <-. symmetry. by eapply Forall2_length.
Qed.

(** A payload without a ["results"] entry gives the empty list. *)
Theorem format_results_absent d :
  d !! "results"%py = None -> format_results (PDict d) = Ok [].
Proof. intros Hd. unfold format_results. simpl. by rewrite Hd. Qed.

(** C34.  A hit that is not a dictionary, or whose content is present and
    is neither a string nor a list, makes [format_results] raise. *)
Theorem format_results_malformed d items :
  d !! "results"%py = Some (PList items) ->
  ~ Forall acceptable_hit items ->
  is_Err (format_results (PDict d)).
Proof.
intros Hd Hbad. destruct (is_Ok_or_Err (format_results (PDict d))) as [[fs H]|]; [|done].
destruct Hbad.
apply format_results_iff in H as (d' & items' & [= <-] & Hit & H).
rewrite Hd in Hit. injection Hit as <-. clear Hd.
induction H as [|item f items fs Hi _ IH]; constructor; [|done].
apply format_result_acceptable. destruct Hi as (di & c & -> & -> & Hc).
rewrite format_result_dict. rewrite Hc. by eexists.
Qed.

(** Whatever the payload, [format_results] raises nothing but
    [Exception]s. *)
Theorem format_results_raises raw : raises_Exception (format_results raw).
Proof.
unfold format_results.
apply raises_Exception_rbind; [auto with py|intros results].
apply raises_Exception_rbind; [auto with py|intros items].
intros e (pre & item & post & _ & _ & He)%format_loop_Err.
by apply (format_result_raises item).
Qed.

(** ** [search_travel_research] *)

(** The call [search_travel_research] makes, and its outcome as a function
    of the provider's answer. *)
Definition search_call (query : pystr) (max_results : Z) : event pyval :=
  TavilySearch query "advanced"%py max_results true.

Definition search_outcome (r : result pyval) : result pyval :=
  match r with
  | inl e =>
      if is_Exception e
      then Err (PyExc Exception ("Research search error: "%py ++ exn_str e))
      else Err e
  | inr payload => Ok payload
  end.

Lemma search_post C query max_results log Q :
  post_under C (search_travel_research query max_results) log Q <->
  forall r, C _ (search_call query max_results) r ->
    Q (search_outcome r) (log ++ [mkcall (search_call query max_results)]).
Proof.
unfold search_travel_research. rewrite post_try_except, post_perform.
apply forall_proper. intros [e|v]; simpl; [|done].
by destruct (is_Exception e).
Qed.

Lemma search_run {W} (h : handler W) query max_results w :
  run h (search_travel_research query max_results) w =
  Outcome (search_outcome (h _ (search_call query max_results) w).1)
    [mkcall (search_call query max_results)]
    (h _ (search_call query max_results) w).2.
Proof.
unfold search_travel_research, search_call, search_outcome.
rewrite run_try_except, run_perform. simpl.
destruct (h _ _ w) as [[e|v] w']; simpl; [|done].
by destruct (is_Exception e).
Qed.

(** The search method makes exactly one call, an advanced search with
    images for the given query and bound; it returns the provider's
    payload, turns an [Exception] of the provider into
    [Exception("Research search error: ...")] and lets other exceptions
    through. *)
Theorem search_travel_research_run {W} (h : handler W) query max_results w :
  let ev := TavilySearch query "advanced"%py max_results true in
  run h (search_travel_research query max_results) w =
  Outcome
    (match (h _ ev w).1 with
     | inl e =>
         if is_Exception e
         then Err (PyExc Exception ("Research search error: "%py ++ exn_str e))
         else Err e
     | inr payload => Ok payload
     end)
    [mkcall ev] (h _ ev w).2.
Proof. apply search_run. Qed.

(** ** The properties at concrete payloads *)

(** A hit with every field, its content 600 characters long. *)
Definition sample_hit_full : gmap pystr pyval :=
  list_to_map [
    ("title"%py, PStr "Louvre"%py);
    ("url"%py, PStr "https://example.org/louvre"%py);
    ("content"%py, PStr (replicate 600 0x61%N));
    ("score"%py, PFloat (float_of_Z 1));
    ("image"%py, PStr "https://example.org/louvre.jpg"%py)].

(** A hit with no field at all. *)
Definition sample_hit_empty : gmap pystr pyval := ∅.

(** A hit whose content is [None]. *)
Definition sample_hit_null : gmap pystr pyval :=
  list_to_map [("content"%py, PNone)].

Definition sample_payload (hits : list pyval) : gmap pystr pyval :=
  list_to_map [("query"%py, PStr "Paris museums"%py); ("results"%py, PList hits)].

Lemma format_results_content_bounded_witness :
  Forall content_bounded
    [format_typed sample_hit_full; format_typed sample_hit_empty].
Proof.
apply (format_results_content_bounded
  (PDict (sample_payload [PDict sample_hit_full; PDict sample_hit_empty]))).
vm_compute. reflexivity.
Defined.

Lemma format_results_typed_witness :
  format_results
    (PDict (sample_payload [PDict sample_hit_full; PDict sample_hit_empty])) =
  Ok [Formatted (PStr "Louvre"%py) (PStr "https://example.org/louvre"%py)
        (PStr (replicate 500 0x61%N)) (PFloat (float_of_Z 1))
        (PStr "https://example.org/louvre.jpg"%py);
      Formatted (PStr "Untitled"%py) (PStr ""%py) (PStr ""%py)
        (PFloat float_zero) PNone].
Proof.
apply (format_results_typed _ [sample_hit_full; sample_hit_empty]).
- vm_compute. reflexivity.
- repeat constructor; vm_compute; eauto.
Defined.

Example format_results_length_example :
  length [format_typed sample_hit_full; format_typed sample_hit_empty] = 2%nat.
Proof.
apply (format_results_length
  (sample_payload [PDict sample_hit_full; PDict sample_hit_empty])
  [PDict sample_hit_full; PDict sample_hit_empty]).
- vm_compute. reflexivity.
- vm_compute. reflexivity.
Defined.

Lemma format_results_absent_witness : format_results (PDict ∅) = Ok [].
Proof. apply (format_results_absent ∅). reflexivity. Defined.

Lemma format_results_malformed_witness :
  is_Err (format_results
    (PDict (sample_payload [PDict sample_hit_full; PDict sample_hit_null]))).
Proof.
apply (format_results_malformed _ [PDict sample_hit_full; PDict sample_hit_null]).
- vm_compute. reflexivity.
- intros H. apply Forall_cons in H as [_ H]. apply Forall_cons in H as [H _].
  vm_compute in H. exact H.
Defined.

(** The exception in that case is the [TypeError] of slicing [None]. *)
Example format_results_null_content :
  format_results (PDict (sample_payload [PDict sample_hit_null])) =
  Err (PyExc TypeError "'NoneType' object is not subscriptable"%py).
Proof. vm_compute. reflexivity. Qed.
