(* ===== verification/Regex.v ===== *)
(** * Regex: the fragment of Python's [re] the scraper uses

    [firecrawl_service.py] extracts image references with
    [re.findall(r'!\[.*?\]\((.*?)\)', markdown)].  This file models the
    fragment of the regular-expression language that pattern is written
    in: literal characters, the dot (any character but a line feed), the
    lazy star on a single-character atom, and capturing parentheses.

    - [compile] reads the text of a pattern into a list of nodes;
    - [match_at] is a backtracking matcher with Python's priorities (a
      lazy star first tries to stop, then to take one more character);
      it returns the first of the matches the search finds ([matchings],
      [match_at_first]), which are the matches of the declarative reading
      ([matches]), and a lazy star takes the least number of characters
      after which the rest matches ([lazy_star_least]);
    - [findall] scans the subject from left to right, collects the text
      of group 1 of each match and resumes after the match.

    For the image pattern the matcher is then shown equal to a direct
    scanner, [image_at]: after ["!["], go to the first ["]("] of the line,
    then to the first [")"] of the line.  The backtracking the lazy stars
    could do never finds a match the direct scan misses.

    [findall] is exact for patterns that cannot match the empty string,
    which is the case of the image pattern (a match has five characters at
    least). *)

From S2P Require Import Prelude PyStr.

(** ** Patterns *)

Inductive charset : Type :=
| CLit (c : N)
| CDot.

Inductive node : Type :=
| NChar (cs : charset)
| NLazyStar (cs : charset)
| NOpen
| NClose.

Definition regex : Type := list node.

#[export] Instance charset_eq_dec : EqDecision charset.
Proof. solve_decision. Defined.

#[export] Instance node_eq_dec : EqDecision node.
Proof. solve_decision. Defined.

(** The line feed, the one character the dot refuses. *)
Definition LF : N := 0x0A.

Definition accepts (cs : charset) (c : N) : bool :=
  match cs with
  | CLit a => a =? c
  | CDot => negb (c =? LF)
  end.

(** ** Parsing the text of a pattern *)

(** Characters with a meaning of their own that the fragment does not
    cover; a pattern that uses one unescaped is not parsed. *)
Definition unsupported (c : N) : bool :=
  existsb (N.eqb c) "*+?[]{}|^$\"%py.

(** The node for an atom, lazy-starred when ["*?"] follows. *)
Definition with_postfix (cs : charset) (rest : pystr) : node * pystr :=
  match rest with
  | 0x2A :: 0x3F :: rest' => (NLazyStar cs, rest')
  | _ => (NChar cs, rest)
  end.

Fixpoint parse_from (fuel : nat) (s : pystr) : option regex :=
  match fuel with
  | O => match s with [] => Some [] | _ => None end
  | S fuel' =>
      match s with
      | [] => Some []
      | 0x28 :: rest => cons NOpen <$> parse_from fuel' rest
      | 0x29 :: rest => cons NClose <$> parse_from fuel' rest
      | 0x5C :: c :: rest =>
          let '(n, rest') := with_postfix (CLit c) rest in
          cons n <$> parse_from fuel' rest'
      | 0x2E :: rest =>
          let '(n, rest') := with_postfix CDot rest in
          cons n <$> parse_from fuel' rest'
      | c :: rest =>
          if unsupported c then None
          else
            let '(n, rest') := with_postfix (CLit c) rest in
            cons n <$> parse_from fuel' rest'
      end
  end.

Definition compile (s : pystr) : option regex := parse_from (length s) s.

(** ** Matching *)

(** The state of group 1 during a match. *)
Inductive capture : Type :=
| NotOpen
| Opened (t : pystr)
| Closed (t : pystr).

#[export] Instance capture_eq_dec : EqDecision capture.
Proof. solve_decision. Defined.

Definition cap_open (st : capture) : capture := Opened [].

Definition cap_close (st : capture) : capture :=
  match st with
  | Opened t => Closed t
  | _ => st
  end.

Definition cap_push (c : N) (st : capture) : capture :=
  match st with
  | Opened t => Opened (t ++ [c])
  | _ => st
  end.

(** [m.group(1)], the empty string when the group took no part. *)
Definition group1 (st : capture) : pystr :=
  match st with
  | Closed t => t
  | _ => []
  end.

(** [match_at s p st]: the pattern [p] matched at the start of [s]; the
    result is what is left of [s] and the capture.  The first alternative
    that leads to a complete match wins. *)
Fixpoint match_at (s : pystr) : regex -> capture -> option (pystr * capture) :=
  fix go (p : regex) (st : capture) {struct p} : option (pystr * capture) :=
    match p with
    | [] => Some (s, st)
    | NOpen :: p' => go p' (cap_open st)
    | NClose :: p' => go p' (cap_close st)
    | NChar cs :: p' =>
        match s with
        | c :: s' =>
            if accepts cs c then match_at s' p' (cap_push c st) else None
        | [] => None
        end
    | NLazyStar cs :: p' =>
        match go p' st with
        | Some r => Some r
        | None =>
            match s with
            | c :: s' =>
                if accepts cs c
                then match_at s' (NLazyStar cs :: p') (cap_push c st)
                else None
            | [] => None
            end
        end
    end.

(** The scan of [findall]: [skip] characters are still covered by the
    last match. *)
Fixpoint findall_skip (p : regex) (skip : nat) (s : pystr) : list pystr :=
  match skip with
  | S k =>
      match s with
      | [] => []
      | _ :: s' => findall_skip p k s'
      end
  | O =>
      match match_at s p NotOpen with
      | Some (rest, st) =>
          group1 st ::
          match s with
          | [] => []
          | _ :: s' => findall_skip p (length s - length rest - 1) s'
          end
      | None =>
          match s with
          | [] => []
          | _ :: s' => findall_skip p 0 s'
          end
      end
  end.

(** [re.findall(p, s)] for a pattern with one group. *)
Definition findall (p : regex) (s : pystr) : list pystr := findall_skip p 0 s.

(** ** The image pattern *)

(** The text of the pattern, as in the source. *)
Definition image_pattern_text : pystr := "!\[.*?\]\((.*?)\)"%py.

Definition image_pattern : regex :=
  [NChar (CLit 0x21); NChar (CLit 0x5B); NLazyStar CDot;
   NChar (CLit 0x5D); NChar (CLit 0x28);
   NOpen; NLazyStar CDot; NClose; NChar (CLit 0x29)].

(** ** The direct scanner *)

(** [until target s]: the text of [s] before the first occurrence of
    [target] and the text after it, provided no line feed comes before. *)
Fixpoint until (target s : pystr) : option (pystr * pystr) :=
  if startswith target s then Some ([], drop (length target) s)
  else
    match s with
    | [] => None
    | c :: s' =>
        if c =? LF then None
        else
          match until target s' with
          | Some (pre, post) => Some (c :: pre, post)
          | None => None
          end
    end.

(** An image reference at the start of [s]: its address and the rest. *)
Definition image_at (s : pystr) : option (pystr * pystr) :=
  if startswith "!["%py s then
    match until "]("%py (drop 2 s) with
    | Some (_, s2) => until ")"%py s2
    | None => None
    end
  else None.

(** The direct extraction of the image addresses. *)
Fixpoint md_images_skip (skip : nat) (s : pystr) : list pystr :=
  match skip with
  | S k =>
      match s with
      | [] => []
      | _ :: s' => md_images_skip k s'
      end
  | O =>
      match image_at s with
      | Some (url, rest) =>
          url ::
          match s with
          | [] => []
          | _ :: s' => md_images_skip (length s - length rest - 1) s'
          end
      | None =>
          match s with
          | [] => []
          | _ :: s' => md_images_skip 0 s'
          end
      end
  end.

Definition md_images (s : pystr) : list pystr := md_images_skip 0 s.

(** ** The pattern text denotes the pattern *)

(** *** The fuel of the parser *)

Lemma with_postfix_length cs rest n rest' :
  with_postfix cs rest = (n, rest') -> (length rest' <= length rest)%nat.
Proof.
unfold with_postfix. repeat case_match; intros [= <- <-]; simpl; lia.
Qed.

(** Each step of the parser consumes a character: any fuel that is at
    least the length of the text gives the same result. *)
Lemma parse_from_enough fuel fuel' s :
  (length s <= fuel)%nat -> (length s <= fuel')%nat ->
  parse_from fuel s = parse_from fuel' s.
Proof.
revert fuel' s. induction fuel as [|fuel IH]; intros fuel' s Hf Hf'.
{ destruct s; [|simpl in Hf; lia]. by destruct fuel'. }
destruct fuel' as [|fuel']. { destruct s; [done|simpl in Hf'; lia]. }
destruct s as [|c s]; [done|]. simpl in Hf, Hf'. cbn [parse_from].
repeat case_match; simplify_eq/=; try done;
  repeat match goal with
  | H : with_postfix _ _ = _ |- _ => apply with_postfix_length in H
  end;
  f_equal; apply IH; simpl in *; lia.
Qed.

(** The parser of patterns never stops for lack of fuel: with any
    fuel that is at least the length of the text it returns what [compile]
    returns, which is [None] only for a text outside the fragment. *)
Theorem parse_fuel fuel s :
  (length s <= fuel)%nat -> parse_from fuel s = compile s.
Proof. intros Hf. by apply parse_from_enough. Qed.

Example parse_image_pattern : compile image_pattern_text = Some image_pattern.
Proof. reflexivity. Qed.

(** ** Equations of the matcher *)

Lemma match_at_nil s st : match_at s [] st = Some (s, st).
Proof. by destruct s. Qed.

Lemma match_at_open s p st :
  match_at s (NOpen :: p) st = match_at s p (cap_open st).
Proof. by destruct s. Qed.

Lemma match_at_close s p st :
  match_at s (NClose :: p) st = match_at s p (cap_close st).
Proof. by destruct s. Qed.

Lemma match_at_char s cs p st :
  match_at s (NChar cs :: p) st =
  match s with
  | c :: s' => if accepts cs c then match_at s' p (cap_push c st) else None
  | [] => None
  end.
Proof. by destruct s. Qed.

Lemma match_at_star s cs p st :
  match_at s (NLazyStar cs :: p) st =
  match match_at s p st with
  | Some r => Some r
  | None =>
      match s with
      | c :: s' =>
          if accepts cs c
          then match_at s' (NLazyStar cs :: p) (cap_push c st)
          else None
      | [] => None
      end
  end.
Proof. by destruct s. Qed.

(** The recursion of the matcher: on the pattern, and on the subject
    when a character is consumed. *)
Lemma subject_pattern_ind (P : pystr -> regex -> Prop) :
  (forall s, P s []) ->
  (forall s p, P s p -> P s (NOpen :: p)) ->
  (forall s p, P s p -> P s (NClose :: p)) ->
  (forall cs p, P [] (NChar cs :: p)) ->
  (forall c s cs p, P s p -> P (c :: s) (NChar cs :: p)) ->
  (forall cs p, P [] p -> P [] (NLazyStar cs :: p)) ->
  (forall c s cs p,
     P (c :: s) p -> P s (NLazyStar cs :: p) -> P (c :: s) (NLazyStar cs :: p)) ->
  forall s p, P s p.
Proof.
intros Hnil Hopen Hclose Hchar0 Hchar Hstar0 Hstar s.
induction s as [|c s IH]; intros p;
  induction p as [|[cs|cs| |] p IHp]; auto.
Qed.

(** A match consumes a prefix of the subject. *)
Lemma match_at_suffix s p st rest st' :
  match_at s p st = Some (rest, st') -> rest `suffix_of` s.
Proof.
revert st. pattern s, p. apply subject_pattern_ind; clear s p.
- intros s st. rewrite match_at_nil. by intros [= <- _].
- intros s p IH st. rewrite match_at_open. apply IH.
- intros s p IH st. rewrite match_at_close. apply IH.
- intros cs p st. by rewrite match_at_char.
- intros c s cs p IH st. rewrite match_at_char.
  destruct (accepts cs c); [|done]. intros H%IH. by apply suffix_cons_r.
- intros cs p IH st. rewrite match_at_star.
  destruct (match_at [] p st) eqn:E; [|done]. intros [= ->]. by eapply IH.
- intros c s cs p IHp IH st. rewrite match_at_star.
  destruct (match_at (c :: s) p st) eqn:E.
  + intros [= ->]. by eapply IHp.
  + destruct (accepts cs c); [|done]. intros H%IH. by apply suffix_cons_r.
Qed.

(** ** What a pattern matches

    The words a pattern matches, with the capture before and after: the
    declarative reading of the fragment.  A lazy star matches any number
    of characters of its set. *)

Inductive matches : regex -> capture -> pystr -> capture -> Prop :=
| matches_nil st : matches [] st [] st
| matches_open p st w st' :
    matches p (cap_open st) w st' -> matches (NOpen :: p) st w st'
| matches_close p st w st' :
    matches p (cap_close st) w st' -> matches (NClose :: p) st w st'
| matches_char cs p st c w st' :
    accepts cs c = true -> matches p (cap_push c st) w st' ->
    matches (NChar cs :: p) st (c :: w) st'
| matches_star_stop cs p st w st' :
    matches p st w st' -> matches (NLazyStar cs :: p) st w st'
| matches_star_more cs p st c w st' :
    accepts cs c = true ->
    matches (NLazyStar cs :: p) (cap_push c st) w st' ->
    matches (NLazyStar cs :: p) st (c :: w) st'.

(** What the matcher returns is a match of a prefix of the subject. *)
Lemma match_at_sound s p st rest st' :
  match_at s p st = Some (rest, st') ->
  exists w, s = w ++ rest /\ matches p st w st'.
Proof.
revert st. pattern s, p. apply subject_pattern_ind; clear s p.
- intros s st. rewrite match_at_nil. intros [= <- <-].
  exists []. split; [done|constructor].
- intros s p IH st. rewrite match_at_open. intros (w & -> & Hw)%IH.
  exists w. split; [done|by constructor].
- intros s p IH st. rewrite match_at_close. intros (w & -> & Hw)%IH.
  exists w. split; [done|by constructor].
- intros cs p st. by rewrite match_at_char.
- intros c s cs p IH st. rewrite match_at_char.
  destruct (accepts cs c) eqn:Hc; [|done].
  intros (w & -> & Hw)%IH. exists (c :: w). split; [done|by constructor].
- intros cs p IH st. rewrite match_at_star.
  destruct (match_at [] p st) as [r|] eqn:E; [|done].
  intros [= ->]. apply IH in E as (w & -> & Hw).
  exists w. split; [done|by constructor].
- intros c s cs p IHp IH st. rewrite match_at_star.
  destruct (match_at (c :: s) p st) as [r|] eqn:E.
  + intros [= ->]. apply IHp in E as (w & -> & Hw).
    exists w. split; [done|by constructor].
  + destruct (accepts cs c) eqn:Hc; [|done].
    intros (w & -> & Hw)%IH. exists (c :: w).
    split; [done|by apply matches_star_more].
Qed.

(** When a prefix of the subject matches, the matcher finds a match. *)
Lemma match_at_complete p st w st' rest :
  matches p st w st' -> is_Some (match_at (w ++ rest) p st).
Proof.
induction 1 as [st|p st w st' _ IH|p st w st' _ IH|cs p st c w st' Hc _ IH
               |cs p st w st' _ IH|cs p st c w st' Hc _ IH].
- rewrite match_at_nil. by eexists.
- by rewrite match_at_open.
- by rewrite match_at_close.
- rewrite match_at_char. simpl. by rewrite Hc.
- rewrite match_at_star. destruct IH as [r ->]. by eexists.
- rewrite match_at_star.
  destruct (match_at ((c :: w) ++ rest) p st) as [r|]; [by eexists|].
  simpl. by rewrite Hc.
Qed.

(** The backtracking matcher implements the declarative reading of
    patterns: it returns a match at the start of a subject exactly when
    some prefix of the subject matches the pattern, and what it returns is
    a match of a prefix, with its capture. *)
Theorem match_at_refines s p st :
  (is_Some (match_at s p st) <->
   exists w rest st', s = w ++ rest /\ matches p st w st') /\
  (forall rest st', match_at s p st = Some (rest, st') ->
     exists w, s = w ++ rest /\ matches p st w st').
Proof.
split; [split|].
- intros [[rest st'] (w & -> & Hw)%match_at_sound]. by exists w, rest, st'.
- intros (w & rest & st' & -> & Hw). by eapply match_at_complete.
- intros rest st'. apply match_at_sound.
Qed.

(** ** Priorities

    A pattern can match several prefixes of a subject; [re] returns the
    first match a backtracking search finds.  [matchings] lists every
    match at the start of the subject in the order of that search: a lazy
    star first stops, then takes one character more.  The matcher returns
    the first of them, and they are the matches of the declarative
    reading. *)

Fixpoint matchings (s : pystr) : regex -> capture -> list (pystr * capture) :=
  fix go (p : regex) (st : capture) {struct p} : list (pystr * capture) :=
    match p with
    | [] => [(s, st)]
    | NOpen :: p' => go p' (cap_open st)
    | NClose :: p' => go p' (cap_close st)
    | NChar cs :: p' =>
        match s with
        | c :: s' =>
            if accepts cs c then matchings s' p' (cap_push c st) else []
        | [] => []
        end
    | NLazyStar cs :: p' =>
        go p' st ++
        match s with
        | c :: s' =>
            if accepts cs c
            then matchings s' (NLazyStar cs :: p') (cap_push c st)
            else []
        | [] => []
        end
    end.

Lemma matchings_nil s st : matchings s [] st = [(s, st)].
Proof. by destruct s. Qed.

Lemma matchings_open s p st :
  matchings s (NOpen :: p) st = matchings s p (cap_open st).
Proof. by destruct s. Qed.

Lemma matchings_close s p st :
  matchings s (NClose :: p) st = matchings s p (cap_close st).
Proof. by destruct s. Qed.

Lemma matchings_char s cs p st :
  matchings s (NChar cs :: p) st =
  match s with
  | c :: s' => if accepts cs c then matchings s' p (cap_push c st) else []
  | [] => []
  end.
Proof. by destruct s. Qed.

Lemma matchings_star s cs p st :
  matchings s (NLazyStar cs :: p) st =
  matchings s p st ++
  match s with
  | c :: s' =>
      if accepts cs c
      then matchings s' (NLazyStar cs :: p) (cap_push c st)
      else []
  | [] => []
  end.
Proof. by destruct s. Qed.

(** The matcher returns the first match of the search. *)
Lemma match_at_first s p st : match_at s p st = head (matchings s p st).
Proof.
revert st. pattern s, p. apply subject_pattern_ind; clear s p.
- intros s st. by rewrite match_at_nil, matchings_nil.
- intros s p IH st. by rewrite match_at_open, matchings_open.
- intros s p IH st. by rewrite match_at_close, matchings_close.
- intros cs p st. by rewrite match_at_char, matchings_char.
- intros c s cs p IH st. rewrite match_at_char, matchings_char.
  by destruct (accepts cs c).
- intros cs p IH st. rewrite match_at_star, matchings_star, IH, app_nil_r.
  by destruct (head _).
- intros c s cs p IHp IH st. rewrite match_at_star, matchings_star, IHp.
  destruct (matchings (c :: s) p st) as [|r rs]; [|done]. simpl.
  by destruct (accepts cs c).
Qed.

(** Every match of the search is a match of a prefix of the subject. *)
Lemma matchings_sound s p st rest st' :
  (rest, st') ∈ matchings s p st ->
  exists w, s = w ++ rest /\ matches p st w st'.
Proof.
revert st. pattern s, p. apply subject_pattern_ind; clear s p.
- intros s st. rewrite matchings_nil. intros [= <- <-]%list_elem_of_singleton.
  exists []. split; [done|constructor].
- intros s p IH st. rewrite matchings_open. intros (w & -> & Hw)%IH.
  exists w. split; [done|by constructor].
- intros s p IH st. rewrite matchings_close. intros (w & -> & Hw)%IH.
  exists w. split; [done|by constructor].
- intros cs p st. rewrite matchings_char. by intros ?%elem_of_nil.
- intros c s cs p IH st. rewrite matchings_char.
  destruct (accepts cs c) eqn:Hc; [|by intros ?%elem_of_nil].
  intros (w & -> & Hw)%IH. exists (c :: w). split; [done|by constructor].
- intros cs p IH st. rewrite matchings_star, app_nil_r.
  intros (w & -> & Hw)%IH. exists w. split; [done|by constructor].
- intros c s cs p IHp IH st. rewrite matchings_star.
  intros [(w & -> & Hw)%IHp|Hm]%elem_of_app.
  + exists w. split; [done|by constructor].
  + destruct (accepts cs c) eqn:Hc; [|by apply elem_of_nil in Hm].
    apply IH in Hm as (w & -> & Hw). exists (c :: w).
    split; [done|by apply matches_star_more].
Qed.

(** Every match of a prefix of the subject is found by the search. *)
Lemma matchings_complete p st w st' rest :
  matches p st w st' -> (rest, st') ∈ matchings (w ++ rest) p st.
Proof.
induction 1 as [st|p st w st' _ IH|p st w st' _ IH|cs p st c w st' Hc _ IH
               |cs p st w st' _ IH|cs p st c w st' Hc _ IH].
- rewrite matchings_nil. apply list_elem_of_singleton. done.
- by rewrite matchings_open.
- by rewrite matchings_close.
- rewrite matchings_char. simpl. by rewrite Hc.
- rewrite matchings_star. apply elem_of_app. by left.
- rewrite matchings_star. apply elem_of_app. right. simpl. by rewrite Hc.
Qed.

(** The capture after the characters of [t] went by. *)
Definition cap_push_all (t : pystr) (st : capture) : capture :=
  foldl (fun st c => cap_push c st) st t.

(** A lazy star takes the least number of characters after which the
    rest of the pattern matches. *)
Theorem lazy_star_least cs p s st r :
  match_at s (NLazyStar cs :: p) st = Some r <->
  exists t s', s = t ++ s' /\ Forall (fun c => accepts cs c = true) t /\
    match_at s' p (cap_push_all t st) = Some r /\
    forall t1 t2, t = t1 ++ t2 -> t2 <> [] ->
      match_at (t2 ++ s') p (cap_push_all t1 st) = None.
Proof.
split.
- revert st. induction s as [|c s IH]; intros st; rewrite match_at_star.
  + destruct (match_at [] p st) as [r'|] eqn:E; [|done]. intros [= ->].
    exists [], []. repeat split; [done..|]. by intros [|??] [|??].
  + destruct (match_at (c :: s) p st) as [r'|] eqn:E.
    { intros [= ->]. exists [], (c :: s). repeat split; [done..|].
      by intros [|??] [|??]. }
    destruct (accepts cs c) eqn:Hc; [|done].
    intros (t & s' & -> & Ht & Hr & Hleast)%IH.
    exists (c :: t), s'. repeat split; [by constructor|done|].
    intros [|c' t1] t2; simpl.
    * by intros <- _.
    * intros [= <- ->]. apply Hleast. done.
- intros (t & s' & -> & Ht & Hr & Hleast). revert st Hr Hleast.
  induction Ht as [|c t Hc _ IH]; intros st Hr Hleast; rewrite match_at_star.
  + simpl in *. by rewrite Hr.
  + pose proof (Hleast [] (c :: t) eq_refl) as Hnone. simpl in Hnone.
    simpl. rewrite Hnone by done. rewrite Hc.
    apply IH; [done|]. intros t1 t2 -> Ht2. by apply (Hleast (c :: t1) t2).
Qed.

(** C24.  The matcher against its reference: it returns the first of the
    matches a backtracking search with Python's priorities finds (a lazy
    star first stops, then takes one character more), and these are the
    matches of the declarative reading of the pattern, each of a prefix of
    the subject with its capture. *)
Theorem match_at_first_matching s p st :
  match_at s p st = head (matchings s p st) /\
  forall rest st',
    (rest, st') ∈ matchings s p st <->
    exists w, s = w ++ rest /\ matches p st w st'.
Proof.
split; [apply match_at_first|]. intros rest st'. split.
- apply matchings_sound.
- intros (w & -> & Hw). by apply matchings_complete.
Qed.

(** ** [until] *)

Definition no_LF (t : pystr) : Prop := LF ∉ t.

Lemma until_eq target s :
  until target s =
  if startswith target s then Some ([], drop (length target) s)
  else
    match s with
    | [] => None
    | c :: s' =>
        if c =? LF then None
        else (fun '(pre, post) => (c :: pre, post)) <$> until target s'
    end.
Proof. destruct s; simpl; [done|]. by destruct (until target s) as [[??]|]. Qed.

Lemma until_split target s pre post :
  until target s = Some (pre, post) -> s = pre ++ target ++ post /\ no_LF pre.
Proof.
revert pre post. induction s as [|c s IH]; intros pre post; rewrite until_eq.
- destruct (startswith target []) eqn:E; [|done].
  intros [= <- <-]. apply startswith_prefix, prefix_nil_inv in E as ->.
  split; [done | apply not_elem_of_nil].
- destruct (startswith target (c :: s)) eqn:E.
  + intros [= <- <-]. apply startswith_prefix in E as [k E].
    split; [|apply not_elem_of_nil]. rewrite E, drop_app_length. done.
  + destruct (c =? LF) eqn:Hc; [done|]. apply N.eqb_neq in Hc.
    destruct (until target s) as [[pre' post']|]; [|done].
    intros [= <- <-]. destruct (IH _ _ eq_refl) as [-> Hpre].
    split; [done|]. by apply not_elem_of_cons.
Qed.

(** Stepping over a character that neither ends the line nor starts the
    target. *)
Lemma until_cons target c s :
  startswith target (c :: s) = false -> c <> LF ->
  until target (c :: s) =
  (fun '(pre, post) => (c :: pre, post)) <$> until target s.
Proof.
intros E Hc. rewrite until_eq, E. apply N.eqb_neq in Hc. by rewrite Hc.
Qed.

(** The search succeeds when the target follows text without the
    target's first character and without line feed. *)
Lemma until_found c target pre post :
  c ∉ pre -> no_LF pre ->
  until (c :: target) (pre ++ (c :: target) ++ post) = Some (pre, post).
Proof.
intros Hc Hlf. induction pre as [|a pre IH].
- by rewrite until_eq, app_nil_l, startswith_app, drop_app_length.
- apply not_elem_of_cons in Hc as [Hca Hc].
  apply not_elem_of_cons in Hlf as [Hlfa Hlf].
  rewrite <- app_comm_cons, until_cons, (IH Hc Hlf); [done| |congruence].
  cbn [startswith]. by rewrite (proj2 (N.eqb_neq c a)) by congruence.
Qed.

(** ** The matcher on the image pattern *)

(** The nodes of a run of literal characters. *)
Definition lits (t : pystr) : regex := map (fun c => NChar (CLit c)) t.

Definition pat_close : regex := [NLazyStar CDot; NClose; NChar (CLit 0x29)].
Definition pat_url : regex := NOpen :: pat_close.
Definition pat_alt : regex := NLazyStar CDot :: lits "]("%py ++ pat_url.

Lemma image_pattern_eq : image_pattern = lits "!["%py ++ pat_alt.
Proof. reflexivity. Qed.

(** Literal characters outside the group match a prefix of the subject. *)
Lemma match_lits t p s :
  match_at s (lits t ++ p) NotOpen =
  if startswith t s then match_at (drop (length t) s) p NotOpen else None.
Proof.
revert s. induction t as [|a t IH]; intros s; [done|].
cbn [lits map app]. rewrite match_at_char. destruct s as [|c s]; [done|].
cbn [accepts cap_push startswith length drop].
destruct (a =? c); [apply IH | done].
Qed.

Lemma until_close_cons c s :
  until ")"%py (c :: s) =
  if 0x29 =? c then Some ([], s)
  else if c =? LF then None
  else (fun '(pre, post) => (c :: pre, post)) <$> until ")"%py s.
Proof. rewrite until_eq. cbn [startswith]. by destruct (0x29 =? c). Qed.

(** The address: up to the first closing parenthesis of the line. *)
Lemma match_close s t :
  match_at s pat_close (Opened t) =
  (fun '(url, rest) => (rest, Closed (t ++ url))) <$> until ")"%py s.
Proof.
revert t. unfold pat_close. induction s as [|c s IH]; intros t.
- by rewrite match_at_star, match_at_close, match_at_char.
- rewrite match_at_star, match_at_close, match_at_char, match_at_nil.
  rewrite until_close_cons. cbn [accepts cap_close cap_push].
  destruct (0x29 =? c); simpl; [by rewrite app_nil_r|].
  destruct (c =? LF); simpl; [done|]. rewrite IH.
  destruct (until _ s) as [[url rest]|]; simpl; [|done].
  by rewrite <- app_assoc.
Qed.

Lemma match_url s :
  match_at s pat_url NotOpen =
  (fun '(url, rest) => (rest, Closed url)) <$> until ")"%py s.
Proof. unfold pat_url. rewrite match_at_open. apply match_close. Qed.

(** A line without closing parenthesis stays so after ["]("]. *)
Lemma until_close_after_bracket s :
  startswith "]("%py s = true ->
  until ")"%py s = None <-> until ")"%py (drop 2 s) = None.
Proof.
intros [k ->]%startswith_prefix. cbn [app drop].
rewrite !until_close_cons. cbn -[until]. by rewrite !fmap_None.
Qed.

(** One step of the lazy star over the alternative text. *)
Lemma match_alt_cons c s :
  match_at (c :: s) pat_alt NotOpen =
  match
    (if startswith "]("%py (c :: s)
     then match_at (drop 2 (c :: s)) pat_url NotOpen else None)
  with
  | Some r => Some r
  | None => if c =? LF then None else match_at s pat_alt NotOpen
  end.
Proof.
unfold pat_alt at 1. rewrite match_at_star, match_lits.
cbn [accepts cap_push length]. fold pat_alt. by destruct (c =? LF).
Qed.

(** Once the line has no closing parenthesis left, no later ["]("] helps:
    the lazy star over the alternative text fails. *)
Lemma match_alt_no_close s :
  until ")"%py s = None -> match_at s pat_alt NotOpen = None.
Proof.
induction s as [|c s IH]; intros Hs; [done|]. rewrite match_alt_cons.
destruct (startswith _ (c :: s)) eqn:E.
- apply (until_close_after_bracket _ E) in Hs as Hd.
  rewrite match_url, Hd. simpl.
  destruct (c =? LF) eqn:Hc; [done|]. apply IH.
  rewrite until_close_cons, Hc in Hs.
  destruct (0x29 =? c); [done|]. by apply fmap_None in Hs.
- destruct (c =? LF) eqn:Hc; [done|]. apply IH.
  rewrite until_close_cons, Hc in Hs.
  destruct (0x29 =? c); [done|]. by apply fmap_None in Hs.
Qed.

(** The alternative text: up to the first ["]("] of the line. *)
Lemma match_alt s :
  match_at s pat_alt NotOpen =
  match until "]("%py s with
  | Some (_, s2) => match_at s2 pat_url NotOpen
  | None => None
  end.
Proof.
induction s as [|c s IH]; [done|]. rewrite match_alt_cons, until_eq.
destruct (startswith _ (c :: s)) eqn:E.
- destruct (match_at (drop 2 (c :: s)) pat_url NotOpen) as [r|] eqn:Hm; [done|].
  pose proof Hm as Hu. rewrite match_url in Hu. apply fmap_None in Hu.
  apply (until_close_after_bracket _ E), match_alt_no_close in Hu.
  rewrite match_alt_cons, E, Hm in Hu. rewrite Hu. symmetry. exact Hm.
- destruct (c =? LF); [done|]. rewrite IH.
  by destruct (until _ s) as [[??]|].
Qed.

Lemma match_at_image s :
  match_at s image_pattern NotOpen =
  (fun '(url, rest) => (rest, Closed url)) <$> image_at s.
Proof.
rewrite image_pattern_eq, match_lits. unfold image_at.
destruct (startswith _ s); [|done]. rewrite match_alt.
destruct (until _ (drop _ s)) as [[alt s2]|]; [|done]. apply match_url.
Qed.

(** On the image pattern the backtracking matcher and the direct
    scanner agree, at every position of every subject. *)
Theorem match_image s :
  match_at s image_pattern NotOpen =
  (fun '(url, rest) => (rest, Closed url)) <$> image_at s.
Proof. apply match_at_image. Qed.

Lemma findall_skip_0 p s :
  findall_skip p 0 s =
  match match_at s p NotOpen with
  | Some (rest, st) =>
      group1 st ::
      match s with
      | [] => []
      | _ :: s' => findall_skip p (length s - length rest - 1) s'
      end
  | None =>
      match s with
      | [] => []
      | _ :: s' => findall_skip p 0 s'
      end
  end.
Proof. by destruct s. Qed.

(** Whatever the pattern, [re.findall] returns nothing but the groups of
    matches of the pattern somewhere in the subject. *)
Lemma findall_skip_matches p skip s u :
  u ∈ findall_skip p skip s ->
  exists pre w rest st,
    s = pre ++ w ++ rest /\ matches p NotOpen w st /\ u = group1 st.
Proof.
revert skip. induction s as [|c s IH]; intros skip.
- destruct skip; [|by intros ?%elem_of_nil]. rewrite findall_skip_0.
  destruct (match_at [] p NotOpen) as [[rest st]|] eqn:E;
    [|by intros ?%elem_of_nil].
  intros ->%list_elem_of_singleton. apply match_at_sound in E as (w & -> & Hw).
  by exists [], w, rest, st.
- assert (forall k, u ∈ findall_skip p k s ->
    exists pre w rest st,
      c :: s = pre ++ w ++ rest /\ matches p NotOpen w st /\ u = group1 st)
    as Htail.
  { intros k (pre & w & rest & st & -> & Hw & ->)%IH.
    by exists (c :: pre), w, rest, st. }
  destruct skip as [|k]; [|by apply Htail]. rewrite findall_skip_0.
  destruct (match_at (c :: s) p NotOpen) as [[rest st]|] eqn:E;
    [|by apply Htail].
  intros [->|Hu]%elem_of_cons; [|by eapply Htail].
  apply match_at_sound in E as (w & -> & Hw). by exists [], w, rest, st.
Qed.

Lemma findall_matches p s u :
  u ∈ findall p s ->
  exists pre w rest st,
    s = pre ++ w ++ rest /\ matches p NotOpen w st /\ u = group1 st.
Proof. apply findall_skip_matches. Qed.

Lemma md_images_skip_0 s :
  md_images_skip 0 s =
  match image_at s with
  | Some (url, rest) =>
      url ::
      match s with
      | [] => []
      | _ :: s' => md_images_skip (length s - length rest - 1) s'
      end
  | None =>
      match s with
      | [] => []
      | _ :: s' => md_images_skip 0 s'
      end
  end.
Proof. by destruct s. Qed.

(** [findall] with the image pattern is the direct extraction. *)
Lemma findall_skip_image skip s :
  findall_skip image_pattern skip s = md_images_skip skip s.
Proof.
revert skip. induction s as [|c s IH]; intros [|k]; [|done| |apply IH];
  rewrite findall_skip_0, md_images_skip_0, match_at_image.
- by destruct (image_at []) as [[??]|].
- destruct (image_at (c :: s)) as [[url rest]|]; simpl; by rewrite IH.
Qed.

(** C5.  What [re.findall] returns for the image pattern is what the
    direct scanner extracts. *)
Theorem findall_image s : findall image_pattern s = md_images s.
Proof. apply findall_skip_image. Qed.

(** ** What the direct scanner finds *)

Lemma until_char_first c s pre post :
  until [c] s = Some (pre, post) -> c ∉ pre.
Proof.
revert pre post. induction s as [|a s IH]; intros pre post; rewrite until_eq.
- simpl. done.
- cbn [startswith]. destruct (N.eqb_spec c a) as [<-|Hca]; simpl.
  + intros [= <- _]. apply not_elem_of_nil.
  + destruct (a =? LF); [done|].
    destruct (until [c] s) as [[pre' post']|] eqn:E; [|done].
    intros [= <- _]. apply not_elem_of_cons. split; [done|]. by eapply IH.
Qed.

Lemma drop_bang s : drop 2 ("!["%py ++ s) = s.
Proof. reflexivity. Qed.

(** The shape of the text around an image reference. *)
Lemma image_at_split s url rest :
  image_at s = Some (url, rest) ->
  exists alt,
    s = "!["%py ++ alt ++ "]("%py ++ url ++ ")"%py ++ rest /\
    no_LF alt /\ no_LF url /\ 0x29 ∉ url.
Proof.
unfold image_at. destruct (startswith _ s) eqn:E; [|done].
apply startswith_prefix in E as [s1 ->]. rewrite drop_bang.
destruct (until "]("%py s1) as [[alt s2]|] eqn:E1; [|done]. intros E2.
apply until_split in E1 as [-> Halt].
pose proof (until_char_first _ _ _ _ E2) as Hfirst.
apply until_split in E2 as [-> Hurl]. by exists alt.
Qed.

Lemma image_at_suffix s url rest :
  image_at s = Some (url, rest) ->
  exists used, s = used ++ rest /\ (5 <= length used)%nat.
Proof.
intros (alt & -> & _)%image_at_split.
exists ("!["%py ++ alt ++ "]("%py ++ url ++ ")"%py).
split; [by rewrite <- !app_assoc|]. rewrite !length_app. simpl. lia.
Qed.

(** An image reference written with an alternative text without closing
    bracket and an address without closing parenthesis, both on one line,
    is found with its address. *)
Lemma image_at_found alt url rest :
  0x5D ∉ alt -> no_LF alt -> 0x29 ∉ url -> no_LF url ->
  image_at ("!["%py ++ alt ++ "]("%py ++ url ++ ")"%py ++ rest) = Some (url, rest).
Proof.
intros H1 H2 H3 H4. unfold image_at.
rewrite startswith_app, drop_bang.
rewrite (until_found 0x5D [0x28] alt) by done.
by apply (until_found 0x29 [] url).
Qed.

Lemma image_at_not_bang c s : c <> 0x21 -> image_at (c :: s) = None.
Proof.
intros Hc. unfold image_at. cbn [startswith].
by rewrite (proj2 (N.eqb_neq 0x21 c)) by congruence.
Qed.

(** ** The recursion equation of the extraction *)

Lemma md_images_skip_drop n s : md_images_skip n s = md_images (drop n s).
Proof.
revert n. induction s as [|c s IH]; intros [|n]; try done. apply IH.
Qed.

Lemma md_images_nil : md_images [] = [].
Proof. reflexivity. Qed.

Lemma md_images_match s url rest :
  image_at s = Some (url, rest) -> md_images s = url :: md_images rest.
Proof.
intros H. unfold md_images at 1. rewrite md_images_skip_0, H.
destruct (image_at_suffix _ _ _ H) as (used & -> & Hlen).
destruct used as [|c used]; [simpl in Hlen; lia|]. simpl.
rewrite md_images_skip_drop. do 2 f_equal.
rewrite length_app.
replace (S (length used + length rest) - length rest - 1)%nat
  with (length used) by lia.
apply drop_app_length.
Qed.

Lemma md_images_no_match c s :
  image_at (c :: s) = None -> md_images (c :: s) = md_images s.
Proof. intros H. unfold md_images at 1. by rewrite md_images_skip_0, H. Qed.

(** Induction along the scan. *)
Lemma md_images_ind (P : pystr -> list pystr -> Prop) :
  P [] [] ->
  (forall s url rest, image_at s = Some (url, rest) ->
     P rest (md_images rest) -> P s (url :: md_images rest)) ->
  (forall c s, image_at (c :: s) = None ->
     P s (md_images s) -> P (c :: s) (md_images s)) ->
  forall s, P s (md_images s).
Proof.
intros Hnil Hmatch Hskip s.
remember (length s) as n eqn:Hn. revert s Hn.
induction n as [n IH] using lt_wf_ind. intros s ->.
destruct (image_at s) as [[url rest]|] eqn:E.
- rewrite (md_images_match _ _ _ E). apply Hmatch; [done|].
  destruct (image_at_suffix _ _ _ E) as (used & -> & Hlen).
  eapply IH; [|done]. rewrite length_app. lia.
- destruct s as [|c s]; [done|]. rewrite (md_images_no_match _ _ E).
  apply Hskip; [done|]. eapply IH; [|done]. simpl. lia.
Qed.

(** Every address the scanner extracts occurs in the markdown, lies on
    one line and holds no closing parenthesis. *)
Lemma md_images_sound s url :
  url ∈ md_images s -> infix url s /\ no_LF url /\ 0x29 ∉ url.
Proof.
revert s url.
apply (md_images_ind (fun s l =>
  forall url, url ∈ l -> infix url s /\ no_LF url /\ 0x29 ∉ url)).
- by intros url ?%elem_of_nil.
- intros s' u rest E IH url [->|Hin]%elem_of_cons.
  + apply image_at_split in E as (alt & -> & _ & H1 & H2).
    split; [|done]. exists ("!["%py ++ alt ++ "]("%py), (")"%py ++ rest).
    by rewrite <- !app_assoc.
  + destruct (IH _ Hin) as (Hi & H1 & H2). split; [|done].
    destruct (image_at_suffix _ _ _ E) as (used & -> & _).
    by apply infix_app_l.
- intros c s' _ IH url Hin. destruct (IH _ Hin) as (Hi & H1 & H2).
  split; [|done]. by apply (infix_app_l _ [c]).
Qed.

(** A markdown without exclamation mark has no image. *)
Lemma md_images_no_bang s : 0x21 ∉ s -> md_images s = [].
Proof.
induction s as [|c s IH]; [done|]. intros [Hc Hs]%not_elem_of_cons.
rewrite md_images_no_match; [by apply IH|]. by apply image_at_not_bang.
Qed.

(** An image costs five characters at least. *)
Lemma md_images_length s : (5 * length (md_images s) <= length s)%nat.
Proof.
apply (md_images_ind (fun s l => 5 * length l <= length s)%nat).
- simpl. lia.
- intros s' url rest (used & -> & Hlen)%image_at_suffix IH.
  rewrite length_app. simpl. lia.
- intros c s' _ IH. simpl. lia.
Qed.

(** ** Documents *)

(** A markdown document as a sequence of pieces of text and image
    references. *)
Inductive chunk : Type :=
| Text (t : pystr)
| Image (alt url : pystr).

#[export] Instance chunk_eq_dec : EqDecision chunk.
Proof. solve_decision. Defined.

Definition render_chunk (c : chunk) : pystr :=
  match c with
  | Text t => t
  | Image alt url => "!["%py ++ alt ++ "]("%py ++ url ++ ")"%py
  end.

Definition render (doc : list chunk) : pystr := concat (render_chunk <$> doc).

Definition chunk_urls (c : chunk) : list pystr :=
  match c with
  | Text _ => []
  | Image _ url => [url]
  end.

Definition urls (doc : list chunk) : list pystr := doc ≫= chunk_urls.

(** Pieces of text without exclamation mark; alternative texts and
    addresses that do not hold the character that ends them, on one line. *)
Definition wf_chunk (c : chunk) : Prop :=
  match c with
  | Text t => 0x21 ∉ t
  | Image alt url => (0x5D ∉ alt) /\ no_LF alt /\ (0x29 ∉ url) /\ no_LF url
  end.

#[export] Instance wf_chunk_dec c : Decision (wf_chunk c).
Proof. destruct c; simpl; unfold no_LF; apply _. Defined.

Lemma md_images_text t s : 0x21 ∉ t -> md_images (t ++ s) = md_images s.
Proof.
induction t as [|c t IH]; [done|]. intros [Hc Ht]%not_elem_of_cons.
rewrite <- app_comm_cons, md_images_no_match; [by apply IH|].
by apply image_at_not_bang.
Qed.

Lemma render_cons c doc : render (c :: doc) = render_chunk c ++ render doc.
Proof. reflexivity. Qed.

Lemma urls_cons c doc : urls (c :: doc) = chunk_urls c ++ urls doc.
Proof. reflexivity. Qed.

(** The scanner undoes rendering. *)
Lemma md_images_render doc :
  Forall wf_chunk doc -> md_images (render doc) = urls doc.
Proof.
induction 1 as [|[t|alt url] doc Hc _ IH]; [done|..];
  rewrite render_cons, urls_cons; cbn [render_chunk chunk_urls].
- by rewrite md_images_text.
- destruct Hc as (H1 & H2 & H3 & H4). rewrite <- !app_assoc.
  rewrite (md_images_match _ url (render doc)); [by rewrite IH|].
  by apply image_at_found.
Qed.

(** ** The same, of [re.findall] *)

(** Every address [re.findall] extracts with the image pattern
    occurs in the markdown, lies on one line and holds no closing
    parenthesis. *)
Theorem findall_sound s url :
  url ∈ findall image_pattern s -> infix url s /\ no_LF url /\ 0x29 ∉ url.
Proof. unfold findall. rewrite findall_skip_image. apply md_images_sound. Qed.

(** C12.  Extraction undoes rendering: from the markdown of a document
    [re.findall] returns the addresses of its images in their order of
    appearance, repetitions included. *)
Theorem findall_render doc :
  Forall wf_chunk doc -> findall image_pattern (render doc) = urls doc.
Proof. unfold findall. rewrite findall_skip_image. apply md_images_render. Qed.

(** ** A document *)

Definition sample_doc : list chunk :=
  [Text "A photo: "%py; Image "tower"%py "http://x/t.png"%py;
   Text (" and"%py ++ [LF]); Image []  "http://x/t.png?a=(1"%py].

Lemma findall_sound_witness :
  infix "http://x/t.png"%py "see ![tower](http://x/t.png) there"%py /\
  no_LF "http://x/t.png"%py /\ 0x29 ∉ "http://x/t.png"%py.
Proof.
apply (findall_sound "see ![tower](http://x/t.png) there"%py).
vm_compute. left.
Defined.

Lemma findall_render_witness :
  findall image_pattern (render sample_doc) =
  ["http://x/t.png"%py; "http://x/t.png?a=(1"%py].
Proof.
apply (findall_render sample_doc).
apply (bool_decide_unpack (Forall wf_chunk sample_doc)). vm_compute. exact I.
Defined.

Lemma parse_fuel_witness :
  parse_from 100 image_pattern_text = compile image_pattern_text.
Proof. apply parse_fuel. simpl. lia. Defined.
