(* ===== verification/Firecrawl.v ===== *)
(** * Firecrawl: the scraper

    [src/backend/app/services/firecrawl_service.py].  [_to_dict] turns
    whatever the SDK returned into a dictionary by trying, in order, the
    object itself, [model_dump()], [dict()], [json.loads(json())] and at
    last [{"raw": str(obj)}].  [FirecrawlService.scrape] asks the provider
    for the markdown of one address, looks for the markdown text at the
    top of the dictionary or under ["data"], extracts the image addresses
    with the regular expression of [Regex], and returns a dictionary with
    the keys ["markdown"], ["image_urls"] and ["raw"].  Any [Exception] on
    the way gives the dictionary [{"error": ..., "image_urls": []}]
    instead.

    The shape of what [scrape] returns is stated by its keys
    ([scrape_result]), independently of the two dictionaries the code
    builds: the lemmas [scrape_payload_result] and [scrape_error_result]
    show that these have it, [scrape_returns_result] that every run of
    [scrape] ends with it.  The markdown under ["data"] is handed on
    whatever its type ([markdown_not_text]). *)

From S2P Require Import Prelude PyStr PyVal Effects Logic Regex.

Section firecrawl.
Context `{Runtime}.

(** One fallback of [_to_dict]: when the attribute is a method, call it and
    convert what it returns; an [Exception] of either step is swallowed
    ([pass]), any other exception propagates. *)
Definition try_method (a : attr) (conv : pyval -> result pyval) :
    result (option pyval) :=
  match a with
  | Method outcome =>
      match rbind outcome conv with
      | inr v => Ok (Some v)
      | inl e => if is_Exception e then Ok None else Err e
      end
  | Absent | NotCallable => Ok None
  end.

(** [json.loads(v)]: the text is parsed; another value is a [TypeError]. *)
Definition json_loads_value (v : pyval) : result pyval :=
  match v with
  | PStr s => json_loads s
  | _ =>
      Err (PyExc TypeError
        ("the JSON object must be str, bytes or bytearray, not "%py
         ++ type_name v))
  end.

(** [_to_dict(obj)]. *)
Definition _to_dict (obj : sdk_object) : result pyval :=
  match obj with
  | ObjDict d => Ok (PDict d)
  | ObjModel model_dump dict_ json_ str_ =>
      (r1 <- try_method model_dump inr ;;
       match r1 with
       | Some v => Ok v
       | None =>
           r2 <- try_method dict_ inr ;;
           match r2 with
           | Some v => Ok v
           | None =>
               r3 <- try_method json_ json_loads_value ;;
               match r3 with
               | Some v => Ok v
               | None => s <- str_ ;; Ok (PDict {[ "raw"%py := PStr s ]})
               end
           end
       end)%res
  end.

(** The first condition: ["markdown" in data and
    isinstance(data["markdown"], str)]. *)
Definition markdown_at_top (data : pyval) : result bool :=
  (top <- py_in "markdown"%py data ;;
   if top : bool then v <- py_getitem data "markdown"%py ;; Ok (is_str v)
   else Ok false)%res.

(** The second condition: ["data" in data and isinstance(data["data"],
    dict) and "markdown" in data["data"]]. *)
Definition markdown_nested (data : pyval) : result bool :=
  (has_data <- py_in "data"%py data ;;
   if has_data : bool then
     d <- py_getitem data "data"%py ;;
     if is_dict d then py_in "markdown"%py d else Ok false
   else Ok false)%res.

(** The search for the markdown in the normalised answer: at the top when
    it is a string there, else under ["data"] when that is a dictionary
    with the key, else [None]. *)
Definition find_markdown (data : pyval) : result pyval :=
  (top <- markdown_at_top data ;;
   if top : bool then py_getitem data "markdown"%py
   else
     nested <- markdown_nested data ;;
     if nested : bool then
       d <- py_getitem data "data"%py ;; py_getitem d "markdown"%py
     else Ok PNone)%res.

(** The image addresses of the markdown, none when it is not a string. *)
Definition extract_image_urls (markdown : pyval) : list pystr :=
  match markdown with
  | PStr s => findall image_pattern s
  | _ => []
  end.

(** The dictionary returned after a successful scrape. *)
Definition scrape_payload (markdown data : pyval) : pyval :=
  PDict (list_to_map [
    ("markdown"%py, markdown);
    ("image_urls"%py, PList (PStr <$> extract_image_urls markdown));
    ("raw"%py, data)]).

(** The dictionary returned when an [Exception] was caught. *)
Definition scrape_error (e : exn) : pyval :=
  PDict (list_to_map [
    ("error"%py, PStr ("Scraping error: "%py ++ exn_str e));
    ("image_urls"%py, PList [])]).

(** What [scrape] computes from the SDK's answer, inside the [try]. *)
Definition scrape_answer (scraped_obj : sdk_object) : result pyval :=
  (data <- _to_dict scraped_obj ;;
   markdown <- find_markdown data ;;
   Ok (scrape_payload markdown data))%res.

End firecrawl.

Module FirecrawlService.

(** [__init__(self)]: the client is built with the key of the settings. *)
Definition init (settings : Settings) : prog unit :=
  perform (FirecrawlApp (firecrawl_api_key settings)).

Section methods.
Context `{Runtime}.

(** The body of the [try] block of [scrape]. *)
Definition scrape_body (url : pyval) : prog pyval :=
  (scraped_obj <- perform (FirecrawlScrape url ["markdown"%py] 3600000) ;;
   lift (scrape_answer scraped_obj))%prog.

(** [scrape(self, url)]. *)
Definition scrape (url : pyval) : prog pyval :=
  try_except (scrape_body url) (fun e => Ret (scrape_error e)).

End methods.
End FirecrawlService.

(** The instance of the module, created when it is imported. *)
Definition firecrawl_service (settings : Settings) : prog unit :=
  FirecrawlService.init settings.

Import FirecrawlService.

(** ** The shape of what [scrape] returns *)

(** The images of a markdown value: those of the text when it is a
    string, none otherwise. *)
Definition images_of (markdown : pyval) : list pystr :=
  match markdown with
  | PStr s => md_images s
  | _ => []
  end.

(** A scrape result, by its keys: a dictionary with exactly the keys
    ["markdown"], ["image_urls"] and ["raw"], the image list being the
    images of the markdown, or a dictionary with exactly the keys
    ["error"] and ["image_urls"], the message starting with
    ["Scraping error: "] and the image list empty. *)
Definition scrape_result (v : pyval) : Prop :=
  exists d, v = PDict d /\
    ((dom d =@{gset pystr} {[ "markdown"%py; "image_urls"%py; "raw"%py ]} /\
      exists markdown,
        d !! "markdown"%py = Some markdown /\
        d !! "image_urls"%py = Some (PList (PStr <$> images_of markdown))) \/
     (dom d =@{gset pystr} {[ "error"%py; "image_urls"%py ]} /\
      (exists msg,
         d !! "error"%py = Some (PStr ("Scraping error: "%py ++ msg))) /\
      d !! "image_urls"%py = Some (PList []))).

(** The image list of a scrape result. *)
Definition image_urls_of (v : pyval) : list pystr :=
  match v with
  | PDict d =>
      match d !! "image_urls"%py with
      | Some (PList l) => str_items l
      | _ => []
      end
  | _ => []
  end.

Section firecrawl_facts.
Context `{Runtime}.

(** ** [_to_dict] *)

Lemma to_dict_dict d : _to_dict (ObjDict d) = Ok (PDict d).
Proof. reflexivity. Qed.

Lemma try_method_Ok_inv a conv r :
  try_method a conv = Ok r ->
  match r with
  | Some v => exists x, a = Method (Ok x) /\ conv x = Ok v
  | None =>
      a = Absent \/ a = NotCallable \/
      exists o e, a = Method o /\ rbind o conv = Err e /\ is_Exception e = true
  end.
Proof.
destruct a as [| |[e|x]]; simpl.
- intros [= <-]. by left.
- intros [= <-]. by right; left.
- destruct (is_Exception e) eqn:He; [|done]. intros [= <-].
  right; right. by exists (Err e), e.
- destruct (conv x) as [e|v] eqn:Hc.
  + destruct (is_Exception e) eqn:He; [|done]. intros [= <-].
    right; right. exists (Ok x), e. by rewrite <- Hc.
  + intros [= <-]. by exists x.
Qed.

Lemma try_method_raises a conv e :
  try_method a conv = Err e -> is_Exception e = false.
Proof.
destruct a as [| |o]; simpl; [done..|].
destruct (rbind o conv) as [e'|v]; [|done].
destruct (is_Exception e') eqn:He; [done|]. by intros [= <-].
Qed.

(** The fallbacks are tried in order: a working [model_dump] decides. *)
Lemma to_dict_model_dump v dict_ json_ str_ :
  _to_dict (ObjModel (Method (Ok v)) dict_ json_ str_) = Ok v.
Proof. reflexivity. Qed.

Lemma to_dict_dict_method a v json_ str_ :
  try_method a inr = Ok None ->
  _to_dict (ObjModel a (Method (Ok v)) json_ str_) = Ok v.
Proof. intros Ha. simpl. by rewrite Ha. Qed.

(** With no usable method the answer is [{"raw": str(obj)}]. *)
Lemma to_dict_last_resort s :
  _to_dict (ObjModel Absent Absent Absent (Ok s)) =
  Ok (PDict {[ "raw"%py := PStr s ]}).
Proof. reflexivity. Qed.

(** ** [find_markdown] *)

Lemma markdown_at_top_dict d :
  markdown_at_top (PDict d) =
  Ok (match d !! "markdown"%py with Some (PStr _) => true | _ => false end).
Proof.
unfold markdown_at_top. destruct (d !! "markdown"%py) as [v|] eqn:E.
- rewrite (py_in_dict_Some _ _ _ E), rbind_Ok, (py_getitem_dict_Some _ _ _ E).
  by destruct v.
- by rewrite (py_in_dict_None _ _ E).
Qed.

Lemma markdown_nested_dict d :
  markdown_nested (PDict d) =
  Ok (match d !! "data"%py with
      | Some (PDict dd) => bool_decide (is_Some (dd !! "markdown"%py))
      | _ => false
      end).
Proof.
unfold markdown_nested. destruct (d !! "data"%py) as [v|] eqn:E.
- rewrite (py_in_dict_Some _ _ _ E), rbind_Ok, (py_getitem_dict_Some _ _ _ E).
  by destruct v.
- by rewrite (py_in_dict_None _ _ E).
Qed.

(** The markdown under ["data"], [None] when there is none. *)
Definition nested_markdown (d : gmap pystr pyval) : pyval :=
  match d !! "data"%py with
  | Some (PDict dd) => default PNone (dd !! "markdown"%py)
  | _ => PNone
  end.

Lemma find_nested_dict d :
  (nested <- markdown_nested (PDict d) ;;
   if nested : bool then
     d' <- py_getitem (PDict d) "data"%py ;; py_getitem d' "markdown"%py
   else Ok PNone)%res = Ok (nested_markdown d).
Proof.
rewrite markdown_nested_dict, rbind_Ok. unfold nested_markdown.
destruct (d !! "data"%py) as [[| | | | | |dd]|] eqn:Ed; try done.
rewrite (py_getitem_dict_Some _ _ _ Ed), rbind_Ok.
destruct (dd !! "markdown"%py) eqn:Em.
- rewrite bool_decide_true by eauto. by apply py_getitem_dict_Some.
- by rewrite bool_decide_false by (by intros [? ?]).
Qed.

(** On a dictionary the search never fails: a string at the top wins,
    then whatever is under ["data"]["markdown"], then [None]. *)
Lemma find_markdown_dict d :
  find_markdown (PDict d) =
  Ok (match d !! "markdown"%py with
      | Some (PStr s) => PStr s
      | _ => nested_markdown d
      end).
Proof.
unfold find_markdown. rewrite markdown_at_top_dict, rbind_Ok.
destruct (d !! "markdown"%py) as [[]|] eqn:E; try apply find_nested_dict.
by apply py_getitem_dict_Some.
Qed.

Lemma find_markdown_raises data : raises_Exception (find_markdown data).
Proof.
unfold find_markdown, markdown_at_top, markdown_nested.
repeat first
  [ apply raises_Exception_rbind; [|intros ?]
  | match goal with |- raises_Exception (if ?b then _ else _) => destruct b end
  | solve [auto with py] ].
Qed.

(** ** [scrape] *)

(** The outcome of the [try] block once the provider has answered, with
    the [except] clause applied. *)
Definition scrape_outcome (r : result sdk_object) : result pyval :=
  match rbind r scrape_answer with
  | inr v => Ok v
  | inl e => if is_Exception e then Ok (scrape_error e) else Err e
  end.

(** The call [scrape] makes. *)
Definition scrape_call (url : pyval) : event sdk_object :=
  FirecrawlScrape url ["markdown"%py] 3600000.

Lemma scrape_run_eq {W} (h : handler W) url w :
  run h (scrape url) w =
  Outcome (scrape_outcome (h _ (scrape_call url) w).1)
    [mkcall (scrape_call url)] (h _ (scrape_call url) w).2.
Proof.
unfold scrape, scrape_body, scrape_outcome.
rewrite run_try_except, run_bind, run_perform. fold (scrape_call url).
destruct (h _ (scrape_call url) w) as [[e|obj] w']; simpl.
- by destruct (is_Exception e).
- rewrite run_lift. simpl. destruct (scrape_answer obj) as [e|v]; simpl; [|done].
  by destruct (is_Exception e).
Qed.

(** C7.  [scrape] makes exactly one call to the provider (the address,
    the markdown format, a maximal age of one hour in milliseconds) and
    its result is a function of the provider's answer: the payload when
    all goes well, the error dictionary when an [Exception] occurred. *)
Theorem scrape_run {W} (h : handler W) url w :
  run h (scrape url) w =
  Outcome (scrape_outcome (h _ (scrape_call url) w).1)
    [mkcall (scrape_call url)] (h _ (scrape_call url) w).2.
Proof. apply scrape_run_eq. Qed.

(** The two dictionaries [scrape] builds are scrape results. *)
Lemma extract_image_urls_images markdown :
  extract_image_urls markdown = images_of markdown.
Proof. destruct markdown; try done. apply findall_skip_image. Qed.

Lemma scrape_payload_result markdown data :
  scrape_result (scrape_payload markdown data).
Proof.
eexists. split; [reflexivity|]. left. split.
- rewrite dom_list_to_map_L. set_solver.
- exists markdown. by rewrite extract_image_urls_images.
Qed.

Lemma scrape_error_result e : scrape_result (scrape_error e).
Proof.
eexists. split; [reflexivity|]. right. split; [|by eauto].
rewrite dom_list_to_map_L. set_solver.
Qed.

Lemma scrape_outcome_cases r :
  match scrape_outcome r with
  | inr v => scrape_result v
  | inl e => is_Exception e = false
  end.
Proof.
unfold scrape_outcome. destruct (rbind r scrape_answer) as [e|v] eqn:E.
- destruct (is_Exception e) eqn:He; [apply scrape_error_result | done].
- apply rbind_inv_Ok in E as (obj & _ & E). unfold scrape_answer in E.
  apply rbind_inv_Ok in E as (data & _ & E).
  apply rbind_inv_Ok in E as (md & _ & [= <-]). apply scrape_payload_result.
Qed.

(** Whatever the provider answers, [scrape] makes its one call and ends
    with the outcome computed from the answer. *)
Lemma scrape_post C url log Q :
  post_under C (scrape url) log Q <->
  forall r, C _ (scrape_call url) r ->
    Q (scrape_outcome r) (log ++ [mkcall (scrape_call url)]).
Proof.
unfold scrape, scrape_body, scrape_outcome.
rewrite post_try_except, post_bind, post_perform. fold (scrape_call url).
apply forall_proper. intros [e|obj]; simpl.
- by destruct (is_Exception e).
- rewrite post_lift. destruct (scrape_answer obj) as [e|v]; simpl; [|done].
  by destruct (is_Exception e).
Qed.

(** *** In a civil environment

    When neither the provider nor the methods of the object it hands back
    raise anything but an [Exception], every fallback of [_to_dict] is
    tried without harm and [scrape] always returns. *)

Lemma try_method_civil a conv :
  attr_civil a -> (forall x, raises_Exception (conv x)) ->
  is_Ok (try_method a conv).
Proof.
intros Ha Hc. destruct a as [| |[e|x]]; simpl; [by eexists..| |].
- rewrite (Ha e eq_refl). by eexists.
- destruct (conv x) as [e|v] eqn:E; [|by eexists].
  rewrite (Hc x e E). by eexists.
Qed.

Lemma json_loads_value_raises v : raises_Exception (json_loads_value v).
Proof.
destruct v; simpl; try (by intros e [= <-]).
intros e. apply json_loads_Exception.
Qed.

Lemma to_dict_civil obj : obj_civil obj -> raises_Exception (_to_dict obj).
Proof.
destruct obj as [d|a b c s]; [by intros _ e|]. intros (Ha & Hb & Hc & Hs).
unfold _to_dict.
destruct (try_method_civil a inr Ha) as [[v|] ->]; [by intros ? ? [=]|done|].
destruct (try_method_civil b inr Hb) as [[v|] ->]; [by intros ? ? [=]|done|].
destruct (try_method_civil c json_loads_value Hc json_loads_value_raises)
  as [[v|] ->]; [done|].
simpl. apply raises_Exception_rbind; [done|by intros ? ? [=]].
Qed.

Lemma scrape_outcome_civil url r :
  civil (scrape_call url) r -> is_Ok (scrape_outcome r).
Proof.
unfold scrape_outcome. destruct r as [e|obj]; simpl.
- intros ->. by eexists.
- intros Hobj. destruct (scrape_answer obj) as [e|v] eqn:E; [|by eexists].
  assert (is_Exception e = true) as ->; [|by eexists]. revert e E.
  apply raises_Exception_rbind; [by apply to_dict_civil|]. intros data.
  apply raises_Exception_rbind; [apply find_markdown_raises|by intros ? ? [=]].
Qed.

(** Whatever a civil provider does, [scrape] returns a scrape result. *)
Lemma scrape_total C url log :
  polite C ->
  post_under C (scrape url) log (outcome_is (fun r =>
    exists v, r = Ok v /\ scrape_result v)).
Proof.
intros HC. apply scrape_post. intros r Hr. unfold outcome_is.
destruct (scrape_outcome_civil url r (HC _ _ _ Hr)) as [v Hv].
exists v. split; [done|]. pose proof (scrape_outcome_cases r) as Hc.
by rewrite Hv in Hc.
Qed.

Lemma scrape_run_outcome {W} (h : handler W) url w :
  exists r, out_result (run h (scrape url) w) = scrape_outcome r.
Proof.
apply (post_run h (scrape url) w (fun r' _ => exists r, r' = scrape_outcome r)).
apply scrape_post. eauto.
Qed.

(** [scrape] never raises an [Exception]: what escapes it is an
    exception outside that class, such as an interrupt. *)
Theorem scrape_no_Exception {W} (h : handler W) url w e :
  out_result (run h (scrape url) w) = Err e -> is_Exception e = false.
Proof.
destruct (scrape_run_outcome h url w) as [r ->]. intros E.
pose proof (scrape_outcome_cases r) as Hc. by rewrite E in Hc.
Qed.

Lemma scrape_run_result {W} (h : handler W) url w v :
  out_result (run h (scrape url) w) = Ok v -> scrape_result v.
Proof.
destruct (scrape_run_outcome h url w) as [r ->]. intros E.
pose proof (scrape_outcome_cases r) as Hc. by rewrite E in Hc.
Qed.

(** C32.  Whatever the provider answers, what [scrape] returns is a
    dictionary of one of two shapes: the keys ["markdown"],
    ["image_urls"] and ["raw"] and no other, the image list holding the
    images of the markdown when that is a string and nothing otherwise;
    or the keys ["error"] and ["image_urls"] and no other, the message
    starting with ["Scraping error: "] and the image list empty.  The key
    ["image_urls"] is present in both, the key ["content"] in neither. *)
Theorem scrape_returns_result {W} (h : handler W) url w v :
  out_result (run h (scrape url) w) = Ok v ->
  exists d, v = PDict d /\
    ((dom d =@{gset pystr} {[ "markdown"%py; "image_urls"%py; "raw"%py ]} /\
      exists markdown,
        d !! "markdown"%py = Some markdown /\
        d !! "image_urls"%py =
          Some (PList (PStr <$>
                  match markdown with PStr s => md_images s | _ => [] end))) \/
     (dom d =@{gset pystr} {[ "error"%py; "image_urls"%py ]} /\
      (exists msg,
         d !! "error"%py = Some (PStr ("Scraping error: "%py ++ msg))) /\
      d !! "image_urls"%py = Some (PList []))).
Proof. apply scrape_run_result. Qed.

Lemma scrape_payload_image_urls md data :
  image_urls_of (scrape_payload md data) = extract_image_urls md.
Proof. apply str_items_fmap. Qed.

Lemma scrape_error_image_urls e : image_urls_of (scrape_error e) = [].
Proof. reflexivity. Qed.

(** A scrape result always has a list of strings under ["image_urls"],
    and never has a key ["content"]. *)
Lemma scrape_result_keys v :
  scrape_result v ->
  exists d, v = PDict d /\
    d !! "image_urls"%py = Some (PList (PStr <$> image_urls_of v)) /\
    d !! "content"%py = None.
Proof.
intros (d & -> & [(Hd & md & _ & Hi)|(Hd & _ & Hi)]); exists d;
  (split; [done|]); simpl; rewrite Hi, ?str_items_fmap;
  (split; [done|]); apply not_elem_of_dom; rewrite Hd;
  by rewrite !not_elem_of_union, !not_elem_of_singleton.
Qed.

(** A flat answer: the provider returns a dictionary with the
    markdown text at the top; the result holds that text and the
    addresses of its images as the direct scanner finds them. *)
Theorem scrape_flat d md :
  d !! "markdown"%py = Some (PStr md) ->
  scrape_outcome (Ok (ObjDict d)) = Ok (scrape_payload (PStr md) (PDict d)) /\
  image_urls_of (scrape_payload (PStr md) (PDict d)) = md_images md.
Proof.
intros Hd. split.
- unfold scrape_outcome, scrape_answer. simpl rbind at 1. cbn [_to_dict rbind].
  by rewrite find_markdown_dict, Hd.
- rewrite scrape_payload_image_urls. apply findall_skip_image.
Qed.

(** A nested answer: no string under ["markdown"] at the top, a
    dictionary under ["data"] with the markdown text. *)
Theorem scrape_nested d dd md :
  (forall s, d !! "markdown"%py <> Some (PStr s)) ->
  d !! "data"%py = Some (PDict dd) ->
  dd !! "markdown"%py = Some (PStr md) ->
  scrape_outcome (Ok (ObjDict d)) = Ok (scrape_payload (PStr md) (PDict d)).
Proof.
intros Htop Hd Hdd. unfold scrape_outcome, scrape_answer.
cbn [_to_dict rbind]. rewrite find_markdown_dict. unfold nested_markdown.
rewrite Hd, Hdd. simpl.
destruct (d !! "markdown"%py) as [[]|]; try done. by destruct (Htop s).
Qed.

Lemma scrape_outcome_Err e :
  is_Exception e = true ->
  scrape_outcome (Err e) = Ok (scrape_error e).
Proof. intros He. unfold scrape_outcome. simpl. by rewrite He. Qed.

(** When the provider raises an [Exception], [scrape] returns the
    error dictionary with the message and an empty image list. *)
Theorem scrape_provider_error e :
  is_Exception e = true ->
  scrape_outcome (Err e) = Ok (scrape_error e).
Proof. apply scrape_outcome_Err. Qed.

End firecrawl_facts.

(** ** Scrapes, run *)

#[local] Existing Instance ref_runtime.

Definition flat_page : gmap pystr pyval :=
  list_to_map [("markdown"%py, PStr "![a](http://x/a.png)"%py)].

Definition nested_page : gmap pystr pyval :=
  list_to_map [("data"%py, PDict flat_page)].

(** A provider that answers every scrape with [answer]. *)
Definition scrape_env (answer : result sdk_object) : handler unit :=
  fun X ev w =>
    match ev in event X return result X * unit with
    | FirecrawlScrape _ _ _ => (answer, w)
    | _ => (Err (PyExc Exception "not expected"%py), w)
    end.

Definition interrupt : exn := PyExc BaseException "KeyboardInterrupt"%py.

(** A page whose nested markdown is a number. *)
Definition numbered_page : gmap pystr pyval :=
  list_to_map [("data"%py, PDict (list_to_map [("markdown"%py, PInt 3)]))].

(** Only the markdown at the top is tested for being a string: the one
    under ["data"] is returned as it is, with no image. *)
Example markdown_not_text :
  exists d,
    scrape_outcome (Ok (ObjDict numbered_page)) = Ok (PDict d) /\
    d !! "markdown"%py = Some (PInt 3) /\
    d !! "image_urls"%py = Some (PList []).
Proof. eexists. by split; [reflexivity|]. Qed.

Lemma scrape_no_Exception_witness : is_Exception interrupt = false.
Proof.
apply (scrape_no_Exception (scrape_env (Err interrupt)) (PStr "u"%py) tt).
reflexivity.
Defined.

Lemma scrape_returns_result_witness :
  scrape_result
    (scrape_payload (PStr "![a](http://x/a.png)"%py) (PDict flat_page)).
Proof.
apply (scrape_returns_result (scrape_env (Ok (ObjDict flat_page)))
         (PStr "u"%py) tt).
reflexivity.
Defined.

Lemma scrape_flat_witness :
  scrape_outcome (Ok (ObjDict flat_page)) =
    Ok (scrape_payload (PStr "![a](http://x/a.png)"%py) (PDict flat_page)) /\
  image_urls_of
    (scrape_payload (PStr "![a](http://x/a.png)"%py) (PDict flat_page)) =
  md_images "![a](http://x/a.png)"%py.
Proof. apply scrape_flat. reflexivity. Defined.

Lemma scrape_nested_witness :
  scrape_outcome (Ok (ObjDict nested_page)) =
  Ok (scrape_payload (PStr "![a](http://x/a.png)"%py) (PDict nested_page)).
Proof. apply (scrape_nested nested_page flat_page); by vm_compute. Defined.

Lemma scrape_provider_error_witness :
  scrape_outcome (Err (PyExc ValueError "timeout"%py)) =
  Ok (scrape_error (PyExc ValueError "timeout"%py)).
Proof. apply scrape_provider_error. reflexivity. Defined.
