(* ===== verification/Schemas.v ===== *)
(** * Schemas: the Pydantic models

    [models/schemas.py] declares the request and response models; here are
    those of the research endpoint and the structured analysis.  A model
    is a record of typed fields; constructing one validates the arguments
    and raises [ValidationError] naming every rejected field.  The
    validators are those of Pydantic's default (lax) mode on the values the
    sources pass: a [str] field accepts strings only, a [float] field
    accepts floats, integers and booleans (converted) and strings that
    parse as floats, [str | None] accepts a string or [None].  An integer
    is converted at the width of binary64: it rounds beyond [2^53] and is
    rejected where the nearest float is infinite ([float_of_int_range],
    [score_overflow_rejected]).

    Each model is a module whose record [t] carries the fields under the
    names of the source and whose [new] is the constructor. *)

From S2P Require Import Prelude PyStr PyVal Effects.

(** ** Field validators *)

Definition as_str (v : pyval) : option pystr :=
  match v with
  | PStr s => Some s
  | _ => None
  end.

Definition as_opt_str (v : pyval) : option (option pystr) :=
  match v with
  | PNone => Some None
  | PStr s => Some (Some s)
  | _ => None
  end.

Definition is_finite (f : spec_float) : bool :=
  match f with
  | S754_zero _ | S754_finite _ _ _ => true
  | _ => false
  end.

(** [float(z)] of an integer: the nearest float, an error beyond the
    range of binary64. *)
Definition float_of_int (z : Z) : option spec_float :=
  let f := float_of_Z z in
  if is_finite f then Some f else None.

Definition as_float `{Runtime} (v : pyval) : option spec_float :=
  match v with
  | PFloat f => Some f
  | PInt z => float_of_int z
  | PBool b => float_of_int (if b then 1 else 0)
  | PStr s => float_of_str s
  | _ => None
  end.

(** The error entry of a field: empty when the input was accepted. *)
Definition rejected {A} (name : pystr) (v : pyval) (o : option A) :
    list (pystr * pyval) :=
  match o with
  | Some _ => []
  | None => [(name, v)]
  end.

Definition validation_error `{Runtime} (model : pystr)
    (errors : list (pystr * pyval)) : exn :=
  PyExc ValidationError (validation_text model errors).

(** ** [ResearchRequest] *)

Module ResearchRequest.

Record t : Type := Build {
  query : pystr;
  max_results : Z;
  language : pystr
}.

#[global] Instance ResearchRequest_eq_dec : EqDecision t.
Proof. solve_decision. Defined.

Definition default_max_results : Z := 5.
Definition default_language : pystr := "en"%py.

(** The constraints of the [Field] declarations: [min_length=3],
    [max_length=200] on [query], [ge=1], [le=10] on [max_results]; none on
    [language]. *)
Definition query_ok (q : pystr) : bool :=
  (3 <=? length q)%nat && (length q <=? 200)%nat.

Definition max_results_ok (n : Z) : bool :=
  (1 <=? n)%Z && (n <=? 10)%Z.

Definition valid (r : t) : bool :=
  query_ok (query r) && max_results_ok (max_results r).

(** The constructor on arguments of the declared types; an omitted
    argument takes its default. *)
Definition new `{Runtime} (q : pystr) (n : option Z) (l : option pystr) :
    result t :=
  let n' := default default_max_results n in
  let errors :=
    (if query_ok q then [] else [("query"%py, PStr q)]) ++
    (if max_results_ok n' then [] else [("max_results"%py, PInt n')]) in
  match errors with
  | [] => Ok (Build q n' (default default_language l))
  | _ => Err (validation_error "ResearchRequest"%py errors)
  end.

End ResearchRequest.

(** ** [ResearchResult] *)

Module ResearchResult.

Record t : Type := Build {
  title : pystr;
  url : pystr;
  content : pystr;
  score : spec_float;
  image_url : option pystr
}.

#[global] Instance ResearchResult_eq_dec : EqDecision t.
Proof. solve_decision. Defined.

Definition new `{Runtime} (title url content score image_url : pyval) :
    result t :=
  match as_str title, as_str url, as_str content, as_float score,
        as_opt_str image_url with
  | Some t, Some u, Some c, Some s, Some i => Ok (Build t u c s i)
  | ot, ou, oc, os, oi =>
      Err (validation_error "ResearchResult"%py
             (rejected "title"%py title ot ++ rejected "url"%py url ou ++
              rejected "content"%py content oc ++
              rejected "score"%py score os ++
              rejected "image_url"%py image_url oi))
  end.

End ResearchResult.

(** ** [ResearchResponse] *)

Module ResearchResponse.

Record t : Type := Build {
  query : pystr;
  response : pystr;
  image_urls : list pystr;
  sources : list ResearchResult.t;
  timestamp : Effects.timestamp
}.

#[global] Instance ResearchResponse_eq_dec : EqDecision t.
Proof. solve_decision. Defined.

(** The constructor as the route calls it: the texts, the sources and the
    time have their types already, the image list is validated element by
    element. *)
Definition new `{Runtime} (query response : pystr) (image_urls : list pyval)
    (sources : list ResearchResult.t) (ts : Effects.timestamp) : result t :=
  match filter (fun v => as_str v = None) image_urls with
  | [] => Ok (Build query response (str_items image_urls) sources ts)
  | bad =>
      Err (validation_error "ResearchResponse"%py
             ((fun v => ("image_urls"%py, v)) <$> bad))
  end.

End ResearchResponse.

(** ** [TravelAnalysis] *)

(** A field of type [list[str]]. *)
Definition as_str_list (v : pyval) : option (list pystr) :=
  match v with
  | PList l => if forallb is_str l then Some (str_items l) else None
  | _ => None
  end.

Module TravelAnalysis.

Record t : Type := Build {
  summary : pystr;
  key_findings : list pystr;
  recommendations : list pystr;
  next_steps : list pystr
}.

#[global] Instance TravelAnalysis_eq_dec : EqDecision t.
Proof. solve_decision. Defined.

(** [TravelAnalysis.model_validate(obj)] on a parsed JSON value: the four
    fields are required, other keys are ignored. *)
Definition validate `{Runtime} (obj : pyval) : result t :=
  match obj with
  | PDict d =>
      let field name := default PNone (d !! name) in
      let s := d !! "summary"%py ≫= as_str in
      let k := d !! "key_findings"%py ≫= as_str_list in
      let r := d !! "recommendations"%py ≫= as_str_list in
      let n := d !! "next_steps"%py ≫= as_str_list in
      match s, k, r, n with
      | Some s', Some k', Some r', Some n' => Ok (Build s' k' r' n')
      | _, _, _, _ =>
          Err (validation_error "TravelAnalysis"%py
                 (rejected "summary"%py (field "summary"%py) s ++
                  rejected "key_findings"%py (field "key_findings"%py) k ++
                  rejected "recommendations"%py
                    (field "recommendations"%py) r ++
                  rejected "next_steps"%py (field "next_steps"%py) n))
      end
  | _ => Err (validation_error "TravelAnalysis"%py [([], obj)])
  end.

End TravelAnalysis.

(** ** The models of the other endpoints *)

Module HealthCheckResponse.

Record t : Type := Build {
  status : pystr;
  timestamp : Effects.timestamp;
  message : pystr
}.

#[global] Instance HealthCheckResponse_eq_dec : EqDecision t.
Proof. solve_decision. Defined.

End HealthCheckResponse.

Module ChatRequest.

Record t : Type := Build {
  message : pystr;
  language : pystr
}.

#[global] Instance ChatRequest_eq_dec : EqDecision t.
Proof. solve_decision. Defined.

(** [min_length=1], [max_length=1000]. *)
Definition message_ok (m : pystr) : bool :=
  (1 <=? length m)%nat && (length m <=? 1000)%nat.

Definition valid (r : t) : bool := message_ok (message r).

Definition new `{Runtime} (m : pystr) (l : option pystr) : result t :=
  if message_ok m then Ok (Build m (default "en"%py l))
  else Err (validation_error "ChatRequest"%py [("message"%py, PStr m)]).

End ChatRequest.

Module ChatResponse.

Record t : Type := Build {
  response : pystr;
  language : pystr;
  timestamp : Effects.timestamp
}.

#[global] Instance ChatResponse_eq_dec : EqDecision t.
Proof. solve_decision. Defined.

End ChatResponse.

Module AnalysisRequest.

Record t : Type := Build {
  text : pystr;
  context : pystr;
  language : pystr
}.

#[global] Instance AnalysisRequest_eq_dec : EqDecision t.
Proof. solve_decision. Defined.

(** [min_length=1]. *)
Definition text_ok (s : pystr) : bool := (1 <=? length s)%nat.

Definition valid (r : t) : bool := text_ok (text r).

Definition new `{Runtime} (s : pystr) (c l : option pystr) : result t :=
  if text_ok s then Ok (Build s (default [] c) (default "en"%py l))
  else Err (validation_error "AnalysisRequest"%py [("text"%py, PStr s)]).

End AnalysisRequest.

Module AnalysisResponse.

Record t : Type := Build {
  summary : pystr;
  key_findings : list pystr;
  recommendations : list pystr;
  next_steps : list pystr;
  disclaimer : pystr;
  language : pystr;
  timestamp : Effects.timestamp
}.

#[global] Instance AnalysisResponse_eq_dec : EqDecision t.
Proof. solve_decision. Defined.

End AnalysisResponse.

Module ImageAnalysisResponse.

Record t : Type := Build {
  extracted_text : pystr;
  analysis : AnalysisResponse.t
}.

#[global] Instance ImageAnalysisResponse_eq_dec : EqDecision t.
Proof. solve_decision. Defined.

End ImageAnalysisResponse.

(** ** Lemmas *)

Lemma as_str_Some v s : as_str v = Some s <-> v = PStr s.
Proof. destruct v; simpl; split; congruence. Qed.

Lemma as_opt_str_Some v o :
  as_opt_str v = Some o <->
  (v = PNone /\ o = None) \/ (exists s, v = PStr s /\ o = Some s).
Proof.
destruct v; simpl; (split; [intros ?; simplify_eq; eauto|]);
  by intros [[??]|(? & ? & ?)]; simplify_eq.
Qed.

Lemma as_float_float `{Runtime} f : as_float (PFloat f) = Some f.
Proof. reflexivity. Qed.

Lemma validation_error_Exception `{Runtime} model errors :
  is_Exception (validation_error model errors) = true.
Proof. reflexivity. Qed.

Section schema_facts.
Context `{Runtime}.

(** *** The request *)

Lemma request_new_valid q n l r :
  ResearchRequest.new q n l = Ok r -> ResearchRequest.valid r = true.
Proof.
unfold ResearchRequest.new, ResearchRequest.valid.
destruct (ResearchRequest.query_ok q) eqn:Hq,
  (ResearchRequest.max_results_ok _) eqn:Hn; simpl; intros [= <-]; simpl.
by rewrite Hq, Hn.
Qed.

Lemma request_new_shape q n l r :
  ResearchRequest.new q n l = Ok r ->
  r = ResearchRequest.Build q
        (default ResearchRequest.default_max_results n)
        (default ResearchRequest.default_language l).
Proof.
unfold ResearchRequest.new.
destruct (ResearchRequest.query_ok q),
  (ResearchRequest.max_results_ok _); simpl; by intros [= <-].
Qed.

Lemma request_new_complete r :
  ResearchRequest.valid r = true ->
  ResearchRequest.new (ResearchRequest.query r)
    (Some (ResearchRequest.max_results r))
    (Some (ResearchRequest.language r)) = Ok r.
Proof.
unfold ResearchRequest.new, ResearchRequest.valid.
intros [Hq Hn]%andb_prop. simpl. rewrite Hq, Hn. by destruct r.
Qed.

Lemma request_new_raises q n l e :
  ResearchRequest.new q n l = Err e ->
  ResearchRequest.query_ok q = false \/
  ResearchRequest.max_results_ok
    (default ResearchRequest.default_max_results n) = false.
Proof.
unfold ResearchRequest.new.
destruct (ResearchRequest.query_ok q); [|by left].
destruct (ResearchRequest.max_results_ok _); [done|by right].
Qed.

Lemma request_valid_bounds r :
  ResearchRequest.valid r = true ->
  (3 <= length (ResearchRequest.query r) <= 200)%nat /\
  (1 <= ResearchRequest.max_results r <= 10)%Z.
Proof.
unfold ResearchRequest.valid, ResearchRequest.query_ok,
  ResearchRequest.max_results_ok. intros H'.
repeat (apply andb_prop in H' as [H' ?]).
repeat match goal with
  | H : (_ <=? _)%nat = true |- _ => apply Nat.leb_le in H
  | H : (_ <=? _)%Z = true |- _ => apply Z.leb_le in H
  end. lia.
Qed.

(** *** A result entry *)

Lemma result_new_Ok_inv title url content score image_url r :
  ResearchResult.new title url content score image_url = Ok r ->
  title = PStr (ResearchResult.title r) /\
  url = PStr (ResearchResult.url r) /\
  content = PStr (ResearchResult.content r) /\
  as_float score = Some (ResearchResult.score r) /\
  as_opt_str image_url = Some (ResearchResult.image_url r).
Proof.
unfold ResearchResult.new.
destruct (as_str title) eqn:Ht, (as_str url) eqn:Hu,
  (as_str content) eqn:Hc, (as_float score) eqn:Hs,
  (as_opt_str image_url) eqn:Hi; intros [= <-]; simpl.
by apply as_str_Some in Ht as ->, Hu as ->, Hc as ->.
Qed.

Lemma result_new_Ok t u c s i :
  ResearchResult.new (PStr t) (PStr u) (PStr c) (PFloat s)
    (from_option PStr PNone i) =
  Ok (ResearchResult.Build t u c s i).
Proof. by destruct i. Qed.

Lemma result_new_raises title url content score image_url e :
  ResearchResult.new title url content score image_url = Err e ->
  exists errors, errors <> [] /\
    e = validation_error "ResearchResult"%py errors.
Proof.
unfold ResearchResult.new.
destruct (as_str title) eqn:Ht, (as_str url) eqn:Hu,
  (as_str content) eqn:Hc, (as_float score) eqn:Hs,
  (as_opt_str image_url) eqn:Hi; intros [= <-];
  (eexists; split; [|reflexivity]); simpl; try done;
  by destruct (rejected _ _ _).
Qed.

(** A score that converts to no float is the one rejected field of an
    entry whose other fields are well typed. *)
Lemma result_new_score_rejected t u c score i :
  as_float score = None ->
  ResearchResult.new (PStr t) (PStr u) (PStr c) score
    (from_option PStr PNone i) =
  Err (validation_error "ResearchResult"%py [("score"%py, score)]).
Proof. unfold ResearchResult.new. intros ->. by destruct i. Qed.

(** *** The response *)

Lemma filter_not_str_nil (l : list pyval) :
  filter (fun v => as_str v = None) l = [] <-> exists ss, l = PStr <$> ss.
Proof.
induction l as [|v l IH]; [split; [by exists []|done]|].
rewrite filter_cons. destruct (decide (as_str v = None)) as [Hv|Hv].
- split; [done|]. intros [[|s ss] E]; [done|]. by injection E as -> _.
- rewrite IH. destruct v; try done. split.
  + intros [ss ->]. by exists (s :: ss).
  + intros [[|s' ss] E]; [done|]. injection E as _ ->. by exists ss.
Qed.

Lemma response_new_Ok q r ss srcs ts :
  ResearchResponse.new q r (PStr <$> ss) srcs ts =
  Ok (ResearchResponse.Build q r ss srcs ts).
Proof.
unfold ResearchResponse.new.
rewrite (proj2 (filter_not_str_nil _)) by eauto.
by rewrite str_items_fmap.
Qed.

End schema_facts.

Section schema_claims.
Context `{Runtime}.

(** A constructed request satisfies the declared constraints: a
    query of 3 to 200 characters and a bound from 1 to 10; the omitted
    arguments have their defaults, 5 and ["en"]. *)
Theorem ResearchRequest_bounds q n l r :
  ResearchRequest.new q n l = Ok r ->
  (3 <= length (ResearchRequest.query r) <= 200)%nat /\
  (1 <= ResearchRequest.max_results r <= 10)%Z /\
  r = ResearchRequest.Build q (default 5%Z n) (default "en"%py l).
Proof.
intros Hr. pose proof (request_new_valid _ _ _ _ Hr) as Hv.
apply request_valid_bounds in Hv as [??]. split; [done|]. split; [done|].
by apply request_new_shape.
Qed.

(** A request whose query is too short or too long, or whose bound
    is out of range, is rejected with a [ValidationError]. *)
Theorem ResearchRequest_rejects q n l :
  (length q < 3)%nat \/ (200 < length q)%nat \/ (n < 1)%Z \/ (10 < n)%Z ->
  exists msg,
    ResearchRequest.new q (Some n) l = Err (PyExc ValidationError msg).
Proof.
intros Hbad.
destruct (ResearchRequest.new q (Some n) l) as [e|r] eqn:E.
- unfold ResearchRequest.new in E.
  destruct (ResearchRequest.query_ok q),
    (ResearchRequest.max_results_ok _); simpl in E; inv_res; eauto.
- pose proof (request_new_valid _ _ _ _ E) as Hv.
  apply request_valid_bounds in Hv.
  apply request_new_shape in E. subst r. simpl in Hv. lia.
Qed.

Lemma request_ok_bounds q n :
  ResearchRequest.query_ok q && ResearchRequest.max_results_ok n = true <->
  (3 <= length q <= 200)%nat /\ (1 <= n <= 10)%Z.
Proof.
unfold ResearchRequest.query_ok, ResearchRequest.max_results_ok.
rewrite !andb_true_iff, !Nat.leb_le, !Z.leb_le. tauto.
Qed.

Lemma request_new_cases q n l :
  let n' := default 5%Z n in
  if decide ((3 <= length q <= 200)%nat /\ (1 <= n' <= 10)%Z)
  then ResearchRequest.new q n l =
       Ok (ResearchRequest.Build q n' (default "en"%py l))
  else exists msg,
       ResearchRequest.new q n l = Err (PyExc ValidationError msg).
Proof.
intros n'. pose proof (request_ok_bounds q n') as Hok.
unfold ResearchRequest.new, ResearchRequest.default_max_results,
  ResearchRequest.default_language. fold n'.
case_decide as Hb.
- apply Hok in Hb. apply andb_true_iff in Hb as [-> ->]. done.
- destruct (ResearchRequest.query_ok q), (ResearchRequest.max_results_ok n');
    try (eexists; reflexivity). by destruct Hb, Hok as [Hok _]; apply Hok.
Qed.

(** C38.  The constructor of a request accepts exactly the arguments
    within the declared bounds (a query of 3 to 200 characters, a number
    of results from 1 to 10, 5 when omitted; any language, ["en"] when
    omitted) and builds the request from them as they are; it rejects all
    others with a [ValidationError]. *)
Theorem ResearchRequest_validates q n l :
  let n' := default 5%Z n in
  if decide ((3 <= length q <= 200)%nat /\ (1 <= n' <= 10)%Z)
  then ResearchRequest.new q n l =
       Ok (ResearchRequest.Build q n' (default "en"%py l))
  else exists msg,
       ResearchRequest.new q n l = Err (PyExc ValidationError msg).
Proof. apply request_new_cases. Qed.

(** A result entry is built only from strings for the title, the
    address and the content, a value that converts to a float for the
    score, and a string or [None] for the image. *)
Theorem ResearchResult_typed title url content score image_url r :
  ResearchResult.new title url content score image_url = Ok r ->
  title = PStr (ResearchResult.title r) /\
  url = PStr (ResearchResult.url r) /\
  content = PStr (ResearchResult.content r) /\
  as_float score = Some (ResearchResult.score r) /\
  as_opt_str image_url = Some (ResearchResult.image_url r).
Proof. apply result_new_Ok_inv. Qed.

End schema_claims.

(** ** The requests of the other endpoints *)

Section other_requests.
Context `{Runtime}.

Lemma chat_request_new_valid m l r :
  ChatRequest.new m l = Ok r ->
  ChatRequest.valid r = true /\ ChatRequest.message r = m /\
  ChatRequest.language r = default "en"%py l.
Proof.
unfold ChatRequest.new, ChatRequest.valid.
destruct (ChatRequest.message_ok m) eqn:E; by intros [= <-].
Qed.

Lemma chat_request_bounds r :
  ChatRequest.valid r = true ->
  (1 <= length (ChatRequest.message r) <= 1000)%nat.
Proof.
unfold ChatRequest.valid, ChatRequest.message_ok.
intros [?%Nat.leb_le ?%Nat.leb_le]%andb_prop. lia.
Qed.

Lemma analysis_request_new_valid s c l r :
  AnalysisRequest.new s c l = Ok r ->
  AnalysisRequest.text r = s /\ s <> [] /\
  AnalysisRequest.context r = default [] c /\
  AnalysisRequest.language r = default "en"%py l.
Proof.
unfold AnalysisRequest.new.
destruct (AnalysisRequest.text_ok s) eqn:E; intros [= <-]. by destruct s.
Qed.

Lemma travel_analysis_validate_typed obj a :
  TravelAnalysis.validate obj = Ok a ->
  exists d, obj = PDict d /\
    d !! "summary"%py = Some (PStr (TravelAnalysis.summary a)) /\
    (d !! "key_findings"%py ≫= as_str_list) =
      Some (TravelAnalysis.key_findings a) /\
    (d !! "recommendations"%py ≫= as_str_list) =
      Some (TravelAnalysis.recommendations a) /\
    (d !! "next_steps"%py ≫= as_str_list) =
      Some (TravelAnalysis.next_steps a).
Proof.
destruct obj; try done. simpl. intros Hv. exists d. split; [done|].
destruct (d !! "summary"%py) as [[]|] eqn:Hs; simpl in Hv; try done.
destruct (_ ≫= as_str_list) eqn:Hk in Hv; [|done].
destruct (_ ≫= as_str_list) eqn:Hr in Hv; [|done].
destruct (_ ≫= as_str_list) eqn:Hn in Hv; [|done].
by injection Hv as <-.
Qed.

End other_requests.

(** ** Models, built *)

#[local] Existing Instance ref_runtime.

Lemma ResearchRequest_bounds_witness :
  let r := ResearchRequest.Build "Hanoi street food"%py 5 "en"%py in
  (3 <= length (ResearchRequest.query r) <= 200)%nat /\
  (1 <= ResearchRequest.max_results r <= 10)%Z /\
  r = ResearchRequest.Build "Hanoi street food"%py (default 5%Z None)
        (default "en"%py None).
Proof.
apply (ResearchRequest_bounds "Hanoi street food"%py None None).
reflexivity.
Defined.

Lemma ResearchRequest_rejects_witness :
  exists msg,
    ResearchRequest.new "Hanoi"%py (Some 11%Z) None =
    Err (PyExc ValidationError msg).
Proof. apply ResearchRequest_rejects. lia. Defined.

(** The range of integer scores: [float] rounds to the nearest binary64
    float, ties to even, so the largest integer accepted is one below the
    midpoint of the largest float and [2^1024]; from that midpoint on the
    conversion overflows and the field is rejected. *)
Example float_of_int_range :
  float_of_int (2 ^ 1024 - 2 ^ 970 - 1) =
    Some (S754_finite false (2 ^ 53 - 1) 971) /\
  float_of_int (2 ^ 1024 - 2 ^ 970) = None /\
  float_of_int (- (2 ^ 1024 - 2 ^ 970 - 1)) =
    Some (S754_finite true (2 ^ 53 - 1) 971) /\
  float_of_int (- (2 ^ 1024 - 2 ^ 970)) = None.
Proof. by vm_compute. Qed.

(** Beyond [2^53] the conversion rounds: it is not injective. *)
Example float_of_int_rounds :
  float_of_int (2 ^ 53 + 1) = float_of_int (2 ^ 53) /\
  float_of_int (2 ^ 53 + 3) = float_of_int (2 ^ 53 + 4).
Proof. by vm_compute. Qed.

Example score_overflow_rejected :
  ResearchResult.new (PStr "Louvre"%py) (PStr "https://example.org"%py)
    (PStr []) (PInt (2 ^ 1024)) PNone =
  Err (validation_error "ResearchResult"%py
         [("score"%py, PInt (2 ^ 1024))]).
Proof. by apply (result_new_score_rejected _ _ _ _ None). Qed.

Lemma ResearchResult_typed_witness :
  let r := ResearchResult.Build "Louvre"%py "https://example.org"%py []
             (float_of_Z 1) None in
  PStr "Louvre"%py = PStr (ResearchResult.title r) /\
  PStr "https://example.org"%py = PStr (ResearchResult.url r) /\
  PStr [] = PStr (ResearchResult.content r) /\
  as_float (PInt 1) = Some (ResearchResult.score r) /\
  as_opt_str PNone = Some (ResearchResult.image_url r).
Proof.
apply (ResearchResult_typed (PStr "Louvre"%py) (PStr "https://example.org"%py)
         (PStr []) (PInt 1) PNone).
reflexivity.
Defined.
