(* ===== verification/ChatChain.v ===== *)
(** * ChatChain: the chain that asks the language model

    [chains/chat_chain.py] builds a prompt of two messages, the system
    message of the language and a template holding the user's question,
    and pipes it into the model and a parser that returns the answer's
    text.  Building the chain loads the model and reads the templates;
    invoking it formats the messages and makes the call [LLMInvoke].  The
    system messages hold no brace, so the only placeholder of the prompt is
    the user's question, which is inserted as it is. *)

From S2P Require Import Prelude PyStr PyVal Template Effects Logic.

Module ChatChain.

(** The system message chosen for ["fr"]. *)
Definition system_message_fr : pystr :=
  text_of_lines [
    "Vous êtes un assistant de voyage IA expert. Votre objectif est d'inspirer et d'aider les utilisateurs à planifier leurs voyages de rêve."%py;
    ""%py;
    "Vos capacités:"%py;
    "- Fournir des informations détaillées et engageantes sur les destinations, la culture, les activités et la logistique."%py;
    "- Créer des exemples d'itinéraires."%py;
    "- Offrir des conseils pratiques pour la budgétisation, la sécurité et les voyages responsables."%py;
    "- Répondre dans un ton conversationnel et inspirant."%py;
    ""%py;
    "IMPORTANT: Vous n'êtes pas un agent de réservation. Toujours conseiller aux utilisateurs de vérifier les détails tels que les prix et la disponibilité sur les sites de réservation officiels."%py
  ].

(** The system message chosen for ["vi"]. *)
Definition system_message_vi : pystr :=
  text_of_lines [
    "Bạn là một trợ lý du lịch AI chuyên nghiệp. Mục tiêu của bạn là truyền cảm hứng và giúp người dùng lên kế hoạch cho chuyến đi mơ ước của họ."%py;
    ""%py;
    "Khả năng của bạn:"%py;
    "- Cung cấp thông tin chi tiết và hấp dẫn về các điểm đến, văn hóa, hoạt động và hậu cần."%py;
    "- Tạo các lịch trình mẫu."%py;
    "- Đưa ra các mẹo thực tế về ngân sách, an toàn và du lịch có trách nhiệm."%py;
    "- Phản hồi bằng một giọng điệu trò chuyện và đầy cảm hứng."%py;
    ""%py;
    "QUAN TRỌNG: Bạn không phải là đại lý đặt vé. Luôn khuyên người dùng xác minh các chi tiết như giá cả và tình trạng còn trống trên các trang web đặt vé chính thức."%py
  ].

(** The system message of every other language. *)
Definition system_message_en : pystr :=
  text_of_lines [
    "You are an expert AI travel assistant. Your goal is to inspire and help users plan their dream trips."%py;
    ""%py;
    "Your capabilities:"%py;
    "- Provide detailed and engaging information about destinations, culture, activities, and logistics."%py;
    "- Create sample itineraries."%py;
    "- Offer practical tips for budgeting, safety, and responsible travel."%py;
    "- Respond in a conversational and inspiring tone."%py;
    ""%py;
    "IMPORTANT: You are not a booking agent. Always advise users to verify details like prices and availability on official booking sites."%py
  ].

(** The choice made by the [if]/[elif]/[else] on [language]. *)
Definition system_message (language : pystr) : pystr :=
  if decide (language = "fr"%py) then system_message_fr
  else if decide (language = "vi"%py) then system_message_vi
  else system_message_en.

(** The chain [prompt | llm | parser]: the model and the parser are fixed,
    the chain is its prompt. *)
Record chain : Type := Chain {
  prompt : prompt_template
}.

(** The messages given to [ChatPromptTemplate.from_messages]. *)
Definition prompt_messages (language : pystr) : list (pystr * pystr) :=
  [("system"%py, system_message language);
   ("user"%py, "{user_question}"%py)].

(** [create_chat_chain(language)]: the model is loaded first. *)
Definition create_chat_chain (language : pystr) : prog chain :=
  (perform LoadLLM ;;
   prompt <- lift (from_messages (prompt_messages language)) ;;
   Ret (Chain prompt))%prog.

(** [chain.invoke(input)]: the text of the model's answer. *)
Definition invoke (c : chain) (input : gmap pystr pystr) : prog pystr :=
  (messages <- lift (format_messages (prompt c) input) ;;
   perform (LLMInvoke messages))%prog.

(** [get_chat_response(message, language)]. *)
Definition get_chat_response (message language : pystr) : prog pystr :=
  (c <- create_chat_chain language ;;
   response <- invoke c {["user_question"%py := message]} ;;
   Ret response)%prog.

End ChatChain.

Import ChatChain.

(** The messages sent for a question. *)
Definition chat_messages (message language : pystr) : list (pystr * pystr) :=
  [("system"%py, system_message language); ("user"%py, message)].

(** ** The system message *)

Lemma system_message_fr_eq : system_message "fr"%py = system_message_fr.
Proof. reflexivity. Qed.

Lemma system_message_vi_eq : system_message "vi"%py = system_message_vi.
Proof. reflexivity. Qed.

(** Every language other than ["fr"] and ["vi"] is answered with
    the English system message. *)
Theorem system_message_other language :
  language <> "fr"%py -> language <> "vi"%py ->
  system_message language = system_message_en.
Proof. intros. unfold system_message. by rewrite !decide_False. Qed.

Lemma system_message_cases language :
  system_message language ∈
    [system_message_fr; system_message_vi; system_message_en].
Proof.
unfold system_message. repeat case_decide; set_solver.
Qed.

Lemma system_message_no_brace language :
  plain (system_message language) = true /\ system_message language <> [].
Proof.
pose proof (system_message_cases language) as Hc.
repeat (apply elem_of_cons in Hc as [->|Hc]); [by vm_compute..|].
by apply elem_of_nil in Hc.
Qed.

(** No system message holds a brace: the prompt template has the
    user's question as its only placeholder. *)
Theorem system_message_plain language : plain (system_message language) = true.
Proof. apply system_message_no_brace. Qed.

(** ** The prompt *)

(** The templates of the prompt are well formed, whatever the language. *)
Lemma prompt_parsed language :
  from_messages (prompt_messages language) =
  Ok [("system"%py, [Lit (system_message language)]);
      ("user"%py, [Var "user_question"%py])].
Proof.
destruct (system_message_no_brace language) as [Hp Hne].
unfold from_messages, prompt_messages. cbn [rmapM fst snd].
rewrite (parse_plain _ Hp).
change "{user_question}"%py with (LBRACE :: "user_question"%py ++ [RBRACE]).
rewrite parse_var by done. simpl.
by destruct (system_message language).
Qed.

(** The user's question is inserted as it is, braces included. *)
Lemma prompt_formatted message language :
  format_messages
    [("system"%py, [Lit (system_message language)]);
     ("user"%py, [Var "user_question"%py])]
    {["user_question"%py := message]} =
  Ok (chat_messages message language).
Proof.
unfold format_messages. cbn [rmapM fst snd].
rewrite (render_var _ message) by apply lookup_singleton_eq.
cbn [render_pieces rbind]. by rewrite app_nil_r.
Qed.

(** ** Running the chain *)

(** Whatever the model does: either loading fails, or the model is
    invoked once with the two messages and its answer is the outcome. *)
Lemma get_chat_response_post C message language log Q :
  post_under C (get_chat_response message language) log Q <->
  (forall e, C _ LoadLLM (Err e) -> Q (Err e) (log ++ [mkcall LoadLLM])) /\
  (C _ LoadLLM (Ok tt) ->
   forall r, C _ (LLMInvoke (chat_messages message language)) r ->
     Q r (log ++ [mkcall LoadLLM;
                  mkcall (LLMInvoke (chat_messages message language))])).
Proof.
unfold get_chat_response, create_chat_chain, invoke.
rewrite post_bind, post_bind, post_perform. split.
- intros Hp. split.
  + intros e He. exact (Hp (Err e) He).
  + intros Hl r Hr. specialize (Hp (Ok tt) Hl). cbn [then_post] in Hp.
    rewrite prompt_parsed in Hp.
    cbn [lift pbind post_under then_post prompt] in Hp.
    rewrite prompt_formatted in Hp. cbn [lift pbind post_under] in Hp.
    specialize (Hp r Hr). rewrite <- app_assoc in Hp. by destruct r.
- intros [He Hr] [e|[]] Hl; cbn [then_post]; [by apply He|].
  rewrite prompt_parsed. cbn [lift pbind post_under then_post prompt].
  rewrite prompt_formatted. cbn [lift pbind post_under]. intros r Hc.
  rewrite <- app_assoc. specialize (Hr Hl r Hc). by destruct r.
Qed.

Section chat_run.
Context {W : Type} (h : handler W).

(** C35.  The two calls of [get_chat_response] and its outcome: the model
    is loaded, then invoked once with the system message of the language
    and the user's message; a failure of either call is the failure of
    the function. *)
Theorem get_chat_response_run message language w :
  run h (get_chat_response message language) w =
  match h _ LoadLLM w with
  | (inl e, w1) => Outcome (Err e) [mkcall LoadLLM] w1
  | (inr _, w1) =>
      let ask := LLMInvoke (chat_messages message language) in
      Outcome (h _ ask w1).1 [mkcall LoadLLM; mkcall ask] (h _ ask w1).2
  end.
Proof.
unfold get_chat_response, create_chat_chain, invoke, run.
cbn [perform pbind run_from]. destruct (h _ LoadLLM w) as [[e|[]] w1]; [done|].
cbn [lift pbind]. rewrite prompt_parsed. cbn [lift pbind prompt].
rewrite prompt_formatted. cbn [lift pbind]. simpl.
by destruct (h _ _ w1) as [[e|s] w2].
Qed.

End chat_run.

Lemma system_message_other_witness :
  system_message "de"%py = system_message_en.
Proof. by apply system_message_other. Defined.
