(* ===== verification/AnalysisChain.v ===== *)
(** * AnalysisChain: the chain that analyses a travel document

    [chains/analysis_chain.py] builds a prompt of two messages, pipes it
    into the model and into a parser that reads the answer as a
    [TravelAnalysis].  The user message is a template with three
    placeholders: the document, the context and the format instructions
    of the parser, the last being fixed when the chain is built.
    [analyze_travel_document] invokes the chain inside [try]/[except]: an
    [Exception] of the invocation is printed and answered with a fallback
    analysis that quotes the first 200 characters of its text.  With a
    model that loads and a [print] that works an analysis is therefore
    always returned, as long as nothing but an [Exception] is raised
    ([analyze_always_answers]).

    The parser belongs to the library: its instructions and its reading
    of a text as JSON are the interface [OutputParser]; the validation of
    the JSON value is [TravelAnalysis.validate]. *)

From S2P Require Import Prelude PyStr PyVal Template Effects Logic Schemas.

(** What the development relies on of [PydanticOutputParser]. *)
Class OutputParser : Type := {
  (** [parser.get_format_instructions()] *)
  format_instructions : pystr;
  (** the JSON value read from the text of an answer *)
  parse_json_markdown : pystr -> result pyval;
  parse_json_markdown_Exception :
    forall s e, parse_json_markdown s = Err e -> is_Exception e = true
}.

Module AnalysisChain.

(** The system message for ["fr"]. *)
Definition system_message_fr : pystr :=
  text_of_lines [
    "Vous êtes un assistant de voyage IA spécialisé dans l'analyse de documents. Votre tâche est d'extraire les informations clés des documents de voyage et de les présenter de manière structurée."%py;
    ""%py;
    "Analysez le document fourni et extrayez les détails pertinents. Concentrez-vous sur les informations exploitables telles que les dates, les heures, les lieux, les numéros de confirmation et les coordonnées."%py
  ].

(** The template of the user message for ["fr"]. *)
Definition user_template_fr : pystr :=
  text_of_lines [
    "Analysez ce document de voyage et fournissez une analyse structurée:"%py;
    ""%py;
    "Document de Voyage:"%py;
    "{travel_text}"%py;
    ""%py;
    "Contexte Additionnel:"%py;
    "{context}"%py;
    ""%py;
    "{format_instructions}"%py;
    ""%py;
    "Répondez UNIQUEMENT en JSON valide."%py
  ].

Definition user_message_fr (travel_text context format_instructions : pystr) :
    pystr :=
  text_of_lines [
    "Analysez ce document de voyage et fournissez une analyse structurée:"%py;
    ""%py;
    "Document de Voyage:"%py;
    travel_text;
    ""%py;
    "Contexte Additionnel:"%py;
    context;
    ""%py;
    format_instructions;
    ""%py;
    "Répondez UNIQUEMENT en JSON valide."%py
  ].

(** The system message for ["vi"]. *)
Definition system_message_vi : pystr :=
  text_of_lines [
    "Bạn là một trợ lý du lịch AI chuyên phân tích tài liệu. Nhiệm vụ của bạn là trích xuất thông tin chính từ các tài liệu du lịch và trình bày nó ở định dạng có cấu trúc."%py;
    ""%py;
    "Phân tích tài liệu được cung cấp và trích xuất các chi tiết có liên quan. Tập trung vào các thông tin có thể hành động như ngày, giờ, địa điểm, số xác nhận và chi tiết liên hệ."%py
  ].

(** The template of the user message for ["vi"]. *)
Definition user_template_vi : pystr :=
  text_of_lines [
    "Phân tích tài liệu du lịch này và cung cấp một phân tích có cấu trúc:"%py;
    ""%py;
    "Tài liệu du lịch:"%py;
    "{travel_text}"%py;
    ""%py;
    "Bối cảnh bổ sung:"%py;
    "{context}"%py;
    ""%py;
    "{format_instructions}"%py;
    ""%py;
    "Chỉ trả lời bằng JSON hợp lệ."%py
  ].

Definition user_message_vi (travel_text context format_instructions : pystr) :
    pystr :=
  text_of_lines [
    "Phân tích tài liệu du lịch này và cung cấp một phân tích có cấu trúc:"%py;
    ""%py;
    "Tài liệu du lịch:"%py;
    travel_text;
    ""%py;
    "Bối cảnh bổ sung:"%py;
    context;
    ""%py;
    format_instructions;
    ""%py;
    "Chỉ trả lời bằng JSON hợp lệ."%py
  ].

(** The system message for every other language. *)
Definition system_message_en : pystr :=
  text_of_lines [
    "You are a travel AI assistant specializing in document analysis. Your task is to extract key information from travel documents and present it in a structured format."%py;
    ""%py;
    "Analyze the provided document and extract the relevant details. Focus on actionable information such as dates, times, locations, confirmation numbers, and contact details."%py
  ].

(** The template of the user message for every other language. *)
Definition user_template_en : pystr :=
  text_of_lines [
    "Analyze this travel document and provide a structured analysis:"%py;
    ""%py;
    "Travel Document:"%py;
    "{travel_text}"%py;
    ""%py;
    "Additional Context:"%py;
    "{context}"%py;
    ""%py;
    "{format_instructions}"%py;
    ""%py;
    "Respond ONLY with valid JSON."%py
  ].

Definition user_message_en (travel_text context format_instructions : pystr) :
    pystr :=
  text_of_lines [
    "Analyze this travel document and provide a structured analysis:"%py;
    ""%py;
    "Travel Document:"%py;
    travel_text;
    ""%py;
    "Additional Context:"%py;
    context;
    ""%py;
    format_instructions;
    ""%py;
    "Respond ONLY with valid JSON."%py
  ].

Section chain.
Context `{Runtime} `{OutputParser}.

(** The choice made by the [if]/[elif]/[else] on [language]. *)
Definition system_message (language : pystr) : pystr :=
  if decide (language = "fr"%py) then system_message_fr
  else if decide (language = "vi"%py) then system_message_vi
  else system_message_en.

Definition user_template (language : pystr) : pystr :=
  if decide (language = "fr"%py) then user_template_fr
  else if decide (language = "vi"%py) then user_template_vi
  else user_template_en.

(** The chain [prompt | llm | parser]: its prompt and the values fixed
    by [prompt.partial]. *)
Record chain : Type := Chain {
  prompt : prompt_template;
  partial_variables : gmap pystr pystr
}.

(** [parser.parse(text)]. *)
Definition parse (text : pystr) : result TravelAnalysis.t :=
  (obj <- parse_json_markdown text ;; TravelAnalysis.validate obj)%res.

(** [create_analysis_chain(language)]. *)
Definition create_analysis_chain (language : pystr) : prog chain :=
  (perform LoadLLM ;;
   prompt <- lift (from_messages
                     [("system"%py, system_message language);
                      ("user"%py, user_template language)]) ;;
   Ret (Chain prompt {["format_instructions"%py := format_instructions]}))%prog.

(** [chain.invoke(input)]: a value of the input takes precedence over a
    fixed one. *)
Definition invoke (c : chain) (input : gmap pystr pystr) :
    prog TravelAnalysis.t :=
  (messages <- lift (format_messages (prompt c)
                       (input ∪ partial_variables c)) ;;
   text <- perform (LLMInvoke messages) ;;
   lift (parse text))%prog.

Definition no_context : pystr := "No additional context provided"%py.

(** The analysis returned when the invocation failed. *)
Definition fallback (e : exn) : TravelAnalysis.t :=
  TravelAnalysis.Build
    ("Analysis completed but encountered formatting issues: "%py ++
     slice_to 200 (exn_str e))
    ["Analysis was performed but results need manual review"%py]
    ["Verify all travel details with official sources"%py]
    ["Double-check booking confirmations"%py;
     "Contact travel providers if necessary"%py].

(** [analyze_travel_document(text, context, language)]. *)
Definition analyze_travel_document (text context language : pystr) :
    prog TravelAnalysis.t :=
  (c <- create_analysis_chain language ;;
   try_except
     (invoke c
        (<["travel_text"%py := text]>
           {["context"%py :=
               match context with [] => no_context | _ => context end]}))
     (fun e =>
        perform (Print [PStr ("Analysis error: "%py ++ exn_str e)]) ;;
        Ret (fallback e)))%prog.

End chain.
End AnalysisChain.

Import AnalysisChain.

(** ** The prompt *)

(** The user message with the values in the place of the placeholders. *)
Definition user_message (language travel_text context instructions : pystr) :
    pystr :=
  if decide (language = "fr"%py) then
    user_message_fr travel_text context instructions
  else if decide (language = "vi"%py) then
    user_message_vi travel_text context instructions
  else user_message_en travel_text context instructions.

(** The context given to the chain. *)
Definition context_or_default (context : pystr) : pystr :=
  match context with
  | [] => no_context
  | _ => context
  end.

Section analysis_prompt.
Context `{OutputParser}.

(** The messages sent to the model. *)
Definition analysis_messages (text context language : pystr) :
    list (pystr * pystr) :=
  [("system"%py, system_message language);
   ("user"%py,
    user_message language text (context_or_default context)
      format_instructions)].

(** The input of the invocation, with the fixed value. *)
Definition analysis_input (text context : pystr) : gmap pystr pystr :=
  <["travel_text"%py := text]> {["context"%py := context_or_default context]}
  ∪ {["format_instructions"%py := format_instructions]}.

Lemma analysis_input_lookup text context :
  analysis_input text context !! "travel_text"%py = Some text /\
  analysis_input text context !! "context"%py =
    Some (context_or_default context) /\
  analysis_input text context !! "format_instructions"%py =
    Some format_instructions.
Proof. by repeat split. Qed.

(** The pieces of a template that is known to be well formed. *)
Definition pieces_of (template : pystr) : list piece :=
  match parse_template template with
  | inr pieces => pieces
  | inl _ => []
  end.

Definition analysis_prompt (language : pystr) : prompt_template :=
  [("system"%py, pieces_of (system_message language));
   ("user"%py, pieces_of (user_template language))].

(** One proof for the three languages: the templates are read and
    rendered by evaluation. *)
Ltac by_language language :=
  unfold system_message, user_template, user_message;
  destruct (decide (language = "fr"%py));
    [|destruct (decide (language = "vi"%py))].

Lemma templates_parsed language :
  parse_template (system_message language) =
    Ok (pieces_of (system_message language)) /\
  parse_template (user_template language) =
    Ok (pieces_of (user_template language)).
Proof. by_language language; split; by vm_compute. Qed.

Lemma analysis_prompt_parsed language :
  from_messages
    [("system"%py, system_message language);
     ("user"%py, user_template language)] =
  Ok (analysis_prompt language).
Proof.
destruct (templates_parsed language) as [Hs Hu].
unfold from_messages. cbn [rmapM fst snd]. by rewrite Hs, Hu.
Qed.

Lemma system_rendered language vars :
  render_pieces (pieces_of (system_message language)) vars =
  Ok (system_message language).
Proof. by_language language; by vm_compute. Qed.

Lemma user_rendered language vars text context instructions :
  vars !! "travel_text"%py = Some text ->
  vars !! "context"%py = Some context ->
  vars !! "format_instructions"%py = Some instructions ->
  render_pieces (pieces_of (user_template language)) vars =
  Ok (user_message language text context instructions).
Proof.
intros Ht Hc Hi.
by_language language;
  match goal with
  | |- render_pieces (pieces_of ?t) _ = _ =>
      let ps := eval vm_compute in (pieces_of t) in
      change (pieces_of t) with ps
  end;
  cbn [render_pieces]; rewrite Ht, Hc, Hi; by vm_compute.
Qed.

(** The document, the context and the instructions are inserted as they
    are, whatever characters they hold. *)
Lemma analysis_prompt_formatted text context language :
  format_messages (analysis_prompt language) (analysis_input text context) =
  Ok (analysis_messages text context language).
Proof.
destruct (analysis_input_lookup text context) as (Ht & Hc & Hi).
unfold format_messages, analysis_prompt. cbn [rmapM fst snd].
rewrite system_rendered, (user_rendered _ _ _ _ _ Ht Hc Hi). done.
Qed.

End analysis_prompt.

(** ** Running the analysis *)

Section analysis_run.
Context `{Runtime} `{OutputParser}.

(** What the invocation makes of the model's answer. *)
Definition analysis_answer (r : result pystr) : result TravelAnalysis.t :=
  rbind r parse.

(** The call of the [except] clause. *)
Definition report (e : exn) : event unit :=
  Print [PStr ("Analysis error: "%py ++ exn_str e)].

(** The outcome of the [except] clause, given that of [print]. *)
Definition after_report (e : exn) (printed : result unit) :
    result TravelAnalysis.t :=
  match printed with
  | inl e' => Err e'
  | inr _ => Ok (fallback e)
  end.

Lemma parse_raises text : raises_Exception (parse text).
Proof.
intros e. unfold parse.
destruct (parse_json_markdown text) as [e'|obj] eqn:E; simpl.
- intros [= <-]. by eapply parse_json_markdown_Exception.
- unfold TravelAnalysis.validate. repeat case_match; by intros [= <-].
Qed.

(** Every path of [analyze_travel_document]: the model is loaded; its
    one invocation carries the formatted prompt; an answer that parses is
    returned; an [Exception] of the invocation is printed and replaced by
    the fallback. *)
Lemma analyze_post_under (C : contract) text context language log Q :
  let ask := LLMInvoke (analysis_messages text context language) in
  (forall e, C _ LoadLLM (Err e) -> Q (Err e) (log ++ [mkcall LoadLLM])) ->
  (C _ LoadLLM (Ok tt) -> forall r, C _ ask r ->
     match analysis_answer r with
     | inr a => Q (Ok a) (log ++ [mkcall LoadLLM; mkcall ask])
     | inl e =>
         if is_Exception e then
           forall printed, C _ (report e) printed ->
             Q (after_report e printed)
               (log ++ [mkcall LoadLLM; mkcall ask; mkcall (report e)])
         else Q (Err e) (log ++ [mkcall LoadLLM; mkcall ask])
     end) ->
  post_under C (analyze_travel_document text context language) log Q.
Proof.
intros ask Hload Hask. unfold analyze_travel_document, create_analysis_chain.
rewrite post_bind, post_bind, post_perform.
intros [e|[]] Hl; cbn [then_post]; [by apply Hload|].
rewrite analysis_prompt_parsed. cbn [lift post_under then_post pbind].
rewrite post_try_except. unfold invoke. cbn [prompt partial_variables].
fold (context_or_default context). fold (analysis_input text context).
rewrite analysis_prompt_formatted. cbn [lift pbind].
rewrite post_bind, post_perform. intros r Hr. specialize (Hask Hl r Hr).
rewrite <- app_assoc. cbn [app]. unfold analysis_answer in Hask.
destruct r as [e|answer]; cbn [then_post rbind] in *.
- cbn [except_post]. destruct (is_Exception e); [|done].
  rewrite post_bind, post_perform. intros printed Hp.
  specialize (Hask printed Hp). rewrite <- app_assoc. by destruct printed.
- rewrite post_lift. destruct (parse answer) as [e|a]; cbn [except_post]; [|done].
  destruct (is_Exception e); [|done].
  rewrite post_bind, post_perform. intros printed Hp.
  specialize (Hask printed Hp). rewrite <- app_assoc. by destruct printed.
Qed.

Lemma analyze_post text context language log Q :
  let ask := LLMInvoke (analysis_messages text context language) in
  (forall e, Q (Err e) (log ++ [mkcall LoadLLM])) ->
  (forall r,
     match analysis_answer r with
     | inr a => Q (Ok a) (log ++ [mkcall LoadLLM; mkcall ask])
     | inl e =>
         if is_Exception e then
           forall printed,
             Q (after_report e printed)
               (log ++ [mkcall LoadLLM; mkcall ask; mkcall (report e)])
         else Q (Err e) (log ++ [mkcall LoadLLM; mkcall ask])
     end) ->
  post (analyze_travel_document text context language) log Q.
Proof.
intros ask Hload Hask. apply analyze_post_under; [by intros|].
intros _ r _. specialize (Hask r).
destruct (analysis_answer r) as [e|a]; [|done].
destruct (is_Exception e); [|done]. by intros printed _.
Qed.

(** The environment in which an analysis is always answered: civil
    answers, a model that loads and a [print] that works. *)
Definition attentive : contract := fun X ev r =>
  civil ev r /\
  match ev with
  | LoadLLM | Print _ => is_Ok r
  | _ => True
  end.

Lemma analysis_answer_raises r :
  raises_Exception r -> raises_Exception (analysis_answer r).
Proof. intros Hr. apply raises_Exception_rbind; [done|apply parse_raises]. Qed.

Lemma analyze_attentive text context language log :
  post_under attentive (analyze_travel_document text context language) log
    (outcome_is is_Ok).
Proof.
apply analyze_post_under.
- by intros e [_ [a [=]]].
- intros _ r [Hr _]. apply civil_raises, analysis_answer_raises in Hr.
  destruct (analysis_answer r) as [e|a]; [|by eexists].
  rewrite (Hr e eq_refl). intros printed [_ [[] ->]]. by eexists.
Qed.

End analysis_run.

Section analysis_claims.
Context `{Runtime} `{OutputParser}.

Lemma analyze_run_eq {W} (h : handler W) text context language w :
  run h (analyze_travel_document text context language) w =
  let ask := LLMInvoke (analysis_messages text context language) in
  match h _ LoadLLM w with
  | (inl e, w1) => Outcome (Err e) [mkcall LoadLLM] w1
  | (inr _, w1) =>
      let '(r, w2) := h _ ask w1 in
      match analysis_answer r with
      | inr a => Outcome (Ok a) [mkcall LoadLLM; mkcall ask] w2
      | inl e =>
          if is_Exception e then
            let '(printed, w3) := h _ (report e) w2 in
            Outcome (after_report e printed)
              [mkcall LoadLLM; mkcall ask; mkcall (report e)] w3
          else Outcome (Err e) [mkcall LoadLLM; mkcall ask] w2
      end
  end.
Proof.
unfold analyze_travel_document, create_analysis_chain, run.
cbn [perform pbind run_from]. destruct (h _ LoadLLM w) as [[e|[]] w1]; [done|].
cbn [lift pbind]. rewrite analysis_prompt_parsed. cbn [lift pbind].
rewrite run_from_try_except. unfold invoke. cbn [prompt partial_variables].
fold (context_or_default context). fold (analysis_input text context).
rewrite analysis_prompt_formatted. cbn [lift pbind run_from perform].
destruct (h _ _ w1) as [[e|answer] w2]; cbn [lift pbind run_from analysis_answer rbind].
- cbn [out_result]. destruct (is_Exception e); [|done].
  cbn [out_world out_log run_from pbind perform].
  by destruct (h _ _ w2) as [[e'|[]] w3].
- destruct (parse answer) as [e|a]; cbn [lift run_from out_result]; [|done].
  destruct (is_Exception e); [|done].
  cbn [out_world out_log run_from pbind perform].
  by destruct (h _ _ w2) as [[e'|[]] w3].
Qed.

(** C29.  The calls and the outcome of [analyze_travel_document] in every
    environment: the model is loaded (a failure is the failure of the
    function), then invoked once with the formatted prompt; an answer
    that parses is returned; an [Exception] of the invocation or of the
    parser is printed and replaced by the fallback analysis; any other
    exception passes. *)
Theorem analyze_travel_document_run {W} (h : handler W) text context
    language w :
  run h (analyze_travel_document text context language) w =
  let ask := LLMInvoke (analysis_messages text context language) in
  match h _ LoadLLM w with
  | (inl e, w1) => Outcome (Err e) [mkcall LoadLLM] w1
  | (inr _, w1) =>
      let '(r, w2) := h _ ask w1 in
      match analysis_answer r with
      | inr a => Outcome (Ok a) [mkcall LoadLLM; mkcall ask] w2
      | inl e =>
          if is_Exception e then
            let '(printed, w3) := h _ (report e) w2 in
            Outcome (after_report e printed)
              [mkcall LoadLLM; mkcall ask; mkcall (report e)] w3
          else Outcome (Err e) [mkcall LoadLLM; mkcall ask] w2
      end
  end.
Proof. apply analyze_run_eq. Qed.

(** Once the model is loaded, no [Exception] of the model or of the
    parser leaves [analyze_travel_document]: an exception that leaves it
    comes from loading the model or from [print], or is outside the class
    [Exception]. *)
Theorem analyze_absorbs_Exception {W} (h : handler W) text context
    language w e :
  let o := run h (analyze_travel_document text context language) w in
  out_result o = Err e ->
  is_Exception e = false \/ out_log o = [mkcall LoadLLM] \/
  exists e0, last (out_log o) = Some (mkcall (report e0)).
Proof.
intros o. subst o.
apply (post_run h (analyze_travel_document text context language) w
  (fun r l => r = Err e ->
     is_Exception e = false \/ l = [mkcall LoadLLM] \/
     exists e0, last l = Some (mkcall (report e0)))).
apply analyze_post.
- intros e' _. right. by left.
- intros r. destruct (analysis_answer r) as [e'|a]; [|done].
  destruct (is_Exception e') eqn:He.
  + intros printed _. right. right. by exists e'.
  + intros [= ->]. by left.
Qed.

(** C36.  When the answer of the model cannot be used (the call or the
    parser raised an [Exception]) and [print] works, the function returns
    the fallback analysis made from the exception. *)
Theorem analyze_fallback {W} (h : handler W) text context language w e :
  let ask := LLMInvoke (analysis_messages text context language) in
  let w1 := (h _ LoadLLM w).2 in
  let w2 := (h _ ask w1).2 in
  (h _ LoadLLM w).1 = Ok tt ->
  analysis_answer (h _ ask w1).1 = Err e -> is_Exception e = true ->
  (h _ (report e) w2).1 = Ok tt ->
  out_result (run h (analyze_travel_document text context language) w) =
  Ok (fallback e).
Proof.
intros ask w1 w2 Hl Ha He Hp. rewrite analyze_run_eq. fold ask.
subst w2 w1. destruct (h _ LoadLLM w) as [rl wl]. simpl in *. subst rl.
destruct (h _ ask wl) as [r wr]. simpl in *. rewrite Ha, He.
destruct (h _ (report e) wr) as [rp wp]. simpl in *. by subst rp.
Qed.

(** C39.  An analysis is always answered: in every run against
    collaborators that raise nothing but an [Exception], with a model that
    loads and a [print] that works, [analyze_travel_document] returns an
    analysis, the one the model gave or the fallback. *)
Theorem analyze_always_answers {W} (h : handler W) text context language w :
  honours h attentive ->
  is_Ok (out_result
           (run h (analyze_travel_document text context language) w)).
Proof.
intros Hh.
apply (post_under_run attentive h _ w (outcome_is is_Ok) Hh).
apply analyze_attentive.
Qed.

(** The summary of a fallback analysis holds at most 254
    characters: a fixed text of 54 and at most 200 of the exception. *)
Theorem fallback_summary_bounded e :
  (length (TravelAnalysis.summary (fallback e)) <= 254)%nat.
Proof.
unfold fallback. cbn [TravelAnalysis.summary]. rewrite length_app.
pose proof (slice_to_le 200 (exn_str e)) as Hs.
remember (slice_to 200 (exn_str e)) as quoted. simpl. lia.
Qed.

End analysis_claims.

(** ** An analysis, run *)

Definition sample_answer : pystr := "{ ... }"%py.

Definition sample_object : pyval :=
  PDict (list_to_map [
    ("summary"%py, PStr "Flight to Hanoi"%py);
    ("key_findings"%py, PList [PStr "Departure 10:40"%py]);
    ("recommendations"%py, PList []);
    ("next_steps"%py, PList [PStr "Check in online"%py]);
    ("confidence"%py, PInt 1)]).

Definition sample_analysis : TravelAnalysis.t :=
  TravelAnalysis.Build "Flight to Hanoi"%py ["Departure 10:40"%py] []
    ["Check in online"%py].

Definition bad_json : exn := PyExc ValueError "Invalid json output"%py.

(** A parser that reads one text and rejects every other. *)
Definition ref_parse_json (text : pystr) : result pyval :=
  if decide (text = sample_answer) then Ok sample_object else Err bad_json.

Lemma ref_parse_json_Exception s e :
  ref_parse_json s = Err e -> is_Exception e = true.
Proof. unfold ref_parse_json. case_decide; by intros [= <-]. Qed.

Definition ref_parser : OutputParser := {|
  format_instructions := "Return a JSON object {summary, key_findings}"%py;
  parse_json_markdown := ref_parse_json;
  parse_json_markdown_Exception := ref_parse_json_Exception
|}.

#[local] Existing Instance ref_runtime.
#[local] Existing Instance ref_parser.

(** A model that answers with [answer]. *)
Definition model_env (answer : result pystr) : handler unit := fun X ev w =>
  match ev in event X return result X * unit with
  | LoadLLM => (Ok tt, w)
  | LLMInvoke _ => (answer, w)
  | Print _ => (Ok tt, w)
  | _ => (Err (PyExc Exception "not expected"%py), w)
  end.

(** No model can be loaded. *)
Definition no_model_env : handler unit := fun X ev w =>
  (Err (PyExc ValueError "GOOGLE_API_KEY is not set"%py), w).

Example analyze_success :
  out_result
    (run (model_env (Ok sample_answer))
       (analyze_travel_document "Ticket {VN-123}"%py [] "vi"%py) tt) =
  Ok sample_analysis.
Proof. vm_compute. reflexivity. Qed.

Lemma analyze_absorbs_Exception_witness :
  let o := run no_model_env
             (analyze_travel_document "Ticket"%py [] "en"%py) tt in
  is_Exception (PyExc ValueError "GOOGLE_API_KEY is not set"%py) = false \/
  out_log o = [mkcall LoadLLM] \/
  exists e0, last (out_log o) = Some (mkcall (report e0)).
Proof.
apply (analyze_absorbs_Exception no_model_env "Ticket"%py [] "en"%py tt).
reflexivity.
Defined.

Lemma analyze_fallback_witness :
  out_result
    (run (model_env (Ok "I cannot help"%py))
       (analyze_travel_document "Ticket"%py [] "fr"%py) tt) =
  Ok (fallback bad_json).
Proof.
apply (analyze_fallback (model_env (Ok "I cannot help"%py))); reflexivity.
Defined.

Lemma model_env_attentive answer :
  raises_Exception answer -> honours (model_env answer) attentive.
Proof.
intros Ha X ev w.
split; destruct ev; simpl; try done; try (by intros e [= <-]); by eexists.
Qed.

Lemma analyze_always_answers_witness :
  is_Ok (out_result
           (run (model_env (Err (PyExc ValueError "model unavailable"%py)))
              (analyze_travel_document "Ticket"%py [] "en"%py) tt)).
Proof.
apply (analyze_always_answers
         (model_env (Err (PyExc ValueError "model unavailable"%py)))
         "Ticket"%py [] "en"%py tt).
apply model_env_attentive. by intros e [= <-].
Defined.
