(* ===== verification/Research.v ===== *)
(** * Research: the route [POST /api/research]

    [routes/research.py] has one handler.  It searches, normalises the
    hits, scrapes the first three of them, asks the language model for a
    synthesis, keeps the images whose address mentions a word of the query
    and answers with the synthesis, the images and every hit as a source.
    Any [Exception] on the way becomes an HTTP error of status 500.

    The handler is the program [ResearchRoute.search_travel_research].  The
    lists and dictionaries it mutates are the fields of [state]; the
    dictionaries of the normalised hits are shared between the slice the
    loop runs over and the list the sources are built from, which the model
    keeps by updating the hit at its position. *)

From S2P Require Import Prelude PyStr PyVal Effects Logic Tavily Regex Firecrawl.
From S2P Require Import Schemas ChatChain.

Import TavilyService FirecrawlService ChatChain.

(** ** The state of the handler *)

Record state : Type := State {
  formatted_results : list formatted;
  scraped_contents : list pystr;
  all_image_urls : list pyval
}.

#[export] Instance state_eq_dec : EqDecision state.
Proof. solve_decision. Defined.

(** [r["image_url"] = v]. *)
Definition set_image_url (r : formatted) (v : pyval) : formatted :=
  Formatted (f_title r) (f_url r) (f_content r) (f_score r) v.

Section research.
Context `{Runtime}.

(** The f-string appended to [scraped_contents]. *)
Definition source_text (title content : pyval) : pystr :=
  "Source: "%py ++ py_str title ++ newline ++ py_str content.

(** The two [if] statements of the loop body, on the scrape result of
    the hit [r] at position [i]. *)
Definition collect (i : nat) (r : formatted) (scraped_data : pyval)
    (st : state) : result state :=
  (has_content <- py_in "content"%py scraped_data ;;
   contents <-
     (if has_content : bool then
        content <- py_getitem scraped_data "content"%py ;;
        Ok (scraped_contents st ++ [source_text (f_title r) content])
      else Ok (scraped_contents st)) ;;
   has_images <- py_in "image_urls"%py scraped_data ;;
   nonempty <-
     (if has_images : bool then
        image_urls <- py_getitem scraped_data "image_urls"%py ;;
        n <- py_len image_urls ;;
        Ok (0 <? n)%nat
      else Ok false) ;;
   if nonempty : bool then
     image_urls <- py_getitem scraped_data "image_urls"%py ;;
     items <- py_iter image_urls ;;
     image_urls <- py_getitem scraped_data "image_urls"%py ;;
     first <- py_index image_urls 0 ;;
     Ok (State (<[i := set_image_url r first]> (formatted_results st))
           contents (all_image_urls st ++ items))
   else Ok (State (formatted_results st) contents (all_image_urls st)))%res.

Definition scraped_banner : pystr := "🔥 Firecrawl scraped data:"%py.

(** The body of the loop over [formatted_results[:3]]. *)
Definition visit (i : nat) (r : formatted) (st : state) : prog state :=
  (scraped_data <- scrape (f_url r) ;;
   perform (Print [PStr scraped_banner; scraped_data]) ;;
   lift (collect i r scraped_data st))%prog.

(** The prompt of the synthesis in the language of the request. *)
Definition synthesis_prompt (language query results_text : pystr) : pystr :=
  if decide (language = "fr"%py) then
    text_of_lines [
      "Basé sur les informations de voyage suivantes, rédigez une réponse complète et engageante pour la requête de l'utilisateur '"%py ++ query ++
        "'. Intégrez les détails clés dans un récit cohérent."%py;
      ""%py; results_text; ""%py;
      "Votre réponse doit être bien structurée, informative et facile à lire."%py]
  else if decide (language = "vi"%py) then
    text_of_lines [
      "Dựa trên thông tin du lịch sau đây, hãy viết một câu trả lời tổng hợp đầy đủ và hấp dẫn cho truy vấn của người dùng '"%py ++ query ++
        "'. Tích hợp các chi tiết chính vào một bài tường thuật mạch lạc."%py;
      ""%py; results_text; ""%py;
      "Câu trả lời của bạn phải có cấu trúc tốt, nhiều thông tin và dễ đọc."%py]
  else
    text_of_lines [
      "Based on the following travel information, write a comprehensive and engaging synthesized response for the user's query '"%py ++ query ++
        "'. Integrate the key details into a coherent narrative."%py;
      ""%py; results_text; ""%py;
      "Your response should be well-structured, informative, and easy to read."%py].

(** [any(keyword in url.lower() for keyword in query_keywords)]: the
    address is lower-cased for each keyword tried, up to the first match. *)
Fixpoint any_keyword (url : pyval) (query_keywords : list pystr) :
    result bool :=
  match query_keywords with
  | [] => Ok false
  | keyword :: rest =>
      (lowered <- py_lower url ;;
       if contains keyword lowered then Ok true
       else any_keyword url rest)%res
  end.

(** The list comprehension over [all_image_urls]. *)
Fixpoint keep_matching (query_keywords : list pystr) (urls : list pyval) :
    result (list pyval) :=
  match urls with
  | [] => Ok []
  | url :: rest =>
      (keep <- any_keyword url query_keywords ;;
       kept <- keep_matching query_keywords rest ;;
       Ok (if keep : bool then url :: kept else kept))%res
  end.

(** [filtered_image_urls]: the comprehension, then the slice [[:5]]. *)
Definition filter_image_urls (query : pystr) (urls : list pyval) :
    result (list pyval) :=
  (kept <- keep_matching (PyStr.split (lower query)) urls ;;
   Ok (take 5 kept))%res.

(** The [ResearchResult] of a normalised hit. *)
Definition to_source (r : formatted) : result ResearchResult.t :=
  ResearchResult.new (f_title r) (f_url r) (f_content r) (f_score r)
    (f_image_url r).

End research.

Module ResearchRoute.
Section handler.
Context `{Runtime}.

(** The [try] block of the handler. *)
Definition research_body (request : ResearchRequest.t) :
    prog ResearchResponse.t :=
  let query := ResearchRequest.query request in
  let language := ResearchRequest.language request in
  (raw_results <-
     TavilyService.search_travel_research query
       (ResearchRequest.max_results request) ;;
   hits <- lift (format_results raw_results) ;;
   st <- for_each visit 0 (take 3 hits) (State hits [] []) ;;
   let results_text :=
     PyStr.join (newline ++ newline) (scraped_contents st) in
   synthesized_response <-
     get_chat_response (synthesis_prompt language query results_text)
       language ;;
   filtered_image_urls <-
     lift (filter_image_urls query (all_image_urls st)) ;;
   sources <- lift (rmapM to_source (formatted_results st)) ;;
   now <- perform Now ;;
   lift (ResearchResponse.new query synthesized_response
           filtered_image_urls sources now))%prog.

(** [search_travel_research(request)]: an [Exception] of the body is
    answered with status 500. *)
Definition search_travel_research (request : ResearchRequest.t) :
    prog ResearchResponse.t :=
  try_except (research_body request)
    (fun e =>
       Raise (HTTPException 500 ("Research error: "%py ++ exn_str e))).

End handler.
End ResearchRoute.

Import ResearchRoute.

(** ** The typed view of the handler *)

(** What the loop body does to the state once the image addresses
    [urls] of a scrape result are known. *)
Definition absorb (i : nat) (r : formatted) (urls : list pystr)
    (st : state) : state :=
  match urls with
  | [] => st
  | first :: _ =>
      State (<[i := set_image_url r (PStr first)]> (formatted_results st))
        (scraped_contents st) (all_image_urls st ++ (PStr <$> urls))
  end.

(** An address mentions one of the keywords. *)
Definition mentions `{Unicode} (query_keywords : list pystr) (url : pystr) :
    bool :=
  existsb (fun keyword => contains keyword (lower url)) query_keywords.

(** The images kept for a query among addresses that are strings. *)
Definition select_images `{Unicode} (query : pystr) (urls : list pystr) :
    list pystr :=
  take 5 (filter (mentions (PyStr.split (lower query))) urls).

(** Two hits that differ at most by their image. *)
Definition same_hit (r r' : formatted) : Prop :=
  r' = set_image_url r (f_image_url r').

Section research_facts.
Context `{Runtime}.

(** *** The loop body *)

Lemma collect_scrape_result i r v st :
  scrape_result v -> collect i r v st = Ok (absorb i r (image_urls_of v) st).
Proof.
intros (d & -> & Himg & Hc)%scrape_result_keys. unfold collect.
rewrite (py_in_dict_None _ _ Hc), (py_in_dict_Some _ _ _ Himg).
rewrite (py_getitem_dict_Some _ _ _ Himg). cbn [rbind py_len py_iter].
rewrite length_fmap.
destruct (image_urls_of (PDict d)) as [|u us]; simpl; [by destruct st|done].
Qed.

(** A result without a list of images leaves the state as it is; a
    failure of the scrape is one of them. *)
Lemma collect_scrape_error i r e st :
  collect i r (scrape_error e) st = Ok st.
Proof. rewrite collect_scrape_result by apply scrape_error_result. done. Qed.

Lemma absorb_contents i r urls st :
  scraped_contents (absorb i r urls st) = scraped_contents st.
Proof. by destruct urls. Qed.

Lemma absorb_images i r urls st :
  all_image_urls (absorb i r urls st) = all_image_urls st ++ (PStr <$> urls).
Proof. destruct urls; simpl; [by rewrite app_nil_r|done]. Qed.

Lemma same_hit_refl r : same_hit r r.
Proof. by destruct r. Qed.

Lemma same_hit_set r v : same_hit r (set_image_url r v).
Proof. reflexivity. Qed.

Lemma same_hit_url r r' : same_hit r r' -> f_url r' = f_url r.
Proof. by intros ->. Qed.

Lemma absorb_hits hits i r urls st :
  hits !! i = Some r ->
  Forall2 same_hit hits (formatted_results st) ->
  Forall2 same_hit hits (formatted_results (absorb i r urls st)).
Proof.
intros Hi Hst. destruct urls as [|u us]; [done|]. simpl.
rewrite <- (list_insert_id hits i r Hi).
apply Forall2_insert; [done|apply same_hit_set].
Qed.

(** *** The filter *)

Lemma any_keyword_str url query_keywords :
  any_keyword (PStr url) query_keywords = Ok (mentions query_keywords url).
Proof.
induction query_keywords as [|k ks IH]; [done|]. simpl.
destruct (contains k (lower url)); [done|exact IH].
Qed.

Lemma keep_matching_str query_keywords urls :
  keep_matching query_keywords (PStr <$> urls) =
  Ok (PStr <$> filter (mentions query_keywords) urls).
Proof.
induction urls as [|u us IH]; [done|]. cbn [fmap list_fmap keep_matching].
rewrite any_keyword_str, IH. simpl. rewrite filter_cons.
destruct (mentions query_keywords u);
  [rewrite decide_True by exact I|rewrite decide_False by exact id]; done.
Qed.

Lemma filter_image_urls_str query urls :
  filter_image_urls query (PStr <$> urls) =
  Ok (PStr <$> select_images query urls).
Proof.
unfold filter_image_urls, select_images. rewrite keep_matching_str. simpl.
by rewrite fmap_take.
Qed.

(** Without keywords the addresses are not even looked at. *)
Lemma keep_matching_no_keyword urls : keep_matching [] urls = Ok [].
Proof. induction urls as [|u us IH]; [done|]. simpl. by rewrite IH. Qed.

Lemma mentions_infix query_keywords url :
  mentions query_keywords url = true <->
  exists keyword, keyword ∈ query_keywords /\ infix keyword (lower url).
Proof.
unfold mentions. rewrite existsb_exists. setoid_rewrite contains_infix.
by setoid_rewrite list_elem_of_In.
Qed.

Lemma select_images_length query urls :
  (length (select_images query urls) <= 5)%nat.
Proof. apply take_length_le. Qed.

Lemma select_images_mention query urls url :
  url ∈ select_images query urls ->
  url ∈ urls /\
  exists keyword, keyword ∈ PyStr.split (lower query) /\
    infix keyword (lower url).
Proof.
intros [Hm Hu]%take_elem_of%list_elem_of_filter. split; [done|].
apply mentions_infix. by apply Is_true_true.
Qed.

End research_facts.

(** ** The specification of the handler

    The same calls in the same order, on typed data: the scrape result is
    read through [image_urls_of], the images are filtered as strings, the
    prompt carries no scraped text, the response is built directly. *)

Section research_spec.
Context `{Runtime}.

Definition visit_spec (i : nat) (r : formatted) (st : state) : prog state :=
  (scraped_data <- scrape (f_url r) ;;
   perform (Print [PStr scraped_banner; scraped_data]) ;;
   Ret (absorb i r (image_urls_of scraped_data) st))%prog.

(** What follows the loop, in the handler and in its specification. *)
Definition finish (request : ResearchRequest.t) (st : state) :
    prog ResearchResponse.t :=
  let query := ResearchRequest.query request in
  let language := ResearchRequest.language request in
  (synthesized_response <-
     get_chat_response
       (synthesis_prompt language query
          (PyStr.join (newline ++ newline) (scraped_contents st)))
       language ;;
   filtered_image_urls <-
     lift (filter_image_urls query (all_image_urls st)) ;;
   sources <- lift (rmapM to_source (formatted_results st)) ;;
   now <- perform Now ;;
   lift (ResearchResponse.new query synthesized_response
           filtered_image_urls sources now))%prog.

Definition finish_spec (request : ResearchRequest.t) (st : state) :
    prog ResearchResponse.t :=
  let query := ResearchRequest.query request in
  let language := ResearchRequest.language request in
  (synthesized_response <-
     get_chat_response (synthesis_prompt language query []) language ;;
   sources <- lift (rmapM to_source (formatted_results st)) ;;
   now <- perform Now ;;
   Ret (ResearchResponse.Build query synthesized_response
          (select_images query (str_items (all_image_urls st)))
          sources now))%prog.

Definition research_body_spec (request : ResearchRequest.t) :
    prog ResearchResponse.t :=
  (raw_results <-
     TavilyService.search_travel_research (ResearchRequest.query request)
       (ResearchRequest.max_results request) ;;
   hits <- lift (format_results raw_results) ;;
   st <- for_each visit_spec 0 (take 3 hits) (State hits [] []) ;;
   finish_spec request st)%prog.

Definition research_spec (request : ResearchRequest.t) :
    prog ResearchResponse.t :=
  try_except (research_body_spec request)
    (fun e =>
       Raise (HTTPException 500 ("Research error: "%py ++ exn_str e))).

(** The state the loop maintains: nothing was ever appended to
    [scraped_contents], the images are strings, and the hits are those of
    the search up to their images. *)
Definition state_ok (hits : list formatted) (st : state) : Prop :=
  scraped_contents st = [] /\
  all_image_urls st = PStr <$> str_items (all_image_urls st) /\
  Forall2 same_hit hits (formatted_results st).

(** *** The handler refines its specification *)

Lemma visit_equiv i r st : visit i r st ≡ visit_spec i r st.
Proof.
unfold visit, visit_spec. apply (pbind_equiv_post _ _ _ []).
apply scrape_post. intros a _.
pose proof (scrape_outcome_cases a) as Hv.
destruct (scrape_outcome a) as [e|v]; [done|]. simpl.
by rewrite (collect_scrape_result _ _ _ _ Hv).
Qed.

Lemma state_ok_init hits : state_ok hits (State hits [] []).
Proof.
repeat split; simpl. apply Forall_Forall2_diag, Forall_forall.
intros r _. apply same_hit_refl.
Qed.

Lemma state_ok_absorb hits i r urls st :
  hits !! i = Some r -> state_ok hits st -> state_ok hits (absorb i r urls st).
Proof.
intros Hi (Hc & Hu & Hh). repeat split.
- by rewrite absorb_contents.
- rewrite absorb_images, Hu, <- fmap_app, str_items_fmap. done.
- by apply absorb_hits.
Qed.

Lemma finish_equiv request hits st :
  state_ok hits st -> finish request st ≡ finish_spec request st.
Proof.
intros (Hc & Hu & _). unfold finish, finish_spec. rewrite Hc. simpl PyStr.join.
apply pbind_equiv; [done|]. intros answer.
rewrite Hu, filter_image_urls_str, str_items_fmap, pbind_lift_Ok.
apply pbind_equiv; [done|]. intros sources.
apply pbind_equiv; [done|]. intros now.
by rewrite response_new_Ok.
Qed.

End research_spec.

(** ** The calls of a request *)

Definition is_print (c : call) : bool :=
  match projT2 c with
  | Print _ => true
  | _ => false
  end.

(** A log without its [print] calls. *)
Definition visible (log : list call) : list call :=
  filter (fun c => is_print c = false) log.

Definition scrape_calls (urls : list pyval) : list call :=
  (fun url => mkcall (scrape_call url)) <$> urls.

Section research_calls.
Context `{Runtime}.

(** The calls that follow the loop. *)
Definition llm_calls (request : ResearchRequest.t) : list call :=
  let query := ResearchRequest.query request in
  let language := ResearchRequest.language request in
  [mkcall LoadLLM;
   mkcall (LLMInvoke
             (chat_messages (synthesis_prompt language query []) language));
   mkcall Now].

(** What every path through the [try] block satisfies: one search, at
    most three scrapes, then the model and the clock; on success all of
    them, the scrapes being those of the first three sources in order. *)
Definition body_shape (request : ResearchRequest.t)
    (r : result ResearchResponse.t) (log : list call) : Prop :=
  let query := ResearchRequest.query request in
  exists urls tail,
    visible log =
      mkcall (search_call query (ResearchRequest.max_results request)) ::
      scrape_calls urls ++ tail /\
    (length urls <= 3)%nat /\
    tail `prefix_of` llm_calls request /\
    forall resp, r = Ok resp ->
      tail = llm_calls request /\
      urls = (fun s => PStr (ResearchResult.url s)) <$>
               take 3 (ResearchResponse.sources resp) /\
      ResearchResponse.query resp = query /\
      exists found,
        ResearchResponse.image_urls resp = select_images query found.

Lemma visible_app l k : visible (l ++ k) = visible l ++ visible k.
Proof. apply filter_app. Qed.

Lemma visible_scrape_calls urls : visible (scrape_calls urls) = scrape_calls urls.
Proof.
induction urls as [|u us IH]; [done|]. unfold visible, scrape_calls in *.
rewrite fmap_cons, filter_cons, decide_True by done. by rewrite IH.
Qed.

Lemma visible_llm_calls request tail :
  tail `prefix_of` llm_calls request -> visible tail = tail.
Proof.
intros [k Hk]. unfold llm_calls in Hk.
destruct tail as [|a [|b [|c [|d tail]]]]; simplify_eq/=; done.
Qed.

Lemma scrape_calls_snoc urls url :
  scrape_calls (urls ++ [url]) = scrape_calls urls ++ [mkcall (scrape_call url)].
Proof. unfold scrape_calls. by rewrite fmap_app. Qed.

End research_calls.

Section research_proofs.
Context `{Runtime}.

(** *** The loop *)

Lemma take_split_lookup {A} (l seen rest : list A) n x :
  take n l = seen ++ x :: rest ->
  l !! length seen = Some x /\ (length (seen ++ [x]) <= n)%nat.
Proof.
intros E. split.
- assert (take n l !! length seen = Some x) as Hl
    by (rewrite E; apply list_lookup_middle; done).
  apply lookup_take_Some in Hl as [Hl _]. exact Hl.
- pose proof (take_length_le l n) as Hn. rewrite E, !length_app in Hn.
  rewrite length_app. simpl in *. lia.
Qed.

Lemma scrape_loop_post hits log :
  post (for_each visit_spec 0 (take 3 hits) (State hits [] [])) log
    (fun r l =>
       match r with
       | inl e =>
           exists urls, (length urls <= 3)%nat /\
             visible l = visible log ++ scrape_calls urls
       | inr st =>
           visible l = visible log ++ scrape_calls (f_url <$> take 3 hits) /\
           state_ok hits st
       end).
Proof.
apply (post_for_each anything visit_spec
  (fun seen st l =>
     visible l = visible log ++ scrape_calls (f_url <$> seen) /\
     state_ok hits st)
  (fun e l =>
     exists urls, (length urls <= 3)%nat /\
       visible l = visible log ++ scrape_calls urls)).
{ split; [by rewrite app_nil_r|apply state_ok_init]. }
intros seen x rest st l [Hx Hlen]%take_split_lookup [Hl Hst].
assert (visible (l ++ [mkcall (scrape_call (f_url x))]) =
        visible log ++ scrape_calls (f_url <$> seen ++ [x])) as Hl'.
{ rewrite visible_app, Hl, fmap_app. cbn [fmap list_fmap].
  by rewrite scrape_calls_snoc, <- app_assoc. }
assert (length (f_url <$> seen ++ [x]) <= 3)%nat as Hlen'
  by by rewrite length_fmap.
unfold visit_spec. rewrite post_bind. apply scrape_post. intros a _.
destruct (scrape_outcome a) as [e|v]; cbn [then_post]; [by eauto|].
rewrite post_bind, post_perform. intros [e|[]] _; simpl.
- eexists. split; [exact Hlen'|]. rewrite visible_app, Hl'. apply app_nil_r.
- split; [|by apply state_ok_absorb].
  rewrite visible_app, Hl'. apply app_nil_r.
Qed.

(** *** After the loop *)

Lemma finish_spec_post request st log :
  post (finish_spec request st) log (fun r l =>
    exists tail, l = log ++ tail /\ tail `prefix_of` llm_calls request /\
      forall resp, r = Ok resp ->
        tail = llm_calls request /\
        rmapM to_source (formatted_results st) =
          Ok (ResearchResponse.sources resp) /\
        ResearchResponse.query resp = ResearchRequest.query request /\
        ResearchResponse.image_urls resp =
          select_images (ResearchRequest.query request)
            (str_items (all_image_urls st))).
Proof.
unfold finish_spec. rewrite post_bind. apply get_chat_response_post. split.
{ intros e _. eexists. split; [done|]. split; [by eexists|done]. }
intros _ [e|answer] _; cbn [then_post].
{ eexists. split; [done|]. split; [by eexists|done]. }
rewrite post_bind, post_lift.
destruct (rmapM to_source _) as [e|sources]; cbn [then_post].
{ eexists. split; [done|]. split; [by eexists|done]. }
rewrite post_bind, post_perform. intros [e|now] _; simpl.
{ exists (llm_calls request). rewrite <- app_assoc.
  split; [done|]. split; [done|]. done. }
exists (llm_calls request). rewrite <- app_assoc.
split; [done|]. split; [done|]. by intros resp [= <-].
Qed.

Lemma sources_urls hits results sources :
  Forall2 same_hit hits results ->
  rmapM to_source results = Ok sources ->
  f_url <$> hits = (fun s => PStr (ResearchResult.url s)) <$> sources.
Proof.
intros Hh Hs%rmapM_Ok_inv. revert sources Hs.
induction Hh as [|hit r hits results Hr _ IH]; intros sources Hs.
- by apply Forall2_nil_inv_l in Hs as ->.
- apply Forall2_cons_inv_l in Hs as (s & ss & Hsrc & Hss & ->).
  apply result_new_Ok_inv in Hsrc as (_ & Hu & _).
  rewrite !fmap_cons, <- Hu, (same_hit_url _ _ Hr). f_equal. by apply IH.
Qed.

End research_proofs.

Section research_theorems.
Context `{Runtime}.
Implicit Types (request : ResearchRequest.t).

Lemma body_shape_search request r :
  (forall resp, r <> Ok resp) ->
  body_shape request r
    [mkcall (search_call (ResearchRequest.query request)
               (ResearchRequest.max_results request))].
Proof.
intros Hr. exists [], []. split; [done|]. split; [simpl; lia|].
split; [apply prefix_nil|]. intros resp ?. by destruct (Hr resp).
Qed.

Lemma research_body_spec_post request :
  post (research_body_spec request) [] (body_shape request).
Proof.
unfold research_body_spec. rewrite post_bind. apply search_post. intros a _.
destruct (search_outcome a) as [e|raw]; cbn [then_post app];
  [by apply body_shape_search|].
rewrite post_bind, post_lift.
destruct (format_results raw) as [e|hits]; cbn [then_post];
  [by apply body_shape_search|].
rewrite post_bind. eapply post_mono; [|apply scrape_loop_post].
intros [e|st] l; cbn [then_post].
{ intros (urls & Hlen & Hl). exists urls, []. rewrite app_nil_r.
  split; [exact Hl|]. split; [done|]. split; [apply prefix_nil|done]. }
intros [Hl Hst]. eapply post_mono; [|apply finish_spec_post].
intros r l' (tail & -> & Htail & Hr).
exists (f_url <$> take 3 hits), tail.
rewrite visible_app, Hl, (visible_llm_calls _ _ Htail).
split; [done|]. split; [rewrite length_fmap; apply take_length_le|].
split; [done|]. intros resp Hresp.
destruct (Hr resp Hresp) as (-> & Hs & Hq & Hi). split; [done|].
split; [|by eauto]. rewrite !fmap_take. f_equal.
destruct Hst as (_ & _ & Hh). by eapply sources_urls.
Qed.

Lemma research_body_equiv request :
  research_body request ≡ research_body_spec request.
Proof.
unfold research_body, research_body_spec.
apply pbind_equiv; [done|]. intros raw.
apply pbind_equiv; [done|]. intros hits.
change (pbind (for_each visit 0 (take 3 hits) (State hits [] []))
          (finish request) ≡
        pbind (for_each visit_spec 0 (take 3 hits) (State hits [] []))
          (finish_spec request)).
etransitivity;
  [apply pbind_equiv; [apply for_each_equiv, visit_equiv|reflexivity]|].
apply (pbind_equiv_post _ _ _ []).
eapply post_mono; [|apply scrape_loop_post].
intros [e|st] l; [done|]. intros [_ Hst]. by eapply finish_equiv.
Qed.

Lemma research_equiv request :
  search_travel_research request ≡ research_spec request.
Proof.
apply try_except_equiv; [apply research_body_equiv|done].
Qed.

(** What every path through the handler satisfies. *)
Definition research_shape request (r : result ResearchResponse.t)
    (log : list call) : Prop :=
  body_shape request r log /\
  forall e, r = Err e ->
    is_Exception e = false \/
    exists detail, e = HTTPException 500 ("Research error: "%py ++ detail).

Lemma body_shape_Err request e e' log :
  body_shape request (Err e) log -> body_shape request (Err e') log.
Proof.
intros (urls & tail & ? & ? & ? & _). exists urls, tail. by repeat split.
Qed.

Lemma research_post request :
  post (search_travel_research request) [] (research_shape request).
Proof.
rewrite research_equiv. unfold research_spec. rewrite post_try_except.
eapply post_mono; [|apply research_body_spec_post].
intros [e|resp] l Hs; simpl.
- destruct (is_Exception e) eqn:He; simpl.
  + split; [by eapply body_shape_Err|]. intros ? [= <-]. eauto.
  + split; [done|]. intros ? [= <-]. by left.
- by split.
Qed.

Lemma research_run_shape {W} (h : handler W) request w :
  let o := run h (search_travel_research request) w in
  research_shape request (out_result o) (out_log o).
Proof.
apply (post_run h (search_travel_research request) w (research_shape request)).
apply research_post.
Qed.

End research_theorems.

(** The messages of an invocation of the model, if the call is one. *)
Definition invoked (c : call) : option (list (pystr * pystr)) :=
  match projT2 c with
  | LLMInvoke messages => Some messages
  | _ => None
  end.

Section research_claims.
Context `{Runtime}.
Implicit Types (request : ResearchRequest.t).

(** C1.  The handler refines its specification: both make the same calls
    and react in the same way to every answer of the services.  The
    dynamic look-ups of the loop never fail, nothing is ever appended to
    [scraped_contents], the filter sees strings only and the response
    always validates. *)
Theorem research_refines_spec request :
  search_travel_research request ≡ research_spec request.
Proof. apply research_equiv. Qed.

(** C10.  The calls of a request, in every run: the search first and
    once, then at most three scrapes (with their [print]s), then at most
    the loading of the model, its invocation and the clock, in this
    order. *)
Theorem research_call_order {W} (h : handler W) request w :
  exists urls tail,
    visible (out_log (run h (search_travel_research request) w)) =
      mkcall (search_call (ResearchRequest.query request)
                (ResearchRequest.max_results request)) ::
      scrape_calls urls ++ tail /\
    (length urls <= 3)%nat /\ tail `prefix_of` llm_calls request.
Proof.
destruct (research_run_shape h request w) as [(urls & tail & ? & ? & ? & _) _].
by exists urls, tail.
Qed.

(** C11.  A request that is answered made every call: the search, one
    scrape for each of the first three sources, in the order of the
    sources, then the model and the clock. *)
Theorem research_calls_on_success {W} (h : handler W) request w resp :
  out_result (run h (search_travel_research request) w) = Ok resp ->
  visible (out_log (run h (search_travel_research request) w)) =
    mkcall (search_call (ResearchRequest.query request)
              (ResearchRequest.max_results request)) ::
    scrape_calls ((fun s => PStr (ResearchResult.url s)) <$>
                  take 3 (ResearchResponse.sources resp)) ++
    llm_calls request.
Proof.
intros Hr.
destruct (research_run_shape h request w) as [(urls & tail & -> & _ & _ & Hok) _].
by destruct (Hok resp Hr) as (-> & -> & _).
Qed.

(** C4.  An exception that leaves the handler is an HTTP error of status
    500 whose detail starts with ["Research error: "], unless it is
    outside the class [Exception]. *)
Theorem research_error_is_500 {W} (h : handler W) request w e :
  out_result (run h (search_travel_research request) w) = Err e ->
  is_Exception e = false \/
  exists detail, e = HTTPException 500 ("Research error: "%py ++ detail).
Proof.
intros Hr. destruct (research_run_shape h request w) as [_ He]. by apply He.
Qed.

(** C30.  When the search fails with an [Exception], the request fails
    with status 500 and the detail of the search error, and no other
    service was called. *)
Theorem research_search_failure {W} (h : handler W) request w e :
  let ev := search_call (ResearchRequest.query request)
              (ResearchRequest.max_results request) in
  (h _ ev w).1 = Err e -> is_Exception e = true ->
  run h (search_travel_research request) w =
  Outcome
    (Err (HTTPException 500
            ("Research error: Research search error: "%py ++ exn_str e)))
    [mkcall ev] (h _ ev w).2.
Proof.
intros ev He Hc. unfold search_travel_research, research_body.
rewrite run_try_except, run_bind, search_run. fold ev. simpl.
rewrite He. simpl. by rewrite Hc.
Qed.

(** C9.  The model is never shown what was scraped: every invocation of
    the model in every run carries the prompt built with an empty
    [results_text]. *)
Theorem research_prompt_without_content {W} (h : handler W) request w c
    messages :
  c ∈ out_log (run h (search_travel_research request) w) ->
  invoked c = Some messages ->
  messages =
    chat_messages
      (synthesis_prompt (ResearchRequest.language request)
         (ResearchRequest.query request) [])
      (ResearchRequest.language request).
Proof.
intros Hc Hm.
destruct (research_run_shape h request w) as [(urls & tail & Hl & _ & Ht & _) _].
assert (c ∈ visible (out_log (run h (search_travel_research request) w)))
  as Hv.
{ apply list_elem_of_filter. split; [|done].
  destruct c as [X []]; by simplify_eq/=. }
rewrite Hl in Hv. destruct Ht as [k Hk].
apply elem_of_cons in Hv as [->|[Hv|Hv]%elem_of_app]; [done| |].
- apply list_elem_of_fmap in Hv as (u & -> & _). done.
- assert (c ∈ llm_calls request) as Hin by (rewrite Hk; set_solver).
  unfold llm_calls in Hin.
  repeat (apply elem_of_cons in Hin as [->|Hin]);
    [..|by apply elem_of_nil in Hin];
    unfold invoked, mkcall in Hm; cbn [projT2] in Hm; by simplify_eq.
Qed.

(** The images of a response: at most five, each among the scraped
    ones kept by the filter, its lower-cased address containing a word
    of the lower-cased query. *)
Theorem research_images_filtered {W} (h : handler W) request w resp :
  out_result (run h (search_travel_research request) w) = Ok resp ->
  (length (ResearchResponse.image_urls resp) <= 5)%nat /\
  forall url, url ∈ ResearchResponse.image_urls resp ->
    exists keyword,
      keyword ∈ PyStr.split (lower (ResearchRequest.query request)) /\
      infix keyword (lower url).
Proof.
intros Hr.
destruct (research_run_shape h request w) as [(urls & tail & _ & _ & _ & Hok) _].
destruct (Hok resp Hr) as (_ & _ & _ & found & ->).
split; [apply select_images_length|].
intros url Hu. by apply select_images_mention in Hu as [_ ?].
Qed.

(** C19.  The loop body on a dictionary with the keys of a scrape result
    (["markdown"], ["image_urls"], ["raw"], or ["error"], ["image_urls"],
    the images a list of strings): no text is appended to
    [scraped_contents]; when the result has images they are all appended
    to [all_image_urls] and the first becomes the image of the hit at its
    position in [formatted_results]; otherwise the state is unchanged. *)
Theorem collect_spec i r v st :
  scrape_result v -> collect i r v st = Ok (absorb i r (image_urls_of v) st).
Proof. apply collect_scrape_result. Qed.

(** On addresses that are strings the filter keeps, in order, the
    first five whose lower-cased text contains a keyword. *)
Theorem filter_image_urls_strings query urls :
  filter_image_urls query (PStr <$> urls) =
  Ok (PStr <$> select_images query urls).
Proof. apply filter_image_urls_str. Qed.

(** A query without a word (only white space) selects no image,
    whatever was scraped. *)
Theorem filter_image_urls_blank query urls :
  PyStr.split (lower query) = [] -> filter_image_urls query urls = Ok [].
Proof.
intros Hq. unfold filter_image_urls. by rewrite Hq, keep_matching_no_keyword.
Qed.

End research_claims.

Section research_more.
Context `{Runtime}.

Lemma any_keyword_true url query_keywords :
  any_keyword url query_keywords = Ok true ->
  exists u, url = PStr u /\ mentions query_keywords u = true.
Proof.
destruct query_keywords as [|k ks]; [done|].
destruct url; try done. rewrite any_keyword_str. intros [= ?]. eauto.
Qed.

Lemma keep_matching_sound query_keywords urls kept :
  keep_matching query_keywords urls = Ok kept ->
  kept `sublist_of` urls /\
  Forall (fun v => exists u, v = PStr u /\ mentions query_keywords u = true)
    kept.
Proof.
revert kept. induction urls as [|v urls IH]; intros kept; simpl.
{ intros [= <-]. by split. }
intros (b & Hb & (kept' & Hk & [= <-])%rbind_inv_Ok)%rbind_inv_Ok.
destruct (IH _ Hk) as [Hsub Hall]. destruct b.
- split; [by apply sublist_skip|]. constructor; [|done].
  by apply any_keyword_true.
- split; [by apply sublist_cons|done].
Qed.

(** C13.  Whatever the accumulated values are, when the filter returns it
    returns at most five of them, in their order, each a string whose
    lower-cased text contains a word of the lower-cased query. *)
Theorem filter_image_urls_sound query urls kept :
  filter_image_urls query urls = Ok kept ->
  (length kept <= 5)%nat /\ (length kept <= length urls)%nat /\
  kept `sublist_of` urls /\
  Forall (fun v => exists u, v = PStr u /\
            exists keyword, keyword ∈ PyStr.split (lower query) /\
              infix keyword (lower u)) kept.
Proof.
unfold filter_image_urls.
intros (all & [Hsub Hall]%keep_matching_sound & [= <-])%rbind_inv_Ok.
assert (take 5 all `sublist_of` urls) as Hs
  by (etransitivity; [apply sublist_take|done]).
split; [apply take_length_le|]. split; [by apply sublist_length|].
split; [done|]. apply Forall_take. eapply Forall_impl; [exact Hall|].
intros v (u & -> & Hm). exists u. split; [done|]. by apply mentions_infix.
Qed.

(** A scrape that fails with an [Exception] contributes nothing and
    does not stop the loop: the body returns the state it was given. *)
Theorem visit_scrape_failure {W} (h : handler W) i r st w e :
  let w' := (h _ (scrape_call (f_url r)) w).2 in
  (h _ (scrape_call (f_url r)) w).1 = Err e -> is_Exception e = true ->
  (h _ (Print [PStr scraped_banner; scrape_error e]) w').1 = Ok tt ->
  out_result (run h (visit i r st) w) = Ok st.
Proof.
intros w' He Hc Hp. unfold visit.
rewrite run_bind, scrape_run_eq, He, (scrape_outcome_Err _ Hc).
cbn [out_result out_world]. fold w'. unfold run. simpl.
destruct (h _ _ w') as [rp wp]. simpl in Hp. subst rp. simpl.
by rewrite collect_scrape_error.
Qed.

Lemma to_source_rejects r :
  as_str (f_title r) = None -> exists msg,
    to_source r = Err (PyExc ValidationError msg).
Proof.
intros Ht. unfold to_source, ResearchResult.new. rewrite Ht.
repeat case_match; by eexists.
Qed.

(** C33.  A hit whose title is null passes the normaliser with the title
    [None], and the construction of its source is then refused with a
    [ValidationError]. *)
Theorem null_title_rejected d :
  d !! "title"%py = Some PNone -> d !! "content"%py = None ->
  exists r msg,
    format_result (PDict d) = Ok r /\ f_title r = PNone /\
    to_source r = Err (PyExc ValidationError msg).
Proof.
intros Ht Hc. rewrite format_result_dict, Hc. simpl.
destruct (to_source_rejects (formatted_of d (PStr []))) as [msg Hm].
{ unfold formatted_of. simpl. by rewrite Ht. }
eexists _, msg. split; [done|]. split; [|exact Hm].
unfold formatted_of. simpl. by rewrite Ht.
Qed.

End research_more.

(** ** A request, run

    The scenario of the specification: the query "Paris museums", five
    hits, the second scrape fails, the model answers. *)

#[local] Existing Instance ref_runtime.

Definition sample_hit (title path : pystr) : pyval :=
  PDict (list_to_map [
    ("title"%py, PStr title);
    ("url"%py, PStr ("https://example.org/"%py ++ path));
    ("content"%py, PStr "About the museum"%py);
    ("score"%py, PFloat (float_of_Z 1))]).

Definition sample_hits : pyval :=
  PDict (list_to_map [
    ("results"%py, PList [
       sample_hit "Louvre"%py "louvre"%py; sample_hit "Orsay"%py "orsay"%py;
       sample_hit "Rodin"%py "rodin"%py; sample_hit "Cluny"%py "cluny"%py;
       sample_hit "Picasso"%py "picasso"%py])]).

Definition sample_page : sdk_object :=
  ObjDict (list_to_map [
    ("markdown"%py,
     PStr "![a](http://x/Paris-Museum.png) ![b](http://x/map.png)"%py)]).

Definition timeout : exn := PyExc ValueError "timeout"%py.

(** The services; the state counts the scrapes, the second one fails. *)
Definition sample_env : handler nat := fun X ev w =>
  match ev in event X return result X * nat with
  | TavilySearch _ _ _ _ => (Ok sample_hits, w)
  | FirecrawlScrape _ _ _ =>
      (if (w =? 1)%nat then Err timeout else Ok sample_page, S w)
  | LoadLLM => (Ok tt, w)
  | LLMInvoke _ => (Ok "A walk through the museums"%py, w)
  | Now => (Ok 1762560000000000%Z, w)
  | TavilyClient _ | FirecrawlApp _ | Print _ => (Ok tt, w)
  end.

(** The same services with a search that fails. *)
Definition failing_env : handler nat := fun X ev w =>
  match ev in event X return result X * nat with
  | TavilySearch _ _ _ _ => (Err (PyExc ValueError "quota exceeded"%py), w)
  | ev' => sample_env _ ev' w
  end.

Definition sample_request : ResearchRequest.t :=
  ResearchRequest.Build "Paris museums"%py 5 "en"%py.

Definition sample_source (title path : pystr) (image : option pystr) :
    ResearchResult.t :=
  ResearchResult.Build title ("https://example.org/"%py ++ path)
    "About the museum"%py (float_of_Z 1) image.

Definition sample_image : pystr := "http://x/Paris-Museum.png"%py.

Definition sample_response : ResearchResponse.t :=
  ResearchResponse.Build "Paris museums"%py "A walk through the museums"%py
    [sample_image; sample_image]
    [sample_source "Louvre"%py "louvre"%py (Some sample_image);
     sample_source "Orsay"%py "orsay"%py None;
     sample_source "Rodin"%py "rodin"%py (Some sample_image);
     sample_source "Cluny"%py "cluny"%py None;
     sample_source "Picasso"%py "picasso"%py None]
    1762560000000000%Z.

(** The request is answered in full: five sources, the images of the
    first and of the third page. *)
Example sample_run :
  out_result (run sample_env (search_travel_research sample_request) 0%nat) =
  Ok sample_response.
Proof. vm_compute. reflexivity. Qed.

Lemma research_calls_on_success_witness :
  visible (out_log
    (run sample_env (search_travel_research sample_request) 0%nat)) =
  mkcall (search_call "Paris museums"%py 5) ::
  scrape_calls [PStr "https://example.org/louvre"%py;
                PStr "https://example.org/orsay"%py;
                PStr "https://example.org/rodin"%py] ++
  llm_calls sample_request.
Proof.
apply (research_calls_on_success sample_env sample_request 0%nat
         sample_response).
vm_compute. reflexivity.
Defined.

Lemma research_error_is_500_witness :
  let e := HTTPException 500
    "Research error: Research search error: quota exceeded"%py in
  is_Exception e = false \/
  exists detail, e = HTTPException 500 ("Research error: "%py ++ detail).
Proof.
apply (research_error_is_500 failing_env sample_request 0%nat).
vm_compute. reflexivity.
Defined.

Lemma research_search_failure_witness :
  run failing_env (search_travel_research sample_request) 0%nat =
  Outcome
    (Err (HTTPException 500
            "Research error: Research search error: quota exceeded"%py))
    [mkcall (search_call "Paris museums"%py 5)] 0%nat.
Proof.
apply (research_search_failure failing_env sample_request 0%nat
         (PyExc ValueError "quota exceeded"%py)); reflexivity.
Defined.

Lemma research_prompt_without_content_witness :
  chat_messages (synthesis_prompt "en"%py "Paris museums"%py []) "en"%py =
  chat_messages (synthesis_prompt "en"%py "Paris museums"%py []) "en"%py.
Proof.
apply (research_prompt_without_content sample_env sample_request 0%nat
         (mkcall (LLMInvoke
            (chat_messages (synthesis_prompt "en"%py "Paris museums"%py [])
               "en"%py)))).
- vm_compute. do 8 right. left.
- reflexivity.
Defined.

Lemma research_images_filtered_witness :
  (length (ResearchResponse.image_urls sample_response) <= 5)%nat /\
  forall url, url ∈ ResearchResponse.image_urls sample_response ->
    exists keyword,
      keyword ∈ PyStr.split (lower "Paris museums"%py) /\
      infix keyword (lower url).
Proof.
apply (research_images_filtered sample_env sample_request 0%nat
         sample_response).
vm_compute. reflexivity.
Defined.

Lemma collect_spec_witness :
  collect 0 (format_typed ∅)
    (scrape_payload (PStr "![a](u)"%py) (PDict ∅))
    (State [format_typed ∅] [] []) =
  Ok (State [set_image_url (format_typed ∅) (PStr "u"%py)] [] [PStr "u"%py]).
Proof.
apply (collect_spec 0 (format_typed ∅)
         (scrape_payload (PStr "![a](u)"%py) (PDict ∅))
         (State [format_typed ∅] [] [])).
apply scrape_payload_result.
Defined.

Lemma filter_image_urls_blank_witness :
  filter_image_urls "   "%py [PStr "http://x/a.png"%py; PInt 3] = Ok [].
Proof. apply filter_image_urls_blank. reflexivity. Defined.

Lemma filter_image_urls_sound_witness :
  let kept := [PStr "http://x/Paris.png"%py] in
  (length kept <= 5)%nat /\
  (length kept <= length [PStr "http://x/Paris.png"%py; PStr "u"%py])%nat /\
  kept `sublist_of` [PStr "http://x/Paris.png"%py; PStr "u"%py] /\
  Forall (fun v => exists u, v = PStr u /\
            exists keyword, keyword ∈ PyStr.split (lower "Paris museums"%py) /\
              infix keyword (lower u)) kept.
Proof.
apply (filter_image_urls_sound "Paris museums"%py
         [PStr "http://x/Paris.png"%py; PStr "u"%py]).
reflexivity.
Defined.

Lemma visit_scrape_failure_witness :
  out_result
    (run sample_env (visit 1 (format_typed ∅) (State [] [] [])) 1%nat) =
  Ok (State [] [] []).
Proof.
apply (visit_scrape_failure sample_env 1 (format_typed ∅) (State [] [] [])
         1%nat timeout); reflexivity.
Defined.

Lemma null_title_rejected_witness :
  exists r msg,
    format_result (PDict {["title"%py := PNone]}) = Ok r /\
    f_title r = PNone /\
    to_source r = Err (PyExc ValidationError msg).
Proof. apply null_title_rejected; reflexivity. Defined.
