(* ===== verification/Response.v ===== *)
(** * Response: the answer to a request, from the answers of the services

    [Research] describes every path through the handler of
    [routes/research.py].  This file fixes what the services answer and
    computes the response:

    - in a scenario ([serve]: the payload of the search, the answer of the
      provider for each address, the text of the model, the time) the
      outcome of the request is [response_of], a function on lists: the
      first three hits absorb the images of their pages in the order of
      the hits ([absorb_all]), every hit becomes a source, the images are
      filtered.  A page whose scrape fails with an [Exception] contributes
      nothing and changes nothing else ([images_at_failure]); a page that
      is the rendering of a document contributes the images of the
      document ([images_at_rendered]), which ties the regular expression
      of the scraper to the response;
    - when the services are up ([up]: the search answers with hits from
      which sources can be built, a scrape fails at most with an
      [Exception], the model, the clock and the standard output work) the
      request is answered with a response, never with an error;
    - whatever the services answer, the state of the loop satisfies
      [state_ok] after any number of iterations. *)

From S2P Require Import Prelude PyStr PyVal Effects Logic Tavily Regex Firecrawl.
From S2P Require Import Schemas ChatChain Research.

Import TavilyService FirecrawlService ChatChain ResearchRoute.

(** ** Scenarios *)

(** The answers of the services in a scenario. *)
Definition serve (raw : pyval) (page : pyval -> result sdk_object)
    (answer : pystr) (now : timestamp) : forall X, event X -> result X :=
  fun X ev =>
    match ev in event X return result X with
    | TavilySearch _ _ _ _ => Ok raw
    | FirecrawlScrape url _ _ => page url
    | LLMInvoke _ => Ok answer
    | Now => Ok now
    | TavilyClient _ | FirecrawlApp _ | LoadLLM | Print _ => Ok tt
    end.

(** The [except] clause of the handler, on the outcome of its body. *)
Definition as_500 {A} (r : result A) : result A :=
  match r with
  | inl e =>
      if is_Exception e
      then Err (HTTPException 500 ("Research error: "%py ++ exn_str e))
      else Err e
  | inr a => Ok a
  end.

Section response.
Context `{Runtime}.

(** A scrape that [scrape] turns into a result: the provider answered,
    or an [Exception] was raised on the way. *)
Definition absorbed (r : result sdk_object) : Prop :=
  is_Ok (scrape_outcome r).

(** The images found on the page of a hit. *)
Definition images_at (page : pyval -> result sdk_object) (r : formatted) :
    list pystr :=
  match scrape_outcome (page (f_url r)) with
  | inr v => image_urls_of v
  | inl _ => []
  end.

(** The loop over the hits [rs], the first of them at position [i]. *)
Fixpoint absorb_all (page : pyval -> result sdk_object) (i : nat)
    (rs : list formatted) (st : state) : state :=
  match rs with
  | [] => st
  | r :: rest => absorb_all page (S i) rest (absorb i r (images_at page r) st)
  end.

(** The state after the loop of the handler. *)
Definition scraped (page : pyval -> result sdk_object)
    (hits : list formatted) : state :=
  absorb_all page 0 (take 3 hits) (State hits [] []).

(** The outcome of the [try] block for the normalised hits [hits]. *)
Definition response_of (request : ResearchRequest.t) (hits : list formatted)
    (page : pyval -> result sdk_object) (answer : pystr) (now : timestamp) :
    result ResearchResponse.t :=
  let query := ResearchRequest.query request in
  let st := scraped page hits in
  (sources <- rmapM to_source (formatted_results st) ;;
   Ok (ResearchResponse.Build query answer
         (select_images query (str_items (all_image_urls st))) sources now))%res.

(** ** The handler in a scenario *)

Lemma to_source_raises rs : raises_Exception (rmapM to_source rs).
Proof.
intros e (r & _ & He)%rmapM_Err_inv.
apply result_new_raises in He as (errors & _ & ->).
apply validation_error_Exception.
Qed.

Section scenario.
Context (raw : pyval) (page : pyval -> result sdk_object) (answer : pystr)
  (now : timestamp).

#[local] Abbreviation C := (scripted (serve raw page answer now)).

Lemma scrape_loop_scripted i rs st log :
  Forall (fun r => absorbed (page (f_url r))) rs ->
  post_under C (for_each visit_spec i rs st) log
    (outcome_is (eq (Ok (absorb_all page i rs st)))).
Proof.
intros Hp. revert i st log.
induction Hp as [|r rs [v Hv] _ IH]; intros i st log; [done|].
cbn [for_each absorb_all]. rewrite post_bind. unfold visit_spec at 1.
rewrite post_bind. apply scrape_post. intros a ->.
cbn [serve scrape_call]. rewrite Hv.
cbn [then_post]. rewrite post_bind, post_perform. intros printed ->.
cbn [serve then_post post_under]. unfold images_at. rewrite Hv. apply IH.
Qed.

Lemma finish_spec_scripted request st log :
  post_under C (finish_spec request st) log
    (outcome_is (eq
       (sources <- rmapM to_source (formatted_results st) ;;
        Ok (ResearchResponse.Build (ResearchRequest.query request) answer
              (select_images (ResearchRequest.query request)
                 (str_items (all_image_urls st)))
              sources now))%res)).
Proof.
unfold finish_spec. rewrite post_bind. apply get_chat_response_post.
split; [by intros e [=]|]. intros _ r ->. cbn [serve then_post].
rewrite post_bind, post_lift.
destruct (rmapM to_source _) as [e|sources]; cbn [then_post rbind]; [done|].
rewrite post_bind, post_perform. by intros t ->.
Qed.

Lemma research_body_scripted request hits :
  format_results raw = Ok hits ->
  Forall (fun r => absorbed (page (f_url r))) (take 3 hits) ->
  post_under C (research_body_spec request) []
    (outcome_is (eq (response_of request hits page answer now))).
Proof.
intros Hf Hp. unfold research_body_spec. rewrite post_bind.
apply search_post. intros r ->. cbn [serve search_call search_outcome then_post].
rewrite post_bind, post_lift, Hf. cbn [then_post]. rewrite post_bind.
eapply post_mono; [|by apply scrape_loop_scripted].
intros r l <-. cbn [then_post]. apply finish_spec_scripted.
Qed.

End scenario.

(** The [try]/[except] of the handler maps the outcome of its body. *)
Lemma post_as_500 C {A} (p : prog A) log Q :
  post_under C p log (fun r l => Q (as_500 r) l) ->
  post_under C
    (try_except p (fun e =>
       Raise (HTTPException 500 ("Research error: "%py ++ exn_str e))))
    log Q.
Proof.
intros Hp. rewrite post_try_except. eapply post_mono; [|exact Hp].
intros [e|a] l; simpl; [|done]. by destruct (is_Exception e).
Qed.

Lemma run_as_500 {W A} (h : handler W) (p : prog A) w :
  out_result
    (run h (try_except p (fun e =>
       Raise (HTTPException 500 ("Research error: "%py ++ exn_str e)))) w) =
  as_500 (out_result (run h p w)).
Proof.
rewrite run_try_except. cbn zeta.
destruct (out_result (run h p w)) as [e|a] eqn:Hp; simpl; [|done].
by destruct (is_Exception e).
Qed.

Lemma research_scripted request raw hits page answer now :
  format_results raw = Ok hits ->
  Forall (fun r => absorbed (page (f_url r))) (take 3 hits) ->
  post_under (scripted (serve raw page answer now))
    (search_travel_research request) []
    (outcome_is (eq (as_500 (response_of request hits page answer now)))).
Proof.
intros Hf Hp. rewrite research_equiv. apply post_as_500.
eapply post_mono; [|by apply research_body_scripted].
by intros r l <-.
Qed.

(** ** The state after the loop *)

(** The hit with the first image of its page, if the page has one. *)
Definition with_image (page : pyval -> result sdk_object) (r : formatted) :
    formatted :=
  match images_at page r with
  | [] => r
  | first :: _ => set_image_url r (PStr first)
  end.

Lemma absorb_all_contents page i rs st :
  scraped_contents (absorb_all page i rs st) = scraped_contents st.
Proof.
revert i st. induction rs as [|r rs IH]; intros i st; [done|].
simpl. by rewrite IH, absorb_contents.
Qed.

Lemma absorb_all_images page i rs st :
  all_image_urls (absorb_all page i rs st) =
  all_image_urls st ++ (PStr <$> concat (images_at page <$> rs)).
Proof.
revert i st. induction rs as [|r rs IH]; intros i st; simpl.
- by rewrite app_nil_r.
- by rewrite IH, absorb_images, fmap_app, app_assoc.
Qed.

Lemma absorb_with_image page pre r rest st :
  formatted_results st = pre ++ r :: rest ->
  formatted_results (absorb (length pre) r (images_at page r) st) =
  (pre ++ [with_image page r]) ++ rest.
Proof.
intros Hst. unfold absorb, with_image. rewrite <- app_assoc.
destruct (images_at page r) as [|first urls]; simpl; [done|].
rewrite Hst, insert_app_r_alt, Nat.sub_diag by done. done.
Qed.

Lemma absorb_all_hits page pre rs rest st :
  formatted_results st = pre ++ rs ++ rest ->
  formatted_results (absorb_all page (length pre) rs st) =
  pre ++ (with_image page <$> rs) ++ rest.
Proof.
revert pre st. induction rs as [|r rs IH]; intros pre st Hst; [done|].
cbn [absorb_all fmap list_fmap app].
replace (S (length pre)) with (length (pre ++ [with_image page r]))
  by (rewrite length_app; simpl; lia).
rewrite IH; [by rewrite <- app_assoc|]. by apply absorb_with_image.
Qed.

(** Every hit is kept, in order; the first three carry the first image
    of their pages, the others are as the search gave them. *)
Lemma scraped_hits page hits :
  formatted_results (scraped page hits) =
  (with_image page <$> take 3 hits) ++ drop 3 hits.
Proof.
unfold scraped. apply (absorb_all_hits page []). simpl.
by rewrite take_drop.
Qed.

(** The images are those of the pages, in the order of the hits. *)
Lemma scraped_images page hits :
  all_image_urls (scraped page hits) =
  PStr <$> concat (images_at page <$> take 3 hits).
Proof. unfold scraped. by rewrite absorb_all_images. Qed.

(** A page whose scrape fails leaves its hit as it is. *)
Lemma images_at_failure page r e :
  page (f_url r) = Err e -> is_Exception e = true ->
  images_at page r = [] /\ with_image page r = r.
Proof.
intros Hp He. unfold with_image, images_at.
by rewrite Hp, (scrape_outcome_Err _ He).
Qed.

Lemma response_of_Ok request hits page answer now resp :
  response_of request hits page answer now = Ok resp ->
  Forall2 (fun r s => to_source r = Ok s)
    ((with_image page <$> take 3 hits) ++ drop 3 hits)
    (ResearchResponse.sources resp) /\
  ResearchResponse.image_urls resp =
    select_images (ResearchRequest.query request)
      (concat (images_at page <$> take 3 hits)) /\
  ResearchResponse.query resp = ResearchRequest.query request /\
  ResearchResponse.response resp = answer /\
  ResearchResponse.timestamp resp = now.
Proof.
unfold response_of.
intros (sources & Hs%rmapM_Ok_inv & [= <-])%rbind_inv_Ok. simpl.
rewrite scraped_hits in Hs. by rewrite scraped_images, str_items_fmap.
Qed.

(** ** Pages that are documents *)

(** The answer of the provider holds the markdown text [md]: at the top,
    or under ["data"] when there is no text at the top. *)
Definition page_markdown (d : gmap pystr pyval) (md : pystr) : Prop :=
  d !! "markdown"%py = Some (PStr md) \/
  ((forall s, d !! "markdown"%py <> Some (PStr s)) /\
   exists dd, d !! "data"%py = Some (PDict dd) /\
     dd !! "markdown"%py = Some (PStr md)).

Lemma scrape_outcome_markdown d md :
  page_markdown d md ->
  scrape_outcome (Ok (ObjDict d)) = Ok (scrape_payload (PStr md) (PDict d)).
Proof.
intros [Htop|(Htop & dd & Hd & Hdd)].
- by apply scrape_flat.
- by eapply scrape_nested.
Qed.

(** The page of a hit is the rendering of a document. *)
Definition shows (page : pyval -> result sdk_object) (r : formatted)
    (doc : list chunk) : Prop :=
  exists d, page (f_url r) = Ok (ObjDict d) /\
    page_markdown d (render doc) /\ Forall wf_chunk doc.

(** The images found on such a page are the images of the document. *)
Lemma images_at_rendered page r doc :
  shows page r doc -> images_at page r = urls doc.
Proof.
intros (d & Hp & Hd & Hdoc). unfold images_at.
rewrite Hp, (scrape_outcome_markdown _ _ Hd), scrape_payload_image_urls.
unfold extract_image_urls, findall.
rewrite findall_skip_image. by apply md_images_render.
Qed.

(** ** Services that are up *)

(** A hit from which a source can be built. *)
Definition source_ok (r : formatted) : Prop := is_Ok (to_source r).

(** The search answers with hits that validate, a scrape fails at most
    with an [Exception], the other calls return. *)
Definition up : contract := fun X ev =>
  match ev in event X return result X -> Prop with
  | TavilySearch _ _ _ _ => fun r =>
      exists raw hits,
        r = Ok raw /\ format_results raw = Ok hits /\ Forall source_ok hits
  | FirecrawlScrape _ _ _ => absorbed
  | _ => is_Ok
  end.

Lemma source_ok_set r first : source_ok r -> source_ok (set_image_url r (PStr first)).
Proof.
intros [s Hs]. apply result_new_Ok_inv in Hs as (Ht & Hu & Hc & Hf & _).
unfold source_ok, to_source, ResearchResult.new. simpl.
rewrite Ht, Hu, Hc, Hf. by eexists.
Qed.

(** The invariant of the loop when the hits validate: so does every hit
    of the state. *)
Lemma absorb_source_ok i r urls st :
  source_ok r -> Forall source_ok (formatted_results st) ->
  Forall source_ok (formatted_results (absorb i r urls st)).
Proof.
intros Hr Hst. destruct urls as [|first urls]; [done|]. simpl.
by apply Forall_insert, source_ok_set.
Qed.

Lemma scrape_loop_up hits log :
  Forall source_ok hits ->
  post_under up (for_each visit_spec 0 (take 3 hits) (State hits [] [])) log
    (outcome_is (fun r =>
       exists st, r = Ok st /\ Forall source_ok (formatted_results st))).
Proof.
intros Hhits. eapply post_mono;
  [|apply (post_for_each up visit_spec
      (fun _ st _ => Forall source_ok (formatted_results st))
      (fun _ _ => False)); [done|]].
{ intros [e|st] l; [done|]. by exists st. }
intros seen x rest st l [Hx _]%take_split_lookup Hst.
apply list_elem_of_lookup_2 in Hx.
unfold visit_spec. rewrite post_bind. apply scrape_post.
intros a [v ->]. cbn [then_post]. rewrite post_bind, post_perform.
intros printed [[] ->]. cbn [then_post post_under].
apply absorb_source_ok; [|done]. by eapply Forall_forall in Hhits.
Qed.

Lemma finish_spec_up request st log :
  Forall source_ok (formatted_results st) ->
  post_under up (finish_spec request st) log (outcome_is is_Ok).
Proof.
intros Hst. unfold finish_spec. rewrite post_bind.
apply get_chat_response_post. split; [by intros e [? [=]]|].
intros _ r [answer ->]. cbn [then_post]. rewrite post_bind, post_lift.
destruct (rmapM_total to_source _ Hst) as [sources ->]. cbn [then_post].
rewrite post_bind, post_perform. intros t [now ->]. by eexists.
Qed.

Lemma research_up request :
  post_under up (search_travel_research request) [] (outcome_is is_Ok).
Proof.
rewrite research_equiv. apply post_as_500.
unfold research_body_spec. rewrite post_bind. apply search_post.
intros r (raw & hits & -> & Hf & Hhits). cbn [search_outcome then_post].
rewrite post_bind, post_lift, Hf. cbn [then_post]. rewrite post_bind.
eapply post_mono; [|by apply scrape_loop_up].
intros r l (st & -> & Hst). cbn [then_post].
eapply post_mono; [|by apply finish_spec_up].
intros r' l' Hr. destruct Hr as [resp ->]. by exists resp.
Qed.

(** ** The invariant of the loop *)

(** Whatever the services answer and however many hits were visited, the
    state of the loop is as [state_ok] says. *)
Lemma scrape_loop_state_ok hits n log :
  post (for_each visit 0 (take n hits) (State hits [] [])) log
    (returns (state_ok hits)).
Proof.
eapply post_mono;
  [|apply (post_for_each anything visit
      (fun _ st _ => state_ok hits st) (fun _ _ => True));
    [apply state_ok_init|]].
{ by intros [e|st] l. }
intros seen x rest st l [Hx _]%take_split_lookup Hst.
rewrite visit_equiv. unfold visit_spec. rewrite post_bind.
apply scrape_post. intros a _.
destruct (scrape_outcome a) as [e|v]; cbn [then_post]; [done|].
rewrite post_bind, post_perform. intros [e|[]] _; simpl; [done|].
by apply state_ok_absorb.
Qed.

End response.

Section response_claims.
Context `{Runtime}.

(** C21.  The invariant of the scrape loop: after any number of
    iterations, in every run, nothing was appended to [scraped_contents],
    the accumulated images are strings, and [formatted_results] holds the
    hits of the search in their order, changed at most in their image. *)
Theorem scrape_loop_invariant {W} (h : handler W) hits n w st :
  out_result (run h (for_each visit 0 (take n hits) (State hits [] [])) w) =
    Ok st ->
  scraped_contents st = [] /\
  all_image_urls st = PStr <$> str_items (all_image_urls st) /\
  Forall2 same_hit hits (formatted_results st).
Proof.
intros Hr.
pose proof (post_run h _ w _ (scrape_loop_state_ok hits n [])) as Hp.
by rewrite Hr in Hp.
Qed.

(** C2.  In a scenario the outcome of a request is a function of the
    answers of the services: when the search answers [raw], whose
    normalised hits are [hits], each of the first three pages is scraped
    (with or without an [Exception]), the model answers [answer] and the
    clock [now], the request ends with [response_of], an [Exception] of
    its validations becoming the error of status 500. *)
Theorem research_response {W} (h : handler W) request raw hits page answer
    now w :
  honours h (scripted (serve raw page answer now)) ->
  format_results raw = Ok hits ->
  Forall (fun r => absorbed (page (f_url r))) (take 3 hits) ->
  out_result (run h (search_travel_research request) w) =
  as_500 (response_of request hits page answer now).
Proof.
intros Hh Hf Hp. symmetry.
apply (post_under_run _ h (search_travel_research request) w
         (outcome_is (eq (as_500 (response_of request hits page answer now))))
         Hh).
by apply research_scripted.
Qed.

(** C23.  The fields of the response of a scenario: every hit is a source,
    in the order of the search, the first three with the first image of
    their pages and the others as the search gave them; the images are
    those of the first three pages in the order of the hits, filtered by
    the query; the text is the model's and the time the clock's. *)
Theorem response_of_fields request hits page answer now resp :
  response_of request hits page answer now = Ok resp ->
  Forall2 (fun r s => to_source r = Ok s)
    ((with_image page <$> take 3 hits) ++ drop 3 hits)
    (ResearchResponse.sources resp) /\
  ResearchResponse.image_urls resp =
    select_images (ResearchRequest.query request)
      (concat (images_at page <$> take 3 hits)) /\
  ResearchResponse.query resp = ResearchRequest.query request /\
  ResearchResponse.response resp = answer /\
  ResearchResponse.timestamp resp = now.
Proof. apply response_of_Ok. Qed.

(** C25.  From the pages to the response: when the pages of the first
    three hits are renderings of documents (the markdown at the top of
    the provider's answer or under ["data"]), the images of the response
    are the images of these documents, in the order of the hits and of
    their appearance, of which the first five are kept whose address
    mentions a word of the query. *)
Theorem response_images_of_documents request hits page answer now resp docs :
  response_of request hits page answer now = Ok resp ->
  Forall2 (shows page) (take 3 hits) docs ->
  ResearchResponse.image_urls resp =
    select_images (ResearchRequest.query request) (concat (urls <$> docs)).
Proof.
intros (_ & -> & _)%response_of_Ok Hdocs. f_equal. f_equal.
induction Hdocs as [|r doc rs docs Hr _ IH]; [done|].
by rewrite !fmap_cons, IH, (images_at_rendered _ _ _ Hr).
Qed.

(** A page whose scrape raises an [Exception] contributes no image
    and leaves its hit as the search gave it. *)
Theorem scrape_failure_skipped page r e :
  page (f_url r) = Err e -> is_Exception e = true ->
  images_at page r = [] /\ with_image page r = r.
Proof. apply images_at_failure. Qed.

(** C8.  When the services are up every request is answered with a
    response: the search answers with hits from which sources can be
    built, a scrape fails at most with an [Exception], and the model, the
    clock and the standard output work. *)
Theorem research_answers {W} (h : handler W) request w :
  honours h up ->
  is_Ok (out_result (run h (search_travel_research request) w)).
Proof.
intros Hh.
apply (post_under_run _ h (search_travel_research request) w
         (outcome_is is_Ok) Hh).
apply research_up.
Qed.

End response_claims.

(** ** The scenario of the specification

    The query "Paris museums", five hits, the page of the second hit
    cannot be scraped. *)

#[local] Existing Instance ref_runtime.

Definition sample_pages (url : pyval) : result sdk_object :=
  match url with
  | PStr s =>
      if decide (s = "https://example.org/orsay"%py) then Err timeout
      else Ok sample_page
  | _ => Ok sample_page
  end.

Definition museum_answer : pystr := "A walk through the museums"%py.

Definition sample_now : timestamp := 1762560000000000%Z.

Definition sample_formatted : list formatted :=
  Eval vm_compute in
    match format_results sample_hits with
    | inr hits => hits
    | inl _ => []
    end.

Definition sample_script : handler unit :=
  script_handler (serve sample_hits sample_pages museum_answer sample_now).

Lemma sample_pages_absorbed :
  Forall (fun r => absorbed (sample_pages (f_url r))) (take 3 sample_formatted).
Proof. repeat constructor; eexists; vm_compute; reflexivity. Qed.

Example sample_scenario :
  as_500 (response_of sample_request sample_formatted sample_pages
            museum_answer sample_now) = Ok sample_response.
Proof. vm_compute. reflexivity. Qed.

Lemma research_response_witness :
  out_result (run sample_script (search_travel_research sample_request) ()) =
  as_500 (response_of sample_request sample_formatted sample_pages
            museum_answer sample_now).
Proof.
apply (research_response sample_script sample_request sample_hits
         sample_formatted sample_pages museum_answer sample_now ()).
- apply script_handler_honours.
- vm_compute. reflexivity.
- apply sample_pages_absorbed.
Defined.

Lemma response_of_fields_witness :
  Forall2 (fun r s => to_source r = Ok s)
    ((with_image sample_pages <$> take 3 sample_formatted) ++
     drop 3 sample_formatted)
    (ResearchResponse.sources sample_response) /\
  ResearchResponse.image_urls sample_response =
    select_images "Paris museums"%py
      (concat (images_at sample_pages <$> take 3 sample_formatted)) /\
  ResearchResponse.query sample_response = "Paris museums"%py /\
  ResearchResponse.response sample_response = museum_answer /\
  ResearchResponse.timestamp sample_response = sample_now.
Proof.
apply (response_of_fields sample_request sample_formatted sample_pages
         museum_answer sample_now sample_response).
vm_compute. reflexivity.
Defined.

Lemma scrape_failure_skipped_witness :
  let orsay := Formatted PNone (PStr "https://example.org/orsay"%py)
                 PNone PNone PNone in
  images_at sample_pages orsay = [] /\ with_image sample_pages orsay = orsay.
Proof.
apply (scrape_failure_skipped sample_pages
         (Formatted PNone (PStr "https://example.org/orsay"%py)
            PNone PNone PNone) timeout); reflexivity.
Defined.

Lemma sample_env_up : honours sample_env up.
Proof.
intros X ev w. destruct ev; simpl; try (by eexists).
- exists sample_hits, sample_formatted. split; [done|]. split; [done|].
  repeat constructor; eexists; vm_compute; reflexivity.
- destruct (w =? 1)%nat; eexists; vm_compute; reflexivity.
Qed.

Lemma research_answers_witness :
  is_Ok (out_result
           (run sample_env (search_travel_research sample_request) 0%nat)).
Proof.
apply (research_answers sample_env sample_request 0%nat), sample_env_up.
Defined.

Lemma scrape_loop_invariant_witness :
  let st := State ((with_image sample_pages <$> take 2 sample_formatted) ++
                   drop 2 sample_formatted) []
              (PStr <$> [sample_image; "http://x/map.png"%py]) in
  scraped_contents st = [] /\
  all_image_urls st = PStr <$> str_items (all_image_urls st) /\
  Forall2 same_hit sample_formatted (formatted_results st).
Proof.
apply (scrape_loop_invariant sample_script sample_formatted 2 ()).
vm_compute. reflexivity.
Defined.

(** Three pages that show the same document. *)
Definition gallery_doc : list chunk :=
  [Text "The museums of Paris"%py;
   Image "Louvre"%py "http://x/paris-louvre.png"%py;
   Text [LF]; Image "map"%py "http://x/map.png"%py].

Definition gallery (url : pyval) : result sdk_object :=
  Ok (ObjDict {["markdown"%py := PStr (render gallery_doc)]}).

Definition gallery_response : ResearchResponse.t :=
  Eval vm_compute in
    match response_of sample_request sample_formatted gallery museum_answer
            sample_now with
    | inr resp => resp
    | inl _ => ResearchResponse.Build [] [] [] [] 0%Z
    end.

Lemma gallery_shows r : shows gallery r gallery_doc.
Proof.
eexists. split; [reflexivity|]. split; [left; apply lookup_singleton_eq|].
apply (bool_decide_unpack (Forall wf_chunk gallery_doc)). vm_compute.
reflexivity.
Qed.

Lemma response_images_of_documents_witness :
  ResearchResponse.image_urls gallery_response =
  select_images "Paris museums"%py
    (concat (urls <$> [gallery_doc; gallery_doc; gallery_doc])).
Proof.
apply (response_images_of_documents sample_request sample_formatted gallery
         museum_answer sample_now gallery_response
         [gallery_doc; gallery_doc; gallery_doc]).
- vm_compute. reflexivity.
- unfold sample_formatted. cbn [take].
  do 3 (constructor; [apply gallery_shows|]). constructor.
Defined.
