(* ===== verification/Protocol.v ===== *)
(** * Protocol: the calls of a request as a state machine

    The handler of [routes/research.py] goes through its services in a
    fixed order: the search, then for each of the first three hits a
    scrape and the [print] of its result, then the loading of the model,
    its invocation and the clock.  [step] is this machine, [next] decides
    it, [trace] is a sequence of its transitions.

    - The handler conforms to the machine: in every run, whatever the
      services answer, the calls made are a trace from [Searching], and a
      request that is answered has reached [Done].
    - Every transition decreases [remaining]; a trace from [Searching]
      therefore has at most ten calls, and so has every run: a request
      ends after at most ten answers of the services. *)

From S2P Require Import Prelude PyStr PyVal Effects Logic Tavily Regex Firecrawl.
From S2P Require Import Schemas ChatChain Research Response.

Import TavilyService FirecrawlService ChatChain ResearchRoute.

(** ** The machine *)

Inductive phase : Type :=
| Searching
| Scraping (n : nat)
| Printing (n : nat)
| Invoking
| Timing
| Done.

#[export] Instance phase_eq_dec : EqDecision phase.
Proof. solve_decision. Defined.

(** The number of pages a phase may stand for. *)
Definition phase_ok (s : phase) : Prop :=
  match s with
  | Scraping n => (n <= 3)%nat
  | Printing n => (n < 3)%nat
  | _ => True
  end.

(** An upper bound of the calls still to come. *)
Definition remaining (s : phase) : nat :=
  match s with
  | Searching => 10
  | Scraping n => 9 - 2 * n
  | Printing n => 8 - 2 * n
  | Invoking => 2
  | Timing => 1
  | Done => 0
  end.

(** The calls that build a client. *)
Definition constructs (c : call) : bool :=
  match projT2 c with
  | TavilyClient _ | FirecrawlApp _ => true
  | _ => false
  end.

Section machine.
Context `{Runtime} (request : ResearchRequest.t).

(** The invocation of the model for the request. *)
Definition synthesis_messages : list (pystr * pystr) :=
  let query := ResearchRequest.query request in
  let language := ResearchRequest.language request in
  chat_messages (synthesis_prompt language query []) language.

Definition synthesis_call : event pystr := LLMInvoke synthesis_messages.

Inductive step : phase -> call -> phase -> Prop :=
| step_search :
    step Searching
      (mkcall (search_call (ResearchRequest.query request)
                 (ResearchRequest.max_results request)))
      (Scraping 0)
| step_scrape n url :
    (n < 3)%nat -> step (Scraping n) (mkcall (scrape_call url)) (Printing n)
| step_print n v :
    step (Printing n) (mkcall (Print [PStr scraped_banner; v]))
      (Scraping (S n))
| step_load n : step (Scraping n) (mkcall LoadLLM) Invoking
| step_invoke : step Invoking (mkcall synthesis_call) Timing
| step_now : step Timing (mkcall Now) Done.

(** The calls made from a phase, in order, and the phase reached. *)
Inductive trace : phase -> list call -> phase -> Prop :=
| trace_nil s : trace s [] s
| trace_snoc s l s' c s'' :
    trace s l s' -> step s' c s'' -> trace s (l ++ [c]) s''.

(** The transition of a phase on a call, if it has one. *)
Definition next (s : phase) (c : call) : option phase :=
  match projT2 c, s with
  | TavilySearch query search_depth max_results include_images, Searching =>
      if decide (query = ResearchRequest.query request /\
                 search_depth = "advanced"%py /\
                 max_results = ResearchRequest.max_results request /\
                 include_images = true)
      then Some (Scraping 0) else None
  | FirecrawlScrape _ formats max_age, Scraping n =>
      if decide ((n < 3)%nat /\ formats = ["markdown"%py] /\
                 max_age = 3600000%Z)
      then Some (Printing n) else None
  | Print [PStr banner; _], Printing n =>
      if decide (banner = scraped_banner) then Some (Scraping (S n)) else None
  | LoadLLM, Scraping _ => Some Invoking
  | LLMInvoke messages, Invoking =>
      if decide (messages = synthesis_messages) then Some Timing else None
  | Now, Timing => Some Done
  | _, _ => None
  end.

(** The phase a sequence of calls leads to. *)
Fixpoint follow (s : phase) (l : list call) : option phase :=
  match l with
  | [] => Some s
  | c :: l' => s' ← next s c; follow s' l'
  end.

End machine.

(** ** The machine's own properties *)

Section machine_facts.
Context `{Runtime} (request : ResearchRequest.t).

#[local] Hint Constructors step trace : core.

(** [next] decides [step]. *)
Lemma next_step s c s' : next request s c = Some s' <-> step request s c s'.
Proof.
split.
- destruct c as [X ev]. unfold next. cbn [projT2].
  destruct ev, s; try done; repeat case_match; try done;
    intros [= <-]; destruct_and?; subst; by constructor.
- intros []; unfold next, mkcall, search_call, scrape_call, synthesis_call;
    cbn [projT2]; by rewrite ?decide_True.
Qed.

Lemma trace_cons s c s' l s'' :
  step request s c s' -> trace request s' l s'' ->
  trace request s (c :: l) s''.
Proof.
intros Hs Ht. induction Ht as [s'|s' l s1 c' s2 _ IH Hc].
- apply (trace_snoc request s [] s); auto.
- rewrite app_comm_cons. eauto.
Qed.

Lemma trace_app s l s' k s'' :
  trace request s l s' -> trace request s' k s'' ->
  trace request s (l ++ k) s''.
Proof.
intros Hl Hk. induction Hk as [s'|s' k s1 c s2 _ IH Hc].
- by rewrite app_nil_r.
- rewrite app_assoc. eauto.
Qed.

(** [follow] decides [trace]. *)
Lemma follow_trace s l s' :
  follow request s l = Some s' <-> trace request s l s'.
Proof.
split.
- revert s. induction l as [|c l IH]; intros s; simpl.
  + intros [= <-]. constructor.
  + destruct (next request s c) as [s1|] eqn:Hc; [|done]. simpl.
    intros Hl. eapply trace_cons; [by apply next_step|by apply IH].
- induction 1 as [s|s l s1 c s2 _ IH Hc]; [done|].
  apply next_step in Hc. revert s IH.
  induction l as [|c' l IHl]; intros s; simpl.
  + intros [= ->]. by rewrite Hc.
  + destruct (next request s c'); [apply IHl|done].
Qed.

(** The calls made before any point of a trace are a trace. *)
Lemma trace_prefix s l k s' :
  trace request s (l ++ k) s' -> exists s'', trace request s l s''.
Proof.
revert s'. induction k as [|c k IH] using rev_ind; intros s'.
- rewrite app_nil_r. eauto.
- rewrite app_assoc. intros Ht. remember ((l ++ k) ++ [c]) as lk eqn:E.
  destruct Ht as [|? l' s1 c' ? Ht Hc]; [by destruct (l ++ k)|].
  apply app_inj_tail in E as [-> ->]. eauto.
Qed.

(** The machine builds no client. *)
Lemma trace_constructs s l s' :
  trace request s l s' -> Forall (fun c => constructs c = false) l.
Proof.
induction 1 as [s|s l s1 c s2 _ IH Hc]; [done|].
apply Forall_app. split; [done|]. constructor; [|done]. by destruct Hc.
Qed.

(** Every transition uses up one of the remaining calls. *)
Lemma step_decreases s c s' :
  phase_ok s -> step request s c s' ->
  phase_ok s' /\ (remaining s' < remaining s)%nat.
Proof. intros Hs Hc. destruct Hc; simpl in *; lia. Qed.

Lemma trace_remaining s l s' :
  phase_ok s -> trace request s l s' ->
  phase_ok s' /\ (length l + remaining s' <= remaining s)%nat.
Proof.
intros Hs. induction 1 as [s|s l s1 c s2 _ IH Hc]; [simpl; split; [done|lia]|].
destruct (IH Hs) as [Hok Hl].
destruct (step_decreases _ _ _ Hok Hc). rewrite length_app. simpl.
split; [done|lia].
Qed.

End machine_facts.

(** ** The handler conforms to the machine *)

Section conformance.
Context `{Runtime} (request : ResearchRequest.t).

#[local] Hint Constructors step trace : core.

(** The calls made are a trace, and an answer was given in [Done]. *)
Definition conforms (r : result ResearchResponse.t) (l : list call) : Prop :=
  exists s, trace request Searching l s /\ (is_Ok r -> s = Done).

Lemma conforms_Err e l s : trace request Searching l s -> conforms (Err e) l.
Proof. intros Ht. exists s. split; [done|]. by intros [? ?]. Qed.

Lemma trace_snoc2 s l s' c1 s1 c2 s2 :
  trace request s l s' -> step request s' c1 s1 -> step request s1 c2 s2 ->
  trace request s (l ++ [c1; c2]) s2.
Proof.
intros. change (l ++ [c1; c2]) with (l ++ [c1] ++ [c2]).
rewrite app_assoc. eauto.
Qed.

Lemma scrape_loop_conforms hits log :
  trace request Searching log (Scraping 0) ->
  post (for_each visit_spec 0 (take 3 hits) (State hits [] [])) log
    (fun r l =>
       match r with
       | inl _ => exists s, trace request Searching l s
       | inr _ => exists n, trace request Searching l (Scraping n)
       end).
Proof.
intros Hlog. eapply post_mono;
  [|apply (post_for_each anything visit_spec
      (fun seen _ l => trace request Searching l (Scraping (length seen)))
      (fun _ l => exists s, trace request Searching l s)); [done|]].
{ intros [e|st] l; eauto. }
intros seen x rest st l [_ Hlen]%take_split_lookup Hl.
rewrite length_app in *. simpl in Hlen.
unfold visit_spec. rewrite post_bind. apply scrape_post. intros a _.
assert (trace request Searching (l ++ [mkcall (scrape_call (f_url x))])
          (Printing (length seen))) as Hp
  by (econstructor; [done|constructor; lia]).
destruct (scrape_outcome a) as [e|v]; cbn [then_post]; [by eauto|].
rewrite post_bind, post_perform.
replace (length seen + length [x])%nat with (S (length seen)) by (simpl; lia).
intros [e|[]] _; simpl; eauto.
Qed.

Lemma finish_spec_conforms st log n :
  trace request Searching log (Scraping n) ->
  post (finish_spec request st) log conforms.
Proof.
intros Hlog. unfold finish_spec. rewrite post_bind.
apply get_chat_response_post. split.
{ intros e _. eapply conforms_Err. eauto. }
intros _ r _.
assert (trace request Searching
          (log ++ [mkcall LoadLLM; mkcall (synthesis_call request)]) Timing)
  as Ht by (eapply trace_snoc2; eauto).
destruct r as [e|answer]; cbn [then_post]; [by eapply conforms_Err|].
rewrite post_bind, post_lift.
destruct (rmapM to_source _) as [e|sources]; cbn [then_post];
  [by eapply conforms_Err|].
rewrite post_bind, post_perform. intros [e|now] _; simpl.
- eapply conforms_Err. eauto.
- exists Done. eauto.
Qed.

Lemma research_body_conforms :
  post (research_body_spec request) [] conforms.
Proof.
unfold research_body_spec. rewrite post_bind. apply search_post.
intros a _.
assert (trace request Searching
          ([] ++ [mkcall (search_call (ResearchRequest.query request)
                            (ResearchRequest.max_results request))])
          (Scraping 0)) as Hs by eauto.
destruct (search_outcome a) as [e|raw]; cbn [then_post];
  [by eapply conforms_Err|].
rewrite post_bind, post_lift.
destruct (format_results raw) as [e|hits]; cbn [then_post];
  [by eapply conforms_Err|].
rewrite post_bind. eapply post_mono; [|by apply scrape_loop_conforms].
intros [e|st] l; cbn [then_post].
- intros [s Ht]. by eapply conforms_Err.
- intros [n Ht]. by eapply finish_spec_conforms.
Qed.

Lemma research_conforms_post :
  post (search_travel_research request) [] conforms.
Proof.
rewrite research_equiv. apply post_as_500.
eapply post_mono; [|apply research_body_conforms].
intros [e|resp] l (s & Ht & Hd).
- simpl. destruct (is_Exception e); by eapply conforms_Err.
- exists s. split; [done|]. intros _. apply Hd. by eexists.
Qed.

Lemma research_run_conforms {W} (h : handler W) w :
  let o := run h (search_travel_research request) w in
  conforms (out_result o) (out_log o).
Proof.
apply (post_run h (search_travel_research request) w conforms).
apply research_conforms_post.
Qed.

End conformance.

Section protocol_claims.
Context `{Runtime} {W : Type} (h : handler W).
Implicit Types (request : ResearchRequest.t).

(** C3.  The handler conforms to the machine of the orchestrator: in
    every run the calls made, [print]s included, are a trace from
    [Searching] (the search, then scrape and print in turn at most three
    times, then the loading of the model, its invocation with the prompt
    of the request, and the clock), and a request that is answered has
    reached [Done]. *)
Theorem research_conforms request w :
  let o := run h (search_travel_research request) w in
  exists s, trace request Searching (out_log o) s /\
    (is_Ok (out_result o) -> s = Done).
Proof. apply research_run_conforms. Qed.

(** C20.  A request ends after at most ten calls to its services: every
    call uses up one of the calls [remaining] allows, which are ten at
    the start. *)
Theorem research_bounded_calls request w :
  (length (out_log (run h (search_travel_research request) w)) <= 10)%nat.
Proof.
destruct (research_run_conforms request h w) as (s & Ht & _).
apply trace_remaining in Ht as [_ Hl]; [|done]. simpl in Hl. lia.
Qed.

(** C22.  At every point of every run the calls made so far lead the
    machine to a phase that is well formed (at most three pages scraped)
    and from which the calls made and those that may remain are at most
    ten. *)
Theorem research_phase_invariant request w l k :
  out_log (run h (search_travel_research request) w) = l ++ k ->
  exists s, trace request Searching l s /\ phase_ok s /\
    (length l + remaining s <= 10)%nat.
Proof.
intros Hl. destruct (research_run_conforms request h w) as (s' & Ht & _).
rewrite Hl in Ht. apply trace_prefix in Ht as [s Hs]. exists s.
split; [done|]. by apply (trace_remaining request Searching).
Qed.

(** No request builds a client: the handles of the services are
    those made when the modules were imported, shared by all requests. *)
Theorem research_shares_clients request w :
  Forall (fun c => constructs c = false)
    (out_log (run h (search_travel_research request) w)).
Proof.
destruct (research_run_conforms request h w) as (s & Ht & _).
by eapply trace_constructs.
Qed.

End protocol_claims.

(** ** The scenario of the specification, followed *)

#[local] Existing Instance ref_runtime.

Example sample_run_followed :
  follow sample_request Searching
    (out_log (run sample_env (search_travel_research sample_request) 0%nat)) =
  Some Done.
Proof. vm_compute. reflexivity. Qed.

Lemma research_phase_invariant_witness :
  let log :=
    out_log (run sample_env (search_travel_research sample_request) 0%nat) in
  exists s, trace sample_request Searching (take 4 log) s /\ phase_ok s /\
    (length (take 4 log) + remaining s <= 10)%nat.
Proof.
intros log.
apply (research_phase_invariant sample_env sample_request 0%nat
         (take 4 log) (drop 4 log)).
symmetry. apply take_drop.
Defined.
