(* ===== verification/Concurrent.v ===== *)
(** * Concurrent: the scrape loop as a fan-out

    The handler of [routes/research.py] scrapes its three pages one after
    the other.  The specification (section 5) allows the three scrapes to
    run together, each task handing back its contribution, provided the
    contributions are merged in the order of the sources and not in the
    order in which the tasks end.  This file says why:

    - merging the contributions in the order of the sources is the loop
      of the handler ([merge_source_order]), and the state it gives is
      the one the code's loop ends with when it is run against a provider
      that answers each address with its page ([scrape_loop_run]);
    - merging them in another order gives a state with the same hits and
      the same images as that run of the loop, but the images in another
      order: the states are equivalent for [≡], which compares the images
      as multisets ([merge_any_order]), and the responses built from
      them can differ ([completion_order_differs]). *)

From S2P Require Import Prelude PyStr PyVal Effects Logic Tavily Regex Firecrawl.
From S2P Require Import Schemas ChatChain Research Response.

(** ** Contributions *)

(** What a task hands back: the position of its hit, the hit, and the
    images of its page. *)
Definition contribution : Type := nat * formatted * list pystr.

Definition position (c : contribution) : nat := c.1.1.

(** The orchestrator absorbs a contribution as the loop body does. *)
Definition merge_one (c : contribution) (st : state) : state :=
  absorb c.1.1 c.1.2 c.2 st.

(** The contributions are absorbed one after the other, the first of the
    list first. *)
Definition merge (cs : list contribution) (st : state) : state :=
  foldr merge_one st (reverse cs).

(** The contributions of the hits [rs], the first at position [i]. *)
Fixpoint contributions `{Runtime} (page : pyval -> result sdk_object)
    (i : nat) (rs : list formatted) : list contribution :=
  match rs with
  | [] => []
  | r :: rest => (i, r, images_at page r) :: contributions page (S i) rest
  end.

(** ** States up to the order of the images *)

#[export] Instance state_equiv : Equiv state := fun st st' =>
  formatted_results st = formatted_results st' /\
  scraped_contents st = scraped_contents st' /\
  all_image_urls st ≡ₚ all_image_urls st'.

#[export] Instance state_equivalence : Equivalence (≡@{state}).
Proof.
split.
- by intros st.
- intros st st' (? & ? & ?). by repeat split.
- intros st1 st2 st3 (? & ? & ?) (? & ? & ?).
  repeat split; by etransitivity.
Qed.

#[export] Instance formatted_results_proper :
  Proper ((≡) ==> (=)) formatted_results.
Proof. by intros st st' (? & _). Qed.

#[export] Instance all_image_urls_proper :
  Proper ((≡) ==> (≡ₚ)) all_image_urls.
Proof. by intros st st' (_ & _ & ?). Qed.

#[export] Instance absorb_proper i r urls :
  Proper ((≡) ==> (≡)) (absorb i r urls).
Proof.
intros st st' (Hr & Hc & Hu). destruct urls as [|first urls]; [done|].
repeat split; simpl; [by rewrite Hr|done|by rewrite Hu].
Qed.

#[export] Instance merge_one_proper c : Proper ((≡) ==> (≡)) (merge_one c).
Proof. apply absorb_proper. Qed.

(** Contributions at different positions can be absorbed in either
    order. *)
Lemma absorb_comm i r urls j r' urls' st :
  i <> j ->
  absorb i r urls (absorb j r' urls' st) ≡
  absorb j r' urls' (absorb i r urls st).
Proof.
intros Hij. destruct urls as [|u urls], urls' as [|u' urls']; try done.
repeat split; simpl.
- by apply list_insert_insert_ne.
- rewrite <- !app_assoc. apply Permutation_app_head, Permutation_app_comm.
Qed.

Lemma merge_nil st : merge [] st = st.
Proof. done. Qed.

Lemma merge_cons c cs st : merge (c :: cs) st = merge cs (merge_one c st).
Proof. unfold merge. by rewrite reverse_cons, foldr_app. Qed.

Section fan_out.
Context `{Runtime} (page : pyval -> result sdk_object).

(** Merging in the order of the sources is the loop of the handler. *)
Lemma merge_contributions i rs st :
  merge (contributions page i rs) st = absorb_all page i rs st.
Proof.
revert i st. induction rs as [|r rs IH]; intros i st; [done|].
cbn [contributions absorb_all]. by rewrite merge_cons, IH.
Qed.

Lemma contributions_positions i rs :
  position <$> contributions page i rs = seq i (length rs).
Proof.
revert i. induction rs as [|r rs IH]; intros i; [done|].
cbn [contributions fmap list_fmap length seq]. by rewrite <- IH.
Qed.

(** Merging contributions at distinct positions in any order gives the
    same state, up to the order of the images. *)
Lemma merge_permutation cs cs' st :
  NoDup (position <$> cs) -> cs ≡ₚ cs' -> merge cs st ≡ merge cs' st.
Proof.
intros Hnd Hp. unfold merge.
apply (foldr_permutation (≡) merge_one st).
- intros j1 c1 j2 c2 st' Hj H1 H2. apply absorb_comm. intros Hpos.
  apply Hj.
  apply (NoDup_lookup (position <$> reverse cs) j1 j2 (position c1)).
  + by rewrite fmap_reverse, reverse_Permutation.
  + by rewrite list_lookup_fmap, H1.
  + rewrite list_lookup_fmap, H2. unfold position. simpl. by rewrite Hpos.
- by rewrite !reverse_Permutation.
Qed.

End fan_out.

Section concurrent_claims.
Context `{Runtime} (raw : pyval) (page : pyval -> result sdk_object)
  (answer : pystr) (now : timestamp).

(** The loop of the handler, run where the provider answers the scrape
    of an address with [page]: it ends with the state [scraped]. *)
Lemma scrape_loop_run {W} (h : handler W) i rs st w :
  honours h (scripted (serve raw page answer now)) ->
  Forall (fun r => absorbed (page (f_url r))) rs ->
  out_result (run h (for_each visit i rs st) w) =
  Ok (absorb_all page i rs st).
Proof.
intros Hh Hp. symmetry.
apply (post_under_run _ h (for_each visit i rs st) w
         (outcome_is (eq (Ok (absorb_all page i rs st)))) Hh).
rewrite (for_each_equiv visit visit_spec) by apply visit_equiv.
by apply scrape_loop_scripted.
Qed.

(** A fan-out of the scrape loop that merges the contributions of
    its tasks in the order of the sources computes the state the loop of
    the handler computes. *)
Theorem merge_source_order hits :
  merge (contributions page 0 (take 3 hits)) (State hits [] []) =
  scraped page hits.
Proof. apply merge_contributions. Qed.

Lemma merge_scraped hits cs :
  cs ≡ₚ contributions page 0 (take 3 hits) ->
  merge cs (State hits [] []) ≡ scraped page hits.
Proof.
intros Hp. rewrite <- merge_source_order. symmetry.
apply merge_permutation; [|done].
rewrite contributions_positions. apply NoDup_seq.
Qed.

(** C26.  Where the provider answers the scrape of an address with
    [page] and no scrape is interrupted, the loop of the handler
    ([for_each visit] over the first three hits) ends with a state, and
    that state is what the contributions of the three scrapes give when
    they are merged in the order of the sources; merged in any other
    order, for instance the order in which the tasks of a fan-out end,
    they give the same hits and the same images as the loop, the images
    possibly in another order. *)
Theorem merge_any_order {W} (h : handler W) hits cs w :
  honours h (scripted (serve raw page answer now)) ->
  Forall (fun r => absorbed (page (f_url r))) (take 3 hits) ->
  cs ≡ₚ contributions page 0 (take 3 hits) ->
  exists st,
    out_result
      (run h (for_each visit 0 (take 3 hits) (State hits [] [])) w) = Ok st /\
    merge (contributions page 0 (take 3 hits)) (State hits [] []) = st /\
    formatted_results (merge cs (State hits [] [])) = formatted_results st /\
    all_image_urls (merge cs (State hits [] [])) ≡ₚ all_image_urls st.
Proof.
intros Hh Hp Hcs. exists (scraped page hits).
split; [by apply scrape_loop_run|]. split; [apply merge_source_order|].
by rewrite (merge_scraped hits cs Hcs).
Qed.

End concurrent_claims.

(** ** Two pages that end in the other order *)

#[local] Existing Instance ref_runtime.

Definition page_of (name : pystr) : sdk_object :=
  ObjDict (list_to_map [
    ("markdown"%py, PStr ("![a](http://x/paris-"%py ++ name ++ ".png)"%py))]).

Definition two_pages (url : pyval) : result sdk_object :=
  match url with
  | PStr s =>
      if decide (s = "https://example.org/louvre"%py)
      then Ok (page_of "louvre"%py) else Ok (page_of "other"%py)
  | _ => Ok (page_of "other"%py)
  end.

Definition two_hits : list formatted := take 2 sample_formatted.

(** The images the response shows for a state. *)
Definition shown (st : state) : list pystr :=
  select_images "Paris museums"%py (str_items (all_image_urls st)).

(** Merged in the order of completion, the second task ending first, the
    response lists the images in another order than the handler's. *)
Example completion_order_differs :
  let cs := contributions two_pages 0 two_hits in
  shown (merge (reverse cs) (State two_hits [] [])) <>
  shown (scraped two_pages two_hits).
Proof. vm_compute. discriminate. Qed.

Lemma two_pages_absorbed :
  Forall (fun r => absorbed (two_pages (f_url r))) (take 3 two_hits).
Proof. repeat constructor; by eexists. Qed.

Lemma merge_any_order_witness :
  let cs := reverse (contributions two_pages 0 (take 3 two_hits)) in
  exists st,
    out_result
      (run (script_handler (serve PNone two_pages [] 0%Z))
         (for_each visit 0 (take 3 two_hits) (State two_hits [] [])) ()) =
      Ok st /\
    merge (contributions two_pages 0 (take 3 two_hits)) (State two_hits [] []) =
      st /\
    formatted_results (merge cs (State two_hits [] [])) =
      formatted_results st /\
    all_image_urls (merge cs (State two_hits [] [])) ≡ₚ all_image_urls st.
Proof.
apply (merge_any_order PNone two_pages [] 0%Z
         (script_handler (serve PNone two_pages [] 0%Z)) two_hits).
- apply script_handler_honours.
- apply two_pages_absorbed.
- apply reverse_Permutation.
Defined.
