(* ===== verification/FanOut.v ===== *)
(** * FanOut: the scrapes of a request as tasks that run together

    The loop of [routes/research.py] scrapes its pages one after the
    other.  The specification (section 5) lets the iterations run
    together: each is a task that hands back its contribution, the remote
    calls are the points where a task is suspended, and the orchestrator
    merges the contributions in the order of the sources.  [Concurrent]
    treats the merge; this file treats the tasks.

    - A pool ([pool]) holds the tasks, the state of the environment they
      share and the calls made so far, each with the position of the task
      that made it.  A schedule is the list of the positions that get the
      next turn; in a turn a task makes its next call ([step_pool]), and
      a turn given to a task that ended is lost.  [await_all] collects
      what the tasks hand back, in the order of their positions.
    - Whatever the environment and the schedule, a pool makes no more
      calls than its tasks can ([pool_calls_bounded]): six for the
      scrapes of a request ([scrape_pool_calls]).
    - The code is one schedule of the pool: when the tasks get their
      turns one after the other ([in_turn]) the pool ends as the
      sequential composition of the tasks does ([run_pool_in_turn],
      [await_all_finals]), and the loop of the handler is this
      composition followed by the merge ([loop_gathers]); this holds in
      every environment ([fan_out_in_turn]), and so for the whole request
      ([research_fan_out], [research_fan_out_in_turn]).
    - When the answers of the environment do not depend on its state
      ([honours h (scripted answer)]), a task that got [n] turns is
      [advance n] of it whatever the other tasks did ([run_pool_tasks]),
      its calls are those it makes when it runs alone ([run_pool_calls])
      and so is its outcome ([await_all_scripted]); hence every schedule
      that lets the tasks end gives the state of the loop
      ([fan_out_scripted]) and the answer of the handler
      ([research_fan_out_scripted]).  A task of the loop makes at most
      two calls ([scrape_task_bounded]), so two turns for each are
      enough ([scrape_tasks_end]).
    - In a scenario of [Response] the pool hands back the contributions
      of [Concurrent] ([await_all_contributions]); merged in the order in
      which the tasks ended, or in any other, they give the hits and the
      images of the loop, the images possibly in another order
      ([merge_as_completed]); merged in the order of the sources the
      request is answered with the response of the scenario
      ([research_fan_out_scenario]).
    - When the answers depend on the calls made before, the schedule
      shows in the result ([schedule_shows]). *)

From S2P Require Import Prelude PyStr PyVal Effects Logic Tavily Regex Firecrawl.
From S2P Require Import Schemas ChatChain Research Response Concurrent.

Import TavilyService FirecrawlService ChatChain ResearchRoute.

(** ** Pools of tasks *)

(** A task that has ended, with a value or with an exception. *)
Definition finished {A} (p : prog A) : Prop :=
  match p with
  | Vis _ _ => False
  | _ => True
  end.

#[export] Instance finished_dec {A} (p : prog A) : Decision (finished p).
Proof. destruct p; simpl; apply _. Defined.

(** What a task that ended hands back. *)
Definition outcome_of {A} (p : prog A) : option (result A) :=
  match p with
  | Ret a => Some (Ok a)
  | Raise e => Some (Err e)
  | Vis _ _ => None
  end.

(** The tasks, the environment they share, and the calls made so far with
    the position of the task that made each. *)
Record pool (W A : Type) : Type := Pool {
  tasks : list (prog A);
  shared : W;
  history : list (nat * call)
}.

Arguments Pool {W A}.
Arguments tasks {W A}.
Arguments shared {W A}.
Arguments history {W A}.

(** The calls of the task at position [i], in the order they were made. *)
Definition calls_of (i : nat) (calls : list (nat * call)) : list call :=
  snd <$> filter (fun c => c.1 = i) calls.

(** The number of turns a schedule gives to the task at position [i]. *)
Definition turns (i : nat) (schedule : list nat) : nat :=
  length (filter (eq i) schedule).

Section pool.
Context {W A : Type} (h : handler W).

(** A turn of the task at position [i]: it makes its next call and is
    suspended at the one after; a task that ended, or a position without
    a task, leaves the pool as it is. *)
Definition step_pool (i : nat) (c : pool W A) : pool W A :=
  match tasks c !! i with
  | Some (Vis ev k) =>
      let '(r, w) := h _ ev (shared c) in
      Pool (<[i := k r]> (tasks c)) w (history c ++ [(i, mkcall ev)])
  | _ => c
  end.

Definition run_pool (schedule : list nat) (c : pool W A) : pool W A :=
  foldl (fun c i => step_pool i c) c schedule.

(** Awaiting the tasks in the order of their positions: the values they
    returned, or the exception of the first that raised; nothing while a
    task is still running. *)
Definition await_all (ps : list (prog A)) : option (result (list A)) :=
  rmapM id <$> mapM outcome_of ps.

(** The tasks one after the other. *)
Fixpoint gather (ps : list (prog A)) : prog (list A) :=
  match ps with
  | [] => Ret []
  | p :: rest => (a <- p ;; others <- gather rest ;; Ret (a :: others))%prog
  end.

Lemma run_pool_nil c : run_pool [] c = c.
Proof. done. Qed.

Lemma run_pool_cons i schedule c :
  run_pool (i :: schedule) c = run_pool schedule (step_pool i c).
Proof. done. Qed.

Lemma run_pool_app s1 s2 c : run_pool (s1 ++ s2) c = run_pool s2 (run_pool s1 c).
Proof. apply foldl_app. Qed.

Lemma step_pool_length i c : length (tasks (step_pool i c)) = length (tasks c).
Proof.
unfold step_pool. destruct (tasks c !! i) as [[| |X ev k]|]; try done.
destruct (h X ev (shared c)). simpl. apply length_insert.
Qed.

Lemma run_pool_length schedule c :
  length (tasks (run_pool schedule c)) = length (tasks c).
Proof.
revert c. induction schedule as [|i s IH]; intros c; [done|].
by rewrite run_pool_cons, IH, step_pool_length.
Qed.

Lemma await_all_finished ps : is_Some (await_all ps) <-> Forall finished ps.
Proof.
unfold await_all. rewrite fmap_is_Some. split.
- intros [rs Hrs]. apply mapM_Some in Hrs.
  induction Hrs as [|p r ps rs Hp _ IH]; constructor; [|done]. by destruct p.
- intros Hps. apply mapM_is_Some. eapply Forall_impl; [exact Hps|].
  intros [a|e|X ev k]; by eauto.
Qed.

End pool.

(** ** Tasks that make a bounded number of calls *)

(** On every path the program makes at most [n] calls. *)
Definition bounded {A} (n : nat) (p : prog A) : Prop :=
  post p [] (fun _ l => (length l <= n)%nat).

Section bounded.
Context {A : Type}.
Implicit Types (p : prog A).

Lemma bounded_mono n m p : (n <= m)%nat -> bounded n p -> bounded m p.
Proof. intros Hnm. apply post_mono. intros _ l. lia. Qed.

Lemma bounded_Vis n {X} (ev : event X) (k : result X -> prog A) :
  bounded n (Vis ev k) ->
  exists n', n = S n' /\ forall r, bounded n' (k r).
Proof.
intros Hb. destruct n as [|n].
- destruct (post_inhabited _ _ _ (Hb (Err (PyExc Exception [])) I))
    as (_ & l & Hl).
  simpl in Hl. lia.
- exists n. split; [done|]. intros r. specialize (Hb r I).
  apply post_frame in Hb. eapply post_mono; [|exact Hb].
  intros ? l. simpl. lia.
Qed.

Lemma bounded_finished p : bounded 0 p -> finished p.
Proof. destruct p; [done..|]. by intros (? & ? & _)%bounded_Vis. Qed.

Lemma outcome_of_lift (r : result A) : outcome_of (lift r) = Some r.
Proof. by destruct r. Qed.

End bounded.

(** ** One task after the other *)

(** The schedule that gives [n] turns to each of the [m] tasks from
    position [i] on, one task after the other. *)
Definition in_turn (n i m : nat) : list nat := seq i m ≫= replicate n.

Section in_turn.
Context {W A : Type} (h : handler W).
Implicit Types (p : prog A) (c : pool W A).

(** The tasks after each of them ran to its end, one after the other. *)
Fixpoint finals (ps : list (prog A)) (w : W) : list (prog A) :=
  match ps with
  | [] => []
  | p :: rest =>
      let o := run h p w in
      lift (out_result o) :: finals rest (out_world o)
  end.

(** The environment after them. *)
Fixpoint final_world (ps : list (prog A)) (w : W) : W :=
  match ps with
  | [] => w
  | p :: rest => final_world rest (out_world (run h p w))
  end.

Lemma in_turn_S n i m : in_turn n i (S m) = replicate n i ++ in_turn n (S i) m.
Proof. done. Qed.

Lemma await_all_cons p ps :
  await_all (p :: ps) =
  r ← outcome_of p; others ← await_all ps;
  Some (a <- r ;; xs <- others ;; Ok (a :: xs))%res.
Proof.
unfold await_all. simpl. destruct (outcome_of p); [|done]. simpl.
by destruct (mapM outcome_of ps).
Qed.

(** A turn at a position without a task, or of a task that ended, is
    lost. *)
Lemma step_pool_lost i c :
  from_option finished True (tasks c !! i) -> step_pool h i c = c.
Proof. unfold step_pool. by destruct (tasks c !! i) as [[a|e|X ev k]|]. Qed.

Lemma run_pool_lost schedule c :
  Forall (fun i => (length (tasks c) <= i)%nat) schedule ->
  run_pool h schedule c = c.
Proof.
induction 1 as [|i s Hi _ IH]; [done|].
rewrite run_pool_cons, step_pool_lost; [done|].
by rewrite lookup_ge_None_2.
Qed.

Lemma in_turn_app n i m k :
  in_turn n i (m + k) = in_turn n i m ++ in_turn n (i + m) k.
Proof. unfold in_turn. by rewrite seq_app, bind_app. Qed.

Lemma in_turn_ge n i m j : j ∈ in_turn n i m -> (i <= j)%nat.
Proof.
intros (x & Hj & Hx%elem_of_seq)%list_elem_of_bind.
apply elem_of_replicate in Hj as [-> _]. lia.
Qed.

(** With as many turns in a row as it makes calls a task runs to its
    end, as it does alone from the state the pool is in. *)
Lemma run_pool_turns n i p c :
  bounded n p -> tasks c !! i = Some p ->
  run_pool h (replicate n i) c =
  let o := run h p (shared c) in
  Pool (<[i := lift (out_result o)]> (tasks c)) (out_world o)
    (history c ++ (pair i <$> out_log o)).
Proof.
revert p c. induction n as [|n IH]; intros p c Hb Hi.
{ apply bounded_finished in Hb. destruct c as [ps w hist].
  destruct p; [| |done]; simpl in *;
    by rewrite list_insert_id, app_nil_r. }
cbn [replicate]. rewrite run_pool_cons. destruct p as [a|e|X ev k].
1-2: rewrite step_pool_lost by by rewrite Hi.
1-2: apply IH; [unfold bounded; simpl; lia|done].
apply bounded_Vis in Hb as (? & [= <-] & Hb).
unfold step_pool at 1. rewrite Hi. unfold run at 1 2 3. cbn [run_from].
destruct (h X ev (shared c)) as [r w].
rewrite (IH (k r)); [|done|]; cbn [tasks shared history].
- rewrite list_insert_insert_eq, (run_from_log h (k r) w ([] ++ [_])).
  cbn [out_result out_world out_log app fmap list_fmap].
  by rewrite <- app_assoc.
- apply list_lookup_insert_eq. by eapply lookup_lt_Some.
Qed.

(** Under the schedule [in_turn] the tasks end, and leave the
    environment, as they do when they run one after the other. *)
Lemma run_pool_in_turn n ended ps w hist :
  Forall (bounded n) ps ->
  let c := run_pool h (in_turn n (length ended) (length ps))
             (Pool (ended ++ ps) w hist) in
  tasks c = ended ++ finals ps w /\ shared c = final_world ps w.
Proof.
intros Hps. revert ended w hist.
induction Hps as [|p ps Hp _ IH]; intros ended w hist; [done|].
cbn [length finals final_world]. rewrite in_turn_S, run_pool_app.
rewrite (run_pool_turns n _ p) by (done || apply list_lookup_middle; done).
cbn [tasks shared history]. rewrite insert_app_r_alt, Nat.sub_diag by done.
cbn [insert list_insert]. rewrite cons_middle, app_assoc.
replace (S (length ended)) with (length (ended ++ [lift (out_result (run h p w))]))
  by (rewrite length_app; simpl; lia).
destruct (IH (ended ++ [lift (out_result (run h p w))])
            (out_world (run h p w))
            (hist ++ (pair (length ended) <$> out_log (run h p w))))
  as [-> ->].
by rewrite <- app_assoc.
Qed.

(** Awaiting them gives what the sequential composition returns. *)
Lemma await_all_finals ps w :
  await_all (finals ps w) = Some (out_result (run h (gather ps) w)).
Proof.
revert w. induction ps as [|p ps IH]; intros w; [done|].
cbn [finals gather]. rewrite await_all_cons, outcome_of_lift, IH. simpl.
rewrite run_bind. cbn zeta.
destruct (out_result (run h p w)) as [e|a]; [done|]. cbn [rbind].
rewrite run_bind. cbn zeta.
by destruct (out_result (run h (gather ps) (out_world (run h p w)))).
Qed.

(** When all of them return, the sequential composition leaves the
    environment as the last of them does. *)
Lemma gather_world ps w xs :
  out_result (run h (gather ps) w) = Ok xs ->
  out_world (run h (gather ps) w) = final_world ps w.
Proof.
revert w xs. induction ps as [|p ps IH]; intros w xs; [done|].
cbn [gather final_world]. rewrite run_bind. cbn zeta.
destruct (out_result (run h p w)) as [e|a]; [done|]. cbn [out_result out_world].
rewrite run_bind. cbn zeta.
destruct (out_result (run h (gather ps) (out_world (run h p w))))
  as [e|ys] eqn:Hps; [done|].
intros _. cbn [out_world]. rewrite run_Ret. cbn [out_world]. by eapply IH.
Qed.

End in_turn.

(** ** The calls of a pool are bounded

    Whatever the environment and the schedule, a task makes no more calls
    than its bound: turns beyond are lost. *)

Lemma sum_list_insert_pred (bs : list nat) i n :
  bs !! i = Some (S n) -> S (sum_list (<[i := n]> bs)) = sum_list bs.
Proof.
revert i. induction bs as [|b bs IH]; intros [|i]; simpl; try done.
- by intros [= ->].
- intros Hi. rewrite <- (IH i Hi). lia.
Qed.

Section budget.
Context {W A : Type} (h : handler W).
Implicit Types (c : pool W A) (bs : list nat).

(** What the tasks may still call and what was called never exceed what
    the tasks might call at first. *)
Lemma step_pool_budget i c bs :
  Forall2 bounded bs (tasks c) ->
  exists bs', Forall2 bounded bs' (tasks (step_pool h i c)) /\
    (length (history (step_pool h i c)) + sum_list bs' <=
     length (history c) + sum_list bs)%nat.
Proof.
intros Hbs. unfold step_pool.
destruct (tasks c !! i) as [[a|e|X ev k]|] eqn:Hi; [by exists bs..| |by exists bs].
destruct (Forall2_lookup_r _ _ _ _ _ Hbs Hi) as (n & Hn & Hb).
apply bounded_Vis in Hb as (n' & -> & Hb).
destruct (h X ev (shared c)) as [r w]. exists (<[i := n']> bs). split.
- by apply Forall2_insert.
- cbn [history]. rewrite length_app. simpl.
  rewrite <- (sum_list_insert_pred bs i n' Hn). lia.
Qed.

Lemma run_pool_budget schedule c bs :
  Forall2 bounded bs (tasks c) ->
  (length (history (run_pool h schedule c)) <=
   length (history c) + sum_list bs)%nat.
Proof.
revert c bs. induction schedule as [|i s IH]; intros c bs Hbs; [simpl; lia|].
rewrite run_pool_cons.
destruct (step_pool_budget i c bs Hbs) as (bs' & Hbs' & Hle).
specialize (IH _ _ Hbs'). lia.
Qed.

(** A pool of tasks that make at most [n] calls each makes at most [n]
    calls for each of its tasks. *)
Lemma pool_calls_bounded n schedule (ps : list (prog A)) w :
  Forall (bounded n) ps ->
  (length (history (run_pool h schedule (Pool ps w []))) <= length ps * n)%nat.
Proof.
intros Hps. rewrite <- sum_list_replicate.
apply (run_pool_budget schedule (Pool ps w []) (replicate (length ps) n)).
by apply Forall2_replicate_l.
Qed.

End budget.

(** ** Environments whose answers do not depend on their state *)

Section scripted.
Context {W A : Type} (h : handler W) (answer : forall X, event X -> result X).
Implicit Types (p : prog A) (c : pool W A) (i j n : nat).

(** The task after [n] of its calls were answered. *)
Fixpoint advance (n : nat) (p : prog A) : prog A :=
  match n, p with
  | S n', Vis ev k => advance n' (k (answer _ ev))
  | _, _ => p
  end.

(** Its first [n] calls. *)
Fixpoint first_calls (n : nat) (p : prog A) : list call :=
  match n, p with
  | S n', Vis ev k => mkcall ev :: first_calls n' (k (answer _ ev))
  | _, _ => []
  end.

(** The task when it runs alone. *)
Definition alone (p : prog A) : outcome unit A :=
  run (script_handler answer) p ().

Lemma advance_finished n p : finished p -> advance n p = p.
Proof. by destruct n, p. Qed.

Lemma first_calls_finished n p : finished p -> first_calls n p = [].
Proof. by destruct n, p. Qed.

Lemma advance_add n m p : advance (n + m) p = advance m (advance n p).
Proof.
revert p. induction n as [|n IH]; intros p; [done|].
destruct p as [a|e|X ev k]; [by destruct m..|]. apply IH.
Qed.

Lemma first_calls_add n m p :
  first_calls (n + m) p = first_calls n p ++ first_calls m (advance n p).
Proof.
revert p. induction n as [|n IH]; intros p; [done|].
destruct p as [a|e|X ev k]; [by destruct m..|]. simpl. by rewrite IH.
Qed.

Lemma alone_Vis {X} (ev : event X) (k : result X -> prog A) :
  out_result (alone (Vis ev k)) = out_result (alone (k (answer X ev))) /\
  out_log (alone (Vis ev k)) = mkcall ev :: out_log (alone (k (answer X ev))).
Proof.
unfold alone, run. cbn [run_from script_handler].
by rewrite run_from_log.
Qed.

(** A task that ended within [n] turns made the calls, and has the
    outcome, of the task that runs alone. *)
Lemma advance_alone n p :
  finished (advance n p) ->
  outcome_of (advance n p) = Some (out_result (alone p)) /\
  first_calls n p = out_log (alone p).
Proof.
revert p. induction n as [|n IH]; intros [a|e|X ev k]; try done.
intros Hf. destruct (alone_Vis ev k) as [-> ->].
destruct (IH _ Hf) as [Ho Hc]. simpl. by rewrite Ho, Hc.
Qed.

(** As many turns as the task makes calls alone are enough. *)
Lemma advance_enough n p :
  (length (out_log (alone p)) <= n)%nat -> finished (advance n p).
Proof.
revert p. induction n as [|n IH]; intros [a|e|X ev k]; try done.
- destruct (alone_Vis ev k) as [_ ->]. simpl. lia.
- destruct (alone_Vis ev k) as [_ ->]. simpl. intros Hn. apply IH. lia.
Qed.

Lemma bounded_alone n p :
  bounded n p -> (length (out_log (alone p)) <= n)%nat.
Proof.
intros Hb.
by apply (post_scripted answer p [] (fun _ l => (length l <= n)%nat)), post_any.
Qed.

Lemma turns_cons j i schedule :
  turns j (i :: schedule) =
  ((if decide (j = i) then 1 else 0) + turns j schedule)%nat.
Proof. unfold turns. rewrite filter_cons. by case_decide. Qed.

Lemma calls_of_app j l k : calls_of j (l ++ k) = calls_of j l ++ calls_of j k.
Proof. unfold calls_of. by rewrite filter_app, fmap_app. Qed.

Section honest.
Context (Hh : honours h (scripted answer)).

(** A turn of the task at position [i] advances it by one call and leaves
    the others as they are. *)
Lemma step_pool_tasks i c j :
  tasks (step_pool h i c) !! j =
  advance (if decide (j = i) then 1 else 0) <$> tasks c !! j.
Proof.
unfold step_pool. destruct (tasks c !! i) as [[a|e|X ev k]|] eqn:Hi.
1-2,4: destruct (decide (j = i)) as [->|];
  [by rewrite Hi|by destruct (tasks c !! j)].
pose proof (Hh X ev (shared c)) as Hr.
destruct (h X ev (shared c)) as [r w]. cbv in Hr. subst r. simpl.
case_decide as Hj; [subst j|].
- rewrite list_lookup_insert_eq by by eapply lookup_lt_Some. by rewrite Hi.
- rewrite list_lookup_insert_ne by done. by destruct (tasks c !! j).
Qed.

Lemma step_pool_calls i c j :
  calls_of j (history (step_pool h i c)) =
  calls_of j (history c) ++
  from_option (first_calls (if decide (j = i) then 1 else 0)) []
    (tasks c !! j).
Proof.
unfold step_pool. destruct (tasks c !! i) as [[a|e|X ev k]|] eqn:Hi.
1-2,4: destruct (decide (j = i)) as [->|];
  [rewrite Hi|destruct (tasks c !! j)]; simpl; by rewrite app_nil_r.
destruct (h X ev (shared c)) as [r w]. simpl.
rewrite calls_of_app. f_equal. unfold calls_of. rewrite filter_cons. simpl.
case_decide as Hj; [subst j|].
- rewrite decide_True by done. by rewrite Hi.
- rewrite decide_False by done. by destruct (tasks c !! j).
Qed.

(** After a schedule the task at position [j] is where its own turns
    brought it, whatever the other tasks did. *)
Lemma run_pool_tasks schedule c j :
  tasks (run_pool h schedule c) !! j =
  advance (turns j schedule) <$> tasks c !! j.
Proof.
revert c. induction schedule as [|i s IH]; intros c.
- rewrite run_pool_nil. by destruct (tasks c !! j).
- rewrite run_pool_cons, IH, step_pool_tasks, turns_cons.
  destruct (tasks c !! j); [|done]. simpl. by rewrite advance_add.
Qed.

(** And its calls are the first calls it makes alone. *)
Lemma run_pool_calls schedule c j :
  calls_of j (history (run_pool h schedule c)) =
  calls_of j (history c) ++
  from_option (first_calls (turns j schedule)) [] (tasks c !! j).
Proof.
revert c. induction schedule as [|i s IH]; intros c.
- rewrite run_pool_nil. destruct (tasks c !! j); simpl; by rewrite app_nil_r.
- rewrite run_pool_cons, IH, step_pool_tasks, step_pool_calls, turns_cons.
  rewrite <- app_assoc. f_equal.
  destruct (tasks c !! j); [|done]. simpl. by rewrite first_calls_add.
Qed.

(** The run of a program against the environment has the outcome and
    makes the calls of the run against the script. *)
Lemma run_from_alone p w log :
  out_result (run_from h p w log) = out_result (alone p) /\
  out_log (run_from h p w log) = log ++ out_log (alone p).
Proof.
revert w log. induction p as [a|e|X ev k IH]; intros w log.
1-2: by rewrite app_nil_r.
destruct (alone_Vis ev k) as [-> ->]. simpl.
pose proof (Hh X ev w) as Hr. destruct (h X ev w) as [r w'].
cbv in Hr. subst r. destruct (IH (answer X ev) w' (log ++ [mkcall ev])) as [-> ->].
by rewrite <- app_assoc.
Qed.

Lemma run_alone p w : out_result (run h p w) = out_result (alone p).
Proof. apply run_from_alone. Qed.

End honest.
End scripted.

(** ** The outcome of a pool does not depend on the schedule *)

Section outcomes.
Context {W A : Type} (h : handler W) (answer : forall X, event X -> result X).
Context (Hh : honours h (scripted answer)).
Implicit Types (p : prog A) (c : pool W A).

(** The outcome of each task when it runs alone against the script. *)
Definition outcomes (ps : list (prog A)) : result (list A) :=
  rmapM (fun p => out_result (alone answer p)) ps.

(** The tasks one after the other stop at the first that raises. *)
Lemma run_gather ps w : out_result (run h (gather ps) w) = outcomes ps.
Proof.
revert w. induction ps as [|p ps IH]; intros w; [done|].
cbn [gather outcomes rmapM]. rewrite run_bind. cbn zeta.
rewrite (run_alone h answer Hh).
destruct (out_result (alone answer p)) as [e|a]; [done|]. cbn [rbind out_result].
rewrite run_bind. cbn zeta. rewrite IH. fold (outcomes ps).
by destruct (outcomes ps).
Qed.

Lemma finished_after schedule c j p :
  Forall finished (tasks (run_pool h schedule c)) ->
  tasks c !! j = Some p -> finished (advance answer (turns j schedule) p).
Proof.
intros Hf Hp. eapply Forall_lookup_1; [exact Hf|].
by rewrite (run_pool_tasks h answer Hh), Hp.
Qed.

(** When the tasks have ended, awaiting them gives what running them one
    after the other gives, whatever the schedule was. *)
Lemma await_all_scripted schedule c :
  Forall finished (tasks (run_pool h schedule c)) ->
  await_all (tasks (run_pool h schedule c)) = Some (outcomes (tasks c)).
Proof.
intros Hf. unfold await_all, outcomes.
rewrite (mapM_Some_2 _ _ ((fun p => out_result (alone answer p)) <$> tasks c)).
{ simpl. by rewrite rmapM_fmap. }
apply Forall2_same_length_lookup_2; [by rewrite length_fmap, run_pool_length|].
intros j p r Hp Hr. rewrite (run_pool_tasks h answer Hh) in Hp.
rewrite list_lookup_fmap in Hr.
destruct (tasks c !! j) as [q|] eqn:Hq; [|done]. simpl in Hp, Hr.
injection Hp as <-. injection Hr as <-.
by apply advance_alone, (finished_after schedule c j).
Qed.

(** The calls of a task that has ended are the calls it makes alone. *)
Lemma calls_of_scripted schedule ps w j p :
  Forall finished (tasks (run_pool h schedule (Pool ps w []))) ->
  ps !! j = Some p ->
  calls_of j (history (run_pool h schedule (Pool ps w []))) =
  out_log (alone answer p).
Proof.
intros Hf Hp. rewrite (run_pool_calls h answer Hh). cbn [tasks history].
rewrite Hp. simpl.
by apply advance_alone, (finished_after schedule (Pool ps w []) j).
Qed.

(** A schedule that gives every task as many turns as it makes calls lets
    the tasks end. *)
Lemma fair_schedule_ends n schedule c :
  Forall (bounded n) (tasks c) ->
  (forall j, (j < length (tasks c))%nat -> (n <= turns j schedule)%nat) ->
  Forall finished (tasks (run_pool h schedule c)).
Proof.
intros Hn Hs. apply Forall_lookup_2. intros j p.
rewrite (run_pool_tasks h answer Hh).
destruct (tasks c !! j) as [q|] eqn:Hq; [|done]. intros [= <-].
replace (turns j schedule) with (n + (turns j schedule - n))%nat
  by (apply lookup_lt_Some, Hs in Hq; lia).
assert (finished (advance answer n q)) as Hend
  by apply advance_enough, bounded_alone, (Forall_lookup_1 _ _ _ _ Hn Hq).
by rewrite advance_add, advance_finished.
Qed.

End outcomes.

(** ** The scrapes of a request *)

Section scrape_tasks.
Context `{Runtime}.

(** The task of the hit at position [i]: the scrape and the print of the
    loop body; it hands back what the loop absorbs. *)
Definition scrape_task (i : nat) (r : formatted) : prog contribution :=
  (scraped_data <- scrape (f_url r) ;;
   perform (Print [PStr scraped_banner; scraped_data]) ;;
   Ret (i, r, image_urls_of scraped_data))%prog.

(** The tasks of the hits [rs], the first at position [i]. *)
Fixpoint scrape_tasks (i : nat) (rs : list formatted) :
    list (prog contribution) :=
  match rs with
  | [] => []
  | r :: rest => scrape_task i r :: scrape_tasks (S i) rest
  end.

(** The scrape loop as a fan-out: the tasks of the first three hits run
    as the schedule says; when all have ended their contributions are
    merged in the order of the sources. *)
Definition fan_out {W} (h : handler W) (schedule : list nat)
    (hits : list formatted) (w : W) : option (result state) :=
  let c := run_pool h schedule (Pool (scrape_tasks 0 (take 3 hits)) w []) in
  (fun joined => (cs <- joined ;; Ok (merge cs (State hits [] [])))%res) <$>
    await_all (tasks c).

Lemma scrape_tasks_length i rs : length (scrape_tasks i rs) = length rs.
Proof. revert i. induction rs as [|r rs IH]; intros i; simpl; by rewrite ?IH. Qed.

Lemma scrape_tasks_lookup i rs j :
  scrape_tasks i rs !! j = scrape_task (i + j) <$> rs !! j.
Proof.
revert i j. induction rs as [|r rs IH]; intros i [|j]; simpl; try done.
- by rewrite Nat.add_0_r.
- by rewrite IH, Nat.add_succ_r.
Qed.

(** The body of the loop is its task followed by the merge of what the
    task hands back. *)
Lemma visit_task i r st :
  visit i r st ≡ (c <- scrape_task i r ;; Ret (merge_one c st))%prog.
Proof.
rewrite visit_equiv. unfold visit_spec, scrape_task. symmetry.
etransitivity; [apply pbind_assoc|]. apply pbind_equiv; [done|]. intros v.
etransitivity; [apply pbind_assoc|]. reflexivity.
Qed.

(** The loop is the tasks one after the other, then the merge in the
    order of the sources. *)
Lemma loop_gathers i rs st :
  for_each visit i rs st ≡
  (cs <- gather (scrape_tasks i rs) ;; Ret (merge cs st))%prog.
Proof.
revert i st. induction rs as [|r rs IH]; intros i st; [done|].
cbn [for_each scrape_tasks gather]. rewrite visit_task.
etransitivity; [apply pbind_assoc|]. symmetry.
etransitivity; [apply pbind_assoc|]. apply pbind_equiv; [done|]. intros c.
etransitivity; [apply pbind_assoc|]. cbn [pbind]. rewrite IH.
apply pbind_equiv; [done|]. intros cs. by rewrite merge_cons.
Qed.

(** A task makes at most two calls. *)
Lemma scrape_task_bounded i r : bounded 2 (scrape_task i r).
Proof.
unfold bounded, scrape_task. rewrite post_bind. apply scrape_post.
intros a _.
destruct (scrape_outcome a) as [e|v]; cbn [then_post]; [simpl; lia|].
rewrite post_bind, post_perform. intros [e|[]] _; simpl; lia.
Qed.

Lemma scrape_tasks_bounded i rs : Forall (bounded 2) (scrape_tasks i rs).
Proof.
revert i. induction rs as [|r rs IH]; intros i; constructor;
  [apply scrape_task_bounded|apply IH].
Qed.

(** The pool of the scrape tasks under the schedule that runs them one
    after the other; the turns of the tasks that are not there (fewer than
    three hits) are lost. *)
Lemma scrape_pool_in_turn {W} (h : handler W) rs w :
  (length rs <= 3)%nat ->
  let c := run_pool h (in_turn 2 0 3) (Pool (scrape_tasks 0 rs) w []) in
  tasks c = finals h (scrape_tasks 0 rs) w /\
  shared c = final_world h (scrape_tasks 0 rs) w.
Proof.
intros Hlen. set (ps := scrape_tasks 0 rs).
assert (length ps = length rs) as Hps by apply scrape_tasks_length.
replace 3%nat with (length ps + (3 - length ps))%nat by lia.
rewrite in_turn_app, run_pool_app.
rewrite (run_pool_lost h (in_turn _ _ (3 - length ps))).
- apply (run_pool_in_turn h 2 [] ps), scrape_tasks_bounded.
- apply Forall_forall. intros j Hj%in_turn_ge.
  rewrite run_pool_length. simpl. lia.
Qed.

(** Whatever the environment and the schedule, the pool of a request
    makes at most six calls. *)
Theorem scrape_pool_calls {W} (h : handler W) schedule hits w :
  (length
     (history
        (run_pool h schedule (Pool (scrape_tasks 0 (take 3 hits)) w []))) <=
   6)%nat.
Proof.
etransitivity; [apply (pool_calls_bounded h 2), scrape_tasks_bounded|].
rewrite scrape_tasks_length, length_take. lia.
Qed.

(** In every environment the loop of the handler is the fan-out whose
    tasks run one after the other. *)
Lemma fan_out_in_turn {W} (h : handler W) hits w :
  fan_out h (in_turn 2 0 3) hits w =
  Some (out_result
          (run h (for_each visit 0 (take 3 hits) (State hits [] [])) w)).
Proof.
unfold fan_out.
destruct (scrape_pool_in_turn h (take 3 hits) w) as [-> _];
  [rewrite length_take; lia|].
rewrite await_all_finals. cbn [fmap option_fmap option_map].
f_equal. rewrite loop_gathers, run_bind. cbn zeta.
by destruct (out_result (run h (gather _) w)).
Qed.

(** *** The handler with its loop as a fan-out *)

(** The steps before the loop: the search and the normalisation. *)
Definition search_and_normalise (request : ResearchRequest.t) :
    prog (list formatted) :=
  (raw_results <-
     TavilyService.search_travel_research (ResearchRequest.query request)
       (ResearchRequest.max_results request) ;;
   lift (format_results raw_results))%prog.

(** The request when the scrapes run together: the steps before the loop,
    the fan-out, then, from the merged state and in the environment the
    tasks left, the steps after the loop; the [except] clause is the
    handler's.  Nothing while a task is running. *)
Definition research_fan_out {W} (h : handler W) (schedule : list nat)
    (request : ResearchRequest.t) (w : W) :
    option (result ResearchResponse.t) :=
  let before := run h (search_and_normalise request) w in
  match out_result before with
  | inl e => Some (as_500 (Err e))
  | inr hits =>
      let c := run_pool h schedule
                 (Pool (scrape_tasks 0 (take 3 hits)) (out_world before) []) in
      (fun loop =>
         as_500
           (st <- loop ;;
            out_result (run h (finish request st) (shared c)))%res) <$>
      fan_out h schedule hits (out_world before)
  end.

(** A run of the handler, step by step. *)
Lemma run_research {W} (h : handler W) request w :
  out_result (run h (search_travel_research request) w) =
  let before := run h (search_and_normalise request) w in
  as_500
    (hits <- out_result before ;;
     let loop := run h (for_each visit 0 (take 3 hits) (State hits [] []))
                   (out_world before) in
     st <- out_result loop ;;
     out_result (run h (finish request st) (out_world loop)))%res.
Proof.
unfold search_travel_research. rewrite run_as_500. f_equal.
assert (research_body request ≡
        (hits <- search_and_normalise request ;;
         st <- for_each visit 0 (take 3 hits) (State hits [] []) ;;
         finish request st)%prog) as ->
  by (symmetry; apply pbind_assoc).
rewrite run_bind. cbn zeta.
destruct (out_result (run h (search_and_normalise request) w)) as [e|hits];
  [done|].
cbn [out_result rbind]. rewrite run_bind. cbn zeta.
by destruct (out_result (run h (for_each visit _ _ _) _)).
Qed.

(** When the loop returns it leaves the environment as the last of its
    tasks does. *)
Lemma loop_world {W} (h : handler W) i rs st w st' :
  out_result (run h (for_each visit i rs st) w) = Ok st' ->
  out_world (run h (for_each visit i rs st) w) =
  final_world h (scrape_tasks i rs) w.
Proof.
rewrite loop_gathers, run_bind. cbn zeta.
destruct (out_result (run h (gather _) w)) as [e|cs] eqn:Hcs; [done|].
intros _. rewrite run_Ret. cbn [out_world]. by eapply gather_world.
Qed.

(** In every environment the handler is the fan-out whose tasks run one
    after the other. *)
Lemma research_fan_out_in_turn {W} (h : handler W) request w :
  research_fan_out h (in_turn 2 0 3) request w =
  Some (out_result (run h (search_travel_research request) w)).
Proof.
rewrite run_research. unfold research_fan_out. cbn zeta.
destruct (out_result (run h (search_and_normalise request) w)) as [e|hits];
  [done|].
rewrite fan_out_in_turn.
destruct (scrape_pool_in_turn h (take 3 hits)
            (out_world (run h (search_and_normalise request) w)))
  as [_ ->]; [rewrite length_take; lia|].
cbn [fmap option_fmap option_map rbind]. do 2 f_equal.
destruct (out_result (run h (for_each visit _ _ _) _)) as [e|st] eqn:Hst;
  [done|].
cbn [rbind]. by rewrite (loop_world h _ _ _ _ st).
Qed.

Section runs.
Context {W : Type} (h : handler W) (answer : forall X, event X -> result X).
Context (Hh : honours h (scripted answer)).

(** Every schedule that lets the tasks end gives the state the loop of
    the handler computes. *)
Lemma fan_out_scripted schedule hits w :
  Forall finished
    (tasks (run_pool h schedule (Pool (scrape_tasks 0 (take 3 hits)) w []))) ->
  fan_out h schedule hits w =
  Some (out_result
          (run h (for_each visit 0 (take 3 hits) (State hits [] [])) w)).
Proof.
intros Hf. unfold fan_out.
rewrite (await_all_scripted h answer Hh) by done. cbn [tasks fmap option_fmap option_map].
f_equal. rewrite loop_gathers, run_bind. cbn zeta.
rewrite (run_gather h answer Hh).
by destruct (outcomes answer _).
Qed.

(** Two turns for each of the three tasks are enough. *)
Lemma scrape_tasks_end schedule hits w :
  (forall j, (j < 3)%nat -> (2 <= turns j schedule)%nat) ->
  Forall finished
    (tasks (run_pool h schedule (Pool (scrape_tasks 0 (take 3 hits)) w []))).
Proof.
intros Hs. apply (fair_schedule_ends h answer Hh 2); cbn [tasks].
- apply scrape_tasks_bounded.
- intros j. rewrite scrape_tasks_length, length_take. intros Hj.
  apply Hs. lia.
Qed.

(** The calls of each task are those it makes when it runs alone. *)
Lemma scrape_task_history schedule hits w j r :
  (forall j, (j < 3)%nat -> (2 <= turns j schedule)%nat) ->
  take 3 hits !! j = Some r ->
  calls_of j
    (history
       (run_pool h schedule (Pool (scrape_tasks 0 (take 3 hits)) w []))) =
  out_log (run h (scrape_task j r) w).
Proof.
intros Hs Hr.
rewrite (calls_of_scripted h answer Hh schedule _ w j (scrape_task j r)).
- symmetry. apply (run_from_alone h answer Hh _ w []).
- by apply scrape_tasks_end.
- by rewrite scrape_tasks_lookup, Hr.
Qed.

(** And the answer to the request is the handler's. *)
Lemma research_fan_out_scripted schedule request w :
  (forall j, (j < 3)%nat -> (2 <= turns j schedule)%nat) ->
  research_fan_out h schedule request w =
  Some (out_result (run h (search_travel_research request) w)).
Proof.
intros Hs. rewrite run_research. unfold research_fan_out. cbn zeta.
destruct (out_result (run h (search_and_normalise request) w)) as [e|hits];
  [done|].
rewrite fan_out_scripted by by apply scrape_tasks_end.
cbn [fmap option_fmap option_map rbind]. do 2 f_equal.
destruct (out_result (run h (for_each visit _ _ _) _)) as [e|st]; [done|].
cbn [rbind]. by rewrite !(run_alone h answer Hh).
Qed.

End runs.

(** *** The tasks in a scenario

    In a scenario of [Response] the tasks hand back the contributions of
    [Concurrent], whatever the schedule: what is proved there of merges
    in other orders is about the outcome of the pool. *)

Section scenario.
Context {W : Type} (h : handler W) (raw : pyval)
  (page : pyval -> result sdk_object) (answer : pystr) (now : timestamp).
Context (Hh : honours h (scripted (serve raw page answer now))).

Lemma scrape_task_alone i r :
  absorbed (page (f_url r)) ->
  out_result (alone (serve raw page answer now) (scrape_task i r)) =
  Ok (i, r, images_at page r).
Proof.
intros [v Hv]. symmetry.
apply (post_scripted (serve raw page answer now) (scrape_task i r) []
         (outcome_is (eq (Ok (i, r, images_at page r))))).
unfold scrape_task. rewrite post_bind. apply scrape_post. intros a ->.
cbn [serve scrape_call]. rewrite Hv. cbn [then_post].
rewrite post_bind, post_perform. intros printed ->.
cbn [serve then_post post_under]. unfold images_at. by rewrite Hv.
Qed.

Lemma outcomes_contributions i rs :
  Forall (fun r => absorbed (page (f_url r))) rs ->
  outcomes (serve raw page answer now) (scrape_tasks i rs) =
  Ok (contributions page i rs).
Proof.
intros Hrs. revert i. induction Hrs as [|r rs Hr _ IH]; intros i; [done|].
cbn [scrape_tasks contributions]. unfold outcomes in *. cbn [rmapM].
by rewrite (scrape_task_alone i r Hr), IH.
Qed.

(** The pool hands back the contributions, in the order of the sources. *)
Lemma await_all_contributions schedule hits w :
  Forall (fun r => absorbed (page (f_url r))) (take 3 hits) ->
  (forall j, (j < 3)%nat -> (2 <= turns j schedule)%nat) ->
  await_all
    (tasks (run_pool h schedule (Pool (scrape_tasks 0 (take 3 hits)) w []))) =
  Some (Ok (contributions page 0 (take 3 hits))).
Proof.
intros Hp Hs. rewrite (await_all_scripted h _ Hh) by by eapply scrape_tasks_end.
cbn [tasks]. by rewrite outcomes_contributions.
Qed.

(** Merged in the order in which the tasks ended, or in any other, they
    give the hits and the images of the loop, the images possibly in
    another order. *)
Theorem merge_as_completed schedule hits w cs cs' :
  Forall (fun r => absorbed (page (f_url r))) (take 3 hits) ->
  (forall j, (j < 3)%nat -> (2 <= turns j schedule)%nat) ->
  await_all
    (tasks (run_pool h schedule (Pool (scrape_tasks 0 (take 3 hits)) w []))) =
    Some (Ok cs) ->
  cs' ≡ₚ cs ->
  merge cs' (State hits [] []) ≡ scraped page hits.
Proof.
intros Hp Hs Hcs Hperm.
rewrite await_all_contributions in Hcs by done. injection Hcs as <-.
unfold scraped. rewrite <- (merge_contributions page).
apply merge_permutation; [|done].
rewrite Hperm, contributions_positions. apply NoDup_seq.
Qed.

(** The answer to the request is the response of the scenario, whatever
    the schedule. *)
Theorem research_fan_out_scenario schedule request hits w :
  format_results raw = Ok hits ->
  Forall (fun r => absorbed (page (f_url r))) (take 3 hits) ->
  (forall j, (j < 3)%nat -> (2 <= turns j schedule)%nat) ->
  research_fan_out h schedule request w =
  Some (as_500 (response_of request hits page answer now)).
Proof.
intros Hf Hp Hs. rewrite (research_fan_out_scripted h _ Hh) by done. f_equal.
symmetry.
apply (post_under_run _ h (search_travel_research request) w
         (outcome_is (eq (as_500 (response_of request hits page answer now))))
         Hh).
by apply research_scripted.
Qed.

End scenario.
End scrape_tasks.

Section fan_out_claims.
Context `{Runtime}.

(** C28.  The code is the fan-out of the specification (section 5) under
    one of its schedules: in every environment, whatever it answers, the
    handler ends as the request does when the three scrapes are tasks
    that get their turns one after the other and whose contributions are
    merged in the order of the sources. *)
Theorem research_is_fan_out_in_turn {W} (h : handler W) request w :
  research_fan_out h (in_turn 2 0 3) request w =
  Some (out_result (run h (search_travel_research request) w)).
Proof. apply research_fan_out_in_turn. Qed.

(** C27.  The schedule does not show: when the answers of the services
    do not depend on the calls made before, every schedule that gives two
    turns to each of the three tasks lets them end, the request is
    answered as the handler answers it (the same response, or the same
    error), and the calls of each task are, in order, those of the loop
    body for its hit. *)
Theorem fan_out_schedule_independent {W} (h : handler W) answer schedule
    request w :
  honours h (scripted answer) ->
  (forall j, (j < 3)%nat -> (2 <= turns j schedule)%nat) ->
  research_fan_out h schedule request w =
    Some (out_result (run h (search_travel_research request) w)) /\
  forall hits w' j r, take 3 hits !! j = Some r ->
    calls_of j
      (history
         (run_pool h schedule (Pool (scrape_tasks 0 (take 3 hits)) w' []))) =
    out_log (run h (scrape_task j r) w').
Proof.
intros Hh Hs. split.
- by apply (research_fan_out_scripted h answer Hh).
- intros hits w' j r. by apply (scrape_task_history h answer Hh).
Qed.

End fan_out_claims.

(** ** Three tasks, two schedules *)

#[local] Existing Instance ref_runtime.

(** The third task starts first and ends last. *)
Definition late_first : list nat := [2; 1; 0; 0; 1; 2].

Lemma late_first_fair j : (j < 3)%nat -> (2 <= turns j late_first)%nat.
Proof. intros Hj. destruct j as [|[|[|j]]]; [vm_compute; lia..|lia]. Qed.

(** In the scenario of the specification, where the page of the second
    hit cannot be scraped, the request is answered as by the handler. *)
Example research_fan_out_sample :
  research_fan_out sample_script late_first sample_request () =
  Some (Ok sample_response).
Proof. vm_compute. reflexivity. Qed.

(** Against an environment that fails the second scrape it receives,
    whatever its address, the schedule decides which page is lost: the
    responses differ. *)
Example schedule_shows :
  research_fan_out sample_env [1; 1; 0; 0; 2; 2] sample_request 0%nat <>
  research_fan_out sample_env (in_turn 2 0 3) sample_request 0%nat.
Proof. intros Heq. vm_compute in Heq. discriminate Heq. Qed.

Lemma fan_out_schedule_independent_witness :
  research_fan_out sample_script late_first sample_request () =
    Some (out_result
            (run sample_script (search_travel_research sample_request) ())) /\
  forall hits w' j r, take 3 hits !! j = Some r ->
    calls_of j
      (history
         (run_pool sample_script late_first
            (Pool (scrape_tasks 0 (take 3 hits)) w' []))) =
    out_log (run sample_script (scrape_task j r) w').
Proof.
apply (fan_out_schedule_independent sample_script
         (serve sample_hits sample_pages museum_answer sample_now)
         late_first sample_request ()).
- apply script_handler_honours.
- apply late_first_fair.
Defined.
