(* ===== verification/Orchestrator.v ===== *)
(** * Orchestrator: the handler against the interface of its services

    The handler of [routes/research.py] reaches its collaborators through
    module-level names: [tavily_service], [firecrawl_service] and
    [get_chat_response].  The specification (section 9) asks for the same
    orchestrator with its capabilities handed in.  This file states that
    design and shows that the code is its instance:

    - [Services] is the interface: the search client, the result
      normaliser, the scrape client and the synthesis requester of
      sections 4.1 to 4.5, each with the type of the function the handler
      calls;
    - [ServicesOk] is what the orchestrator relies on: the scrape client
      returns a scrape result or lets through something that is not an
      [Exception], the normaliser fails with an [Exception] only, and a
      client raises nothing but an [Exception] as long as its environment
      does;
    - [research_with] is the handler over an interface; with the services
      of the modules it is the handler of the source, by computation
      ([research_with_module]);
    - the theorems of the client are proved from the laws alone
      ([research_with_equiv], [research_with_failure],
      [loop_with_completes]), equivalent services give equivalent
      orchestrators ([research_with_proper]), and the services of the
      modules discharge the laws ([module_services_ok]);
    - [stub_services] is a second implementation, without any remote
      call, on which the scenario of a failed second scrape runs. *)

From S2P Require Import Prelude PyStr PyVal Effects Logic Tavily Regex Firecrawl.
From S2P Require Import Schemas ChatChain Research Response.

(** ** The interface *)

Class Services : Type := {
  (** [tavily_service.search_travel_research(query, max_results)] *)
  search_client : pystr -> Z -> prog pyval;
  (** [tavily_service.format_results(raw_results)] *)
  result_normalizer : pyval -> result (list formatted);
  (** [firecrawl_service.scrape(url)] *)
  scrape_client : pyval -> prog pyval;
  (** [get_chat_response(message, language)] *)
  synthesis_requester : pystr -> pystr -> prog pystr
}.

(** Two implementations that answer every request with equivalent
    programs. *)
#[export] Instance services_equiv : Equiv Services := fun S S' =>
  (forall query n, @search_client S query n ≡ @search_client S' query n) /\
  (forall raw, @result_normalizer S raw = @result_normalizer S' raw) /\
  (forall url, @scrape_client S url ≡ @scrape_client S' url) /\
  (forall prompt language,
     @synthesis_requester S prompt language ≡
     @synthesis_requester S' prompt language).

Section laws.
Context `{Runtime}.

(** What a scrape may end with. *)
Definition scrape_promise (r : result pyval) : Prop :=
  match r with
  | inr v => scrape_result v
  | inl e => is_Exception e = false
  end.

(** The laws of the interface: the scrape client keeps its promise
    whatever the environment does; the normaliser fails with an
    [Exception] only; and a client raises nothing but an [Exception] as
    long as the environment does. *)
Class ServicesOk (S : Services) : Prop := {
  scrape_client_ok C url log :
    post_under C (scrape_client url) log (outcome_is scrape_promise);
  result_normalizer_ok raw : raises_Exception (result_normalizer raw);
  search_client_tame C query n : polite C -> tame C (search_client query n);
  scrape_client_tame C url : polite C -> tame C (scrape_client url);
  synthesis_requester_tame C prompt language :
    polite C -> tame C (synthesis_requester prompt language)
}.

End laws.

(** ** The orchestrator over an interface *)

Section orchestrator.
Context `{Runtime} (S : Services).

(** The body of the loop. *)
Definition visit_with (i : nat) (r : formatted) (st : state) : prog state :=
  (scraped_data <- scrape_client (f_url r) ;;
   perform (Print [PStr scraped_banner; scraped_data]) ;;
   lift (collect i r scraped_data st))%prog.

(** The [try] block. *)
Definition research_body_with (request : ResearchRequest.t) :
    prog ResearchResponse.t :=
  let query := ResearchRequest.query request in
  let language := ResearchRequest.language request in
  (raw_results <-
     search_client query (ResearchRequest.max_results request) ;;
   hits <- lift (result_normalizer raw_results) ;;
   st <- for_each visit_with 0 (take 3 hits) (State hits [] []) ;;
   let results_text :=
     PyStr.join (newline ++ newline) (scraped_contents st) in
   synthesized_response <-
     synthesis_requester (synthesis_prompt language query results_text)
       language ;;
   filtered_image_urls <-
     lift (filter_image_urls query (all_image_urls st)) ;;
   sources <- lift (rmapM to_source (formatted_results st)) ;;
   now <- perform Now ;;
   lift (ResearchResponse.new query synthesized_response
           filtered_image_urls sources now))%prog.

(** The handler. *)
Definition research_with (request : ResearchRequest.t) :
    prog ResearchResponse.t :=
  try_except (research_body_with request)
    (fun e =>
       Raise (HTTPException 500 ("Research error: "%py ++ exn_str e))).

(** *** Its typed specification *)

Definition visit_with_spec (i : nat) (r : formatted) (st : state) :
    prog state :=
  (scraped_data <- scrape_client (f_url r) ;;
   perform (Print [PStr scraped_banner; scraped_data]) ;;
   Ret (absorb i r (image_urls_of scraped_data) st))%prog.

Definition finish_with (request : ResearchRequest.t) (st : state) :
    prog ResearchResponse.t :=
  let query := ResearchRequest.query request in
  let language := ResearchRequest.language request in
  (synthesized_response <-
     synthesis_requester
       (synthesis_prompt language query
          (PyStr.join (newline ++ newline) (scraped_contents st)))
       language ;;
   filtered_image_urls <-
     lift (filter_image_urls query (all_image_urls st)) ;;
   sources <- lift (rmapM to_source (formatted_results st)) ;;
   now <- perform Now ;;
   lift (ResearchResponse.new query synthesized_response
           filtered_image_urls sources now))%prog.

Definition finish_with_spec (request : ResearchRequest.t) (st : state) :
    prog ResearchResponse.t :=
  let query := ResearchRequest.query request in
  let language := ResearchRequest.language request in
  (synthesized_response <-
     synthesis_requester (synthesis_prompt language query []) language ;;
   sources <- lift (rmapM to_source (formatted_results st)) ;;
   now <- perform Now ;;
   Ret (ResearchResponse.Build query synthesized_response
          (select_images query (str_items (all_image_urls st)))
          sources now))%prog.

Definition research_with_spec (request : ResearchRequest.t) :
    prog ResearchResponse.t :=
  try_except
    (raw_results <-
       search_client (ResearchRequest.query request)
         (ResearchRequest.max_results request) ;;
     hits <- lift (result_normalizer raw_results) ;;
     st <- for_each visit_with_spec 0 (take 3 hits) (State hits [] []) ;;
     finish_with_spec request st)%prog
    (fun e =>
       Raise (HTTPException 500 ("Research error: "%py ++ exn_str e))).

End orchestrator.

(** ** The services of the modules *)

Definition module_services `{Runtime} : Services := {|
  search_client := TavilyService.search_travel_research;
  result_normalizer := TavilyService.format_results;
  scrape_client := FirecrawlService.scrape;
  synthesis_requester := ChatChain.get_chat_response
|}.

Section client.
Context `{Runtime}.

(** With the services of the modules the orchestrator is the handler of
    the source. *)
Lemma research_with_module request :
  research_with module_services request =
  ResearchRoute.search_travel_research request.
Proof. reflexivity. Qed.

Lemma research_with_spec_module request :
  research_with_spec module_services request = research_spec request.
Proof. reflexivity. Qed.

End client.

(** ** What the laws give the orchestrator *)

Section generic.
Context `{Runtime} (S : Services) `{!ServicesOk S}.
Implicit Types (request : ResearchRequest.t).

Lemma visit_with_equiv i r st : visit_with S i r st ≡ visit_with_spec S i r st.
Proof.
unfold visit_with, visit_with_spec. apply (pbind_equiv_post _ _ _ []).
eapply post_mono; [|apply scrape_client_ok].
intros [e|v] l Hv; [done|]. simpl.
by rewrite (collect_scrape_result _ _ _ _ Hv).
Qed.

(** The loop keeps the invariant of the state. *)
Lemma loop_with_state_ok C hits log :
  post_under C
    (for_each (visit_with_spec S) 0 (take 3 hits) (State hits [] [])) log
    (returns (state_ok hits)).
Proof.
eapply post_mono;
  [|apply (post_for_each C (visit_with_spec S)
             (fun _ st _ => state_ok hits st) (fun _ _ => True))].
- by intros [e|st] l.
- apply state_ok_init.
- intros seen x rest st l [Hx _]%take_split_lookup Hst.
  unfold visit_with_spec. rewrite post_bind.
  eapply post_mono; [|apply scrape_client_ok].
  intros [e|v] l' _; cbn [then_post]; [done|].
  rewrite post_bind, post_perform. intros [e|[]] _; simpl; [done|].
  by apply state_ok_absorb.
Qed.

Lemma finish_with_equiv request hits st :
  state_ok hits st -> finish_with S request st ≡ finish_with_spec S request st.
Proof.
intros (Hc & Hu & _). unfold finish_with, finish_with_spec.
rewrite Hc. simpl PyStr.join.
apply pbind_equiv; [done|]. intros answer.
rewrite Hu, filter_image_urls_str, str_items_fmap, pbind_lift_Ok.
apply pbind_equiv; [done|]. intros sources.
apply pbind_equiv; [done|]. intros now.
by rewrite response_new_Ok.
Qed.

(** The orchestrator refines its typed specification. *)
Lemma research_with_equiv request :
  research_with S request ≡ research_with_spec S request.
Proof.
apply try_except_equiv; [|done]. unfold research_body_with.
apply pbind_equiv; [done|]. intros raw.
apply pbind_equiv; [done|]. intros hits.
change (pbind (for_each (visit_with S) 0 (take 3 hits) (State hits [] []))
          (finish_with S request) ≡
        pbind (for_each (visit_with_spec S) 0 (take 3 hits) (State hits [] []))
          (finish_with_spec S request)).
etransitivity;
  [apply pbind_equiv; [apply for_each_equiv, visit_with_equiv|reflexivity]|].
apply (pbind_equiv_post _ _ _ []).
eapply post_mono; [|apply loop_with_state_ok].
intros [e|st] l; [done|]. apply finish_with_equiv.
Qed.

(** *** Failures *)

(** In a polite environment a scrape always returns. *)
Lemma scrape_client_total C url log :
  polite C ->
  post_under C (scrape_client url) log (outcome_is (fun r =>
    exists v, r = Ok v /\ scrape_result v)).
Proof.
intros HC. eapply post_mono;
  [|apply post_conj; [apply scrape_client_ok|by apply scrape_client_tame]].
intros [e|v] l [Hp Ht]; [|by exists v].
unfold outcome_is, scrape_promise in *. by rewrite (Ht e eq_refl) in Hp.
Qed.

Lemma visit_with_spec_tame C i r st :
  polite C -> tame C (visit_with_spec S i r st).
Proof.
intros HC. unfold visit_with_spec. pose proof (scrape_client_tame C).
solve_tame.
Qed.

Lemma research_with_spec_body_tame C request :
  polite C ->
  tame C
    (raw_results <-
       search_client (ResearchRequest.query request)
         (ResearchRequest.max_results request) ;;
     hits <- lift (result_normalizer raw_results) ;;
     st <- for_each (visit_with_spec S) 0 (take 3 hits) (State hits [] []) ;;
     finish_with_spec S request st)%prog.
Proof.
intros HC. unfold finish_with_spec.
pose proof (search_client_tame C). pose proof (synthesis_requester_tame C).
pose proof (visit_with_spec_tame C). pose proof result_normalizer_ok.
pose proof to_source_raises. solve_tame.
Qed.

(** One uniform failure: in a polite environment the orchestrator ends
    with a response or with the error of status 500. *)
Lemma research_with_failure C request log :
  polite C ->
  post_under C (research_with S request) log (outcome_is (fun r =>
    forall e, r = Err e ->
      exists cause,
        e = HTTPException 500 ("Research error: "%py ++ exn_str cause))).
Proof.
intros HC. rewrite research_with_equiv.
by apply (post_try_tame C _
  (fun e => HTTPException 500 ("Research error: "%py ++ exn_str e))),
  research_with_spec_body_tame.
Qed.

(** No scrape is terminal: in a polite environment whose [print] works,
    the loop visits every page and ends with a state. *)
Lemma loop_with_completes C hits log :
  polite C -> (forall args e, ~ C _ (Print args) (Err e)) ->
  post_under C
    (for_each (visit_with S) 0 (take 3 hits) (State hits [] [])) log
    (outcome_is is_Ok).
Proof.
intros HC Hprint.
rewrite (for_each_equiv _ _ _ _ _ visit_with_equiv).
eapply post_mono;
  [|apply (post_for_each C (visit_with_spec S)
             (fun _ _ _ => True) (fun _ _ => False)); [done|]].
{ intros [e|st] l; [done|by eexists]. }
intros seen x rest st l _ _. unfold visit_with_spec. rewrite post_bind.
eapply post_mono; [|by apply scrape_client_total].
intros r l' (v & -> & _). cbn [then_post].
rewrite post_bind, post_perform. intros [e|[]] Hr; [|done].
by destruct (Hprint _ _ Hr).
Qed.

End generic.

(** Equivalent services give equivalent orchestrators. *)
#[export] Instance research_with_proper `{Runtime} :
  Proper ((≡) ==> (=) ==> (≡)) research_with.
Proof.
intros S S' (Hsearch & Hnorm & Hscrape & Hsynth) request ? <-.
apply try_except_equiv; [|done]. unfold research_body_with.
apply pbind_equiv; [apply Hsearch|]. intros raw. rewrite Hnorm.
apply pbind_equiv; [done|]. intros hits.
apply pbind_equiv.
{ apply for_each_equiv. intros j x st. unfold visit_with.
  apply pbind_equiv; [apply Hscrape|done]. }
intros st. apply pbind_equiv; [apply Hsynth|done].
Qed.

(** ** The services of the modules keep the laws *)

#[export] Instance module_services_ok `{Runtime} : ServicesOk module_services.
Proof.
split.
- intros C url log. apply scrape_post. intros r _. apply scrape_outcome_cases.
- apply format_results_raises.
- intros C query n HC. apply tame_try_except; [by apply tame_perform|].
  intros e. by apply tame_Raise.
- intros C url HC log. eapply post_mono; [|by apply scrape_total].
  by intros r l (v & -> & _) e.
- intros C prompt language HC log. apply get_chat_response_post.
  split; [intros e He|intros _ r Hr]; [|by eapply civil_raises, HC].
  intros e' [= <-]. exact (civil_raises _ _ (HC _ _ _ He) e eq_refl).
Qed.

(** ** Services without remote calls *)

(** The answers come from tables: [raw] for every search, [page] for the
    pages, [answer] for every synthesis.  The normaliser is the one of
    the search service and a page goes through the conversion of the
    scrape service. *)
Definition stub_services `{Runtime} (raw : pyval)
    (page : pyval -> result sdk_object) (answer : pystr) : Services := {|
  search_client := fun _ _ => Ret raw;
  result_normalizer := TavilyService.format_results;
  scrape_client := fun url => lift (scrape_outcome (page url));
  synthesis_requester := fun _ _ => Ret answer
|}.

Lemma stub_services_ok `{Runtime} raw page answer :
  (forall url, civil (scrape_call url) (page url)) ->
  ServicesOk (stub_services raw page answer).
Proof.
intros Hpage. split; simpl.
- intros C url log. apply post_lift, scrape_outcome_cases.
- apply format_results_raises.
- intros. apply tame_Ret.
- intros C url _. apply tame_lift.
  destruct (scrape_outcome_civil url _ (Hpage url)) as [v ->]. by intros e.
- intros. apply tame_Ret.
Qed.

(** ** In every run *)

(** The environment of a request that goes well enough: civil answers,
    and a [print] that works. *)
Definition printing : contract := fun X ev r =>
  civil ev r /\
  match ev with
  | Print _ => is_Ok r
  | _ => True
  end.

Lemma polite_civil : polite (@civil).
Proof. by intros X ev r. Qed.

Lemma polite_printing : polite printing.
Proof. by intros X ev r [Hr _]. Qed.

Section orchestrator_claims.
Context `{Runtime} (S : Services) `{!ServicesOk S}.

(** C17.  Whatever services it is given, provided they keep the laws of
    the interface, the orchestrator is equivalent to its typed
    specification: the same calls of the services, the scrape results read
    as lists of image addresses, no scraped text in the prompt, the images
    filtered as strings. *)
Theorem orchestrator_refines_spec request :
  research_with S request ≡ research_with_spec S request.
Proof. by apply research_with_equiv. Qed.

(** C15.  One uniform failure: against an environment that raises nothing
    but an [Exception], whatever the services (that keep the laws) do, a
    request ends with a response or with [HTTPException] of status 500
    whose detail is ['Research error: '] and the text of the cause. *)
Theorem orchestrator_uniform_failure {W} (h : handler W) request w e :
  honours h (@civil) ->
  out_result (run h (research_with S request) w) = Err e ->
  exists cause,
    e = HTTPException 500 ("Research error: "%py ++ exn_str cause).
Proof.
intros Hh.
exact (post_under_run (@civil) h (research_with S request) w _ Hh
         (research_with_failure S (@civil) request [] polite_civil) e).
Qed.

(** C16.  No scrape is terminal: against an environment that raises
    nothing but an [Exception] and whose [print] works, the loop over the
    first three hits always ends with a state, whatever the scrape client
    met on the way. *)
Theorem scrape_never_terminal {W} (h : handler W) hits w :
  honours h printing ->
  is_Ok (out_result
           (run h (for_each (visit_with S) 0 (take 3 hits)
                     (State hits [] [])) w)).
Proof.
intros Hh.
apply (post_under_run printing h _ w (outcome_is is_Ok) Hh).
apply loop_with_completes; [done|apply polite_printing|].
intros args e [_ [a [=]]].
Qed.

End orchestrator_claims.

(** C14.  The code is an instance of the design: the module-level
    services of the sources keep the laws of the interface, and the
    orchestrator over them is the handler of [routes/research.py]. *)
Theorem module_services_lawful `{Runtime} request :
  ServicesOk module_services /\
  research_with module_services request =
    ResearchRoute.search_travel_research request.
Proof. split; [apply module_services_ok|reflexivity]. Qed.

(** ** The scenario of a failed second scrape, on stubs *)

#[local] Existing Instance ref_runtime.

Definition sample_stub : Services :=
  stub_services sample_hits sample_pages museum_answer.

Lemma sample_pages_civil url : civil (scrape_call url) (sample_pages url).
Proof.
destruct url; try exact I. simpl. by case_decide.
Qed.

Lemma sample_stub_ok : ServicesOk sample_stub.
Proof. apply stub_services_ok, sample_pages_civil. Qed.

(** On the stubs the request is answered as against the providers, and
    the only calls left are the three prints and the clock. *)
Example sample_stub_run :
  let o := run sample_script (research_with sample_stub sample_request) () in
  out_result o = Ok sample_response /\
  (fun c => bool_decide (is_print c = true)) <$> out_log o =
    [true; true; true; false].
Proof. vm_compute. split; reflexivity. Qed.

Lemma orchestrator_refines_spec_witness :
  ResearchRoute.search_travel_research sample_request ≡
  research_spec sample_request.
Proof.
apply (orchestrator_refines_spec module_services sample_request).
Defined.

Lemma sample_script_civil : honours sample_script (@civil).
Proof.
intros X ev w. destruct ev; try (by intros e). apply sample_pages_civil.
Qed.

Lemma sample_script_printing : honours sample_script printing.
Proof.
intros X ev w. split; [apply sample_script_civil|].
destruct ev; try done. by eexists.
Qed.

Lemma scrape_never_terminal_witness :
  is_Ok (out_result
           (run sample_script
              (for_each (visit_with sample_stub) 0 (take 3 sample_formatted)
                 (State sample_formatted [] [])) ())).
Proof.
apply (scrape_never_terminal sample_stub (ServicesOk0:=sample_stub_ok)
         sample_script sample_formatted ()).
apply sample_script_printing.
Defined.

Lemma failing_env_civil : honours failing_env (@civil).
Proof.
intros X ev w. destruct ev; simpl; try (by intros e); [by intros e [= <-]|].
by destruct (w =? 1)%nat.
Qed.

Lemma orchestrator_uniform_failure_witness :
  exists cause,
    HTTPException 500
      "Research error: Research search error: quota exceeded"%py =
    HTTPException 500 ("Research error: "%py ++ exn_str cause).
Proof.
apply (orchestrator_uniform_failure module_services failing_env
         sample_request 0%nat).
- apply failing_env_civil.
- vm_compute. reflexivity.
Defined.
