(* ===== verification/Main.v ===== *)
(** * Main: the application entry

    [main.py] creates the FastAPI application, installs the CORS
    middleware, includes the routers of [health], [analysis] and
    [research] in this order, declares the root endpoint, which answers
    with a constant dictionary, and, run as a script, starts the server.
    Importing it imports [routes/research.py], which imports the two
    service modules: their clients are built then, once, the search client
    first.

    The application is the record [FastAPI] of what the calls of [main.py]
    give the framework: its texts, the middleware and the endpoints in the
    order of their declaration; the endpoints the framework adds itself
    (the documentation pages) are not listed.  [health] and [analysis] are
    not among the sources: their routers are parameters, and importing
    them, like importing [app.config], is taken to make none of the calls
    of the model, so that the calls of an import are the two
    constructions of the clients.  [find_endpoint]
    is the framework's choice of an endpoint, the first declared one with
    the method and the path of the request. *)

From S2P Require Import Prelude PyStr PyVal Effects Logic Tavily Firecrawl.

(** ** Routers *)

(** An endpoint: the method, the path and the name of its function. *)
Record endpoint : Type := Endpoint {
  ep_method : pystr;
  ep_path : pystr;
  ep_name : pystr
}.

#[export] Instance endpoint_eq_dec : EqDecision endpoint.
Proof. solve_decision. Defined.

Record APIRouter : Type := {
  prefix : pystr;
  tags : list pystr;
  endpoints : list endpoint
}.

(** [routes/research.py]: [router] and the decorator of its handler. *)
Definition router : APIRouter := {|
  prefix := "/api"%py;
  tags := ["Research"%py];
  endpoints := [Endpoint "POST"%py "/research"%py "search_travel_research"%py]
|}.

(** Importing [routes/research.py] imports the two service modules, the
    search service first: their instances are created then. *)
Definition import_research (settings : Settings) : prog unit :=
  (tavily_service settings ;; firecrawl_service settings)%prog.

(** ** The application *)

Record CORSMiddleware : Type := {
  allow_origins : pyval;
  allow_credentials : bool;
  allow_methods : list pystr;
  allow_headers : list pystr
}.

Record FastAPI : Type := {
  title : pystr;
  description : pystr;
  version : pystr;
  docs_url : pystr;
  redoc_url : pystr;
  user_middleware : list CORSMiddleware;
  routes : list endpoint
}.

(** [app.add_middleware(CORSMiddleware, ...)]: the last one added is the
    outermost. *)
Definition add_middleware (m : CORSMiddleware) (a : FastAPI) : FastAPI := {|
  title := title a; description := description a; version := version a;
  docs_url := docs_url a; redoc_url := redoc_url a;
  user_middleware := m :: user_middleware a;
  routes := routes a
|}.

Definition add_routes (new : list endpoint) (a : FastAPI) : FastAPI := {|
  title := title a; description := description a; version := version a;
  docs_url := docs_url a; redoc_url := redoc_url a;
  user_middleware := user_middleware a;
  routes := routes a ++ new
|}.

(** The endpoints of a router under its prefix. *)
Definition prefixed (r : APIRouter) : list endpoint :=
  (fun e => Endpoint (ep_method e) (prefix r ++ ep_path e) (ep_name e)) <$>
  endpoints r.

(** [app.include_router(r)]. *)
Definition include_router (r : APIRouter) : FastAPI -> FastAPI :=
  add_routes (prefixed r).

(** [@app.get(path)] on the function [name]. *)
Definition get (path name : pystr) : FastAPI -> FastAPI :=
  add_routes [Endpoint "GET"%py path name].

(** The endpoint that answers a request: the first declared with its
    method and path. *)
Definition find_endpoint (method path : pystr) (a : FastAPI) : option pystr :=
  ep_name <$>
  head (filter (fun e => ep_method e = method /\ ep_path e = path) (routes a)).

Section main.
Context (settings : Settings) (health analysis : APIRouter).

(** The module [main]: [app] after the statements of the file. *)
Definition app : FastAPI :=
  get "/"%py "root"%py
    (include_router router
       (include_router analysis
          (include_router health
             (add_middleware
                {| allow_origins := cors_origins_list settings;
                   allow_credentials := true;
                   allow_methods := ["*"%py];
                   allow_headers := ["*"%py] |}
                {| title := "Travel AI Backend"%py;
                   description :=
                     "Travel AI Assistant API ✈️ - Powered by LangChain"%py;
                   version := "2.0.0"%py;
                   docs_url := "/docs"%py;
                   redoc_url := "/redoc"%py;
                   user_middleware := [];
                   routes := [] |})))).

(** Importing [main]: the services are created on the way, then [app]. *)
Definition import_main : prog FastAPI :=
  (import_research settings ;; Ret app)%prog.

End main.

(** What [uvicorn.run] is given. *)
Record uvicorn_run : Type := {
  target : pystr;
  run_host : pyval;
  run_port : pyval;
  reload : bool
}.

(** The script [main.py]. *)
Definition main (settings : Settings) : uvicorn_run := {|
  target := "app.main:app"%py;
  run_host := host settings;
  run_port := port settings;
  reload := true
|}.

(** [root()]. *)
Definition root : pyval :=
  PDict (list_to_map [
    ("message"%py, PStr "Welcome to Travel AI Backend ✈️"%py);
    ("version"%py, PStr "2.0.0"%py);
    ("powered_by"%py, PStr "LangChain + Google Gemini"%py);
    ("docs"%py, PStr "/docs"%py);
    ("status"%py, PStr "running"%py)]).

(** ** The endpoints *)

(** The keys of the answer of the root endpoint, each with a string. *)
Lemma root_fields :
  Forall (fun key => exists text, py_getitem root key = Ok (PStr text))
    ["message"%py; "version"%py; "powered_by"%py; "docs"%py; "status"%py].
Proof. repeat constructor; by eexists. Qed.

Example root_status : py_getitem root "status"%py = Ok (PStr "running"%py).
Proof. reflexivity. Qed.

Section routing.
Context (settings : Settings) (health analysis : APIRouter).

Lemma app_routes :
  routes (app settings health analysis) =
  prefixed health ++ prefixed analysis ++
  [Endpoint "POST"%py "/api/research"%py "search_travel_research"%py;
   Endpoint "GET"%py "/"%py "root"%py].
Proof. unfold app. simpl. by rewrite <- !app_assoc. Qed.

(** No endpoint of the router answers the method on the path. *)
Definition silent (method path : pystr) (r : APIRouter) : Prop :=
  Forall (fun e => ~ (ep_method e = method /\ ep_path e = path)) (prefixed r).

Lemma filter_silent method path r :
  silent method path r ->
  filter (fun e => ep_method e = method /\ ep_path e = path) (prefixed r) = [].
Proof.
unfold silent. induction 1 as [|e l He _ IH]; [done|].
by rewrite filter_cons, decide_False.
Qed.

(** Unless a router included before it declares the same, the research
    endpoint answers [POST /api/research] and the root endpoint [GET /]. *)
Lemma research_endpoint :
  silent "POST"%py "/api/research"%py health ->
  silent "POST"%py "/api/research"%py analysis ->
  find_endpoint "POST"%py "/api/research"%py (app settings health analysis) =
  Some "search_travel_research"%py.
Proof.
intros Hh Ha. unfold find_endpoint.
by rewrite app_routes, !filter_app, !filter_silent.
Qed.

Lemma root_endpoint :
  silent "GET"%py "/"%py health -> silent "GET"%py "/"%py analysis ->
  find_endpoint "GET"%py "/"%py (app settings health analysis) =
  Some "root"%py.
Proof.
intros Hh Ha. unfold find_endpoint.
by rewrite app_routes, !filter_app, !filter_silent.
Qed.

End routing.

(** ** Start-up *)

Section startup.
Context (settings : Settings) (health analysis : APIRouter).

Lemma import_main_post C log Q :
  post_under C (import_main settings health analysis) log Q <->
  (forall e, C _ (TavilyClient (tavily_api_key settings)) (Err e) ->
     Q (Err e) (log ++ [mkcall (TavilyClient (tavily_api_key settings))])) /\
  (C _ (TavilyClient (tavily_api_key settings)) (Ok tt) ->
   forall r, C _ (FirecrawlApp (firecrawl_api_key settings)) r ->
     Q (match r with
        | inl e => Err e
        | inr _ => Ok (app settings health analysis)
        end)
       (log ++ [mkcall (TavilyClient (tavily_api_key settings));
                mkcall (FirecrawlApp (firecrawl_api_key settings))])).
Proof.
unfold import_main, import_research, tavily_service, firecrawl_service,
  TavilyService.init, FirecrawlService.init.
rewrite pbind_assoc, post_bind, post_perform. split.
- intros Hp. split; [intros e He; apply (Hp (Err e) He)|].
  intros Ht r Hr. specialize (Hp (Ok tt) Ht). cbn [then_post] in Hp.
  rewrite post_bind, post_perform in Hp. specialize (Hp r Hr).
  rewrite <- app_assoc in Hp. by destruct r as [e|[]].
- intros [He Hok] [e|[]] Hr; cbn [then_post]; [by apply He|].
  rewrite post_bind, post_perform. intros r Hf.
  specialize (Hok Hr r Hf). rewrite <- app_assoc. by destruct r as [e|[]].
Qed.

End startup.

(** C37.  Importing the application builds the search client with its key
    of the settings, then the scrape client with its own, each once and
    in this order; the application exists when both were built, and a
    failure of either construction is the failure of the import. *)
Theorem import_main_calls {W} (h : handler W) settings health analysis w :
  let o := run h (import_main settings health analysis) w in
  let first := mkcall (TavilyClient (tavily_api_key settings)) in
  let second := mkcall (FirecrawlApp (firecrawl_api_key settings)) in
  match out_result o with
  | inr a => a = app settings health analysis /\ out_log o = [first; second]
  | inl _ => out_log o = [first] \/ out_log o = [first; second]
  end.
Proof.
apply (post_run h (import_main settings health analysis) w
         (fun r l =>
            match r with
            | inr a => a = app settings health analysis /\ l = [_; _]
            | inl _ => l = [_] \/ l = [_; _]
            end)).
apply import_main_post. split; [by left|]. intros _ [e|[]] _; [by right|done].
Qed.
