(* ===== verification/Endpoint.v ===== *)
(** * Endpoint: the research endpoint as its client sees it

    [routes/research.py] declares the handler with
    [@router.post("/research", response_model=ResearchResponse)] and the
    parameter [request: ResearchRequest].  The framework therefore builds
    the request from the body before it calls the handler and answers
    with status 422 when the model rejects it; it answers the response of
    the handler with status 200, an [HTTPException] with its status and
    detail, and any other [Exception] with status 500.

    The body is given by its three fields, each absent or of its declared
    type: the conversions the framework applies to values of other types
    are not modelled.  What the theorems show is the composition of the
    request model, the handler and the routing of [Main]: a request out
    of bounds never reaches a service, and a client receives one of three
    statuses. *)

From S2P Require Import Prelude PyStr PyVal Effects Logic Tavily Regex Firecrawl.
From S2P Require Import Schemas ChatChain Research Response Orchestrator Main.

Import ResearchRoute.

(** What the client receives: the response, or an error object with its
    detail. *)
Inductive http_response : Type :=
| Json (status_code : Z) (body : ResearchResponse.t)
| Detail (status_code : Z) (detail : pystr).

Definition status_of (r : http_response) : Z :=
  match r with
  | Json status_code _ | Detail status_code _ => status_code
  end.

(** The bounds of the request model on the fields of a body. *)
Definition in_bounds (query : pystr) (max_results : option Z) : Prop :=
  (3 <= length query <= 200)%nat /\ (1 <= default 5%Z max_results <= 10)%Z.

Section endpoint.
Context `{Runtime}.

(** The answer to an exception that leaves the handler: the status and
    detail of an [HTTPException]; for any other [Exception] status 500
    with the fixed text (a plain text, not an error object: the handler
    lets no such exception through, see [call_handler_post]). *)
Definition error_response (e : exn) : http_response :=
  match e with
  | HTTPException status_code detail => Detail status_code detail
  | PyExc _ _ => Detail 500 "Internal Server Error"%py
  end.

(** The handler behind the framework, once the request is built. *)
Definition call_handler (request : ResearchRequest.t) : prog http_response :=
  try_except
    (response <- search_travel_research request ;; Ret (Json 200 response))%prog
    (fun e => Ret (error_response e)).

(** [POST /api/research] with a body of the fields [query], [max_results]
    and [language]. *)
Definition post_research (query : pystr) (max_results : option Z)
    (language : option pystr) : prog http_response :=
  match ResearchRequest.new query max_results language with
  | inl e => Ret (Detail 422 (exn_str e))
  | inr request => call_handler request
  end.

(** ** Validation comes first *)

Lemma post_research_rejected query max_results language :
  ~ in_bounds query max_results ->
  exists detail,
    post_research query max_results language = Ret (Detail 422 detail).
Proof.
intros Hb. pose proof (request_new_cases query max_results language) as Hn.
simpl in Hn. rewrite decide_False in Hn by done. destruct Hn as [msg Hn].
unfold post_research. rewrite Hn. by eexists.
Qed.

Lemma post_research_accepted query max_results language :
  in_bounds query max_results ->
  post_research query max_results language =
  call_handler
    (ResearchRequest.Build query (default 5%Z max_results)
       (default "en"%py language)).
Proof.
intros Hb. pose proof (request_new_cases query max_results language) as Hn.
simpl in Hn. rewrite decide_True in Hn by done.
unfold post_research. by rewrite Hn.
Qed.

(** ** What the handler is answered with *)

(** The answer to a request that reached the handler: the response, or
    the error of the handler. *)
Definition handled (r : result http_response) : Prop :=
  match r with
  | inr (Json status_code _) => status_code = 200%Z
  | inr (Detail status_code detail) =>
      status_code = 500%Z /\
      exists cause, detail = "Research error: "%py ++ exn_str cause
  | inl _ => False
  end.

Lemma call_handler_post C request log :
  polite C -> post_under C (call_handler request) log (outcome_is handled).
Proof.
intros HC. unfold call_handler. rewrite post_try_except, post_bind.
eapply post_mono;
  [|apply (research_with_failure module_services C request log HC)].
intros [e|response] l Hr; cbn [then_post except_post]; [|done].
destruct (Hr e eq_refl) as [cause ->]. simpl. split; [done|by exists cause].
Qed.

(** In any environment: what is not answered is an exception outside the
    class [Exception], which no [except] clause on the way catches. *)
Definition answered (r : result http_response) : Prop :=
  match r with
  | inl e => is_Exception e = false
  | _ => handled r
  end.

Lemma call_handler_answered request :
  post (call_handler request) [] (outcome_is answered).
Proof.
unfold call_handler. rewrite post_try_except, post_bind.
eapply post_mono; [|apply research_post].
intros [e|response] l [_ Hr]; cbn [then_post except_post]; [|done].
destruct (Hr e eq_refl) as [He|[detail ->]]; [by rewrite He|].
simpl. split; [done|]. by exists (PyExc Exception detail).
Qed.

End endpoint.

#[export] Instance in_bounds_dec query max_results :
  Decision (in_bounds query max_results).
Proof. unfold in_bounds. apply _. Defined.

Section endpoint_claims.
Context `{Runtime}.

(** Validation comes first: a request whose query has fewer than 3
    or more than 200 characters, or whose number of results is not from
    1 to 10, is answered with status 422 and no service is called, neither
    the search nor the model. *)
Theorem invalid_request_makes_no_call {W} (h : handler W) query max_results
    language w :
  ~ in_bounds query max_results ->
  exists detail,
    run h (post_research query max_results language) w =
    Outcome (Ok (Detail 422 detail)) [] w.
Proof.
intros Hb.
destruct (post_research_rejected query max_results language Hb) as [d ->].
by exists d.
Qed.

(** C18.  What a client of [POST /api/research] receives, in every run:
    status 422 when the request is out of bounds, and otherwise the
    response with status 200 or one error object with status 500 whose
    detail is ['Research error: '] followed by the text of the cause; only
    an exception outside the class [Exception] is left unanswered, and
    none is when the services raise nothing but an [Exception]. *)
Theorem research_endpoint_answers {W} (h : handler W) query max_results
    language w :
  let r := out_result (run h (post_research query max_results language) w) in
  match r with
  | inr (Json status_code _) =>
      status_code = 200%Z /\ in_bounds query max_results
  | inr (Detail status_code detail) =>
      (status_code = 422%Z /\ ~ in_bounds query max_results) \/
      (status_code = 500%Z /\ in_bounds query max_results /\
       exists cause, detail = "Research error: "%py ++ exn_str cause)
  | inl e => is_Exception e = false /\ in_bounds query max_results
  end /\
  (honours h (@civil) -> is_Ok r).
Proof.
destruct (decide (in_bounds query max_results)) as [Hb|Hb]; cbn zeta.
- rewrite post_research_accepted by done.
  set (request := ResearchRequest.Build _ _ _). split.
  + pose proof (post_run h (call_handler request) w _
                  (call_handler_answered request)) as Hr.
    unfold outcome_is, answered, handled in Hr.
    destruct (out_result _) as [e|[s body|s detail]]; [done..|].
    right. destruct Hr as [-> Hd]. split; [done|]. by split.
  + intros Hh.
    pose proof (post_under_run (@civil) h (call_handler request) w _ Hh
                  (call_handler_post (@civil) request [] polite_civil)) as Hr.
    unfold outcome_is, handled in Hr.
    destruct (out_result _) as [e|r]; [done|by eexists].
- destruct (post_research_rejected query max_results language Hb) as [d ->].
  split; [by left|by eexists].
Qed.

End endpoint_claims.

(** ** Requests, answered *)

#[local] Existing Instance ref_runtime.

Example sample_request_answered :
  out_result
    (run sample_script (post_research "Paris museums"%py (Some 5%Z) None) ()) =
  Ok (Json 200 sample_response).
Proof. vm_compute. reflexivity. Qed.

Example failing_search_answered :
  out_result
    (run failing_env (post_research "Paris museums"%py None None) 0%nat) =
  Ok (Detail 500 "Research error: Research search error: quota exceeded"%py).
Proof. vm_compute. reflexivity. Qed.

Lemma invalid_request_makes_no_call_witness :
  exists detail,
    run sample_script (post_research "ab"%py None None) () =
    Outcome (Ok (Detail 422 detail)) [] ().
Proof.
apply (invalid_request_makes_no_call sample_script "ab"%py None None ()).
unfold in_bounds. simpl. lia.
Defined.

Lemma research_endpoint_answers_witness :
  let r := out_result
             (run sample_script
                (post_research "Paris museums"%py (Some 5%Z) None) ()) in
  match r with
  | inr (Json status_code _) =>
      status_code = 200%Z /\ in_bounds "Paris museums"%py (Some 5%Z)
  | inr (Detail status_code detail) =>
      (status_code = 422%Z /\ ~ in_bounds "Paris museums"%py (Some 5%Z)) \/
      (status_code = 500%Z /\ in_bounds "Paris museums"%py (Some 5%Z) /\
       exists cause, detail = "Research error: "%py ++ exn_str cause)
  | inl e => is_Exception e = false /\ in_bounds "Paris museums"%py (Some 5%Z)
  end /\
  (honours sample_script (@civil) -> is_Ok r).
Proof.
apply (research_endpoint_answers sample_script "Paris museums"%py (Some 5%Z)
         None ()).
Defined.
